(* ===== verification/_CoqProject ===== *)
-Q . S2P
Prelude.v
PyStr.v
PyDict.v
Utf8.v
Json.v
JsonFacts.v
JsonRoundtrip.v
PyInt.v
Frames.v
Codec.v
Registries.v
Database.v
Wire.v
Users.v
RoomsDb.v
Messages.v
MessageFacts.v
Wp.v
Router.v
RouterSpec.v
RouterRefines.v
RouterInv.v
Scenario.v
RouterSafety.v
RouterRuns.v
Delivery.v
RoomDelivery.v
RoomStores.v
Findings.v
ConnState.v
Backoff.v
Conversation.v
ChatModel.v
ChatModelFacts.v
Events.v
ChatModelTypes.v
Base64.v
Files.v
Envelope.v
Keyring.v
Tls.v
RoomDialog.v
Uplink.v
RoomNames.v
Controller.v
ControllerSafety.v
ControllerLive.v
ClientFindings.v
Calendar.v
Theme.v
Backdrop.v
Widgets.v
WidgetsFacts.v
TkView.v
TkFacts.v
TkInStep.v
TkWindow.v
TkStuck.v
TkFindings.v
TkDrives.v
Peek.v
EndToEnd.v
RoomEndToEnd.v
Doctor.v
ToWord.v
ToWordFacts.v
Console.v
ConsoleFacts.v
LinkUse.v
Handler.v
Server.v
ServerMain.v
ServerInv.v
Connection.v
Session.v
SessionFacts.v
ClientMain.v
