(* ===== verification/Prelude.v ===== *)
(** * Semaphore: a model of the socket-to-ciphertext messenger

    The program is a chat server and its client, in Python.  A client opens a TLS
    socket, logs in and exchanges frames, one JSON object per line.  The server
    knows accounts, contacts, rooms and messages, and hands on what clients send
    each other; bodies are sealed end to end by the clients.  This library models
    the program file by file and proves what makes each part, and the parts
    together, correct.

    ** The parts, and how they meet

    On the server a connection's reader thread ([im/server/handler.py]) cuts the
    received bytes into lines and the lines into frames ([im/common/codec.py],
    [im/common/frames.py]) and calls the router ([im/server/router.py]), which
    uses the registries ([im/server/registries.py]) and the SQLite stores
    ([im/server/store/]) and hands frames to the outboxes of connections, which
    their writer threads empty.  On the client a session
    ([im/client/net/session.py]) keeps a connection ([im/client/net/connection.py])
    alive; frames that arrive go to the controller
    ([im/client/controller/chat.py]), which decrypts them with the key ring
    ([im/crypto/]) and updates the model ([im/client/model/]); the model emits
    events to the views, which draw it: a console, and a window in Tk.  Gestures go
    the other way.

    ** Files and sources

    Shared: [Prelude] (Python text, exceptions, the state-and-error monad [M],
    list lemmas), [PyStr], [PyDict], [PyInt], [Utf8] (what the source uses of the
    language), [Wp] (rules for code in [M]).

    Wire format: [Json] ([json.dumps] and [json.loads], with the class [Runtime]
    of what the interpreter supplies), [JsonFacts] and [JsonRoundtrip] (the
    decoder is total and undoes the printers), [Frames] ([common/frames.py]),
    [Codec] ([common/codec.py]), [Wire] (what [sendall] writes and what [recv]
    gives, and a frame encoded, cut into chunks, read and decoded).

    Server state: [Registries] ([server/registries.py], and the interface
    [RoomStore] through which the router uses a room store), [Database]
    ([server/store/db.py]: binding of values, tables as lists of rows),
    [Users] ([store/users.py]), [RoomsDb] ([store/rooms.py]), [Messages] and
    [MessageFacts] ([store/messages.py]).

    Router ([server/router.py]): [Router] (every handler), [RouterSpec] (the
    actions a frame may cause, and which frame may go where), [RouterRefines] (each
    handler is a sequence of those actions), [RouterInv] (the invariant of
    reachable states), [RouterSafety], [RouterRuns], [Delivery], [RoomDelivery]
    (what clients can rely on), [RoomStores] (the in-memory and the SQLite room
    store are indistinguishable through the router), [Scenario] (a world
    to run things in) and [Findings].  The state is the record [world]; a connection is a number
    [sid], and [w_out] lists the frames handed to [send].

    Connections of the server: [Handler] ([server/handler.py]: the bounded outbox
    and the writer), [Server] ([server/server.py], and the read loop of the
    handler: [sstep] is one thing that can happen, in any order), [ServerInv],
    [ServerMain] ([server/__main__.py], and the accept loop of [server.py]).

    Transport of the client ([client/net/]): [ConnState] ([state.py]), [Backoff]
    ([backoff.py]), [Uplink] (the frames [connection.py] builds, and the interface
    the controller uses), [Connection] ([connection.py]), [Session]
    ([session.py]), [SessionFacts].

    Model of the client ([client/model/]): [Conversation] ([conversation.py],
    [events.py]), [ChatModel] ([chat.py]), [ChatModelFacts], [ChatModelTypes],
    [Events] (what an observer is called with, each event with the model at the
    time).

    Encryption ([crypto/]): [Base64] and [Envelope] ([identity.py],
    [envelope.py]), [Keyring] ([keyring.py]), [Tls] ([tls.py]); [Files] is the disk
    that keys and certificates are written to.

    Controller ([client/controller/chat.py]): [Controller] (every gesture and every
    frame), [ControllerSafety], [ControllerLive], [ClientFindings]; [EndToEnd] puts
    two controllers and the router together, [RoomEndToEnd] a controller, the router
    and the controllers of a room.

    Views: [Console] ([client/view/console.py]: inbox, loop, commands, observer)
    and [ConsoleFacts].  The window ([client/view/tk/]): [Calendar] (local time),
    [Theme] ([theme.py]: sizes, colours, shapes on a canvas), [Backdrop]
    ([backdrop.py]: the background, pixel by pixel, and its cache), [Widgets]
    ([widgets.py], a Module per class) with [WidgetsFacts], [RoomDialog]
    ([room_dialog.py]) with [RoomNames] (its rule against the server's), [TkView]
    ([app.py]: the screen and the observer that paints it) with [TkFacts] and
    [TkInStep], [TkWindow] ([app.py]: the loop and the gestures) with [TkDrives],
    [TkStuck] and [TkFindings].

    The client as a program: [LinkUse] (the controller and the views do nothing to
    the connection but send on it), [ClientMain] ([client/__main__.py], over a
    session and either view).

    Tools: [Doctor] ([tools/doctor.py]), [ToWord] and [ToWordFacts]
    ([tools/to_word.py]), [Peek] ([demo/peek.py]).

    A definition has the name the source uses; [_begin], [_end] and [_turn] mark the
    parts of a method that is cut where it waits (see below).

    ** Interfaces

    [RoomStore] with [RoomStoreSound]: what the router asks of a room store; both
    stores are instances.  [Uplink] with [UplinkLaws]: what the controller asks of
    a connection (a send queues that frame, or raises [NotConnected] and queues
    nothing); the session is an instance ([SessionFacts.session_laws]), and so is
    the fake of the tests.  [Runtime]: the clock, fresh ids and salts, hashing,
    conversion of floats and the recursion limit of the interpreter.  [Crypto] with
    [CryptoLaws]: X25519 agreement, HKDF and AES-GCM, where opening what was sealed
    under the same key, nonce and associated data gives it back.  [Casing]:
    [str.lower], [str.casefold], [str.upper] and [str.title].  [Display]: what
    Windows says about the DPI.  [Metrics] with [MetricsLaws]: the extent of a text
    in a font, never negative.  [Clock] with [ClockLaws]: local time, less than a
    day off.  [Reports]: the text of an exception.  [X509] with [X509Laws]: RSA keys
    and certificates, and reading back what was written as PEM.  [Digest]: SHA-256.
    [Face] with [FaceLaws] is what [main] asks of a view; the console and the window
    are its instances.  From [Runtime] on all but [Face] are
    parameters, because they are code outside the repository; each has an instance
    for the witnesses.

    ** What the theorems show

    - The whole: what one person types to another goes through controller, wire,
      router, wire and controller, is handed to nobody else and is shown to the
      other as it was typed ([EndToEnd.message_end_to_end]); and what is typed in a
      room reaches every member who is connected, each with a copy of their own
      ([room_message_end_to_end]).
    - The programs: when the client ends, the connection it logged in on is hung
      up, with the source's own exceptions ([main_hangs_up]); a user's key is made
      once ([identity_survives]); the server's and the client's TLS contexts fit
      the certificate that was made for them ([development_certificate]).
    - Router: what a handler does is allowed by the specification, even when it
      raises ([handle_refines_spec]); reachable states satisfy the invariant
      ([reachable_inv]); who a message can claim to come from ([sender_authentic],
      [stored_sender_authentic]), who gets which envelope
      ([envelope_confidential]), who changes a room ([membership_controlled]);
      messages arrive, at once or at the next login, whatever happened before it
      ([direct_message_delivered],
      [offline_message_arrives], [room_message_reaches_members],
      [queue_kept_until_login]); logins and refusals ([login_accepted],
      [login_refused], [login_exclusive], [login_required], [non_member_refused]);
      the two room stores are equivalent ([room_stores_interchangeable]).
    - Stores: the queue, the states of messages, scrollback and its pages
      ([flush_exact], [mark_monotone], [history_newest],
      [history_pages_contiguous]).
    - Codec: well-formed frames within the limit survive any chunking of the stream
      ([frames_survive_chunking]).
    - Connections of the server: what is written is a prefix of what the router
      sent, and perhaps a part of one more frame when a write failed, and a full
      queue closes the connection ([connection_is_a_queue]); whatever ends the
      reader, its connection is then logged out and its writer terminates
      ([connection_ends_logged_out]).
    - Controller and encryption: with a key ring no text leaves in the clear
      ([plaintext_never_sent]); a text held for a key is sent when the key arrives
      ([held_messages_released]); a sealed room message opens for every member and
      for its sender ([room_message_readable]).
    - Model: a view that only listens to events agrees with it ([views_in_step]);
      the state is well typed ([model_well_typed]); receipts only move forward
      ([receipts_forward]).
    - Console: it drives its controller only by what was typed and what was posted
      ([console_only_drives]), and prints every message that arrives
      ([arrival_is_printed]).
    - Window: after any operations of the model the list, the transcript, the
      composer and the strip show what the model holds ([window_in_step]); the
      controller gets nothing but what happened to the window
      ([window_only_drives]), the inbox in its order, and goes on doing so whatever
      a frame raises ([poll_feeds_in_order]); the transcript shows every message and notice, one under the other
      ([transcript_shows], [bubbles_stacked]); the background is a well-formed
      picture for every size and its cache stays small ([render_is_a_picture],
      [cache_bounded]); the room dialog asks what the server asks
      ([dialog_rule_is_the_servers]) and answers without duplicates
      ([dialog_answer]).
    - Transport of the client: what the observer of the state machine sees, and how
      far the diagrams of the documents agree with it
      ([observer_follows_diagram]); the schedule is bounded, and [reset] starts it
      again ([delay_bounds]); a silent link is noticed ([silence_is_noticed]); the
      session recovers from an outage of fewer than 1024 attempts that fail in the
      ways it provides for ([supervisor_recovers]).
    - Tools: the converter's loop is a grammar of the documents
      ([convert_is_the_grammar]) and inline markup loses nothing but its signs
      ([inline_keeps_text]); the doctor's verdict is the outcome of its checks, and
      there is none if an import raises what they do not catch ([doctor_verdict]);
      what ends a look into the database early ([peek_ends]).
    - Behaviour that the source's own documents rule out, or that loses messages:
      [supervisor_dies], [lost_key_request], [plaintext_is_believed],
      [receipt_from_a_stranger], [poisoned_queue_is_lost],
      [reused_id_leaks_message], [backoff_overflows],
      [direct_conversation_collides], [leaving_breaks_chats],
      [far_future_stops_the_window], [released_text_shows_the_wrong_chat],
      [sent_while_down_is_lost], [held_text_is_reported_lost],
      [keys_while_down_raise], [typing_ends_elsewhere], [header_goes_stale],
      [press_on_a_name_is_undone], [double_hash_refused],
      [silent_peer_stops_accepting], [accepted_after_shutdown],
      [unanswered_login_escapes], [closed_while_dialling], [no_verdict],
      [key_directory_is_not_made], [wrapped_paragraph_splits],
      [pipe_in_code_is_lost], [two_adas], [decoration_is_a_stop], [peek_stops].

    ** Modelling decisions

    - Effects are the monad [M S A := S -> S * res A]: the effects made before an
      exception stay.  Every exception the modelled code can raise is a value.
      [Unmodelled] marks the places where a value outside its annotated type
      passes every check and the model stops: a [user] of LOGIN that is a number
      equal to a stored name under SQLite's affinity, NaN as a message id or name
      bound to a key column, digits of other scripts in [int()], and, on the client,
      a frame whose [from] is neither absent nor a string (the server always writes
      one).  Where it stands for exhausted fuel or a missing session it is proved
      or checked to be unreachable.
    - A router call is one step, as the locks of the registries and the store make
      each of its operations; a reader takes one line of a chunk per step, and what
      other threads do between two lines is the order of steps of [Server.sstep].
    - A peer's bytes arrive as the chunks that [recv] returns, each of at most
      [RECV_BYTES]; a line that outgrows the limit on the way ends the reader, so
      what is proved of a frame end to end speaks of frames that cross
      ([Wire.crosses]).
    - A method that blocks is cut where it blocks ([_request_begin] and
      [_request_end]), and what happens meanwhile is an argument: what arrives
      during a handshake ([Session.attempt]), whether a full queue drains, what
      becomes of a [sendall] ([Wire.sending]: one that fails may have written any
      part of its frame).
    - A session keeps a list of the connections it has let go of, as it left them
      ([ss_gone]), which is where one that was never closed shows.  [_reconnect] is
      cut before its end, so that a [close] can come while it dials.
    - Integers of Python are unbounded, so they are [Z], [N] or [nat]; what is
      bounded is kept: column widths, the digit limit of [int()], the limits of
      queues, lines, history and room names.  The schedule is over rationals, with
      [OverflowError] where a double overflows.
    - An observer runs in the middle of a call of the controller.  The model keeps,
      with every event, the state in which it was emitted, so that a view's
      observer runs on exactly what it would have read ([Console.ctl],
      [TkWindow.ctl]).  The console's observer cannot raise.  The window's can; the
      call is then cut short, and [wn_derailed] says that the controller is not
      followed any further, while the widgets and the loop are.
    - A canvas is the list of the items on it, from the bottom up, and its size;
      widths of texts are a parameter.  Coordinates that are floats in the source
      are rationals; where one is truncated or rounded to a pixel, so is the
      rational.  Square roots in the background are truncated after 52 binary
      digits.  Geometry management (who is packed where) is
      left out: the sizes of the widgets come as events ([happening]).
    - Fuel: the scanners of [Json] get the length of their input plus the nesting
      the runtime allows, and [JsonFacts] shows that it never runs out;
      [feed_loop] gets the length of the buffer, and each turn removes a line;
      [ToWord.convert_from] gets the number of lines, and each turn takes one at
      least; [Files.mkdir] gets the length of the path, and [mkdir_ends] shows that
      it is enough.
    - A command line is the list of the options given in it ([given]); what the
      program does with their values is modelled.  The disk of the entry points is
      the contents of files, the directories that exist and the files made private
      ([Files.files]); paths are texts in normal form, separated by slashes, and a
      write fails for want of its directory only.  The accept loop lives through
      events ([ServerMain.event]): a TLS handshake is over when its peer completes
      or spoils it, and not before.
    - A document of the converter is the list of its blocks, with the runs in them
      and everything the source sets on a run or a paragraph.

    ** Not modelled

    What [argparse] makes of the words of a command line (abbreviations, the help
    text), the [ssl] handshake, the socket calls, the loop of Tk and the packing of
    its widgets, and the writing of Word files by python-docx are code of libraries.
    [demo/milestone2.py] and [demo/bench.py] start servers and clients in threads,
    sleep and measure the time: they use what is modelled here and add nothing but
    timing.  The tests under [tests/] are not part of the program. *)

From stdpp Require Export base list gmap sorting numbers strings.
From Stdlib Require Ascii.

(** ** Python text

    A Python [str] is a sequence of Unicode code points, lone surrogates
    included, so it is a list of [N]; a [bytes] is a list of [N] below 256. *)
Abbreviation pystr := (list N).
Abbreviation bytes := (list N).

(** Literals: the code points of an ASCII string constant of the source. *)
Definition py (s : string) : pystr := Ascii.N_of_ascii <$> String.list_ascii_of_string s.

Declare Scope py_scope.
Delimit Scope py_scope with py.
Notation "& s" := (py s%string) (at level 9, s at level 9, format "& s") : py_scope.
Open Scope py_scope.

(** ** Python exceptions and effectful code

    [ProtocolError] is the source's own exception; the others are the built-in
    ones that the modelled code can raise.  [Unmodelled] marks the (documented)
    places where a value outside its annotated type gets past every check of
    the source and the model stops instead of following it. *)
Inductive exn :=
| ProtocolError (msg : pystr)
| JSONDecodeError (msg : pystr)
| ValueError
| RecursionError
| AttributeError
| TypeError
| IndexError
| KeyError
| OverflowError
| UnicodeEncodeError
| SqliteBindError
| IntegrityError
| NotConnected
| ConnectionError
| TimeoutError
| IllegalTransition
| DecryptionFailed
| OSError
| EOFError
| ImportError
| SystemExit (code : Z)
| Unmodelled.

#[export] Instance exn_eq_dec : EqDecision exn.
Proof. solve_decision. Defined.

Inductive res (A : Type) :=
| Ok (a : A)
| Raise (e : exn).
Arguments Ok {_} _.
Arguments Raise {_} _.

#[export] Instance res_ret : MRet res := λ A, Ok.
#[export] Instance res_bind : MBind res := λ A B f m,
  match m with Ok a => f a | Raise e => Raise e end.
#[export] Instance res_fmap : FMap res := λ A B f m,
  match m with Ok a => Ok (f a) | Raise e => Raise e end.

(** Code that reads and writes a state and may raise: the effects made before
    an exception stay, as they do in Python. *)
Definition M (S A : Type) : Type := S → S * res A.

#[export] Instance M_ret {S} : MRet (M S) := λ A a s, (s, Ok a).
#[export] Instance M_bind {S} : MBind (M S) := λ A B f m s,
  match m s with
  | (s', Ok a) => f a s'
  | (s', Raise e) => (s', Raise e)
  end.

Definition get {S} : M S S := λ s, (s, Ok s).
Definition modify {S} (f : S → S) : M S unit := λ s, (f s, Ok tt).
Definition raise {S A} (e : exn) : M S A := λ s, (s, Raise e).
Definition lift_res {S A} (r : res A) : M S A := λ s, (s, r).

(** A [for] loop over a list. *)
Fixpoint forM {S A} (l : list A) (f : A → M S unit) : M S unit :=
  match l with
  | [] => mret tt
  | x :: l' => f x ;; forM l' f
  end.

(** A list comprehension whose element expression may raise. *)
Fixpoint mapR {A B} (f : A → res B) (l : list A) : res (list B) :=
  match l with
  | [] => Ok []
  | x :: l' => b ← f x; bs ← mapR f l'; Ok (b :: bs)
  end.

(** ** The monad laws and the state after a run *)

Lemma M_ret_bind {S A B} (a : A) (k : A → M S B) (s : S) : (mret a ≫= k) s = k a s.
Proof. reflexivity. Qed.

Lemma M_bind_assoc {S A B C} (m : M S A) (k : A → M S B) (h : B → M S C) (s : S) :
  ((m ≫= k) ≫= h) s = (m ≫= (λ a, k a ≫= h)) s.
Proof. unfold mbind, M_bind. destruct (m s) as [s' [a|e]]; reflexivity. Qed.

(** A run that went through went through all of its parts. *)
Lemma bind_Ok {S A B} (m : M S A) (k : A → M S B) (s s' : S) (b : B) :
  (m ≫= k) s = (s', Ok b) → ∃ s1 a, m s = (s1, Ok a) ∧ k a s1 = (s', Ok b).
Proof. unfold mbind, M_bind. destruct (m s) as [s1 [a|e]]; [by exists s1, a|done]. Qed.

Lemma forM_app {S A} (l1 l2 : list A) (f : A → M S unit) (s : S) :
  forM (l1 ++ l2) f s = (forM l1 f ;; forM l2 f) s.
Proof.
  revert s. induction l1 as [|x l1 IH]; intros s; [reflexivity|].
  cbn. unfold mbind, M_bind. destruct (f x s) as [s' [[]|e]]; [|reflexivity].
  apply IH.
Qed.

(** A property of the state that every step of a loop keeps, the loop keeps. *)
Lemma forM_inv {S A} (P : S → Prop) (l : list A) (f : A → M S unit) (s : S) :
  (∀ x s, x ∈ l → P s → P (f x s).1) → P s → P (forM l f s).1.
Proof.
  revert s. induction l as [|x l IH]; intros s Hf Hs; [done|].
  cbn. unfold mbind, M_bind.
  pose proof (Hf x s (list_elem_of_here _ _) Hs) as Hx.
  destruct (f x s) as [s' [[]|e]]; [|done].
  apply IH; [|done]. intros y t Hy. apply Hf. by apply list_elem_of_further.
Qed.

(** Induction on the length of a list, for functions that drop a prefix. *)
Lemma length_ind {A} (P : list A → Prop) :
  (∀ l, (∀ l', length l' < length l → P l') → P l) → ∀ l, P l.
Proof.
  intros H l. remember (length l) as n eqn:Hn. revert l Hn.
  induction n as [n IH] using lt_wf_ind. intros l ->. apply H. intros l' Hl. by eapply IH.
Qed.

Lemma Ok_inj {A} (a b : A) : Ok a = Ok b → a = b.
Proof. congruence. Qed.

(** A filter that every element passes, and one that none does. *)
Lemma filter_all {A} (P : A → Prop) `{∀ x, Decision (P x)} l : Forall P l → filter P l = l.
Proof.
  induction 1 as [|x l Hx _ IH]; [done|]. rewrite filter_cons_True by done. by f_equal.
Qed.

Lemma filter_none {A} (P : A → Prop) `{∀ x, Decision (P x)} l :
  Forall (λ x, ¬ P x) l → filter P l = [].
Proof. induction 1; [done|]. by rewrite filter_cons_False. Qed.
