(* ===== verification/PyStr.v ===== *)
(** * Python strings

    The operations of [str] that the modelled code uses, on lists of code
    points: comparison (code-point order, which is also the order of SQLite's
    BINARY collation on UTF-8 text), [startswith], [strip], [rstrip],
    [isspace], [join], slices, [find], decimal conversion and [sorted]. *)

From S2P Require Import Prelude.

(** ** Comparison and [sorted] *)

Fixpoint str_leb (a b : pystr) : bool :=
  match a, b with
  | [], _ => true
  | _ :: _, [] => false
  | x :: a', y :: b' => if (x =? y)%N then str_leb a' b' else (x <? y)%N
  end.

Definition str_le (a b : pystr) : Prop := str_leb a b = true.

#[export] Instance str_le_dec a b : Decision (str_le a b).
Proof. unfold str_le. apply _. Defined.

Lemma str_leb_refl a : str_leb a a = true.
Proof. induction a as [|x a IH]; simpl; [done|]. by rewrite N.eqb_refl. Qed.

Lemma str_leb_total a b : str_leb a b = true ∨ str_leb b a = true.
Proof.
  revert b. induction a as [|x a IH]; intros [|y b]; simpl; auto.
  rewrite (N.eqb_sym y x). destruct (N.eqb_spec x y); [apply IH|].
  rewrite !N.ltb_lt. lia.
Qed.

Lemma str_leb_antisym a b : str_leb a b = true → str_leb b a = true → a = b.
Proof.
  revert b. induction a as [|x a IH]; intros [|y b]; simpl; try done.
  rewrite (N.eqb_sym y x). destruct (N.eqb_spec x y) as [->|]; [intros; f_equal; auto|].
  rewrite !N.ltb_lt. lia.
Qed.

Lemma str_leb_trans a b c : str_leb a b = true → str_leb b c = true → str_leb a c = true.
Proof.
  revert b c. induction a as [|x a IH]; intros [|y b] [|z c]; simpl; try done.
  destruct (N.eqb_spec x y), (N.eqb_spec y z), (N.eqb_spec x z);
    subst; rewrite ?N.ltb_lt; try lia; eauto; done.
Qed.

(** Insertion sort: [foldr] inserts the earlier element last and in front of
    its equals, so the sort is stable, as [sorted] is. *)
Fixpoint insert_by {A} (le : A → A → bool) (x : A) (l : list A) : list A :=
  match l with
  | [] => [x]
  | y :: l' => if le x y then x :: l else y :: insert_by le x l'
  end.

Definition sorted_by {A} (le : A → A → bool) (l : list A) : list A :=
  foldr (insert_by le) [] l.

Definition sorted (l : list pystr) : list pystr := sorted_by str_leb l.

Lemma insert_by_perm {A} (le : A → A → bool) x l : insert_by le x l ≡ₚ x :: l.
Proof.
  induction l as [|y l IH]; simpl; [done|].
  destruct (le x y); [done|]. rewrite IH. apply Permutation_swap.
Qed.

Lemma sorted_by_perm {A} (le : A → A → bool) l : sorted_by le l ≡ₚ l.
Proof.
  induction l as [|x l IH]; simpl; [done|].
  by rewrite insert_by_perm, IH.
Qed.

Lemma insert_by_sorted {A} (le : A → A → bool) x l :
  (∀ a b, le a b = true ∨ le b a = true) →
  (∀ a b c, le a b = true → le b c = true → le a c = true) →
  StronglySorted (λ a b, le a b = true) l →
  StronglySorted (λ a b, le a b = true) (insert_by le x l).
Proof.
  intros Htot Htr. induction 1 as [|y l Hs IH Hy]; simpl.
  - repeat constructor.
  - destruct (le x y) eqn:E.
    + constructor; [by constructor|]. constructor; [done|].
      eapply Forall_impl; [exact Hy|]. intros z ?. eauto.
    + constructor; [done|]. rewrite insert_by_perm. constructor; [|done].
      destruct (Htot x y); congruence.
Qed.

Lemma sorted_by_sorted {A} (le : A → A → bool) l :
  (∀ a b, le a b = true ∨ le b a = true) →
  (∀ a b c, le a b = true → le b c = true → le a c = true) →
  StronglySorted (λ a b, le a b = true) (sorted_by le l).
Proof.
  intros Htot Htr. induction l; simpl; [constructor|]. by apply insert_by_sorted.
Qed.

Lemma sorted_perm l : sorted l ≡ₚ l.
Proof. apply sorted_by_perm. Qed.

Lemma elem_of_sorted x l : x ∈ sorted l ↔ x ∈ l.
Proof. by rewrite sorted_perm. Qed.

Lemma sorted_sorted l : StronglySorted str_le (sorted l).
Proof. apply sorted_by_sorted; eauto using str_leb_total, str_leb_trans. Qed.

(** Two strongly sorted permutations of each other are equal. *)
Lemma str_sorted_unique l1 l2 :
  StronglySorted str_le l1 → StronglySorted str_le l2 → l1 ≡ₚ l2 → l1 = l2.
Proof.
  intros H1. revert l2. induction H1 as [|x l1 Hs IH Hx]; intros l2 H2 Hp.
  - by apply Permutation_nil_l in Hp.
  - destruct H2 as [|y l2 Hs2 Hy]; [by apply Permutation_nil_r in Hp|].
    assert (x = y) as ->.
    { assert (x ∈ y :: l2) as [->|Hx2]%elem_of_cons by (rewrite <-Hp; left); [done|].
      assert (y ∈ x :: l1) as [->|Hy1]%elem_of_cons by (rewrite Hp; left); [done|].
      rewrite Forall_forall in Hx, Hy.
      apply str_leb_antisym; [apply Hx | apply Hy]; done. }
    f_equal. apply IH; [done|]. by apply Permutation_cons_inv in Hp.
Qed.

Lemma sorted_proper l1 l2 : l1 ≡ₚ l2 → sorted l1 = sorted l2.
Proof.
  intros Hp. apply str_sorted_unique; [apply sorted_sorted..|].
  by rewrite !sorted_perm.
Qed.

#[export] Instance sorted_perm_proper : Proper ((≡ₚ) ==> (=)) sorted.
Proof. intros l1 l2. apply sorted_proper. Qed.

Lemma sorted_NoDup l : NoDup l → NoDup (sorted l).
Proof. by rewrite sorted_perm. Qed.

(** ** Prefixes, stripping, joining *)

Fixpoint startswith (s p : pystr) {struct p} : bool :=
  match p, s with
  | [], _ => true
  | _ :: _, [] => false
  | y :: p', x :: s' => (x =? y)%N && startswith s' p'
  end.

Lemma startswith_spec s p : startswith s p = true ↔ p `prefix_of` s.
Proof.
  revert s. induction p as [|y p IH]; intros [|x s]; simpl.
  - split; [intros; by exists [] | done].
  - split; [intros; by exists (x :: s) | done].
  - split; [done | by intros [k ?]].
  - rewrite andb_true_iff, N.eqb_eq, IH. split.
    + intros [-> [k ->]]. by exists k.
    + intros [k [= -> ->]]. split; [done|]. by exists k.
Qed.

(** [str.isspace] of one character: the code points Unicode calls white space
    or separators, as CPython lists them. *)
Definition isspace (c : N) : bool :=
  ((9 <=? c) && (c <=? 13) || (28 <=? c) && (c <=? 32) || (c =? 133) || (c =? 160)
   || (c =? 5760) || (8192 <=? c) && (c <=? 8202) || (c =? 8232) || (c =? 8233)
   || (c =? 8239) || (c =? 8287) || (c =? 12288))%N.

Fixpoint lstrip_by (f : N → bool) (s : pystr) : pystr :=
  match s with
  | [] => []
  | c :: s' => if f c then lstrip_by f s' else s
  end.

Definition rstrip_by (f : N → bool) (s : pystr) : pystr :=
  reverse (lstrip_by f (reverse s)).

Definition strip (s : pystr) : pystr := rstrip_by isspace (lstrip_by isspace s).

Fixpoint join (sep : pystr) (l : list pystr) : pystr :=
  match l with
  | [] => []
  | [s] => s
  | s :: l' => s ++ sep ++ join sep l'
  end.

(** [s.split(c)], for a separator of one character. *)
Fixpoint split_by (f : N → bool) (s : pystr) : list pystr :=
  match s with
  | [] => [[]]
  | c :: s' =>
    if f c then [] :: split_by f s'
    else match split_by f s' with
         | w :: ws => (c :: w) :: ws
         | [] => [[c]]
         end
  end.

Definition split (sep : N) (s : pystr) : list pystr := split_by (λ c, (c =? sep)%N) s.

(** [s.split()]: the words between white space. *)
Definition words (s : pystr) : list pystr := filter (λ w, w ≠ []) (split_by isspace s).

(** [s.replace(a, b)], for strings of one character. *)
Definition replace_char (a b : N) (s : pystr) : pystr := (λ c, if (c =? a)%N then b else c) <$> s.

Lemma split_by_cons f s : ∃ w ws, split_by f s = w :: ws.
Proof.
  destruct s as [|c s]; [by eexists _, _|]. cbn.
  destruct (f c); [by eexists _, _|]. destruct (split_by f s); by eexists _, _.
Qed.

(** No piece holds a separator. *)
Lemma split_by_clean f s w : w ∈ split_by f s → Forall (λ c, f c = false) w.
Proof.
  revert w. induction s as [|c s IH]; intros w; cbn.
  - intros ->%list_elem_of_singleton. constructor.
  - destruct (f c) eqn:E.
    + intros [->|Hw]%elem_of_cons; [constructor|auto].
    + destruct (split_by_cons f s) as (x & xs & Ex). rewrite Ex in IH |- * .
      intros [->|Hw]%elem_of_cons; [|apply IH; by right].
      constructor; [done|]. apply IH. by left.
Qed.

Lemma lstrip_by_le f s : length (lstrip_by f s) ≤ length s.
Proof. induction s as [|c s IH]; cbn; [done|]. destruct (f c); cbn; lia. Qed.

Lemma lstrip_by_stop f s c r : lstrip_by f s = c :: r → f c = false.
Proof.
  induction s as [|x s IH]; cbn; [done|]. destruct (f x) eqn:E; [done|]. by intros [= <- <-].
Qed.

Lemma lstrip_by_suffix f s : ∃ p, s = p ++ lstrip_by f s ∧ Forall (λ c, f c = true) p.
Proof.
  induction s as [|c s (p & Hp & Hf)]; [by exists []|]. cbn. destruct (f c) eqn:E.
  - exists (c :: p). split; [by rewrite Hp at 1|by constructor].
  - exists []. by split.
Qed.

Lemma rstrip_by_id f s : (∀ c, last s = Some c → f c = false) → rstrip_by f s = s.
Proof.
  unfold rstrip_by. intros H. destruct s as [|c s _] using rev_ind; [done|].
  rewrite reverse_snoc. simpl. rewrite (H c) by apply last_snoc.
  rewrite reverse_cons. by rewrite reverse_involutive.
Qed.

Lemma lstrip_by_snoc f s c : f c = false → ∃ t, lstrip_by f (s ++ [c]) = t ++ [c].
Proof.
  intros Hc. induction s as [|x s (t & IH)]; cbn; [rewrite Hc; by exists []|].
  destruct (f x); [by exists t|by exists (x :: s)].
Qed.

(** What is left after stripping is not blank. *)
Lemma strip_again s : strip s ≠ [] → strip (strip s) ≠ [].
Proof.
  unfold strip at 1 3. unfold rstrip_by at 1 2. set (u := lstrip_by isspace s).
  destruct (lstrip_by isspace (reverse u)) as [|c r] eqn:E; [done|]. intros _.
  apply lstrip_by_stop in E. rewrite reverse_cons. unfold strip.
  destruct (lstrip_by_snoc isspace (reverse r) c E) as [t ->].
  rewrite rstrip_by_id; [by destruct t|]. intros d. rewrite last_snoc. by intros [= <-].
Qed.

(** ** Decimal integers

    [str(z)] and [int(s)] on the digits that [str] produces; [digits_to_N]
    also reads leading zeros, as [int] does. *)

Definition is_digit (c : N) : bool := ((48 <=? c) && (c <=? 57))%N.

Fixpoint digits_to_N (acc : N) (s : pystr) : N :=
  match s with
  | [] => acc
  | c :: s' => digits_to_N (10 * acc + (c - 48)) s'
  end%N.

Fixpoint digits_of (fuel : nat) (n : N) (acc : pystr) : pystr :=
  match fuel with
  | O => acc
  | S f => let acc' := (48 + n mod 10)%N :: acc in
           if (n <? 10)%N then acc' else digits_of f (n / 10) acc'
  end%N.

(** A number has at most as many decimal digits as binary ones. *)
Definition dec_of_N (n : N) : pystr := digits_of (S (N.to_nat (N.size n))) n [].

Definition dec_of_Z (z : Z) : pystr :=
  if (z <? 0)%Z then 45%N :: dec_of_N (Z.abs_N z) else dec_of_N (Z.abs_N z).

Lemma digits_of_app fuel n acc :
  digits_of fuel n acc = digits_of fuel n [] ++ acc.
Proof.
  revert n acc. induction fuel as [|f IH]; intros n acc; simpl; [done|].
  destruct (n <? 10)%N; [done|].
  rewrite IH, (IH _ [_]). by rewrite <-app_assoc.
Qed.

Lemma digits_to_N_app a s1 s2 :
  digits_to_N a (s1 ++ s2) = digits_to_N (digits_to_N a s1) s2.
Proof. revert a. induction s1; intros; simpl; auto. Qed.

Lemma digits_of_correct fuel n :
  (n < 2 ^ N.of_nat fuel)%N → fuel ≠ O →
  digits_to_N 0 (digits_of fuel n []) = n.
Proof.
  revert n. induction fuel as [|f IH]; intros n Hn Hf; [done|].
  cbn [digits_of]. destruct (N.ltb_spec n 10).
  - cbn [digits_to_N]. rewrite N.mod_small by lia. lia.
  - rewrite digits_of_app, digits_to_N_app.
    assert (f ≠ 0)%nat as Hf0.
    { intros ->. change (2 ^ N.of_nat 1)%N with 2%N in Hn. lia. }
    rewrite IH; [|rewrite Nat2N.inj_succ, N.pow_succ_r' in Hn|done].
    + cbn [digits_to_N]. rewrite (N.div_mod' n 10) at 3.
      generalize (n / 10)%N (n mod 10)%N. lia.
    + apply N.Div0.div_lt_upper_bound. lia.
Qed.

Lemma dec_of_N_correct n : digits_to_N 0 (dec_of_N n) = n.
Proof.
  apply digits_of_correct; [|done].
  rewrite Nat2N.inj_succ, N2Nat.id, N.pow_succ_r'.
  pose proof (N.size_gt n). lia.
Qed.

Lemma digits_of_digits fuel n acc :
  Forall (λ c, is_digit c = true) acc →
  Forall (λ c, is_digit c = true) (digits_of fuel n acc).
Proof.
  revert n acc. induction fuel as [|f IH]; intros n acc Ha; simpl; [done|].
  assert (Forall (λ c, is_digit c = true) ((48 + n mod 10)%N :: acc)).
  { constructor; [|done]. unfold is_digit.
    assert (n mod 10 < 10)%N as Hm by by apply N.mod_lt.
    rewrite andb_true_iff, !N.leb_le. revert Hm. generalize (n mod 10)%N. lia. }
  destruct (n <? 10)%N; auto.
Qed.

Lemma dec_of_N_digits n : Forall (λ c, is_digit c = true) (dec_of_N n).
Proof. apply digits_of_digits. constructor. Qed.

(** No leading zero, except for zero itself. *)
Lemma digits_of_head fuel n :
  (n < 2 ^ N.of_nat fuel)%N → fuel ≠ O → n ≠ 0%N →
  ∃ c s, digits_of fuel n [] = c :: s ∧ c ≠ 48%N.
Proof.
  revert n. induction fuel as [|f IH]; intros n Hn Hf Hn0; [done|].
  cbn [digits_of]. destruct (N.ltb_spec n 10).
  - rewrite N.mod_small by lia. eexists _, _. split; [done|]. lia.
  - assert (f ≠ 0)%nat as Hf0. { intros ->. change (2 ^ N.of_nat 1)%N with 2%N in Hn. lia. }
    destruct (IH (n / 10)%N) as (c & s & E & Hc); [|done| |].
    + rewrite Nat2N.inj_succ, N.pow_succ_r' in Hn.
      apply N.Div0.div_lt_upper_bound. lia.
    + intros Hz. apply N.div_small_iff in Hz; lia.
    + rewrite digits_of_app, E. eexists _, _. split; [done|]. done.
Qed.

Lemma dec_of_N_head n : n ≠ 0%N → ∃ c s, dec_of_N n = c :: s ∧ c ≠ 48%N.
Proof.
  intros. apply digits_of_head; [|done..].
  rewrite Nat2N.inj_succ, N2Nat.id, N.pow_succ_r'. pose proof (N.size_gt n). lia.
Qed.

(** ** Substring search and slices, as [str.find] and [s[a:b]] *)

Fixpoint find_from (i : nat) (s p : pystr) : option nat :=
  if startswith s p then Some i
  else match s with [] => None | _ :: s' => find_from (S i) s' p end.

Definition find (s p : pystr) : option nat := find_from 0 s p.

Definition contains (s p : pystr) : bool := bool_decide (is_Some (find s p)).

Definition slice (a b : nat) (s : pystr) : pystr := take (b - a) (drop a s).

Example split_ex : split 44 (&"a,,b") = [&"a"; []; &"b"]. Proof. reflexivity. Qed.
Example words_ex : words (&" Ada  L") = [&"Ada"; &"L"]. Proof. reflexivity. Qed.
Example dec_ex : dec_of_Z (-1050)%Z = &"-1050". Proof. reflexivity. Qed.
Example strip_ex : strip (&"  hi there ") = &"hi there". Proof. reflexivity. Qed.
Example sorted_ex : sorted [&"bob"; &"al"; &"alice"] = [&"al"; &"alice"; &"bob"].
Proof. reflexivity. Qed.
