(* ===== verification/PyDict.v ===== *)
(** * Python dictionaries

    A [dict] keeps its keys in insertion order, and the modelled code observes
    that order (it iterates over [items()], [values()] and keys).  So a dict is
    an association list with at most one entry per key; assigning to a key that
    is present keeps its position. *)

From S2P Require Import Prelude.

Section dict.
Context {K V : Type} `{EqDecision K}.
Implicit Types (d : list (K * V)) (k : K) (v : V).

Fixpoint dict_get d k : option V :=
  match d with
  | [] => None
  | (k', v) :: d' => if decide (k = k') then Some v else dict_get d' k
  end.

Fixpoint dict_set d k v : list (K * V) :=
  match d with
  | [] => [(k, v)]
  | (k', v') :: d' => if decide (k = k') then (k, v) :: d' else (k', v') :: dict_set d' k v
  end.

(** [d.pop(k, None)]. *)
Fixpoint dict_del d k : list (K * V) :=
  match d with
  | [] => []
  | (k', v) :: d' => if decide (k = k') then d' else (k', v) :: dict_del d' k
  end.

Definition dict_has d k : bool := bool_decide (is_Some (dict_get d k)).

(** [d.setdefault(k, v)]: the dict afterwards. *)
Definition dict_setdefault d k v : list (K * V) :=
  match dict_get d k with Some _ => d | None => dict_set d k v end.

Definition dict_keys d : list K := d.*1.

(** The dict invariant: one entry per key. *)
Definition dict_ok d : Prop := NoDup (dict_keys d).

Lemma dict_get_set_eq d k v : dict_get (dict_set d k v) k = Some v.
Proof.
  induction d as [|[k' v'] d IH]; simpl; [by rewrite decide_True|].
  destruct (decide (k = k')); simpl; [by rewrite decide_True|].
  by rewrite decide_False.
Qed.

Lemma dict_get_set_ne d k k' v : k' ≠ k → dict_get (dict_set d k v) k' = dict_get d k'.
Proof.
  intros Hne. induction d as [|[k0 v0] d IH]; simpl; [by rewrite decide_False|].
  destruct (decide (k = k0)) as [<-|]; simpl.
  - by rewrite !decide_False.
  - by destruct (decide (k' = k0)).
Qed.

Lemma dict_get_set d k k' v :
  dict_get (dict_set d k v) k' = if decide (k' = k) then Some v else dict_get d k'.
Proof.
  destruct (decide (k' = k)) as [->|]; [apply dict_get_set_eq | by apply dict_get_set_ne].
Qed.

Lemma dict_get_None d k : dict_get d k = None ↔ k ∉ dict_keys d.
Proof.
  unfold dict_keys. induction d as [|[k' v] d IH]; simpl; [by split; [set_solver|]|].
  destruct (decide (k = k')) as [<-|]; set_solver.
Qed.

Lemma dict_get_is_Some d k : is_Some (dict_get d k) ↔ k ∈ dict_keys d.
Proof.
  rewrite <-not_eq_None_Some, dict_get_None.
  destruct (decide (k ∈ dict_keys d)); tauto.
Qed.

Lemma dict_has_true d k : dict_has d k = true ↔ k ∈ dict_keys d.
Proof. unfold dict_has. by rewrite bool_decide_eq_true, dict_get_is_Some. Qed.

Lemma dict_has_false d k : dict_has d k = false ↔ k ∉ dict_keys d.
Proof. by rewrite <-dict_has_true, not_true_iff_false. Qed.

Lemma dict_get_In d k v : dict_get d k = Some v → (k, v) ∈ d.
Proof.
  induction d as [|[k' v'] d IH]; simpl; [done|].
  destruct (decide (k = k')) as [->|]; [intros [= ->]; left | intros ?; right; auto].
Qed.

Lemma dict_In_get d k v : dict_ok d → (k, v) ∈ d → dict_get d k = Some v.
Proof.
  unfold dict_ok, dict_keys. induction d as [|[k' v'] d IH]; simpl; [set_solver|].
  intros [Hn Hd]%NoDup_cons [[= -> ->]|Hin]%elem_of_cons; [by rewrite decide_True|].
  rewrite decide_False; [auto|]. intros ->. apply Hn.
  apply list_elem_of_fmap. by exists (k', v).
Qed.

(** A fresh key goes to the end. *)
Lemma dict_set_fresh d k v : k ∉ dict_keys d → dict_set d k v = d ++ [(k, v)].
Proof.
  unfold dict_keys. induction d as [|[k' v'] d IH]; simpl; [done|].
  intros Hn. rewrite decide_False by set_solver. f_equal. apply IH. set_solver.
Qed.

(** Assigning to a key that is present moves nothing. *)
Lemma dict_set_keys d k v : k ∈ dict_keys d → dict_keys (dict_set d k v) = dict_keys d.
Proof.
  unfold dict_keys. induction d as [|[k' v'] d IH]; simpl; [set_solver|].
  intros Hin. destruct (decide (k = k')) as [->|]; simpl; [done|].
  f_equal. apply IH. set_solver.
Qed.

Lemma elem_of_dict_set_keys d k v k' :
  k' ∈ dict_keys (dict_set d k v) ↔ k' = k ∨ k' ∈ dict_keys d.
Proof.
  rewrite <-!dict_get_is_Some, dict_get_set. destruct (decide (k' = k)); naive_solver.
Qed.

Lemma dict_set_ok d k v : dict_ok d → dict_ok (dict_set d k v).
Proof.
  unfold dict_ok. destruct (decide (k ∈ dict_keys d)).
  - by rewrite dict_set_keys.
  - rewrite dict_set_fresh by done. unfold dict_keys. rewrite fmap_app.
    intros. apply NoDup_app. split; [done|]. split; [|apply NoDup_singleton].
    set_solver.
Qed.

Lemma dict_del_sublist d k : dict_del d k `sublist_of` d.
Proof.
  induction d as [|[k' v] d IH]; simpl; [constructor|].
  destruct (decide (k = k')); by constructor.
Qed.

Lemma dict_del_ok d k : dict_ok d → dict_ok (dict_del d k).
Proof.
  unfold dict_ok, dict_keys. intros. eapply sublist_NoDup; [done|].
  apply fmap_sublist, dict_del_sublist.
Qed.

Lemma dict_get_del_eq d k : dict_ok d → dict_get (dict_del d k) k = None.
Proof.
  unfold dict_ok, dict_keys. induction d as [|[k' v'] d IH]; simpl; [done|].
  intros [Hn Hd]%NoDup_cons. destruct (decide (k = k')) as [->|]; simpl.
  - by apply dict_get_None.
  - rewrite decide_False; auto.
Qed.

Lemma dict_get_del_ne d k k' : k' ≠ k → dict_get (dict_del d k) k' = dict_get d k'.
Proof.
  intros Hne. induction d as [|[k0 v0] d IH]; simpl; [done|].
  destruct (decide (k = k0)) as [<-|]; simpl.
  - by rewrite decide_False.
  - by destruct (decide (k' = k0)).
Qed.

Lemma dict_get_del d k k' :
  dict_ok d → dict_get (dict_del d k) k' = if decide (k' = k) then None else dict_get d k'.
Proof.
  intros. destruct (decide (k' = k)) as [->|];
    [by apply dict_get_del_eq | by apply dict_get_del_ne].
Qed.

Lemma dict_set_twice d k v v' : dict_set (dict_set d k v) k v' = dict_set d k v'.
Proof.
  induction d as [|[k0 v0] d IH]; cbn [dict_set]; [by rewrite decide_True|].
  case_decide as Hk; cbn [dict_set].
  - by rewrite decide_True.
  - by rewrite decide_False, IH.
Qed.

Lemma dict_set_id d k v : dict_get d k = Some v → dict_set d k v = d.
Proof.
  induction d as [|[k' v'] d IH]; simpl; [done|].
  destruct (decide (k = k')) as [->|]; [by intros [= ->] | intros; f_equal; auto].
Qed.
End dict.

Create HintDb dict.
Create Rewrite HintDb dict.
#[export] Hint Resolve dict_set_ok dict_del_ok : dict.
#[export] Hint Rewrite @dict_get_set_eq @dict_get_set @elem_of_dict_set_keys : dict.
