(* ===== verification/Utf8.v ===== *)
(** * UTF-8

    [str.encode("utf-8")] and the strict [bytes.decode("utf-8")]: surrogates
    and values above U+10FFFF do not encode; truncated, overlong, surrogate
    and out-of-range sequences do not decode. *)

From S2P Require Import Prelude PyStr.

Definition is_surrogate (c : N) : bool := ((55296 <=? c) && (c <=? 57343))%N.

Definition enc_char (c : N) : option bytes :=
  (if c <? 128 then Some [c]
   else if c <? 2048 then Some [192 + c / 64; 128 + c mod 64]
   else if c <? 65536 then
     if is_surrogate c then None
     else Some [224 + c / 64 / 64; 128 + c / 64 mod 64; 128 + c mod 64]
   else if c <? 1114112 then
     Some [240 + c / 64 / 64 / 64; 128 + c / 64 / 64 mod 64;
           128 + c / 64 mod 64; 128 + c mod 64]
   else None)%N.

Fixpoint utf8_encode (s : pystr) : option bytes :=
  match s with
  | [] => Some []
  | c :: s' => b ← enc_char c; bs ← utf8_encode s'; Some (b ++ bs)
  end.

(** A continuation byte 10xxxxxx carries six bits. *)
Definition cont (b : N) : option N :=
  if ((128 <=? b) && (b <? 192))%N then Some (b - 128)%N else None.

Fixpoint utf8_decode (bs : bytes) : option pystr :=
  match bs with
  | [] => Some []
  | b :: r =>
    if (b <? 128)%N then cons b <$> utf8_decode r
    else if (b <? 192)%N then None
    else if (b <? 224)%N then
      match r with
      | b1 :: r' =>
        x1 ← cont b1;
        let c := ((b - 192) * 64 + x1)%N in
        if (128 <=? c)%N then cons c <$> utf8_decode r' else None
      | _ => None
      end
    else if (b <? 240)%N then
      match r with
      | b1 :: b2 :: r' =>
        x1 ← cont b1; x2 ← cont b2;
        let c := (((b - 224) * 64 + x1) * 64 + x2)%N in
        if ((2048 <=? c)%N && negb (is_surrogate c)) then cons c <$> utf8_decode r'
        else None
      | _ => None
      end
    else if (b <? 248)%N then
      match r with
      | b1 :: b2 :: b3 :: r' =>
        x1 ← cont b1; x2 ← cont b2; x3 ← cont b3;
        let c := ((((b - 240) * 64 + x1) * 64 + x2) * 64 + x3)%N in
        if ((65536 <=? c) && (c <? 1114112))%N then cons c <$> utf8_decode r'
        else None
      | _ => None
      end
    else None
  end.

(** ** Facts *)

Lemma cont_enc x : (x < 64)%N → cont (128 + x) = Some x.
Proof.
  intros. unfold cont. destruct (N.leb_spec 128 (128 + x)); [|lia].
  destruct (N.ltb_spec (128 + x) 192); [|lia]. simpl. f_equal. lia.
Qed.

Lemma cont_Some b x : cont b = Some x → b = (128 + x)%N ∧ (x < 64)%N.
Proof.
  unfold cont. destruct (N.leb_spec 128 b), (N.ltb_spec b 192); simpl;
    intros [= <-]; lia.
Qed.

(** Splitting a number into its low six bits and the rest. *)
Lemma split64 (c : N) : ∃ q r, (c = q * 64 + r ∧ r < 64 ∧ c / 64 = q ∧ c mod 64 = r)%N.
Proof.
  exists (c / 64)%N, (c mod 64)%N. split_and!; [|by apply N.mod_lt|done..].
  rewrite (N.div_mod' c 64) at 1. generalize (c / 64)%N (c mod 64)%N. lia.
Qed.

Lemma split64_eq q r : (r < 64 → (q * 64 + r) / 64 = q ∧ (q * 64 + r) mod 64 = r)%N.
Proof.
  intros. split.
  - symmetry. apply (N.div_unique _ 64 q r); [done|]. ring.
  - symmetry. apply (N.mod_unique _ 64 q r); [done|]. ring.
Qed.

Ltac six c q r :=
  let E := fresh in let Hr := fresh in let Hq := fresh in let Hm := fresh in
  destruct (split64 c) as (q & r & E & Hr & Hq & Hm); rewrite ?Hq, ?Hm; clear Hq Hm.

Ltac ncases :=
  repeat match goal with
  | |- context [(?a <? ?b)%N] => destruct (N.ltb_spec a b); try lia
  | |- context [(?a <=? ?b)%N] => destruct (N.leb_spec a b); try lia
  end.

Lemma decode_char c b bs :
  enc_char c = Some b → utf8_decode (b ++ bs) = cons c <$> utf8_decode bs.
Proof.
  unfold enc_char. destruct (N.ltb_spec c 128).
  { intros [= <-]. simpl. destruct (N.ltb_spec c 128); [done|lia]. }
  destruct (N.ltb_spec c 2048).
  { six c q r. intros [= <-]. cbn [utf8_decode app].
    ncases. cbn [mbind option_bind]. rewrite cont_enc by done. cbn [mbind option_bind].
    replace ((192 + q - 192) * 64 + r)%N with c by lia. by ncases. }
  destruct (N.ltb_spec c 65536).
  { destruct (is_surrogate c) eqn:Hs; [done|].
    six c q r. six q q2 r2. intros [= <-]. cbn [utf8_decode app].
    ncases. rewrite !cont_enc by done. cbn [mbind option_bind].
    replace (((224 + q2 - 224) * 64 + r2) * 64 + r)%N with c by lia.
    rewrite Hs. by ncases. }
  destruct (N.ltb_spec c 1114112); [|done].
  six c q r. six q q2 r2. six q2 q3 r3. intros [= <-]. cbn [utf8_decode app].
  ncases. rewrite !cont_enc by done. cbn [mbind option_bind].
  replace ((((240 + q3 - 240) * 64 + r3) * 64 + r2) * 64 + r)%N with c by lia.
  by ncases.
Qed.

(** What was encoded decodes to itself. *)
Lemma utf8_decode_encode s b : utf8_encode s = Some b → utf8_decode b = Some s.
Proof.
  revert b. induction s as [|c s IH]; intros b; simpl.
  - by intros [= <-].
  - destruct (enc_char c) as [bc|] eqn:Ec; [|done]. simpl.
    destruct (utf8_encode s) as [bs|]; [|done]. intros [= <-].
    by rewrite (decode_char c), (IH bs).
Qed.

Lemma enc_char_ascii c : (c < 128)%N → enc_char c = Some [c].
Proof. intros. unfold enc_char. by destruct (N.ltb_spec c 128); [|lia]. Qed.

(** Only an ASCII character puts an ASCII byte into its encoding. *)
Lemma enc_char_low c b x : enc_char c = Some b → x ∈ b → (x < 128)%N → b = [c] ∧ x = c.
Proof.
  unfold enc_char. destruct (N.ltb_spec c 128).
  { intros [= <-] ->%list_elem_of_singleton _. done. }
  destruct (N.ltb_spec c 2048); [|destruct (N.ltb_spec c 65536)].
  - intros [= <-]. rewrite !elem_of_cons. generalize (c / 64)%N (c mod 64)%N.
    intros ?? [->|[->|[]%not_elem_of_nil]]; lia.
  - destruct (is_surrogate c); [done|]. intros [= <-]. rewrite !elem_of_cons.
    generalize (c / 64 / 64)%N (c / 64 mod 64)%N (c mod 64)%N.
    intros ??? [->|[->|[->|[]%not_elem_of_nil]]]; lia.
  - destruct (N.ltb_spec c 1114112); [|done]. intros [= <-]. rewrite !elem_of_cons.
    generalize (c / 64 / 64 / 64)%N (c / 64 / 64 mod 64)%N (c / 64 mod 64)%N (c mod 64)%N.
    intros ???? [->|[->|[->|[->|[]%not_elem_of_nil]]]]; lia.
Qed.

Lemma utf8_encode_low s b x :
  utf8_encode s = Some b → (x < 128)%N → x ∈ b → x ∈ s.
Proof.
  revert b. induction s as [|c s IH]; intros b; simpl.
  - by intros [= <-].
  - destruct (enc_char c) as [bc|] eqn:Ec; [|done]. simpl.
    destruct (utf8_encode s) as [bs|] eqn:Es; [|done]. intros [= <-] Hx.
    rewrite elem_of_app. intros [Hin|Hin].
    + destruct (enc_char_low c bc x Ec Hin Hx) as [_ ->]. left.
    + right. by eapply IH.
Qed.

Lemma utf8_encode_app s1 s2 b1 b2 :
  utf8_encode s1 = Some b1 → utf8_encode s2 = Some b2 →
  utf8_encode (s1 ++ s2) = Some (b1 ++ b2).
Proof.
  revert b1. induction s1 as [|c s IH]; intros b1; simpl.
  - by intros [= <-].
  - destruct (enc_char c) as [bc|]; [|done]. simpl.
    destruct (utf8_encode s) as [bs|]; [|done]. simpl. intros [= <-] H2.
    rewrite (IH bs) by done. simpl. by rewrite app_assoc.
Qed.

(** A string that is all code points and no surrogate encodes. *)
Definition scalar (c : N) : bool := (c <? 1114112)%N && negb (is_surrogate c).

Lemma enc_char_scalar c : is_Some (enc_char c) ↔ scalar c = true.
Proof.
  unfold enc_char, scalar, is_surrogate. rewrite andb_true_iff, N.ltb_lt, negb_true_iff.
  destruct (N.ltb_spec c 128); [|destruct (N.ltb_spec c 2048);
    [|destruct (N.ltb_spec c 65536); [|destruct (N.ltb_spec c 1114112)]]].
  1-2: split; [|eauto]; intros _; split; [lia|];
       apply andb_false_iff; rewrite !N.leb_gt; lia.
  - destruct (N.leb_spec 55296 c), (N.leb_spec c 57343); simpl; split;
      try (intros; split; [lia|done]); try (by intros [? ?]); eauto.
  - split; [|eauto]. intros _. split; [lia|].
    apply andb_false_iff; rewrite !N.leb_gt; lia.
  - split; [by intros [? ?] | lia].
Qed.

Lemma utf8_encode_scalar s :
  is_Some (utf8_encode s) ↔ Forall (λ c, scalar c = true) s.
Proof.
  induction s as [|c s IH]; simpl; [split; eauto|].
  rewrite Forall_cons, <-IH, <-enc_char_scalar.
  destruct (enc_char c) as [b|]; simpl; [|split; [by intros [? ?] | by intros [[? ?] _]]].
  destruct (utf8_encode s) as [bs|]; simpl; [|split; [by intros [? ?] | by intros [_ [? ?]]]].
  split; eauto.
Qed.

(** The decoder takes the encoding of one character at a time. *)
Lemma decode_step b r s :
  utf8_decode (b :: r) = Some s →
  ∃ c bc r', enc_char c = Some bc ∧ b :: r = bc ++ r' ∧ cons c <$> utf8_decode r' = Some s.
Proof.
  cbn [utf8_decode]. destruct (N.ltb_spec b 128).
  { intros Hd. exists b, [b], r. split_and!; [by apply enc_char_ascii|done|exact Hd]. }
  destruct (N.ltb_spec b 192); [done|].
  destruct (N.ltb_spec b 224).
  { destruct r as [|b1 r']; [done|]. destruct (cont b1) as [x1|] eqn:E1; [|done].
    apply cont_Some in E1 as [-> ?]. cbn [mbind option_bind].
    destruct (N.leb_spec 128 ((b - 192) * 64 + x1)); [|done]. intros Hd.
    destruct (split64_eq (b - 192) x1) as [Hq Hr]; [done|].
    eexists _, _, r'. split_and!; [|shelve|exact Hd]. unfold enc_char. rewrite Hq, Hr. by ncases.
    Unshelve. simpl. repeat f_equal; lia. }
  destruct (N.ltb_spec b 240).
  { destruct r as [|b1 [|b2 r']]; [done..|].
    destruct (cont b1) as [x1|] eqn:E1; [|done]. apply cont_Some in E1 as [-> ?].
    destruct (cont b2) as [x2|] eqn:E2; [|done]. apply cont_Some in E2 as [-> ?].
    cbn [mbind option_bind].
    destruct (N.leb_spec 2048 (((b - 224) * 64 + x1) * 64 + x2)); [|done]. simpl andb.
    destruct (is_surrogate _) eqn:Es; [done|]. intros Hd.
    destruct (split64_eq ((b - 224) * 64 + x1) x2) as [Hq Hr]; [done|].
    destruct (split64_eq (b - 224) x1) as [Hq' Hr']; [done|].
    eexists _, _, r'. split_and!; [|shelve|exact Hd].
    unfold enc_char. rewrite Es, Hq, Hr, Hq', Hr'. by ncases.
    Unshelve. simpl. repeat f_equal; lia. }
  destruct (N.ltb_spec b 248); [|done].
  destruct r as [|b1 [|b2 [|b3 r']]]; [done..|].
  destruct (cont b1) as [x1|] eqn:E1; [|done]. apply cont_Some in E1 as [-> ?].
  destruct (cont b2) as [x2|] eqn:E2; [|done]. apply cont_Some in E2 as [-> ?].
  destruct (cont b3) as [x3|] eqn:E3; [|done]. apply cont_Some in E3 as [-> ?].
  cbn [mbind option_bind]. destruct (_ && _) eqn:Hc; [|done].
  apply andb_true_iff in Hc as [Hc1%N.leb_le Hc2%N.ltb_lt]. intros Hd.
  destruct (split64_eq (((b - 240) * 64 + x1) * 64 + x2) x3) as [Hq Hr]; [done|].
  destruct (split64_eq ((b - 240) * 64 + x1) x2) as [Hq' Hr']; [done|].
  destruct (split64_eq (b - 240) x1) as [Hq'' Hr'']; [done|].
  eexists _, _, r'. split_and!; [|shelve|exact Hd].
  unfold enc_char. rewrite Hq, Hr, Hq', Hr', Hq'', Hr''. by ncases.
  Unshelve. simpl. repeat f_equal; lia.
Qed.

(** Decoding is strict: it accepts nothing but the encoding of its result. *)
Lemma utf8_encode_decode b s : utf8_decode b = Some s → utf8_encode s = Some b.
Proof.
  revert s. induction b as [b IH] using length_ind. intros s Hd.
  destruct b as [|b r]; [by injection Hd as <-|].
  apply decode_step in Hd as (c & bc & r' & Hc & Hb & Hd).
  destruct (utf8_decode r') as [t|] eqn:Er; [|done]. injection Hd as <-.
  assert (bc ≠ []) as Hne.
  { intros ->. revert Hc. unfold enc_char. by repeat case_match. }
  cbn [utf8_encode]. rewrite Hc, Hb. cbn [mbind option_bind].
  rewrite (IH r'); [done| |done]. rewrite Hb, length_app. destruct bc; [done|]. cbn. lia.
Qed.

Example utf8_ex : utf8_encode [104; 20320; 128274]%N
  = Some [104; 228; 189; 160; 240; 159; 148; 146]%N.
Proof. reflexivity. Qed.
