(* ===== verification/Json.v ===== *)
(** * JSON values, [json.dumps] and [json.loads]

    The values a decoded frame is made of, the runtime the Python code runs
    on (clock, random identifiers, float conversion, ...), the compact printer
    that [im/common/codec.py] uses and the ASCII one that
    [im/server/router.py] uses for stored envelopes, and CPython's decoder,
    with the round trip between them. *)

From S2P Require Import Prelude PyStr PyDict Utf8.

(** A float is kept as the text [json.dumps] gives it. *)
Unset Elimination Schemes.
Inductive json :=
| JNull
| JBool (b : bool)
| JInt (z : Z)
| JFloat (text : pystr)
| JStr (s : pystr)
| JList (l : list json)
| JObj (kvs : list (pystr * json)).
Set Elimination Schemes.

(** Structural induction that reaches the elements of lists and objects. *)
Fixpoint json_ind (P : json → Prop) (Hnull : P JNull) (Hbool : ∀ b, P (JBool b))
    (Hint : ∀ z, P (JInt z)) (Hfloat : ∀ t, P (JFloat t)) (Hstr : ∀ s, P (JStr s))
    (Hlist : ∀ l, Forall P l → P (JList l))
    (Hobj : ∀ kvs, Forall (λ kv, P kv.2) kvs → P (JObj kvs)) (j : json) : P j :=
  let rec := json_ind P Hnull Hbool Hint Hfloat Hstr Hlist Hobj in
  match j with
  | JNull => Hnull
  | JBool b => Hbool b
  | JInt z => Hint z
  | JFloat t => Hfloat t
  | JStr s => Hstr s
  | JList l => Hlist l ((fix go l := match l return Forall P l with
      | [] => Forall_nil_2 _
      | x :: l' => Forall_cons_2 _ _ _ (rec x) (go l') end) l)
  | JObj kvs => Hobj kvs ((fix go l := match l return Forall (λ kv, P kv.2) l with
      | [] => Forall_nil_2 _
      | x :: l' => Forall_cons_2 _ _ _ (rec x.2) (go l') end) kvs)
  end.

(** ** What the program takes from its environment

    One value of the class is one run of the interpreter: the n-th random
    identifier, clock reading and salt it hands out, the password hash, and
    the conversions that the platform's C library performs. *)
Class Runtime := {
  rt_uuid : nat → pystr;               (* uuid.uuid4().hex *)
  rt_now : nat → Z;                    (* int(time.time() * 1000) *)
  rt_salt : nat → bytes;               (* secrets.token_bytes *)
  rt_scrypt : bytes → bytes → bytes;   (* hashlib.scrypt(password, salt=..) *)
  rt_float : pystr → pystr;            (* JSON text of float(lexeme) *)
  rt_float_truthy : pystr → bool;      (* bool of that float *)
  rt_float_int : pystr → res Z;        (* int of that float *)
  rt_float_text : pystr → pystr;       (* SQLite's TEXT of that float *)
  rt_repr : json → pystr;              (* repr of a value *)
  rt_depth : nat;                      (* nesting at which the decoder gives up *)
}.

(** ** Truthiness and dictionary access, as Python has them *)

Definition truthy `{Runtime} (j : json) : bool :=
  match j with
  | JNull => false
  | JBool b => b
  | JInt z => negb (z =? 0)%Z
  | JFloat t => rt_float_truthy t
  | JStr s => bool_decide (s ≠ [])
  | JList l => bool_decide (length l ≠ 0)
  | JObj d => bool_decide (length d ≠ 0)
  end.

(** [str(value)]. *)
Definition py_str `{Runtime} (j : json) : pystr :=
  match j with
  | JNull => &"None"
  | JBool true => &"True"
  | JBool false => &"False"
  | JInt z => dec_of_Z z
  | JStr s => s
  | _ => rt_repr j
  end.

(** [data.get(key)], with [None] and an absent key alike. *)
Definition jget (d : list (pystr * json)) (k : pystr) : json :=
  default JNull (dict_get d k).

Definition as_str (j : json) : option pystr :=
  match j with JStr s => Some s | _ => None end.

(** ** Printing *)

Definition hex_digit (n : N) : N := (if n <? 10 then 48 + n else 87 + n)%N.

Definition hex4 (c : N) : pystr :=
  [hex_digit (c / 16 / 16 / 16); hex_digit (c / 16 / 16 mod 16);
   hex_digit (c / 16 mod 16); hex_digit (c mod 16)]%N.

(** One character of a string literal; [asc] is [ensure_ascii]. *)
Definition esc_char (asc : bool) (c : N) : pystr :=
  (if c =? 34 then [92; 34]
   else if c =? 92 then [92; 92]
   else if c =? 10 then [92; 110]
   else if c =? 13 then [92; 114]
   else if c =? 9 then [92; 116]
   else if c =? 12 then [92; 102]
   else if c =? 8 then [92; 98]
   else if c <? 32 then 92 :: 117 :: hex4 c
   else if asc && (126 <? c) then
     if c <? 65536 then 92 :: 117 :: hex4 c
     else 92 :: 117 :: hex4 (55296 + (c - 65536) / 1024) ++
          92 :: 117 :: hex4 (56320 + (c - 65536) mod 1024)
   else [c])%N.

Definition dumps_str (asc : bool) (s : pystr) : pystr :=
  34%N :: (s ≫= esc_char asc) ++ [34%N].

Fixpoint dumps (asc : bool) (j : json) : pystr :=
  match j with
  | JNull => &"null"
  | JBool true => &"true"
  | JBool false => &"false"
  | JInt z => dec_of_Z z
  | JFloat t => t
  | JStr s => dumps_str asc s
  | JList l => 91%N :: join [44%N] (dumps asc <$> l) ++ [93%N]
  | JObj d => 123%N ::
      join [44%N] ((λ kv, dumps_str asc kv.1 ++ 58%N :: dumps asc kv.2) <$> d) ++ [125%N]
  end.

(** ** Parsing

    CPython's C scanner ([_json.c]), strict mode.  The messages are those of
    [JSONDecodeError.msg]. *)

Definition is_json_ws (c : N) : bool :=
  ((c =? 32) || (c =? 9) || (c =? 10) || (c =? 13))%N.

Definition skip_ws (s : pystr) : pystr := lstrip_by is_json_ws s.

Definition json_err {A} (m : string) : res A := Raise (JSONDecodeError (py m)).

Definition hex_val (c : N) : option N :=
  (if (48 <=? c) && (c <=? 57) then Some (c - 48)
   else if (97 <=? c) && (c <=? 102) then Some (c - 87)
   else if (65 <=? c) && (c <=? 70) then Some (c - 55)
   else None)%N.

Definition hex4_val (a b c d : N) : option N :=
  x ← hex_val a; y ← hex_val b; z ← hex_val c; w ← hex_val d;
  Some (((x * 16 + y) * 16 + z) * 16 + w)%N.

Definition is_high (c : N) : bool := ((55296 <=? c) && (c <=? 56319))%N.
Definition is_low (c : N) : bool := ((56320 <=? c) && (c <=? 57343))%N.

Definition esc_val (e : N) : option N :=
  (if e =? 34 then Some 34 else if e =? 92 then Some 92 else if e =? 47 then Some 47
   else if e =? 98 then Some 8 else if e =? 102 then Some 12 else if e =? 110 then Some 10
   else if e =? 114 then Some 13 else if e =? 116 then Some 9 else None)%N.

Definition push {A B} (c : A) (r : res (list A * B)) : res (list A * B) :=
  (λ p, (c :: p.1, p.2)) <$> r.

(** The string literal after its opening quote, and what follows it. *)
Fixpoint scan_string (s : pystr) : res (pystr * pystr) :=
  match s with
  | [] => json_err "Unterminated string starting at"
  | c :: r =>
    if (c =? 34)%N then Ok ([], r)
    else if (c =? 92)%N then
      match r with
      | [] => json_err "Unterminated string starting at"
      | e :: r1 =>
        if (e =? 117)%N then
          match r1 with
          | a :: b :: c' :: d :: ((_ :: _) as r2) =>
            match hex4_val a b c' d with
            | None => json_err "Invalid \uXXXX escape"
            | Some u =>
              if is_high u then
                match r2 with
                | bs :: uu :: a2 :: b2 :: c2 :: d2 :: r3 =>
                  if ((bs =? 92) && (uu =? 117))%N then
                    match hex4_val a2 b2 c2 d2 with
                    | None => json_err "Invalid \uXXXX escape"
                    | Some v =>
                      if is_low v
                      then push (65536 + (u - 55296) * 1024 + (v - 56320))%N (scan_string r3)
                      else push u (scan_string r2)
                    end
                  else push u (scan_string r2)
                | _ => push u (scan_string r2)
                end
              else push u (scan_string r2)
            end
          | _ => json_err "Invalid \uXXXX escape"
          end
        else match esc_val e with
             | Some v => push v (scan_string r1)
             | None => json_err "Invalid \escape"
             end
      end
    else if (c <? 32)%N then json_err "Invalid control character at"
    else push c (scan_string r)
  end.

Fixpoint span_digits (s : pystr) : pystr * pystr :=
  match s with
  | c :: r => if is_digit c then let '(d, r') := span_digits r in (c :: d, r') else ([], s)
  | [] => ([], [])
  end.

(** The fraction and the exponent are read only when a digit follows. *)
Definition scan_frac (s : pystr) : pystr * pystr :=
  match s with
  | c :: r => if (c =? 46)%N then
                match span_digits r with
                | ([], _) => ([], s)
                | (d, r') => (c :: d, r')
                end
              else ([], s)
  | [] => ([], s)
  end.

Definition scan_exp (s : pystr) : pystr * pystr :=
  match s with
  | c :: r =>
    if ((c =? 101) || (c =? 69))%N then
      let '(sg, r1) := match r with
        | g :: r1 => if ((g =? 43) || (g =? 45))%N then ([g], r1) else ([], r)
        | [] => ([], r)
        end in
      match span_digits r1 with
      | ([], _) => ([], s)
      | (d, r') => (c :: sg ++ d, r')
      end
    else ([], s)
  | [] => ([], s)
  end.

(** CPython refuses to convert more digits than this between [int] and text. *)
Definition MAX_INT_DIGITS : nat := 4300.

Definition scan_number `{Runtime} (s : pystr) : res (json * pystr) :=
  let '(neg, s1) := match s with
    | c :: r => if (c =? 45)%N then (true, r) else (false, s)
    | [] => (false, s)
    end in
  match s1 with
  | [] => json_err "Expecting value"
  | c :: r =>
    if negb (is_digit c) then json_err "Expecting value"
    else
      let '(ip, r1) := if (c =? 48)%N then ([c], r) else span_digits s1 in
      let '(fp, r2) := scan_frac r1 in
      let '(ep, r3) := scan_exp r2 in
      if bool_decide (fp = [] ∧ ep = []) then
        if bool_decide (MAX_INT_DIGITS < length ip) then Raise ValueError
        else let n := Z.of_N (digits_to_N 0 ip) in
             Ok (JInt (if neg then - n else n)%Z, r3)
      else Ok (JFloat (rt_float ((if neg then [45%N] else []) ++ ip ++ fp ++ ep)), r3)
  end.

Definition drop_prefix (s p : pystr) : option pystr :=
  if startswith s p then Some (drop (length p) s) else None.

(** The literals that are not numbers or strings, [NaN] and the infinities
    included. *)
Definition scan_literal (s : pystr) : option (json * pystr) :=
  match drop_prefix s (&"null") with Some r => Some (JNull, r) | None =>
  match drop_prefix s (&"true") with Some r => Some (JBool true, r) | None =>
  match drop_prefix s (&"false") with Some r => Some (JBool false, r) | None =>
  match drop_prefix s (&"NaN") with Some r => Some (JFloat (&"NaN"), r) | None =>
  match drop_prefix s (&"Infinity") with Some r => Some (JFloat (&"Infinity"), r) | None =>
  match drop_prefix s (&"-Infinity") with Some r => Some (JFloat (&"-Infinity"), r) | None =>
  None end end end end end end.

(** [fuel] bounds the number of steps and is never the reason to stop
    ([loads_fuel] below); [depth] is the interpreter's limit on nesting. *)
Fixpoint scan_value `{Runtime} (fuel depth : nat) (s : pystr) {struct fuel}
    : res (json * pystr) :=
  match fuel with
  | O => Raise Unmodelled
  | S n =>
    match s with
    | [] => json_err "Expecting value"
    | c :: r =>
      if (c =? 34)%N then '(t, r') ← scan_string r; Ok (JStr t, r')
      else if (c =? 123)%N then
        match depth with
        | O => Raise RecursionError
        | S d =>
          match skip_ws r with
          | c1 :: r1 =>
            if (c1 =? 125)%N then Ok (JObj [], r1)
            else '(kvs, r') ← scan_members n d [] (c1 :: r1); Ok (JObj kvs, r')
          | [] => json_err "Expecting property name enclosed in double quotes"
          end
        end
      else if (c =? 91)%N then
        match depth with
        | O => Raise RecursionError
        | S d =>
          match skip_ws r with
          | c1 :: r1 =>
            if (c1 =? 93)%N then Ok (JList [], r1)
            else '(l, r') ← scan_elems n d (c1 :: r1); Ok (JList l, r')
          | [] => json_err "Expecting value"
          end
        end
      else match scan_literal s with
           | Some p => Ok p
           | None => scan_number s
           end
    end
  end
with scan_members `{Runtime} (fuel depth : nat) (acc : list (pystr * json)) (s : pystr)
    {struct fuel} : res (list (pystr * json) * pystr) :=
  match fuel with
  | O => Raise Unmodelled
  | S n =>
    match s with
    | c :: r =>
      if (c =? 34)%N then
        '(k, r1) ← scan_string r;
        match skip_ws r1 with
        | c2 :: r2 =>
          if (c2 =? 58)%N then
            '(v, r3) ← scan_value n depth (skip_ws r2);
            let acc' := dict_set acc k v in
            match skip_ws r3 with
            | c4 :: r4 =>
              if (c4 =? 125)%N then Ok (acc', r4)
              else if (c4 =? 44)%N then scan_members n depth acc' (skip_ws r4)
              else json_err "Expecting ',' delimiter"
            | [] => json_err "Expecting ',' delimiter"
            end
          else json_err "Expecting ':' delimiter"
        | [] => json_err "Expecting ':' delimiter"
        end
      else json_err "Expecting property name enclosed in double quotes"
    | [] => json_err "Expecting property name enclosed in double quotes"
    end
  end
with scan_elems `{Runtime} (fuel depth : nat) (s : pystr) {struct fuel}
    : res (list json * pystr) :=
  match fuel with
  | O => Raise Unmodelled
  | S n =>
    '(v, r) ← scan_value n depth s;
    match skip_ws r with
    | c1 :: r1 =>
      if (c1 =? 93)%N then Ok ([v], r1)
      else if (c1 =? 44)%N then push v (scan_elems n depth (skip_ws r1))
      else json_err "Expecting ',' delimiter"
    | [] => json_err "Expecting ',' delimiter"
    end
  end.

Definition loads `{Runtime} (s : pystr) : res json :=
  if startswith s [65279%N] then json_err "Unexpected UTF-8 BOM (decode using utf-8-sig)"
  else
    '(v, r) ← scan_value (S (2 * length s)) rt_depth (skip_ws s);
    match skip_ws r with
    | [] => Ok v
    | _ => json_err "Extra data"
    end.

(** One concrete runtime, on which the examples of the development run. *)
Definition plain_runtime : Runtime := {|
  rt_uuid n := &"uuid-" ++ dec_of_N (N.of_nat n);
  rt_now n := (1756684800000 + Z.of_nat n mod 1000000000)%Z;
  rt_salt n := [N.of_nat n];
  rt_scrypt password salt := password ++ salt;
  rt_float t := t;
  rt_float_truthy t := negb (bool_decide (t = &"0.0"));
  rt_float_int t := Raise ValueError;
  rt_float_text t := t;
  rt_repr j := dumps false j;
  rt_depth := 40;
|}.
