(* ===== verification/JsonRoundtrip.v ===== *)
(** * [loads (dumps j) = j]

    For every value without floats whose integers fit CPython's digit limit
    and whose objects have distinct keys, for both printers.  The ASCII printer
    splits astral characters into surrogate pairs that the decoder joins again,
    so it also needs strings without an unjoined pair. *)

From S2P Require Import Prelude PyStr PyDict Utf8 Json JsonFacts.

(** ** String literals *)

Fixpoint no_pairs (s : pystr) : bool :=
  match s with
  | a :: (b :: _) as r => negb (is_high a && is_low b) && no_pairs r
  | _ => true
  end.

Definition str_wf (asc : bool) (s : pystr) : bool :=
  forallb (λ c, c <? 1114112)%N s && (negb asc || no_pairs s).

Lemma split16 (c : N) : ∃ q r, (c = q * 16 + r ∧ r < 16 ∧ c / 16 = q ∧ c mod 16 = r)%N.
Proof.
  exists (c / 16)%N, (c mod 16)%N. split_and!; [|by apply N.mod_lt|done..].
  rewrite (N.div_mod' c 16) at 1. generalize (c / 16)%N (c mod 16)%N. lia.
Qed.

Lemma hex_val_digit n : (n < 16)%N → hex_val (hex_digit n) = Some n.
Proof.
  intros. unfold hex_digit, hex_val. destruct (N.ltb_spec n 10).
  - destruct (N.leb_spec 48 (48 + n)), (N.leb_spec (48 + n) 57); try lia. simpl. f_equal. lia.
  - destruct (N.leb_spec 48 (87 + n)), (N.leb_spec (87 + n) 57); try lia. simpl.
    destruct (N.leb_spec 97 (87 + n)), (N.leb_spec (87 + n) 102); try lia. simpl. f_equal. lia.
Qed.

Lemma hex4_spec c :
  (c < 65536)%N → ∃ x y z w, hex4 c = [x; y; z; w] ∧ hex4_val x y z w = Some c.
Proof.
  intros Hc. unfold hex4. eexists _, _, _, _. split; [done|].
  destruct (split16 c) as (q & r & Ec & Hr & -> & ->).
  destruct (split16 q) as (q2 & r2 & Eq & Hr2 & -> & ->).
  destruct (split16 q2) as (q3 & r3 & Eq2 & Hr3 & -> & ->).
  unfold hex4_val. rewrite !hex_val_digit by lia. simpl. f_equal. lia.
Qed.

(** A [\u] escape of a code unit that does not start a pair. *)
Definition not_low_escape (rest : pystr) : Prop :=
  ∀ a b c d r, rest = 92%N :: 117%N :: a :: b :: c :: d :: r →
    ∃ v, hex4_val a b c d = Some v ∧ is_low v = false.

Lemma scan_unit c x rest :
  (c < 65536)%N → (is_high c = true → not_low_escape (x :: rest)) →
  scan_string (92%N :: 117%N :: hex4 c ++ x :: rest) = push c (scan_string (x :: rest)).
Proof.
  intros Hc Hlow. destruct (hex4_spec c Hc) as (a & b & c' & d & -> & Hv).
  cbn [app]. set (t := x :: rest) in *.
  change (scan_string (92%N :: 117%N :: a :: b :: c' :: d :: t)) with
    (match hex4_val a b c' d with
     | None => json_err "Invalid \uXXXX escape"
     | Some u =>
       if is_high u then
         match t with
         | bs :: uu :: a2 :: b2 :: c2 :: d2 :: r3 =>
           if ((bs =? 92) && (uu =? 117))%N then
             match hex4_val a2 b2 c2 d2 with
             | None => json_err "Invalid \uXXXX escape"
             | Some v =>
               if is_low v
               then push (65536 + (u - 55296) * 1024 + (v - 56320))%N (scan_string r3)
               else push u (scan_string t)
             end
           else push u (scan_string t)
         | _ => push u (scan_string t)
         end
       else push u (scan_string t)
     end).
  rewrite Hv. destruct (is_high c); [|done]. specialize (Hlow eq_refl).
  destruct t as [|bs [|uu [|a2 [|b2 [|c2 [|d2 r3]]]]]]; try done.
  destruct (N.eqb_spec bs 92) as [->|]; [|done].
  destruct (N.eqb_spec uu 117) as [->|]; [|done]. cbn [andb].
  destruct (Hlow a2 b2 c2 d2 r3 eq_refl) as (v & -> & ->). done.
Qed.

Lemma scan_pair c rest :
  (65536 ≤ c < 1114112)%N → rest ≠ [] →
  scan_string (92%N :: 117%N :: hex4 (55296 + (c - 65536) / 1024) ++
               92%N :: 117%N :: hex4 (56320 + (c - 65536) mod 1024) ++ rest)
  = push c (scan_string rest).
Proof.
  intros Hc Hr.
  assert (∃ q r, (c - 65536 = q * 1024 + r ∧ r < 1024 ∧
    (c - 65536) / 1024 = q ∧ (c - 65536) mod 1024 = r)%N) as (q & r & E & Hr2 & -> & ->).
  { eexists _, _. split_and!; [|by apply N.mod_lt|done..].
    rewrite (N.div_mod' (c - 65536) 1024) at 1.
    generalize ((c - 65536) / 1024)%N ((c - 65536) mod 1024)%N. lia. }
  destruct (hex4_spec (55296 + q)) as (a & b & c' & d & -> & Hv); [lia|].
  destruct (hex4_spec (56320 + r)) as (a2 & b2 & c2 & d2 & -> & Hv2); [lia|].
  cbn [app]. destruct rest as [|x rest]; [done|].
  cbn [scan_string N.eqb Pos.eqb]. rewrite Hv.
  assert (is_high (55296 + q) = true) as ->.
  { unfold is_high. apply andb_true_iff. rewrite !N.leb_le. lia. }
  cbn [andb]. rewrite Hv2.
  assert (is_low (56320 + r) = true) as ->.
  { unfold is_low. apply andb_true_iff. rewrite !N.leb_le. lia. }
  f_equal. lia.
Qed.

(** The escape of the first character of a printed string. *)
Lemma esc_not_low c rest :
  is_low c = false → (c < 1114112)%N → not_low_escape (esc_char true c ++ rest).
Proof.
  intros Hl Hc a b c' d r. unfold esc_char.
  repeat match goal with
  | |- context [(c =? ?k)%N] => destruct (N.eqb_spec c k) as [->|]; [by intros|]
  end.
  destruct (N.ltb_spec c 32).
  { destruct (hex4_spec c) as (x & y & z & w & -> & Hv); [lia|]. intros [= -> -> -> -> _]. eauto. }
  destruct (N.ltb_spec 126 c); [|intros [= -> _]; lia]. cbn [andb].
  destruct (N.ltb_spec c 65536).
  { destruct (hex4_spec c) as (x & y & z & w & -> & Hv); [lia|]. intros [= -> -> -> -> _]. eauto. }
  assert ((c - 65536) / 1024 < 1024)%N as Hq by (apply N.Div0.div_lt_upper_bound; lia).
  revert Hq. generalize ((c - 65536) / 1024)%N. intros q Hq.
  destruct (hex4_spec (55296 + q)) as (x & y & z & w & -> & Hv); [lia|].
  intros [= -> -> -> -> _]. eexists. split; [exact Hv|].
  unfold is_low. apply andb_false_iff. rewrite N.leb_gt. lia.
Qed.

Lemma scan_esc_char asc c x rest :
  (c < 1114112)%N →
  (asc = true → is_high c = true → not_low_escape (x :: rest)) →
  scan_string (esc_char asc c ++ x :: rest) = push c (scan_string (x :: rest)).
Proof.
  intros Hc Hlow. unfold esc_char.
  repeat match goal with
  | |- context [(c =? ?k)%N] => destruct (N.eqb_spec c k) as [->|]; [done|]
  end.
  destruct (N.ltb_spec c 32).
  { apply scan_unit; [lia|]. unfold is_high. intros ?%andb_true_iff.
    rewrite !N.leb_le in *. lia. }
  assert (scan_string (c :: x :: rest) = push c (scan_string (x :: rest))) as Hplain.
  { cbn [scan_string]. destruct (N.eqb_spec c 34), (N.eqb_spec c 92), (N.ltb_spec c 32);
      [lia..|done]. }
  destruct asc; [|done]. cbn [andb]. destruct (126 <? c)%N; [|done].
  destruct (N.ltb_spec c 65536); [by apply scan_unit; auto|].
  cbn [app]. rewrite <-!app_assoc. cbn [app]. by apply scan_pair.
Qed.

Lemma scan_dumps_str asc s rest :
  str_wf asc s = true → scan_string ((s ≫= esc_char asc) ++ 34%N :: rest) = Ok (s, rest).
Proof.
  unfold str_wf. rewrite andb_true_iff. intros [Hs Hp]. revert Hs Hp.
  induction s as [|c s IH]; [done|]. cbn [forallb].
  rewrite andb_true_iff, N.ltb_lt. intros [Hc Hs] Hp.
  assert (negb asc || no_pairs s = true) as Hp'.
  { destruct asc; [|done]. destruct s; [done|]. cbn in Hp |- *.
    by apply andb_true_iff in Hp as [_ Hp]. }
  specialize (IH Hs Hp'). rewrite bind_cons, <-app_assoc.
  destruct ((s ≫= esc_char asc) ++ 34%N :: rest) as [|x t] eqn:Ex.
  { by destruct (s ≫= esc_char asc). }
  rewrite scan_esc_char, IH; [done|done|].
  intros -> Hh. rewrite <-Ex. destruct s as [|d s]; [by intros ????? [=]|].
  rewrite bind_cons, <-app_assoc. cbn in Hp. rewrite Hh in Hp.
  apply andb_true_iff in Hp as [Hd%negb_true_iff _]. cbn [forallb] in Hs.
  apply andb_true_iff in Hs as [?%N.ltb_lt _]. by apply esc_not_low.
Qed.

(** ** Numbers *)

(** What can follow a value inside printed JSON. *)
Definition stop (rest : pystr) : Prop :=
  match rest with [] => True | c :: _ => c = 44%N ∨ c = 93%N ∨ c = 125%N end.

Lemma span_digits_app ds rest :
  Forall (λ c, is_digit c = true) ds → stop rest → span_digits (ds ++ rest) = (ds, rest).
Proof.
  intros Hd Hs. induction Hd as [|c ds Hc _ IH]; cbn [app span_digits].
  - destruct rest as [|c rest]; [done|]. by destruct Hs as [-> | [-> | ->]].
  - by rewrite Hc, IH.
Qed.

Lemma scan_tail rest : stop rest → scan_frac rest = ([], rest) ∧ scan_exp rest = ([], rest).
Proof. destruct rest as [|c rest]; [done|]. by intros [-> | [-> | ->]]. Qed.

Section roundtrip.
Context `{Runtime}.

Definition int_wf (z : Z) : bool :=
  bool_decide (length (dec_of_N (Z.abs_N z)) ≤ MAX_INT_DIGITS).

Lemma scan_dec z rest :
  int_wf z = true → stop rest → scan_number (dec_of_Z z ++ rest) = Ok (JInt z, rest).
Proof.
  unfold int_wf. intros Hw%bool_decide_eq_true Hs.
  destruct (scan_tail rest Hs) as [Hf He].
  set (n := Z.abs_N z) in *.
  assert (∃ neg : bool, dec_of_Z z = (if neg then [45%N] else []) ++ dec_of_N n
    ∧ z = (if neg then - Z.of_N n else Z.of_N n)%Z) as (neg & -> & Hz).
  { unfold dec_of_Z. subst n. destruct (Z.ltb_spec z 0); [exists true | exists false];
      (split; [done|lia]). }
  assert (∃ c t, dec_of_N n = c :: t ∧ is_digit c = true ∧ (c = 48%N → t = []))
    as (c & t & E & Hc & H0).
  { pose proof (dec_of_N_digits n) as Hd. destruct (decide (n = 0%N)) as [->|Hn].
    - by eexists _, _.
    - destruct (dec_of_N_head n Hn) as (c & t & E & Hc). rewrite E in Hd.
      apply Forall_cons in Hd as [? _]. eexists _, _. split; [exact E|]. done. }
  pose proof (dec_of_N_digits n) as Hd. pose proof (dec_of_N_correct n) as Hn.
  rewrite E in *. clear E.
  unfold scan_number. assert (c ≠ 45%N) as Hc45 by by intros ->.
  assert (match ((if neg then [45%N] else []) ++ c :: t) ++ rest with
    | [] => (false, ((if neg then [45%N] else []) ++ c :: t) ++ rest)
    | c0 :: r => if (c0 =? 45)%N then (true, r)
                 else (false, ((if neg then [45%N] else []) ++ c :: t) ++ rest)
    end = (neg, (c :: t) ++ rest)) as ->.
  { destruct neg; cbn [app]; [done|]. by destruct (N.eqb_spec c 45). }
  cbn [app]. rewrite Hc. cbn [negb].
  assert ((if (c =? 48)%N then ([c], t ++ rest) else span_digits (c :: t ++ rest))
    = (c :: t, rest)) as ->.
  { destruct (N.eqb_spec c 48) as [->|]; [by rewrite H0|].
    by apply (span_digits_app (c :: t)). }
  rewrite Hf, He. cbn match. rewrite bool_decide_eq_true_2 by done.
  rewrite bool_decide_eq_false_2 by lia. rewrite Hn, Hz. by destruct neg.
Qed.

Lemma scan_literal_dec z rest : scan_literal (dec_of_Z z ++ rest) = None.
Proof.
  assert (∀ n, ∃ c t, dec_of_N n = c :: t ∧ is_digit c = true) as Hhead.
  { intros n. pose proof (dec_of_N_digits n) as Hd. destruct (decide (n = 0%N)) as [->|Hn].
    - by eexists _, _.
    - destruct (dec_of_N_head n Hn) as (c & t & E & Hc). rewrite E in Hd.
      apply Forall_cons in Hd as [? _]. eauto. }
  assert (∀ c k, is_digit c = true → is_digit k = false → (c =? k)%N = false) as Hne.
  { intros c k Hc Hk. apply N.eqb_neq. intros ->. congruence. }
  unfold scan_literal, drop_prefix, dec_of_Z.
  destruct (Hhead (Z.abs_N z)) as (c & t & -> & Hc).
  destruct (z <? 0)%Z; cbn [app]; cbn [py fmap list_fmap]; cbn;
    rewrite ?(Hne c) by done; done.
Qed.

(** ** Values *)

Fixpoint json_wf (asc : bool) (j : json) : bool :=
  match j with
  | JNull | JBool _ => true
  | JInt z => int_wf z
  | JFloat _ => false
  | JStr s => str_wf asc s
  | JList l => forallb (json_wf asc) l
  | JObj d => forallb (λ kv, str_wf asc kv.1 && json_wf asc kv.2) d
              && bool_decide (dict_ok d)
  end.

Fixpoint json_depth (j : json) : nat :=
  match j with
  | JList l => S (foldr (λ x n, json_depth x `max` n) 0 l)
  | JObj d => S (foldr (λ kv n, json_depth kv.2 `max` n) 0 d)
  | _ => 0
  end.

(** No printed value starts with white space or a closing bracket. *)
Lemma dumps_head asc j :
  json_wf asc j = true →
  ∃ c t, dumps asc j = c :: t ∧ is_json_ws c = false ∧ c ≠ 93%N ∧ c ≠ 125%N.
Proof.
  destruct j as [|[]|z|t|s|l|d]; cbn [dumps json_wf]; intros; try done;
    try (eexists _, _; split; [done|]; done).
  assert (∃ c t, dec_of_Z z = c :: t ∧ (c = 45%N ∨ is_digit c = true)) as (c & t & -> & Hc).
  { pose proof (dec_of_N_digits (Z.abs_N z)) as Hd. unfold dec_of_Z.
    destruct (z <? 0)%Z; [eauto|].
    destruct (decide (Z.abs_N z = 0%N)) as [->|Hn]; [eexists _, _; split; [done|]; by right|].
    destruct (dec_of_N_head _ Hn) as (c & t & E & _). rewrite E in *.
    apply Forall_cons in Hd as [? _]. eauto. }
  eexists _, _. split; [done|]. destruct Hc as [->|Hc]; [done|].
  unfold is_digit in Hc. apply andb_true_iff in Hc as [?%N.leb_le ?%N.leb_le].
  unfold is_json_ws. rewrite !orb_false_iff, !N.eqb_neq. lia.
Qed.

Lemma skip_ws_cons c t : is_json_ws c = false → skip_ws (c :: t) = c :: t.
Proof. unfold skip_ws. cbn [lstrip_by]. by intros ->. Qed.

Lemma skip_ws_dumps asc j rest :
  json_wf asc j = true → skip_ws (dumps asc j ++ rest) = dumps asc j ++ rest.
Proof.
  intros (c & t & -> & Hc & _)%dumps_head. cbn [app]. by apply skip_ws_cons.
Qed.

Lemma skip_ws_stop rest : stop rest → skip_ws rest = rest.
Proof.
  destruct rest as [|c rest]; [done|]. intros Hs. apply skip_ws_cons.
  by destruct Hs as [-> | [-> | ->]].
Qed.

Lemma join_head {A} sep (f : A → pystr) x l c t rest :
  f x = c :: t → ∃ t', join sep (f <$> x :: l) ++ rest = c :: t'.
Proof.
  intros E. rewrite fmap_cons. destruct (f <$> l); cbn [join]; rewrite E; cbn [app]; eauto.
Qed.

(** The statement proved by induction on the value. *)
Definition reads_back (asc : bool) (j : json) : Prop :=
  json_wf asc j = true → ∀ n d rest, 2 * length (dumps asc j ++ rest) < n →
    json_depth j ≤ d → stop rest →
    scan_value n d (dumps asc j ++ rest) = Ok (j, rest).

Lemma elems_back asc l :
  Forall (reads_back asc) l → l ≠ [] → forallb (json_wf asc) l = true →
  ∀ n d rest, S (2 * length (join [44%N] (dumps asc <$> l) ++ 93%N :: rest)) < n →
    Forall (λ j, json_depth j ≤ d) l →
    scan_elems n d (join [44%N] (dumps asc <$> l) ++ 93%N :: rest) = Ok (l, rest).
Proof.
  induction 1 as [|j l Hj Hl IH]; [done|]. intros _ Hwf n d rest Hn Hd.
  cbn [forallb] in Hwf. apply andb_true_iff in Hwf as [Hwj Hwl].
  apply Forall_cons in Hd as [Hdj Hdl].
  destruct n as [|n]; [lia|]. cbn [scan_elems].
  destruct l as [|j2 l].
  - cbn [fmap list_fmap join] in *.
    rewrite (Hj Hwj n d (93%N :: rest)); [done|simpl in *; lia|done|simpl; auto].
  - rewrite !fmap_cons in *.
    change (join [44%N] (dumps asc j :: dumps asc j2 :: (dumps asc <$> l)))
      with (dumps asc j ++ 44%N :: join [44%N] (dumps asc j2 :: (dumps asc <$> l))) in *.
    rewrite <-fmap_cons in *. rewrite <-app_assoc in *. cbn [app] in *.
    rewrite (Hj Hwj n d); [|lia|done|simpl; auto].
    cbn [mbind res_bind]. rewrite skip_ws_cons by done. cbn [N.eqb Pos.eqb].
    assert (skip_ws (join [44%N] (dumps asc <$> j2 :: l) ++ 93%N :: rest)
      = join [44%N] (dumps asc <$> j2 :: l) ++ 93%N :: rest) as ->.
    { cbn [forallb] in Hwl. apply andb_true_iff in Hwl as [Hw2 _].
      destruct (dumps_head _ _ Hw2) as (c & t & E & Hc & _).
      destruct (join_head [44%N] _ j2 l c t (93%N :: rest) E) as [t' ->]. by apply skip_ws_cons. }
    rewrite IH; [done|done|done| |done].
    rewrite length_app in Hn. simpl in Hn |- *. lia.
Qed.

Lemma members_back asc (kvs : list (pystr * json)) :
  Forall (λ kv, reads_back asc kv.2) kvs → kvs ≠ [] →
  forallb (λ kv, str_wf asc kv.1 && json_wf asc kv.2) kvs = true →
  ∀ acc n d rest,
    let text := join [44%N]
      ((λ kv, dumps_str asc kv.1 ++ 58%N :: dumps asc kv.2) <$> kvs) ++ 125%N :: rest in
    2 * length text < n → Forall (λ kv, json_depth kv.2 ≤ d) kvs →
    dict_ok (acc ++ kvs) → scan_members n d acc text = Ok (acc ++ kvs, rest).
Proof.
  induction 1 as [|[k j] kvs Hj Hl IH]; [done|]. intros _ Hwf acc n d rest text Hn Hd Hok.
  cbn [forallb fst snd] in Hwf, Hj.
  apply andb_true_iff in Hwf as [[Hwk Hwj]%andb_true_iff Hwl].
  apply Forall_cons in Hd as [Hdj Hdl]. cbn [snd] in Hdj.
  assert (k ∉ dict_keys acc) as Hk.
  { unfold dict_ok, dict_keys in Hok. rewrite fmap_app in Hok.
    apply NoDup_app in Hok as (_ & Hdis & _). intros Hin. apply (Hdis k Hin). left. }
  assert (∃ tail, text = 34%N :: (k ≫= esc_char asc) ++ 34%N :: 58%N :: dumps asc j ++ tail
    ∧ ((kvs = [] ∧ tail = 125%N :: rest) ∨
       (kvs ≠ [] ∧ tail = 44%N :: join [44%N]
         ((λ kv, dumps_str asc kv.1 ++ 58%N :: dumps asc kv.2) <$> kvs) ++ 125%N :: rest)))
    as (tail & Et & Htail).
  { subst text. destruct kvs as [|kv kvs].
    - exists (125%N :: rest). split; [|by left]. cbn [fmap list_fmap join fst snd].
      unfold dumps_str. repeat (rewrite <-app_assoc || cbn [app]). done.
    - eexists. split; [|right; split; [done|reflexivity]].
      rewrite (fmap_cons _ (k, j)). cbn [fst snd].
      set (l := _ <$> kv :: kvs). assert (∃ x l', l = x :: l') as (x & l' & ->) by eauto.
      cbn [join]. unfold dumps_str.
      repeat (rewrite <-app_assoc || cbn [app]). done. }
  clearbody text. subst text. destruct n as [|n]; [lia|]. cbn [scan_members N.eqb Pos.eqb].
  rewrite scan_dumps_str by done. cbn [mbind res_bind]. rewrite skip_ws_cons by done.
  cbn [N.eqb Pos.eqb]. rewrite skip_ws_dumps by done.
  assert (stop tail) as Hs by (destruct Htail as [[_ ->]|[_ ->]]; simpl; auto).
  cbn [length] in Hn. rewrite length_app in Hn. cbn [length] in Hn.
  rewrite (Hj Hwj n d tail); [|lia|done|done].
  cbn [mbind res_bind]. rewrite skip_ws_stop by done.
  rewrite dict_set_fresh by done.
  destruct Htail as [[-> ->]|[Hne ->]]; [done|]. cbn [N.eqb Pos.eqb].
  set (t2 := join _ _ ++ _) in *.
  assert (skip_ws t2 = t2) as ->.
  { subst t2. destruct kvs as [|kv kvs]; [done|].
    destruct (join_head [44%N] (λ kv, dumps_str asc kv.1 ++ 58%N :: dumps asc kv.2)
      kv kvs _ _ (125%N :: rest) eq_refl) as [t ->]. by apply skip_ws_cons. }
  specialize (IH Hne Hwl (acc ++ [(k, j)]) n d rest). cbn zeta in IH. fold t2 in IH.
  rewrite length_app in Hn. cbn [length] in Hn.
  rewrite IH; [by rewrite <-app_assoc|lia|done|by rewrite <-app_assoc].
Qed.

Lemma depth_list l d : foldr (λ x n, json_depth x `max` n) 0 l ≤ d →
  Forall (λ j, json_depth j ≤ d) l.
Proof. induction l; simpl; constructor; [lia|apply IHl; lia]. Qed.

Lemma depth_obj (l : list (pystr * json)) d :
  foldr (λ kv n, json_depth kv.2 `max` n) 0 l ≤ d → Forall (λ kv, json_depth kv.2 ≤ d) l.
Proof. induction l; simpl; constructor; [lia|apply IHl; lia]. Qed.

Lemma int_back asc z : reads_back asc (JInt z).
Proof.
  intros Hwf n d rest Hn Hd Hs. cbn [json_wf] in Hwf. destruct n as [|n]; [lia|].
  destruct (dumps_head asc (JInt z) Hwf) as (c & t & E & Hc).
  pose proof (scan_literal_dec z rest) as Hlit. pose proof (scan_dec z rest Hwf Hs) as Hnum.
  cbn [dumps] in E |- *. rewrite E in *. cbn [app scan_value] in *.
  assert (c = 45%N ∨ is_digit c = true) as Hd'.
  { unfold scan_number in Hnum. destruct (N.eqb_spec c 45); [by left|].
    destruct (is_digit c); [by right|done]. }
  rewrite Hlit, Hnum. destruct Hd' as [->|Hd']; [done|].
  assert (c ≠ 34 ∧ c ≠ 123 ∧ c ≠ 91)%N as (H1 & H2 & H3)
    by (split_and!; by intros ->).
  by rewrite (proj2 (N.eqb_neq _ _) H1), (proj2 (N.eqb_neq _ _) H2),
    (proj2 (N.eqb_neq _ _) H3).
Qed.

Lemma value_back asc j : reads_back asc j.
Proof.
  induction j as [|[]|z|t|s|l IH|kvs IH] using json_ind; intros Hwf n d rest Hn Hd Hs;
    cbn [json_wf] in Hwf; try done;
    (destruct n as [|n]; [lia|]).
  - done.
  - done.
  - done.
  - by apply (int_back asc z).
  - cbn [dumps]. unfold dumps_str. cbn [app]. rewrite <-app_assoc.
    cbn [scan_value N.eqb Pos.eqb app]. by rewrite scan_dumps_str.
  - cbn [dumps json_depth] in *. destruct d as [|d]; [lia|].
    apply le_S_n, depth_list in Hd. cbn [app] in *. rewrite <-app_assoc in *.
    cbn [scan_value N.eqb Pos.eqb app] in *.
    destruct l as [|j l]; [done|].
    assert (∃ c t, join [44%N] (dumps asc <$> j :: l) ++ 93%N :: rest = c :: t
      ∧ is_json_ws c = false ∧ c ≠ 93%N) as (c & t & E & Hc & Hc').
    { cbn [forallb] in Hwf. apply andb_true_iff in Hwf as [Hw _].
      destruct (dumps_head _ _ Hw) as (c & t & E & Hc & Hc' & _).
      destruct (join_head [44%N] _ j l c t (93%N :: rest) E) as [t' ->]. eauto. }
    rewrite E, skip_ws_cons by done.
    destruct (N.eqb_spec c 93) as [?|_]; [done|]. rewrite <-E.
    rewrite elems_back; [done|done|done|done| |done]. simpl in Hn |- *. lia.
  - cbn [dumps json_depth] in *. destruct d as [|d]; [lia|].
    apply andb_true_iff in Hwf as [Hwf Hok%bool_decide_eq_true].
    apply le_S_n, depth_obj in Hd. cbn [app] in *. rewrite <-app_assoc in *.
    cbn [scan_value N.eqb Pos.eqb app] in *.
    destruct kvs as [|[k j] kvs]; [done|].
    pose proof (members_back asc ((k, j) :: kvs) IH ltac:(done) Hwf [] n d rest) as Hm.
    cbn zeta in Hm. set (t2 := join _ _ ++ _) in *.
    assert (∃ t, t2 = 34%N :: t) as [t E].
    { exact (join_head [44%N] (λ kv, dumps_str asc kv.1 ++ 58%N :: dumps asc kv.2)
        (k, j) kvs _ _ (125%N :: rest) eq_refl). }
    rewrite E in *. rewrite skip_ws_cons by done. cbn [N.eqb Pos.eqb].
    rewrite Hm; [done| |done|done]. simpl in Hn |- *. lia.
Qed.

(** [loads] undoes [dumps], with either [ensure_ascii]. *)
Lemma loads_dumps asc j :
  json_wf asc j = true → json_depth j ≤ rt_depth → loads (dumps asc j) = Ok j.
Proof.
  intros Hwf Hd. unfold loads.
  assert (startswith (dumps asc j) [65279%N] = false) as ->.
  { destruct j as [|[]|z|t|s|l|d]; try done.
    pose proof (scan_dec z [] Hwf I) as Hn. rewrite app_nil_r in Hn.
    cbn [dumps]. destruct (dec_of_Z z) as [|c t]; [done|]. cbn.
    destruct (N.eqb_spec c 65279) as [->|]; done. }
  pose proof (skip_ws_dumps asc j [] Hwf) as Hs.
  pose proof (value_back asc j Hwf (S (2 * length (dumps asc j))) rt_depth []) as Hv.
  rewrite !app_nil_r in *. rewrite Hs, Hv; [done|lia|done|done].
Qed.
End roundtrip.
