(* ===== verification/PyInt.v ===== *)
(** * [int(value)] of a decoded JSON value *)

From S2P Require Import Prelude PyStr Json.

(** The digits of an integer literal, single underscores between them allowed. *)
Fixpoint int_digits (acc : N) (after_digit : bool) (s : pystr) : option N :=
  match s with
  | [] => if after_digit then Some acc else None
  | c :: s' =>
    if is_digit c then int_digits (10 * acc + (c - 48)) true s'
    else if (c =? 95)%N && after_digit then int_digits acc false s'
    else None
  end.

Definition int_of_str (s : pystr) : res Z :=
  let t := strip s in
  if bool_decide (Exists (λ c, 128 ≤ c)%N t) then Raise Unmodelled   (* other scripts' digits *)
  else if bool_decide (4300 < length (filter (λ c, is_digit c) t)) then Raise ValueError
  else
    let '(neg, ds) := match t with
                      | 45%N :: t' => (true, t')
                      | 43%N :: t' => (false, t')
                      | _ => (false, t)
                      end in
    match int_digits 0 false ds with
    | Some n => Ok (if neg then (- Z.of_N n)%Z else Z.of_N n)
    | None => Raise ValueError
    end.

Definition py_int `{Runtime} (j : json) : res Z :=
  match j with
  | JInt z => Ok z
  | JBool b => Ok (if b then 1 else 0)%Z
  | JFloat t => rt_float_int t
  | JStr s => int_of_str s
  | JNull | JList _ | JObj _ => Raise TypeError
  end.
