(* ===== verification/Frames.v ===== *)
(** * Frames

    [im/common/frames.py]: the frame types, the [Frame] dataclass, its
    dictionary form and the validation of a decoded object.  Nothing validates
    the addressing fields, so they hold any JSON value; [None] is [JNull]. *)

From S2P Require Import Prelude PyStr PyDict Json.

Definition PROTOCOL_VERSION : Z := 1.

Inductive MessageType :=
| REGISTER | LOGIN | GET_KEY | MSG | CREATE_ROOM | JOIN | LEAVE | INVITE
| ADD_CONTACT | REMOVE_CONTACT | TYPING | RECEIPT | HISTORY | PING
| OK | ERROR | LOGIN_OK | KEY | ACK | ROOM_STATE | CONTACTS | HISTORY_RESULT
| PONG | PRESENCE.

#[export] Instance MessageType_eq_dec : EqDecision MessageType.
Proof. solve_decision. Defined.

Definition type_value (t : MessageType) : pystr :=
  match t with
  | REGISTER => &"REGISTER" | LOGIN => &"LOGIN" | GET_KEY => &"GET_KEY" | MSG => &"MSG"
  | CREATE_ROOM => &"CREATE_ROOM" | JOIN => &"JOIN" | LEAVE => &"LEAVE"
  | INVITE => &"INVITE" | ADD_CONTACT => &"ADD_CONTACT"
  | REMOVE_CONTACT => &"REMOVE_CONTACT" | TYPING => &"TYPING" | RECEIPT => &"RECEIPT"
  | HISTORY => &"HISTORY" | PING => &"PING" | OK => &"OK" | ERROR => &"ERROR"
  | LOGIN_OK => &"LOGIN_OK" | KEY => &"KEY" | ACK => &"ACK" | ROOM_STATE => &"ROOM_STATE"
  | CONTACTS => &"CONTACTS" | HISTORY_RESULT => &"HISTORY_RESULT" | PONG => &"PONG"
  | PRESENCE => &"PRESENCE"
  end.

Definition all_types : list MessageType :=
  [REGISTER; LOGIN; GET_KEY; MSG; CREATE_ROOM; JOIN; LEAVE; INVITE; ADD_CONTACT;
   REMOVE_CONTACT; TYPING; RECEIPT; HISTORY; PING; OK; ERROR; LOGIN_OK; KEY; ACK;
   ROOM_STATE; CONTACTS; HISTORY_RESULT; PONG; PRESENCE].

(** [MessageType(raw)]: the member with this value. *)
Definition type_of_value (j : json) : option MessageType :=
  s ← as_str j; head (filter (λ t, type_value t = s) all_types).

Definition RESERVED : list pystr :=
  [&"v"; &"id"; &"type"; &"ts"; &"from"; &"to"; &"body"; &"n"].

Definition reserved (k : pystr) : bool := bool_decide (k ∈ RESERVED).

Record Frame := mkFrame {
  f_type : MessageType;
  f_sender : json;
  f_to : json;
  f_body : json;
  f_nonce : json;
  f_data : list (pystr * json);
  f_id : json;
  f_ts : Z;
  f_v : json;
}.

(** Append a field unless it is [None]. *)
Definition put_field (k : pystr) (v : json) (out : list (pystr * json)) :=
  match v with JNull => out | _ => dict_set out k v end.

Fixpoint put_data `{Runtime} (data out : list (pystr * json)) : res (list (pystr * json)) :=
  match data with
  | [] => Ok out
  | (k, v) :: data' =>
    if reserved k
    then Raise (ProtocolError (&"data key " ++ rt_repr (JStr k) ++
                               &" collides with a reserved field"))
    else put_data data' (dict_set out k v)
  end.

Definition to_dict `{Runtime} (f : Frame) : res (list (pystr * json)) :=
  let out := [(&"v", f_v f); (&"id", f_id f);
              (&"type", JStr (type_value (f_type f))); (&"ts", JInt (f_ts f))] in
  put_data (f_data f)
    (put_field (&"n") (f_nonce f) (put_field (&"body") (f_body f)
      (put_field (&"to") (f_to f) (put_field (&"from") (f_sender f) out)))).

(** [version == 1], which Python also grants to [True] and [1.0]. *)
Definition is_version (j : json) : bool :=
  match j with
  | JInt z => (z =? PROTOCOL_VERSION)%Z
  | JBool b => b
  | JFloat t => bool_decide (t = &"1.0")
  | _ => false
  end.

(** [Frame.from_dict]; [now] and [fresh] are the [now_ms()] and [new_id()] of
    this call. *)
Definition from_dict `{Runtime} (now : Z) (fresh : pystr) (raw : json) : res Frame :=
  match raw with
  | JObj d =>
    let version := default (JInt PROTOCOL_VERSION) (dict_get d (&"v")) in
    if negb (is_version version) then
      Raise (ProtocolError (&"unsupported protocol version " ++ rt_repr version))
    else
      let raw_type := jget d (&"type") in
      match raw_type with
      | JNull => Raise (ProtocolError (&"frame has no type"))
      | _ =>
        match type_of_value raw_type with
        | None => Raise (ProtocolError (&"unknown frame type " ++ rt_repr raw_type))
        | Some message_type =>
          match default (JInt now) (dict_get d (&"ts")) with
          | JInt ts =>
            let id := jget d (&"id") in
            Ok (mkFrame message_type (jget d (&"from")) (jget d (&"to")) (jget d (&"body"))
                  (jget d (&"n")) (filter (λ kv, reserved kv.1 = false) d)
                  (if truthy id then id else JStr fresh) ts version)
          | _ => Raise (ProtocolError (&"ts must be an integer"))
          end
        end
      end
  | _ => Raise (ProtocolError (&"frame must be a JSON object"))
  end.

(** The constructor's keyword call for a frame that carries only data. *)
Definition data_frame (t : MessageType) (to : json) (data : list (pystr * json))
    (id : pystr) (ts : Z) : Frame :=
  mkFrame t JNull to JNull JNull data (JStr id) ts (JInt PROTOCOL_VERSION).

Definition error_data (code message : pystr) : list (pystr * json) :=
  [(&"code", JStr code); (&"message", JStr message)].

Definition error (code message : pystr) (id : pystr) (ts : Z) : Frame :=
  data_frame ERROR JNull (error_data code message) id ts.

(** ** Facts *)

Lemma type_of_value_value t : type_of_value (JStr (type_value t)) = Some t.
Proof. by destruct t; vm_compute. Qed.

Lemma type_of_value_inv j t : type_of_value j = Some t → j = JStr (type_value t).
Proof.
  unfold type_of_value. destruct (as_str j) as [s|] eqn:Ej; [|done]. cbn [mbind option_bind].
  intros Ht%head_Some_elem_of. apply list_elem_of_filter in Ht as [<- _].
  by destruct j; simplify_eq/=.
Qed.

Section to_dict.
Context `{Runtime}.

Lemma put_data_ok data out :
  Forall (λ kv, reserved kv.1 = false) data → dict_ok (out ++ data) →
  put_data data out = Ok (out ++ data).
Proof.
  revert out. induction data as [|[k v] data IH]; intros out Hr Hok.
  { by rewrite app_nil_r. }
  apply Forall_cons in Hr as [Hk Hr]. cbn [put_data]. cbn [fst] in Hk. rewrite Hk.
  assert (k ∉ dict_keys out).
  { unfold dict_ok, dict_keys in Hok. rewrite fmap_app in Hok.
    apply NoDup_app in Hok as (_ & Hd & _). intros Hin. apply (Hd k Hin). left. }
  rewrite dict_set_fresh by done.
  rewrite IH, <-app_assoc; [done|done|]. by rewrite <-app_assoc.
Qed.

(** A data key that is reserved is refused. *)
Lemma put_data_reserved data out k v :
  (k, v) ∈ data → reserved k = true → ∃ m, put_data data out = Raise (ProtocolError m).
Proof.
  revert out. induction data as [|[k' v'] data IH]; intros out; [set_solver|].
  cbn [put_data]. intros [[= <- <-]|Hin]%elem_of_cons Hk.
  - rewrite Hk. eauto.
  - destruct (reserved k'); eauto.
Qed.

(** The optional fields, in wire order. *)
Definition opt_field (k : pystr) (v : json) : list (pystr * json) :=
  match v with JNull => [] | _ => [(k, v)] end.

Definition fields (f : Frame) : list (pystr * json) :=
  [(&"v", f_v f); (&"id", f_id f); (&"type", JStr (type_value (f_type f)));
   (&"ts", JInt (f_ts f))] ++
  opt_field (&"from") (f_sender f) ++ opt_field (&"to") (f_to f) ++
  opt_field (&"body") (f_body f) ++ opt_field (&"n") (f_nonce f).

Lemma fields_reserved f : Forall (λ kv, reserved kv.1 = true) (fields f).
Proof.
  unfold fields, opt_field. rewrite !Forall_app.
  split_and!; repeat case_match; repeat constructor.
Qed.

Lemma put_field_fresh k v out :
  k ∉ dict_keys out → put_field k v out = out ++ opt_field k v.
Proof.
  intros Hk. unfold put_field, opt_field. destruct v; rewrite ?app_nil_r;
    by rewrite ?dict_set_fresh.
Qed.

Lemma to_dict_eq f : to_dict f = put_data (f_data f) (fields f).
Proof.
  unfold to_dict, fields, put_field, opt_field.
  by destruct (f_sender f), (f_to f), (f_body f), (f_nonce f).
Qed.

(** What a frame must satisfy to travel. *)
Definition frame_ok (f : Frame) : Prop :=
  is_version (f_v f) = true ∧ truthy (f_id f) = true ∧ dict_ok (f_data f) ∧
  Forall (λ kv, reserved kv.1 = false) (f_data f).

Lemma fields_data_ok f : frame_ok f → dict_ok (fields f ++ f_data f).
Proof.
  intros (_ & _ & Hok & Hr). unfold dict_ok, dict_keys in *. rewrite fmap_app.
  apply NoDup_app. split_and!; [| |done].
  - unfold fields, opt_field.
    destruct (f_sender f), (f_to f), (f_body f), (f_nonce f);
      apply (bool_decide_unpack _); vm_compute; done.
  - intros k (kv & -> & Hf)%list_elem_of_fmap (kv' & Hk & Hd)%list_elem_of_fmap.
    pose proof (fields_reserved f) as Hres. rewrite Forall_forall in Hres, Hr.
    specialize (Hres _ Hf). specialize (Hr _ Hd). congruence.
Qed.

Lemma to_dict_ok f : frame_ok f → to_dict f = Ok (fields f ++ f_data f).
Proof.
  intros Hf. rewrite to_dict_eq. apply put_data_ok; [by destruct Hf as (_ & _ & _ & ?)|].
  by apply fields_data_ok.
Qed.

Lemma get_fields f d k :
  Forall (λ kv, reserved kv.1 = false) d → reserved k = true →
  dict_get (fields f ++ d) k = dict_get (fields f) k.
Proof.
  intros Hd Hk. induction (fields f) as [|[k' v] l IH]; cbn [app dict_get].
  - apply dict_get_None. unfold dict_keys. intros (kv & -> & Hin)%list_elem_of_fmap.
    rewrite Forall_forall in Hd. specialize (Hd _ Hin). congruence.
  - by rewrite IH.
Qed.

Lemma filter_reserved f d :
  Forall (λ kv, reserved kv.1 = false) d →
  filter (λ kv, reserved kv.1 = false) (fields f ++ d) = d.
Proof.
  intros Hd. rewrite filter_app.
  assert (filter (λ kv, reserved kv.1 = false) (fields f) = []) as ->.
  { pose proof (fields_reserved f) as Hr. induction Hr as [|kv l Hkv _ IH]; [done|].
    rewrite filter_cons_False by congruence. done. }
  cbn [app]. induction Hd as [|kv l Hkv _ IH]; [done|].
  by rewrite filter_cons_True, IH.
Qed.

(** The frame read back from its dictionary is the frame. *)
Lemma from_to_dict now fresh f d :
  frame_ok f → to_dict f = Ok d → from_dict now fresh (JObj d) = Ok f.
Proof.
  intros Hf. rewrite to_dict_ok by done. intros <-%Ok_inj.
  destruct Hf as (Hv & Hid & Hok & Hr). unfold from_dict, jget.
  rewrite !get_fields, filter_reserved by done.
  assert (dict_get (fields f) (&"v") = Some (f_v f)) as -> by done.
  assert (dict_get (fields f) (&"id") = Some (f_id f)) as -> by done.
  assert (dict_get (fields f) (&"type") = Some (JStr (type_value (f_type f)))) as -> by done.
  assert (dict_get (fields f) (&"ts") = Some (JInt (f_ts f))) as -> by done.
  cbn [from_option id]. rewrite Hv, Hid, type_of_value_value. cbn [negb].
  destruct f as [t s to b n data id ts v]; cbn [f_type f_sender f_to f_body f_nonce f_data
    f_id f_ts f_v] in *.
  f_equal. f_equal; unfold fields, opt_field; cbn [f_type f_sender f_to f_body f_nonce
    f_data f_id f_ts f_v]; by destruct s, to, b, n.
Qed.
End to_dict.
