(* ===== verification/Codec.v ===== *)
(** * Frames to bytes and back

    [im/common/codec.py]: [encode], [decode] and [LineBuffer].  The facts show
    that [decode] undoes [encode], that an encoded frame is one line, and that
    [LineBuffer] finds the same lines however TCP cuts the stream. *)

From S2P Require Import Prelude PyStr PyDict Utf8 Json JsonFacts JsonRoundtrip Frames.

Definition DELIMITER : N := 10.
Definition MAX_LINE_BYTES : Z := 1024 * 1024.

(** [json.dumps] needs [str] of every integer, which CPython limits. *)
Fixpoint ints_ok (j : json) : bool :=
  match j with
  | JInt z => int_wf z
  | JList l => forallb ints_ok l
  | JObj d => forallb (λ kv, ints_ok kv.2) d
  | _ => true
  end.

Definition encode `{Runtime} (frame : Frame) : res bytes :=
  d ← to_dict frame;
  if negb (ints_ok (JObj d)) then Raise ValueError
  else match utf8_encode (dumps false (JObj d)) with
       | Some wire => Ok (wire ++ [DELIMITER])
       | None => Raise UnicodeEncodeError
       end.

Definition decode `{Runtime} (now : Z) (fresh line : pystr) : res Frame :=
  match loads line with
  | Ok raw => from_dict now fresh raw
  | Raise (JSONDecodeError msg) => Raise (ProtocolError (&"line is not valid JSON: " ++ msg))
  | Raise e => Raise e
  end.

(** ** LineBuffer *)

Record LineBuffer := mkBuffer { lb_buffer : bytes; lb_max : Z }.

Definition new_buffer : LineBuffer := mkBuffer [] MAX_LINE_BYTES.

Definition _decode_utf8 (raw : bytes) : res pystr :=
  match utf8_decode raw with
  | Some s => Ok s
  | None => Raise (ProtocolError (&"line is not valid UTF-8"))
  end.

(** [buffer.find(b"\n")] and the two slices around it. *)
Fixpoint cut_line (b : bytes) : option (bytes * bytes) :=
  match b with
  | [] => None
  | c :: b' => if (c =? DELIMITER)%N then Some ([], b')
               else (λ p, (c :: p.1, p.2)) <$> cut_line b'
  end.

(** [self._decode_utf8(raw).rstrip("\r")]. *)
Definition line_text (raw : bytes) : res pystr :=
  rstrip_by (λ c, c =? 13)%N <$> _decode_utf8 raw.

(** The [while True] loop: the buffer it leaves and the lines, or the error
    raised half way.  Each round drops a byte, so [length buffer] rounds and
    one more are enough. *)
Fixpoint feed_loop (fuel : nat) (buffer : bytes) (lines : list pystr)
    : bytes * res (list pystr) :=
  match fuel with
  | O => (buffer, Raise Unmodelled)
  | S n =>
    match cut_line buffer with
    | None => (buffer, Ok lines)
    | Some (raw, rest) =>
      match line_text raw with
      | Raise e => (rest, Raise e)
      | Ok text => feed_loop n rest (if bool_decide (text = []) then lines else lines ++ [text])
      end
    end
  end.

Definition too_long (max : Z) : exn :=
  ProtocolError (&"line exceeded " ++ dec_of_Z max ++ &" bytes without a newline").

Definition feed (lb : LineBuffer) (chunk : bytes) : LineBuffer * res (list pystr) :=
  let buffer := lb_buffer lb ++ chunk in
  match feed_loop (S (length buffer)) buffer [] with
  | (b, Raise e) => (mkBuffer b (lb_max lb), Raise e)
  | (b, Ok lines) =>
    if (lb_max lb <? Z.of_nat (length b))%Z
    then (mkBuffer [] (lb_max lb), Raise (too_long (lb_max lb)))
    else (mkBuffer b (lb_max lb), Ok lines)
  end.

Definition pending (lb : LineBuffer) : nat := length (lb_buffer lb).

(** What a reader thread does with the chunks it receives, up to the first
    error. *)
Fixpoint feed_all (lb : LineBuffer) (chunks : list bytes) : LineBuffer * res (list pystr) :=
  match chunks with
  | [] => (lb, Ok [])
  | c :: chunks' =>
    match feed lb c with
    | (lb', Raise e) => (lb', Raise e)
    | (lb', Ok l) => let '(lb'', r) := feed_all lb' chunks' in (lb'', app l <$> r)
    end
  end.

(** ** The reference: the complete lines of a byte stream *)

Fixpoint split_stream (b : bytes) : list bytes * bytes :=
  match b with
  | [] => ([], [])
  | c :: b' =>
    let '(ls, r) := split_stream b' in
    if (c =? DELIMITER)%N then ([] :: ls, r)
    else match ls with
         | [] => ([], c :: r)
         | l :: ls' => ((c :: l) :: ls', r)
         end
  end.

(** The non-empty lines, decoded. *)
Definition texts (ls : list bytes) : res (list pystr) :=
  filter (λ t, t ≠ []) <$> mapR line_text ls.

Lemma cut_line_split b :
  split_stream b = match cut_line b with
                   | None => ([], b)
                   | Some (raw, rest) => (raw :: (split_stream rest).1, (split_stream rest).2)
                   end.
Proof.
  induction b as [|c b IH]; [done|]. cbn [split_stream cut_line]. rewrite IH.
  destruct (c =? DELIMITER)%N; [rewrite <-IH; by destruct (split_stream b)|].
  by destruct (cut_line b) as [[raw rest]|].
Qed.

Lemma cut_line_length b raw rest :
  cut_line b = Some (raw, rest) → length b = S (length raw + length rest).
Proof.
  revert raw rest. induction b as [|c b IH]; intros raw rest; cbn [cut_line]; [done|].
  destruct (c =? DELIMITER)%N; [by intros [= <- <-]|].
  destruct (cut_line b) as [[raw' rest']|]; [|done]. intros [= <- <-]. simpl.
  by rewrite (IH raw' rest').
Qed.

Lemma texts_cons raw ls :
  texts (raw :: ls) = match line_text raw with
                      | Raise e => Raise e
                      | Ok t => app (if bool_decide (t = []) then [] else [t]) <$> texts ls
                      end.
Proof.
  unfold texts. cbn [mapR]. destruct (line_text raw) as [t|e]; [|done].
  cbn [mbind res_bind]. destruct (mapR line_text ls) as [ts|e]; [|done].
  cbn [mbind res_bind fmap res_fmap].
  destruct (decide (t = [])) as [->|Ht].
  - rewrite bool_decide_eq_true_2 by done. by rewrite filter_cons_False by tauto.
  - rewrite bool_decide_eq_false_2 by done. by rewrite filter_cons_True.
Qed.

(** The loop finds exactly the reference's lines and keeps its remainder. *)
Lemma feed_loop_spec fuel b lines :
  length b < fuel →
  (feed_loop fuel b lines).2 = app lines <$> texts (split_stream b).1 ∧
  (∀ ls, (feed_loop fuel b lines).2 = Ok ls →
         (feed_loop fuel b lines).1 = (split_stream b).2).
Proof.
  revert b lines. induction fuel as [|n IH]; intros b lines Hn; [lia|].
  cbn [feed_loop]. rewrite cut_line_split.
  destruct (cut_line b) as [[raw rest]|] eqn:E; cbn [fst snd].
  2: { split; [|done]. cbn. by rewrite app_nil_r. }
  apply cut_line_length in E. rewrite texts_cons.
  destruct (line_text raw) as [t|e]; [|done].
  destruct (IH rest (if bool_decide (t = []) then lines else lines ++ [t])) as [H1 H2]; [lia|].
  rewrite H1. split.
  - destruct (texts _) as [ts|e]; [|done]. cbn.
    by destruct (bool_decide _); rewrite <-?app_assoc.
  - intros ls Hls. apply (H2 ls). by rewrite H1.
Qed.

(** ** The functional behaviour of [feed] *)

Lemma feed_ok lb chunk ls r lines :
  split_stream (lb_buffer lb ++ chunk) = (ls, r) → texts ls = Ok lines →
  (Z.of_nat (length r) ≤ lb_max lb)%Z →
  feed lb chunk = (mkBuffer r (lb_max lb), Ok lines).
Proof.
  intros Hs Ht Hr. unfold feed. set (b := lb_buffer lb ++ chunk) in *.
  destruct (feed_loop_spec (S (length b)) b []) as [H1 H2]; [lia|].
  destruct (feed_loop _ b []) as [b' res]. rewrite Hs in *. cbn [fst snd] in *.
  rewrite Ht in H1. cbn in H1. rewrite (H2 lines H1), H1.
  by destruct (Z.ltb_spec (lb_max lb) (Z.of_nat (length r))); [lia|].
Qed.

Lemma feed_ok_inv lb chunk lb' lines :
  feed lb chunk = (lb', Ok lines) →
  lb_max lb' = lb_max lb ∧ (Z.of_nat (length (lb_buffer lb')) ≤ lb_max lb)%Z ∧
  (split_stream (lb_buffer lb ++ chunk)).2 = lb_buffer lb' ∧
  texts (split_stream (lb_buffer lb ++ chunk)).1 = Ok lines.
Proof.
  unfold feed. set (b := lb_buffer lb ++ chunk).
  destruct (feed_loop_spec (S (length b)) b []) as [H1 H2]; [lia|].
  destruct (feed_loop _ b []) as [b' [ls|e]]; [|done]. cbn [fst snd] in *.
  specialize (H2 ls eq_refl).
  destruct (Z.ltb_spec (lb_max lb) (Z.of_nat (length b'))); [done|]. intros [= <- <-].
  cbn [lb_max lb_buffer]. split_and!; [done|done|done|].
  destruct (texts _) as [ts|]; [|done]. cbn in H1. congruence.
Qed.

Lemma split_stream_app a b :
  split_stream (a ++ b) =
    ((split_stream a).1 ++ (split_stream ((split_stream a).2 ++ b)).1,
     (split_stream ((split_stream a).2 ++ b)).2).
Proof.
  induction a as [|c a IH].
  - cbn [app split_stream fst snd]. by destruct (split_stream b).
  - cbn [app split_stream]. rewrite IH. destruct (split_stream a) as [ls r]. cbn [fst snd].
    destruct (c =? DELIMITER)%N eqn:Ec; cbn [fst snd app]; [done|].
    destruct ls as [|l ls]; cbn [fst snd app split_stream]; [|done].
    rewrite Ec. by destruct (split_stream (r ++ b)) as [[|l ls'] r'].
Qed.

Lemma texts_app l1 l2 : texts (l1 ++ l2) = (t1 ← texts l1; app t1 <$> texts l2).
Proof.
  induction l1 as [|raw l1 IH].
  - change (texts []) with (@Ok (list pystr) []). cbn [app mbind res_bind].
    by destruct (texts l2).
  - cbn [app]. rewrite !texts_cons, IH. destruct (line_text raw) as [t|e]; [|done].
    destruct (texts l1) as [t1|e1]; [|done].
    cbn [fmap res_fmap mbind res_bind]. destruct (texts l2) as [t2|e2]; [|done].
    cbn [fmap res_fmap]. by rewrite <-app_assoc.
Qed.

(** Cutting a stream differently changes neither the lines nor what is left. *)
Lemma feed_all_concat lb chunks lb' lines :
  (Z.of_nat (length (lb_buffer lb)) ≤ lb_max lb)%Z →
  (split_stream (lb_buffer lb)).1 = [] →
  feed_all lb chunks = (lb', Ok lines) →
  lb_max lb' = lb_max lb ∧
  split_stream (lb_buffer lb ++ concat chunks) =
    ((split_stream (lb_buffer lb ++ concat chunks)).1, lb_buffer lb') ∧
  texts (split_stream (lb_buffer lb ++ concat chunks)).1 = Ok lines ∧
  (Z.of_nat (length (lb_buffer lb')) ≤ lb_max lb)%Z.
Proof.
  revert lb lb' lines. induction chunks as [|c chunks IH]; intros lb lb' lines Hlen Hbuf.
  - cbn [feed_all concat]. intros [= <- <-]. rewrite app_nil_r. split_and!; try done.
    + rewrite surjective_pairing at 1. f_equal.
      pose proof (cut_line_split (lb_buffer lb)) as Hc. destruct (cut_line _) as [[? ?]|].
      * rewrite Hc in Hbuf. done.
      * by rewrite Hc.
    + by rewrite Hbuf.
  - cbn [feed_all concat]. destruct (feed lb c) as [lb1 [l1|e]] eqn:E1; [|done].
    destruct (feed_all lb1 chunks) as [lb2 [l2|e]] eqn:E2; [|done]. intros [= <- <-].
    apply feed_ok_inv in E1 as (Hm & Hl & Hr & Ht). rewrite <-Hm in Hl.
    assert ((split_stream (lb_buffer lb1)).1 = []) as Hb1.
    { rewrite <-Hr. clear. generalize (lb_buffer lb ++ c). intros b.
      induction b as [|x b IH]; [done|]. cbn [split_stream].
      destruct (split_stream b) as [ls r]. cbn [snd] in IH.
      destruct (x =? DELIMITER)%N eqn:Ex; [done|]. destruct ls as [|l ls]; [|done].
      cbn [snd split_stream]. destruct (split_stream r) as [[|l ls] r']; [|done].
      by rewrite Ex. }
    destruct (IH lb1 lb2 l2 Hl Hb1 E2) as (Hm2 & Hr2 & Ht2 & Hl2).
    rewrite app_assoc, split_stream_app, Hr. cbn [fst snd]. split_and!.
    + by rewrite Hm2, Hm.
    + f_equal. by rewrite Hr2.
    + rewrite texts_app, Ht, Ht2. done.
    + by rewrite <-Hm.
Qed.

(** ** One encoded frame is one line *)

Lemma esc_no_newline asc c : (10%N ∉ esc_char asc c).
Proof.
  assert (∀ n, 48 ≤ hex_digit n)%N as Hdigit.
  { intros n. unfold hex_digit. destruct (n <? 10)%N; lia. }
  assert (∀ n, 10%N ∉ hex4 n) as Hhex.
  { intros n Hin. unfold hex4 in Hin. rewrite !elem_of_cons in Hin.
    destruct Hin as [H|[H|[H|[H|[]%not_elem_of_nil]]]];
      match type of H with _ = hex_digit ?k => specialize (Hdigit k) end;
      rewrite <-H in Hdigit; by destruct Hdigit. }
  intros Hin. unfold esc_char in Hin. repeat case_match;
    rewrite ?elem_of_cons, ?elem_of_app, ?elem_of_cons in Hin;
    repeat match goal with
    | H : _ ∨ _ |- _ => destruct H
    | H : _ ∈ [] |- _ => by apply not_elem_of_nil in H
    | H : _ ∈ hex4 _ |- _ => by apply Hhex in H
    end; try discriminate; by subst.
Qed.

Lemma dumps_str_no_newline asc s : 10%N ∉ dumps_str asc s.
Proof.
  unfold dumps_str. rewrite elem_of_cons, elem_of_app, list_elem_of_bind.
  intros [?|[(c & Hc & _)|?%list_elem_of_singleton]]; [done| |done].
  by apply esc_no_newline in Hc.
Qed.

Lemma join_elem sep (l : list pystr) x : x ∈ join sep l → x ∈ sep ∨ ∃ s, s ∈ l ∧ x ∈ s.
Proof.
  induction l as [|s l IH]; [set_solver|]. destruct l as [|s' l]; [set_solver|].
  change (join sep (s :: s' :: l)) with (s ++ sep ++ join sep (s' :: l)).
  rewrite !elem_of_app. intros [?|[?|Hx]]; [set_solver|set_solver|].
  destruct (IH Hx) as [?|(t & ? & ?)]; set_solver.
Qed.

Lemma dumps_no_newline asc j : json_wf asc j = true → 10%N ∉ dumps asc j.
Proof.
  induction j as [|[]|z|t|s|l IH|d IH] using json_ind; cbn [json_wf dumps]; intros Hwf;
    try done.
  - by apply (bool_decide_unpack (10%N ∉ &"null")).
  - by apply (bool_decide_unpack (10%N ∉ &"true")).
  - by apply (bool_decide_unpack (10%N ∉ &"false")).
  - pose proof (dec_of_N_digits (Z.abs_N z)) as Hd. rewrite Forall_forall in Hd.
    unfold dec_of_Z. destruct (z <? 0)%Z; [rewrite elem_of_cons; intros [?|Hin]; [done|]|intros Hin];
      by apply Hd in Hin.
  - apply dumps_str_no_newline.
  - rewrite elem_of_cons, elem_of_app. intros [?|[Hj|?%list_elem_of_singleton]]; [done| |done].
    apply join_elem in Hj as [?%list_elem_of_singleton|(s & Hs & Hx)]; [done|].
    apply list_elem_of_fmap in Hs as (j & -> & Hj). rewrite forallb_forall in Hwf.
    rewrite Forall_forall in IH. apply (IH j Hj); [|done].
    by apply Hwf, list_elem_of_In.
  - apply andb_true_iff in Hwf as [Hwf _].
    rewrite elem_of_cons, elem_of_app. intros [?|[Hj|?%list_elem_of_singleton]]; [done| |done].
    apply join_elem in Hj as [?%list_elem_of_singleton|(s & Hs & Hx)]; [done|].
    apply list_elem_of_fmap in Hs as (kv & -> & Hj). rewrite forallb_forall in Hwf.
    rewrite Forall_forall in IH. rewrite elem_of_app, elem_of_cons in Hx.
    specialize (Hwf kv (proj1 (list_elem_of_In _ _) Hj)).
    apply andb_true_iff in Hwf as [_ Hwf].
    destruct Hx as [Hx|[?|Hx]]; [by apply dumps_str_no_newline in Hx|done|].
    by apply (IH kv Hj Hwf).
Qed.

(** A frame that can cross the wire: well formed, with printable content that
    is not nested deeper than the receiving decoder goes. *)
Definition wire_ok `{Runtime} (f : Frame) : Prop :=
  frame_ok f ∧ json_wf false (JObj (fields f ++ f_data f)) = true ∧
  json_depth (JObj (fields f ++ f_data f)) ≤ rt_depth.

Section wire.
Context `{Runtime}.

Lemma encode_inv f w :
  frame_ok f → encode f = Ok w →
  ∃ body, w = body ++ [DELIMITER] ∧ utf8_encode (dumps false (JObj (fields f ++ f_data f))) = Some body.
Proof.
  intros Hf. unfold encode. rewrite to_dict_ok by done. cbn [mbind res_bind].
  destruct (ints_ok _); [|done]. cbn [negb].
  destruct (utf8_encode _) as [body|] eqn:E; [|done]. intros <-%Ok_inj. eauto.
Qed.

Lemma dumps_obj_last asc d : last (dumps asc (JObj d)) = Some 125%N.
Proof. cbn [dumps]. by rewrite app_comm_cons, last_snoc. Qed.

(** The line a receiver extracts from one encoded frame is its JSON text. *)
Lemma encode_line f w :
  wire_ok f → encode f = Ok w →
  ∃ body, w = body ++ [DELIMITER] ∧ (DELIMITER ∉ body) ∧
    line_text body = Ok (dumps false (JObj (fields f ++ f_data f))).
Proof.
  intros (Hf & Hwf & _) (body & -> & Hb)%encode_inv; [|done].
  exists body. split_and!; [done| |].
  - intros Hin. eapply utf8_encode_low in Hin; [|exact Hb|done].
    by apply dumps_no_newline in Hin.
  - unfold line_text, _decode_utf8. rewrite (utf8_decode_encode _ _ Hb).
    cbn [fmap res_fmap]. f_equal. apply rstrip_by_id. intros c.
    rewrite dumps_obj_last. by intros [= <-].
Qed.

Lemma decode_dumps now fresh f :
  wire_ok f → decode now fresh (dumps false (JObj (fields f ++ f_data f))) = Ok f.
Proof.
  intros (Hf & Hwf & Hd). unfold decode. rewrite loads_dumps by done.
  apply from_to_dict; [done|]. by apply to_dict_ok.
Qed.

Lemma split_line body rest :
  DELIMITER ∉ body →
  split_stream (body ++ DELIMITER :: rest) =
    (body :: (split_stream rest).1, (split_stream rest).2).
Proof.
  intros Hn. rewrite cut_line_split.
  assert (cut_line (body ++ DELIMITER :: rest) = Some (body, rest)) as ->; [|done].
  induction body as [|c b IH]; [done|]. cbn [app cut_line].
  destruct (N.eqb_spec c DELIMITER) as [->|]; [set_solver|]. by rewrite IH by set_solver.
Qed.

(** The stream of several encoded frames. *)
Lemma split_frames fs ws :
  Forall wire_ok fs → mapR encode fs = Ok ws →
  ∃ bodies, split_stream (concat ws) = (bodies, []) ∧
    texts bodies = Ok ((λ f, dumps false (JObj (fields f ++ f_data f))) <$> fs) ∧
    ws = (λ b, b ++ [DELIMITER]) <$> bodies.
Proof.
  intros Hfs. revert ws. induction Hfs as [|f fs Hf _ IH]; intros ws; cbn [mapR].
  { intros [= <-]. by exists []. }
  destruct (encode f) as [w|] eqn:Ew; [|done]. cbn [mbind res_bind].
  destruct (mapR encode fs) as [ws'|]; [|done]. intros <-%Ok_inj.
  destruct (IH ws' eq_refl) as (bodies & Hs & Ht & ->).
  destruct (encode_line f w Hf Ew) as (body & -> & Hn & Hl).
  exists (body :: bodies). split_and!.
  - cbn [concat]. rewrite <-app_assoc. cbn [app]. by rewrite split_line, Hs.
  - rewrite texts_cons, Hl, Ht.
    rewrite bool_decide_eq_false_2 by (cbn [dumps]; done). done.
  - done.
Qed.

(** ** Progress: short lines never trip the limit *)

Lemma split_no_newline r b :
  (split_stream r).1 = [] →
  split_stream (r ++ b) = match split_stream b with
                          | ([], r') => ([], r ++ r')
                          | (l :: ls, r') => ((r ++ l) :: ls, r')
                          end.
Proof.
  induction r as [|c r IH]; cbn [app split_stream].
  - intros _. by destruct (split_stream b) as [[|l ls] r'].
  - destruct (split_stream r) as [ls r0] eqn:Er.
    destruct (c =? DELIMITER)%N; [done|]. destruct ls; [|done]. intros _.
    rewrite IH by done. by destruct (split_stream b) as [[|l ls] r'].
Qed.

Lemma feed_all_progress lb chunks ls r lines :
  (split_stream (lb_buffer lb)).1 = [] →
  split_stream (lb_buffer lb ++ concat chunks) = (ls, r) → texts ls = Ok lines →
  Forall (λ l, Z.of_nat (length l) ≤ lb_max lb)%Z ls →
  (Z.of_nat (length r) ≤ lb_max lb)%Z →
  ∃ lb' lines', feed_all lb chunks = (lb', Ok lines').
Proof.
  revert lb ls lines. induction chunks as [|c chunks IH]; intros lb ls lines Hb Hs Ht Hl Hr.
  { by eexists _, _. }
  cbn [concat feed_all] in *. rewrite app_assoc, split_stream_app in Hs.
  destruct (split_stream (lb_buffer lb ++ c)) as [l1 r1] eqn:E1. cbn [fst snd] in Hs.
  destruct (split_stream (r1 ++ concat chunks)) as [l2 r2] eqn:E2. cbn [fst snd] in Hs.
  injection Hs as <- <-. rewrite texts_app in Ht.
  destruct (texts l1) as [t1|] eqn:Et1; [|done]. cbn [mbind res_bind] in Ht.
  destruct (texts l2) as [t2|] eqn:Et2; [|done].
  apply Forall_app in Hl as [_ Hl2].
  assert ((split_stream r1).1 = []) as Hr1.
  { pose proof (split_stream_app (lb_buffer lb ++ c) []) as Hsa.
    rewrite !app_nil_r, E1 in Hsa. cbn [fst snd] in Hsa.
    injection Hsa as Hsa _. by apply app_eq_self_r in Hsa || (symmetry in Hsa;
      rewrite <-(app_nil_r l1) in Hsa at 2; by apply app_inv_head in Hsa). }
  assert (Z.of_nat (length r1) ≤ lb_max lb)%Z as Hlen.
  { rewrite split_no_newline in E2 by done.
    destruct (split_stream (concat chunks)) as [[|x ls'] r']; injection E2 as <- <-.
    - rewrite length_app in Hr. lia.
    - apply Forall_cons in Hl2 as [Hx _]. rewrite length_app in Hx. lia. }
  rewrite (feed_ok lb c l1 r1 t1) by done.
  destruct (IH (mkBuffer r1 (lb_max lb)) l2 t2) as (lb' & lines' & ->); eauto.
Qed.

(** The encodings of some frames, in whatever pieces they come, are fed as exactly
    their lines. *)
Lemma frames_fed fs ws chunks :
  Forall wire_ok fs → mapR encode fs = Ok ws →
  Forall (λ w, Z.of_nat (length w) ≤ MAX_LINE_BYTES + 1)%Z ws →
  concat chunks = concat ws →
  feed_all new_buffer chunks =
    (new_buffer, Ok ((λ f, dumps false (JObj (fields f ++ f_data f))) <$> fs)).
Proof.
  intros Hfs Hws Hlen Hc.
  destruct (split_frames fs ws Hfs Hws) as (bodies & Hs & Ht & ->).
  destruct (feed_all_progress new_buffer chunks bodies []
    ((λ f, dumps false (JObj (fields f ++ f_data f))) <$> fs)) as (lb' & lines & E).
  - done.
  - cbn [lb_buffer new_buffer app]. by rewrite Hc.
  - done.
  - cbn [lb_max new_buffer]. rewrite Forall_fmap in Hlen. eapply Forall_impl; [exact Hlen|].
    intros l. cbn [compose]. rewrite length_app. cbn [length]. lia.
  - done.
  - pose proof E as E'. apply feed_all_concat in E as (Hm & Hr & Ht' & _); [|done|done].
    cbn [lb_buffer new_buffer app] in *. rewrite Hc, Hs in *. cbn [fst] in *.
    rewrite Ht in Ht'. apply Ok_inj in Ht' as <-.
    injection Hr as Hr. destruct lb' as [b m]. cbn [lb_buffer lb_max] in *. subst. exact E'.
Qed.

Lemma decode_all now fresh fs :
  Forall wire_ok fs →
  mapR (decode now fresh) ((λ f, dumps false (JObj (fields f ++ f_data f))) <$> fs) = Ok fs.
Proof.
  induction 1 as [|f fs Hf _ IH]; [done|]. rewrite fmap_cons. cbn [mapR].
  rewrite decode_dumps by done. cbn [mbind res_bind]. by rewrite IH.
Qed.

Lemma split_stream_none b : DELIMITER ∉ b → split_stream b = ([], b).
Proof.
  induction b as [|c b IH]; [done|]. intros [Hc Hb]%not_elem_of_cons. cbn [split_stream].
  rewrite IH by done. by destruct (N.eqb_spec c DELIMITER).
Qed.

(** A line that is longer than the limit by more than one chunk is noticed before its
    end has come. *)
Lemma overlong_fed n lb chunks body :
  DELIMITER ∉ body → lb_buffer lb ++ concat chunks = body ++ [DELIMITER] →
  (Z.of_nat (length (lb_buffer lb)) ≤ lb_max lb)%Z → Forall (λ c, length c ≤ n) chunks →
  (lb_max lb + Z.of_nat n ≤ Z.of_nat (length body))%Z →
  ∃ lb' m, feed_all lb chunks = (lb', Raise (ProtocolError m)).
Proof.
  intros Hb Hcat Hlen Hc Hlong. revert lb Hcat Hlen Hlong.
  induction Hc as [|c chunks Hn _ IH]; intros lb Hcat Hlen Hlong.
  { exfalso. rewrite app_nil_r in Hcat. apply (f_equal length) in Hcat.
    rewrite length_app in Hcat. cbn in Hcat. lia. }
  cbn [concat feed_all] in *. rewrite app_assoc in Hcat.
  destruct (decide (concat chunks = [])) as [Hz|Hz].
  { exfalso. rewrite Hz, app_nil_r in Hcat. apply (f_equal length) in Hcat.
    rewrite !length_app in Hcat. cbn in Hcat. lia. }
  assert (DELIMITER ∉ lb_buffer lb ++ c) as Hno.
  { destruct (exists_last Hz) as (l & x & E). rewrite E, app_assoc in Hcat.
    apply app_inj_tail in Hcat as [<- _]. intros Hin. apply Hb, elem_of_app. by left. }
  unfold feed. set (b := lb_buffer lb ++ c) in *.
  destruct (feed_loop_spec (S (length b)) b []) as [H1 H2]; [lia|].
  rewrite (split_stream_none b Hno) in *. cbn [fst snd] in *.
  destruct (feed_loop _ b []) as [b' [ls|e]]; cbn [fst snd] in *; [|done].
  injection H1 as ->. specialize (H2 [] eq_refl) as ->.
  destruct (Z.ltb_spec (lb_max lb) (Z.of_nat (length b))); [by do 2 eexists|].
  destruct (IH (mkBuffer b (lb_max lb))) as (lb' & m & E); [done|done|done|].
  rewrite E. by do 2 eexists.
Qed.

(** C27. Frames survive TCP.  Take any sequence of frames of the kind that can travel:
    of the current version, with an id that is not empty (or otherwise falsy),
    data under distinct names that are no field's, no floats, no integers of more
    than 4300 digits, text without the code points JSON cannot write, and nested
    no deeper than the decoder goes.  Encode them and cut the resulting byte
    stream into chunks in any way (half frames, several frames at once, the
    middle of a character): if no encoded frame exceeds the line limit, then
    feeding the chunks to a fresh [LineBuffer] raises nothing, leaves the buffer
    empty, and decoding the lines it returns gives exactly the frames that were
    sent, in order. *)
Theorem frames_survive_chunking now fresh fs ws chunks :
  Forall wire_ok fs → mapR encode fs = Ok ws →
  Forall (λ w, Z.of_nat (length w) ≤ MAX_LINE_BYTES + 1)%Z ws →
  concat chunks = concat ws →
  ∃ lines, feed_all new_buffer chunks = (new_buffer, Ok lines) ∧
           mapR (decode now fresh) lines = Ok fs.
Proof. intros. eexists. split; [by eapply frames_fed|by apply decode_all]. Qed.
End wire.

(** ** Witness: two frames in three chunks *)

Definition sample_frame (body : string) : Frame :=
  mkFrame MSG (JStr (&"alice")) (JStr (&"bob")) (JStr (py body)) JNull [] (JStr (&"id1")) 7 (JInt 1).

Section witness.
#[local] Existing Instance plain_runtime.

Definition sample_frames : list Frame := [sample_frame "hi"; sample_frame "two"].
Definition sample_wire : list bytes :=
  match mapR encode sample_frames with Ok ws => ws | Raise _ => [] end.
Definition sample_chunks : list bytes :=
  let b := concat sample_wire in [take 20 b; drop 20 (take 90 b); drop 90 b].

Lemma sample_frame_ok body :
  json_wf false (JObj (fields (sample_frame body))) = true → wire_ok (sample_frame body).
Proof.
  intros Hj. split_and!; [split_and!; try done; constructor| |vm_compute; lia].
  by rewrite app_nil_r.
Qed.

Lemma frames_survive_chunking_witness :
  ∃ lines, feed_all new_buffer sample_chunks = (new_buffer, Ok lines) ∧
           mapR (decode 0 []) lines = Ok sample_frames.
Proof.
  apply (frames_survive_chunking 0 [] sample_frames sample_wire sample_chunks).
  - repeat apply Forall_cons_2; try apply Forall_nil_2;
      apply sample_frame_ok; vm_compute; reflexivity.
  - vm_compute; reflexivity.
  - apply (bool_decide_eq_true_1 (Forall _ _)). vm_compute; reflexivity.
  - vm_compute; reflexivity.
Defined.
End witness.
