(* ===== verification/Registries.v ===== *)
(** * The server's registries

    [im/server/registries.py]: who is connected ([SessionRegistry]) and who is
    in which room ([RoomRegistry], in memory), and the interface through which
    the router uses a room store, so that the in-memory and the SQLite one are
    interchangeable. *)

From S2P Require Import Prelude PyStr PyDict Utf8.

(** A connection object, by identity. *)
Abbreviation sid := nat.

(** ** SessionRegistry: [self._by_name], a dict in login order *)

Module Sessions.
Abbreviation t := (list (pystr * sid)).

Definition empty : t := [].

Definition login (r : t) (username : pystr) (session : sid) : t * bool :=
  if dict_has r username then (r, false) else (dict_set r username session, true).

Definition logout (r : t) (username : pystr) : t := dict_del r username.

Definition get (r : t) (username : pystr) : option sid := dict_get r username.

Definition is_online (r : t) (username : pystr) : bool := dict_has r username.

Definition usernames (r : t) : list pystr := sorted (dict_keys r).

Definition others (r : t) (username : pystr) : list sid :=
  (filter (λ p, p.1 ≠ username) r).*2.

Definition len (r : t) : nat := length r.

Lemma login_spec r u s r' b :
  dict_ok r → login r u s = (r', b) →
  dict_ok r' ∧
  (b = true ↔ get r u = None) ∧
  (b = true → get r' u = Some s) ∧
  (∀ u', u' ≠ u → get r' u' = get r u').
Proof.
  unfold login, get. intros Hok. destruct (dict_has r u) eqn:E; intros [= <- <-].
  - apply dict_has_true in E as Hin. split_and!; [done| |done|done].
    rewrite dict_get_None. naive_solver.
  - apply dict_has_false in E. split_and!; auto with dict.
    + by rewrite dict_get_None.
    + intros _. apply dict_get_set_eq.
    + intros. by apply dict_get_set_ne.
Qed.

Lemma logout_spec r u :
  dict_ok r → dict_ok (logout r u) ∧ get (logout r u) u = None ∧
  (∀ u', u' ≠ u → get (logout r u) u' = get r u').
Proof.
  intros. split_and!; [by apply dict_del_ok | by apply dict_get_del_eq |].
  intros. by apply dict_get_del_ne.
Qed.

Lemma elem_of_usernames r u : u ∈ usernames r ↔ is_Some (get r u).
Proof. unfold usernames, get. by rewrite elem_of_sorted, dict_get_is_Some. Qed.

Lemma elem_of_others r u s :
  dict_ok r → s ∈ others r u ↔ ∃ u', u' ≠ u ∧ get r u' = Some s.
Proof.
  intros Hok. unfold others, get. rewrite list_elem_of_fmap. split.
  - intros ([u' s'] & -> & [Hne Hin]%list_elem_of_filter). exists u'.
    split; [done|]. by apply dict_In_get.
  - intros (u' & Hne & Hg). exists (u', s). split; [done|].
    apply list_elem_of_filter. split; [done|]. by apply dict_get_In.
Qed.

(** Logging out what has just logged in restores the registry. *)
Lemma logout_login r u s :
  get r u = None → logout (login r u s).1 u = r.
Proof.
  unfold get, login, logout. intros Hn. apply dict_get_None in Hn.
  assert (dict_has r u = false) as -> by by apply dict_has_false. cbn [fst].
  rewrite dict_set_fresh by done. revert Hn. unfold dict_keys.
  induction r as [|[u' s'] r IH]; cbn [app dict_del]; intros Hn.
  - by rewrite decide_True.
  - rewrite decide_False by set_solver. f_equal. apply IH. set_solver.
Qed.
End Sessions.

(** ** The room-store interface

    The operations the router calls.  They may raise: the SQLite store cannot
    bind a string with a lone surrogate.  [rs_view] is what a store means: the
    rooms that exist and, for each, its members. *)

Class RoomStore (R : Type) := {
  rs_create : R → Z → pystr → res (R * bool);
  rs_join : R → Z → pystr → pystr → res R;
  rs_leave : R → pystr → pystr → res R;
  rs_members : R → pystr → res (gset pystr);
  rs_exists : R → pystr → res bool;
  rs_rooms_of : R → pystr → res (list pystr);
  rs_forget : R → pystr → res R;
}.

(** A string that can be stored. *)
Definition encodable (s : pystr) : Prop := is_Some (utf8_encode s).

#[export] Instance encodable_dec s : Decision (encodable s).
Proof. unfold encodable. apply _. Defined.

Lemma encodable_app a b : encodable a → encodable b → encodable (a ++ b).
Proof. intros [x Hx] [y Hy]. exists (x ++ y). by apply utf8_encode_app. Qed.

(** An integer SQLite can store, as every clock reading before the year
    292278994. *)
Definition int64 (z : Z) : Prop := (- 2 ^ 63 ≤ z ≤ 2 ^ 63 - 1)%Z.

Definition room_members (v : gmap pystr (gset pystr)) (room : pystr) : gset pystr :=
  default ∅ (v !! room).

Class RoomStoreLaws (R : Type) `{RoomStore R} (ok : R → Prop)
    (view : R → gmap pystr (gset pystr)) := {
  rs_create_law r now room : int64 now → ok r → encodable room →
    ∃ r' b, rs_create r now room = Ok (r', b) ∧ ok r' ∧
      b = bool_decide (view r !! room = None) ∧
      view r' = if b then <[room := ∅]> (view r) else view r;
  rs_join_law r now room u : int64 now → ok r → encodable room → encodable u →
    ∃ r', rs_join r now room u = Ok r' ∧ ok r' ∧
      view r' = <[room := {[u]} ∪ room_members (view r) room]> (view r);
  rs_leave_law r room u : ok r → encodable room → encodable u →
    ∃ r', rs_leave r room u = Ok r' ∧ ok r' ∧
      view r' = alter (λ m, m ∖ {[u]}) room (view r);
  rs_members_law r room : ok r → encodable room →
    rs_members r room = Ok (room_members (view r) room);
  rs_exists_law r room : ok r → encodable room →
    rs_exists r room = Ok (bool_decide (is_Some (view r !! room)));
  rs_rooms_of_law r u : ok r → encodable u →
    rs_rooms_of r u =
      Ok (sorted (filter (λ room, u ∈ room_members (view r) room) (elements (dom (view r)))));
  rs_forget_law r u : ok r → encodable u →
    ∃ r', rs_forget r u = Ok r' ∧ ok r' ∧ view r' = (λ m, m ∖ {[u]}) <$> view r;
}.

(** What a store's answers mean when it gives one, whatever it was given. *)
Class RoomStoreSound (R : Type) `{RoomStore R} (ok : R → Prop)
    (view : R → gmap pystr (gset pystr)) := {
  rs_create_sound r now room r' b : ok r → rs_create r now room = Ok (r', b) →
    ok r' ∧ b = bool_decide (view r !! room = None) ∧
    view r' = if b then <[room := ∅]> (view r) else view r;
  rs_join_sound r now room u r' : ok r → rs_join r now room u = Ok r' →
    ok r' ∧ view r' = <[room := {[u]} ∪ room_members (view r) room]> (view r);
  rs_leave_sound r room u r' : ok r → rs_leave r room u = Ok r' →
    ok r' ∧ view r' = alter (λ m, m ∖ {[u]}) room (view r);
  rs_members_sound r room m : ok r → rs_members r room = Ok m →
    m = room_members (view r) room;
  rs_exists_sound r room b : ok r → rs_exists r room = Ok b →
    b = bool_decide (is_Some (view r !! room));
}.

(** ** RoomRegistry: [self._members], in memory *)

Module Rooms.
Abbreviation t := (gmap pystr (gset pystr)).

Definition create (r : t) (room : pystr) : t * bool :=
  match r !! room with
  | Some _ => (r, false)
  | None => (<[room := ∅]> r, true)
  end.

(** [self._members.setdefault(room, set()).add(username)]. *)
Definition join (r : t) (room username : pystr) : t :=
  <[room := {[username]} ∪ default ∅ (r !! room)]> r.

Definition leave (r : t) (room username : pystr) : t :=
  match r !! room with
  | Some members => <[room := members ∖ {[username]}]> r
  | None => r
  end.

Definition members (r : t) (room : pystr) : gset pystr := default ∅ (r !! room).

Definition exists_ (r : t) (room : pystr) : bool := bool_decide (is_Some (r !! room)).

Definition rooms_of (r : t) (username : pystr) : list pystr :=
  sorted ((filter (λ p : pystr * gset pystr, username ∈ p.2) (map_to_list r)).*1).

Definition forget (r : t) (username : pystr) : t := (λ m, m ∖ {[username]}) <$> r.

#[export] Instance store : RoomStore t := {
  rs_create r _ room := Ok (create r room);
  rs_join r _ room u := Ok (join r room u);
  rs_leave r room u := Ok (leave r room u);
  rs_members r room := Ok (members r room);
  rs_exists r room := Ok (exists_ r room);
  rs_rooms_of r u := Ok (rooms_of r u);
  rs_forget r u := Ok (forget r u);
}.

Lemma leave_view r room u : leave r room u = alter (λ m, m ∖ {[u]}) room r.
Proof.
  unfold leave. apply map_eq. intros k. rewrite lookup_alter.
  destruct (r !! room) as [m|] eqn:E; case_decide; subst; rewrite ?E;
    by rewrite ?lookup_insert_eq, ?lookup_insert_ne.
Qed.

Lemma create_view r room r' b :
  create r room = (r', b) →
  b = bool_decide (r !! room = None) ∧ r' = if b then <[room := ∅]> r else r.
Proof.
  unfold create. destruct (r !! room) eqn:E; intros [= <- <-].
  - split; [symmetry; by apply bool_decide_eq_false_2 | done].
  - split; [symmetry; by apply bool_decide_eq_true_2 | done].
Qed.

#[export] Instance sound : RoomStoreSound t (λ _, True) id.
Proof.
  split; unfold id; cbn [rs_create rs_join rs_leave rs_members rs_exists store].
  - intros r _ room r' b _ Heq%Ok_inj. split; [done|]. by apply create_view.
  - intros r _ room u r' _ <-%Ok_inj. done.
  - intros r room u r' _ <-%Ok_inj. split; [done|]. apply leave_view.
  - by intros r room m _ <-%Ok_inj.
  - by intros r room b _ <-%Ok_inj.
Qed.

#[export] Instance laws : RoomStoreLaws t (λ _, True) id.
Proof.
  split; unfold id; cbn [rs_create rs_join rs_leave rs_members rs_exists rs_rooms_of
    rs_forget store].
  - intros r _ room _ _ _. destruct (create r room) as [r' b] eqn:E.
    apply create_view in E as [-> ->]. eauto 10.
  - intros r _ room u _ _ _ _. eauto.
  - intros r room u _ _ _. eexists. split_and!; [done|done|]. apply leave_view.
  - done.
  - done.
  - intros r u _ _. f_equal. unfold rooms_of. apply sorted_proper.
    apply NoDup_Permutation.
    + eapply sublist_NoDup; [|apply fmap_sublist, sublist_filter].
      apply NoDup_fst_map_to_list.
    + apply NoDup_filter, NoDup_elements.
    + intros room. rewrite list_elem_of_fmap, list_elem_of_filter, elem_of_elements,
        elem_of_dom. unfold room_members. split.
      * intros ([room' m] & -> & [Hu Hin]%list_elem_of_filter).
        apply elem_of_map_to_list in Hin. cbn [fst snd] in *. rewrite Hin. eauto.
      * intros [Hu [m Hm]]. rewrite Hm in Hu. exists (room, m). split; [done|].
        apply list_elem_of_filter. split; [done|]. by apply elem_of_map_to_list.
  - intros r u _ _. eauto.
Qed.
End Rooms.
