(* ===== verification/Database.v ===== *)
(** * SQLite, as the stores use it

    [im/server/store/db.py] and the part of [sqlite3] every store relies on:
    how a Python value is bound to a TEXT or INTEGER column, and tables as lists
    of rows in [rowid] order.  [Database.write] is a transaction: a statement
    that raises leaves the tables as they were, so each operation of a store
    returns the new tables only when it succeeds. *)

From S2P Require Import Prelude PyStr PyDict Utf8 Json Registries.

Definition INT64_MIN : Z := - 2 ^ 63.
Definition INT64_MAX : Z := 2 ^ 63 - 1.

(** A Python [int] bound to a statement. *)
Definition bind_int (z : Z) : res Z :=
  if ((INT64_MIN <=? z) && (z <=? INT64_MAX))%Z then Ok z else Raise OverflowError.

Lemma bind_int_Ok z z' : bind_int z = Ok z' ↔ z' = z ∧ int64 z.
Proof.
  unfold bind_int, int64, INT64_MIN, INT64_MAX.
  destruct (Z.leb_spec (- 2 ^ 63) z), (Z.leb_spec z (2 ^ 63 - 1)); cbn;
    split; try naive_solver lia; intros [? ?]; lia.
Qed.

Lemma bind_int_ok z : int64 z → bind_int z = Ok z.
Proof. intros. by apply bind_int_Ok. Qed.

(** A [str] bound to a statement travels as UTF-8. *)
Definition bind_str (s : pystr) : res pystr :=
  if bool_decide (encodable s) then Ok s else Raise UnicodeEncodeError.

(** Any decoded value bound where a TEXT column takes or meets it: TEXT
    affinity turns numbers into their text, NaN becomes NULL, and [sqlite3]
    refuses lists and dictionaries. *)
Definition bind_text `{Runtime} (j : json) : res (option pystr) :=
  match j with
  | JNull => Ok None
  | JBool b => Ok (Some (if b then &"1" else &"0"))
  | JInt z => z' ← bind_int z; Ok (Some (dec_of_Z z'))
  | JFloat t => Ok (if bool_decide (t = &"NaN") then None else Some (rt_float_text t))
  | JStr s => s' ← bind_str s; Ok (Some s')
  | JList _ | JObj _ => Raise SqliteBindError
  end.

(** The same where NULL cannot follow from a truthy value other than NaN. *)
Definition bind_key `{Runtime} (j : json) : res pystr :=
  o ← bind_text j; match o with Some s => Ok s | None => Raise Unmodelled end.

(** A table whose rows have the key [key row]: [INSERT OR IGNORE], and whether
    a row was inserted ([cursor.rowcount > 0]). *)
Section table.
Context {Row Key : Type} `{EqDecision Key} (key : Row → Key).

Definition has_key (t : list Row) (k : Key) : bool := bool_decide (k ∈ key <$> t).

Definition insert_or_ignore (t : list Row) (r : Row) : list Row * bool :=
  if has_key t (key r) then (t, false) else (t ++ [r], true).

Definition select (t : list Row) (k : Key) : option Row :=
  head (filter (λ r, key r = k) t).

(** PRIMARY KEY. *)
Definition table_ok (t : list Row) : Prop := NoDup (key <$> t).

Lemma has_key_true t k : has_key t k = true ↔ k ∈ key <$> t.
Proof. unfold has_key. by rewrite bool_decide_eq_true. Qed.

Lemma has_key_false t k : has_key t k = false ↔ k ∉ key <$> t.
Proof. unfold has_key. by rewrite bool_decide_eq_false. Qed.

Lemma insert_or_ignore_ok t r : table_ok t → table_ok (insert_or_ignore t r).1.
Proof.
  unfold insert_or_ignore, table_ok. intros Ht.
  destruct (has_key t (key r)) eqn:E; [done|]. apply has_key_false in E. cbn [fst].
  rewrite fmap_app. apply NoDup_app. split_and!; [done| |apply NoDup_singleton].
  set_solver.
Qed.

Lemma elem_of_insert_or_ignore t r x :
  x ∈ (insert_or_ignore t r).1 ↔ x ∈ t ∨ (x = r ∧ key r ∉ key <$> t).
Proof.
  unfold insert_or_ignore. destruct (has_key t (key r)) eqn:E.
  - apply has_key_true in E. cbn. naive_solver.
  - apply has_key_false in E. cbn. rewrite elem_of_app, list_elem_of_singleton. naive_solver.
Qed.

Lemma select_Some t k r : select t k = Some r → r ∈ t ∧ key r = k.
Proof.
  unfold select. intros Hh%head_Some_elem_of. apply list_elem_of_filter in Hh. tauto.
Qed.

Lemma select_None t k : select t k = None ↔ k ∉ key <$> t.
Proof.
  unfold select. rewrite head_None. split.
  - intros Hf (r & -> & Hr)%list_elem_of_fmap.
    assert (r ∈ filter (λ r0, key r0 = key r) t) as Hin by by apply list_elem_of_filter.
    rewrite Hf in Hin. by apply not_elem_of_nil in Hin.
  - intros Hn. destruct (filter _ t) as [|r l] eqn:E; [done|]. exfalso. apply Hn.
    assert (r ∈ filter (λ r, key r = k) t) as [<- Hin]%list_elem_of_filter
      by (rewrite E; left).
    by apply list_elem_of_fmap_2.
Qed.

Lemma select_In t r : table_ok t → r ∈ t → select t (key r) = Some r.
Proof.
  unfold table_ok. intros Hok Hr. destruct (select t (key r)) as [r'|] eqn:E.
  - apply select_Some in E as [Hr' Hk]. f_equal.
    revert Hok Hr Hr' Hk. clear. induction t as [|x t IH]; [set_solver|].
    rewrite fmap_cons, NoDup_cons. intros [Hx Ht].
    rewrite !elem_of_cons. intros [->|Hr] [->|Hr'] Hk; auto.
    + exfalso. apply Hx. rewrite <-Hk. by apply list_elem_of_fmap_2.
    + exfalso. apply Hx. rewrite Hk. by apply list_elem_of_fmap_2.
  - apply select_None in E. exfalso. by apply E, list_elem_of_fmap_2.
Qed.

(** A row that was there is still selected after any insertion. *)
Lemma select_insert t r k x :
  select t k = Some x → select (insert_or_ignore t r).1 k = Some x.
Proof.
  unfold insert_or_ignore, select. destruct (has_key t (key r)); [done|]. cbn [fst].
  rewrite filter_app. by destruct (filter _ t).
Qed.

Lemma select_insert_new t r :
  key r ∉ key <$> t → select (insert_or_ignore t r).1 (key r) = Some r.
Proof.
  intros Hn. unfold insert_or_ignore. assert (has_key t (key r) = false) as ->
    by by apply has_key_false. cbn [fst].
  unfold select. rewrite filter_app.
  assert (filter (λ r0, key r0 = key r) t = []) as ->.
  { pose proof (proj2 (select_None t (key r)) Hn) as Hs. unfold select in Hs.
    by apply head_None in Hs. }
  rewrite filter_cons_True by done. done.
Qed.
End table.

Lemma bind_str_Ok s s' : bind_str s = Ok s' ↔ s' = s ∧ encodable s.
Proof. unfold bind_str. case_bool_decide; naive_solver congruence. Qed.

Lemma bind_str_ok s : encodable s → bind_str s = Ok s.
Proof. intros. by apply bind_str_Ok. Qed.
