(* ===== verification/Wire.v ===== *)
(** * One frame across the wire

    A frame written by one side of a connection and read by the other:
    [encode], the line buffer and [decode] composed.  A frame whose strings
    UTF-8 can carry and whose numbers are printable arrives as it left. *)

From S2P Require Import Prelude PyStr PyDict Utf8 Json JsonFacts JsonRoundtrip Frames Codec.
From S2P Require Import Registries Database.

(** ** Text that UTF-8 can carry *)

Lemma encodable_cons c s : encodable (c :: s) ↔ is_Some (enc_char c) ∧ encodable s.
Proof.
  unfold encodable. cbn [utf8_encode]. split.
  - intros [b Hb]. apply bind_Some in Hb as (b1 & Hc & Hb).
    apply bind_Some in Hb as (b2 & Hs & _). eauto.
  - intros [[b1 ->] [b2 ->]]. by eexists.
Qed.

Lemma encodable_ascii s : Forall (λ c, c < 128)%N s → encodable s.
Proof.
  intros Hs. induction Hs as [|c s Hc _ IH]; [by eexists|].
  apply encodable_cons. split; [|done]. exists [c]. by apply enc_char_ascii.
Qed.

Lemma encodable_forall s : encodable s ↔ Forall (λ c, is_Some (enc_char c)) s.
Proof.
  induction s as [|c s IH]; [split; [constructor|by eexists]|].
  by rewrite encodable_cons, Forall_cons, IH.
Qed.

Lemma digits_ascii n : Forall (λ c, c < 128)%N (dec_of_N n).
Proof.
  eapply Forall_impl; [apply dec_of_N_digits|]. unfold is_digit. intros c Hc.
  apply andb_true_iff in Hc as [_ Hc%N.leb_le]. lia.
Qed.

Lemma dec_encodable z : encodable (dec_of_Z z).
Proof.
  apply encodable_ascii. unfold dec_of_Z. case_match; [constructor; [lia|]|]; apply digits_ascii.
Qed.

Lemma digits_of_length fuel n acc : length (digits_of fuel n acc) ≤ fuel + length acc.
Proof.
  revert n acc. induction fuel as [|f IH]; intros n acc; cbn [digits_of]; [lia|].
  destruct (n <? 10)%N; [cbn; lia|]. etrans; [apply IH|]. cbn. lia.
Qed.

(** A 64-bit integer has few digits. *)
Lemma int64_wf z : int64 z → int_wf z = true.
Proof.
  unfold int64, int_wf, MAX_INT_DIGITS. intros Hz. apply bool_decide_eq_true.
  etrans; [apply digits_of_length|]. cbn [length].
  assert (N.size (Z.abs_N z) ≤ 64)%N as Hs; [|lia].
  destruct (decide (Z.abs_N z = 0%N)) as [->|Hn]; [done|].
  rewrite N.size_log2 by done. apply N.le_succ_l, N.log2_lt_pow2; [lia|].
  change (2 ^ 64)%N with 18446744073709551616%N. lia.
Qed.

(** ** Values that can be printed and sent *)

Fixpoint sendable_json (j : json) : bool :=
  match j with
  | JNull | JBool _ => true
  | JInt z => int_wf z
  | JFloat _ => false
  | JStr s => bool_decide (encodable s)
  | JList l => forallb sendable_json l
  | JObj d => forallb (λ kv, bool_decide (encodable kv.1) && sendable_json kv.2) d
              && bool_decide (dict_ok d)
  end.

Lemma hex_digit_ascii n : (n < 16 → hex_digit n < 128)%N.
Proof. unfold hex_digit. intros Hn. case_match; lia. Qed.

Lemma hex4_ascii c : (c < 32)%N → Forall (λ x, x < 128)%N (hex4 c).
Proof.
  intros Hc. assert (c / 16 < 2)%N as Hq by (apply N.Div0.div_lt_upper_bound; lia).
  unfold hex4. assert (c / 16 / 16 = 0)%N as -> by (apply N.div_small; lia).
  repeat constructor; apply hex_digit_ascii; try (by apply N.mod_lt); done.
Qed.

Lemma esc_encodable c : is_Some (enc_char c) → encodable (esc_char false c).
Proof.
  intros Hc. unfold esc_char. cbn [andb].
  repeat match goal with
         | |- encodable (if (?x <? 32)%N then _ else _) => destruct (N.ltb_spec x 32)
         | |- encodable (if ?b then _ else _) => destruct b
         end; try by eexists.
  - apply encodable_ascii. repeat (constructor; [lia|]). by apply hex4_ascii.
  - apply encodable_cons. split; [done|by eexists].
Qed.

Lemma dumps_str_encodable s : encodable s → encodable (dumps_str false s).
Proof.
  intros Hs%encodable_forall. unfold dumps_str. apply encodable_cons. split; [by eexists|].
  apply encodable_app; [|by eexists].
  induction Hs as [|c s Hc _ IH]; [by eexists|]. rewrite bind_cons.
  apply encodable_app; [by apply esc_encodable|done].
Qed.

Lemma join_encodable sep l : encodable sep → Forall encodable l → encodable (join sep l).
Proof.
  intros Hsep Hl. induction Hl as [|x l Hx Hl IH]; [by eexists|].
  destruct l as [|y l]; [done|]. change (join sep (x :: y :: l)) with (x ++ sep ++ join sep (y :: l)).
  by repeat apply encodable_app.
Qed.

Lemma dumps_encodable j : sendable_json j = true → encodable (dumps false j).
Proof.
  induction j as [|[]|z|t|s|l IH|d IH] using json_ind; cbn [sendable_json dumps]; intros Hj;
    try discriminate Hj; try by eexists.
  - apply dec_encodable.
  - apply dumps_str_encodable. by apply bool_decide_eq_true in Hj.
  - apply encodable_cons. split; [by eexists|]. apply encodable_app; [|by eexists].
    apply join_encodable; [by eexists|]. apply Forall_fmap. rewrite forallb_forall in Hj.
    rewrite Forall_forall in IH. apply Forall_forall. intros x Hx. apply IH; [done|].
    by apply Hj, list_elem_of_In.
  - apply andb_true_iff in Hj as [Hj _].
    apply encodable_cons. split; [by eexists|]. apply encodable_app; [|by eexists].
    apply join_encodable; [by eexists|]. apply Forall_fmap. rewrite forallb_forall in Hj.
    rewrite Forall_forall in IH. apply Forall_forall. intros x Hx.
    apply list_elem_of_In in Hx as Hin. apply Hj, andb_true_iff in Hin as [Hk Hv].
    apply bool_decide_eq_true in Hk.
    change (encodable (dumps_str false x.1 ++ 58%N :: dumps false x.2)). apply encodable_app; [by apply dumps_str_encodable|].
    apply encodable_cons. split; [by eexists|]. by apply IH.
Qed.

(** With [ensure_ascii] what is printed is ASCII. *)
Lemma hex4_small c : (c < 65536)%N → Forall (λ x, x < 128)%N (hex4 c).
Proof.
  intros Hc. unfold hex4. repeat constructor; apply hex_digit_ascii; try (by apply N.mod_lt).
  rewrite !N.Div0.div_div. apply N.Div0.div_lt_upper_bound. lia.
Qed.

Lemma enc_char_bound c : is_Some (enc_char c) → (c < 1114112)%N.
Proof.
  intros [b Hb]. unfold enc_char in Hb. destruct (N.ltb_spec c 1114112); [done|].
  repeat case_match; try done.
  all: repeat match goal with H : (_ <? _)%N = true |- _ => apply N.ltb_lt in H end; lia.
Qed.

Lemma esc_char_ascii c : is_Some (enc_char c) → Forall (λ x, x < 128)%N (esc_char true c).
Proof.
  intros Hc%enc_char_bound. unfold esc_char. cbn [andb].
  repeat match goal with
         | |- Forall _ (if (?x <? ?y)%N then _ else _) => destruct (N.ltb_spec x y)
         | |- Forall _ (if ?b then _ else _) => destruct b
         end; try (repeat constructor; lia).
  - repeat (constructor; [lia|]). by apply hex4_ascii.
  - repeat (constructor; [lia|]). by apply hex4_small.
  - assert ((c - 65536) / 1024 < 1024)%N by (apply N.Div0.div_lt_upper_bound; lia).
    assert ((c - 65536) mod 1024 < 1024)%N by by apply N.mod_lt.
    repeat (constructor; [lia|]). apply Forall_app. split; [apply hex4_small; lia|].
    repeat (constructor; [lia|]). apply hex4_small; lia.
Qed.

Lemma dumps_str_ascii s : encodable s → Forall (λ x, x < 128)%N (dumps_str true s).
Proof.
  intros Hs%encodable_forall. unfold dumps_str. constructor; [lia|]. apply Forall_app.
  split; [|repeat constructor; lia].
  induction Hs as [|c s Hc _ IH]; [constructor|]. rewrite bind_cons. apply Forall_app.
  split; [by apply esc_char_ascii|done].
Qed.

Lemma join_ascii sep l :
  Forall (λ x, x < 128)%N sep → Forall (Forall (λ x, x < 128)%N) l →
  Forall (λ x, x < 128)%N (join sep l).
Proof.
  intros Hsep Hl. induction Hl as [|x l Hx Hl IH]; [constructor|].
  destruct l as [|y l]; [done|]. change (join sep (x :: y :: l)) with (x ++ sep ++ join sep (y :: l)).
  rewrite !Forall_app. done.
Qed.

Lemma dumps_ascii j : sendable_json j = true → Forall (λ x, x < 128)%N (dumps true j).
Proof.
  induction j as [|[]|z|t|s|l IH|d IH] using json_ind; cbn [sendable_json dumps]; intros Hj;
    try discriminate Hj; try (repeat constructor; lia).
  - unfold dec_of_Z. case_match; [constructor; [lia|]|]; apply digits_ascii.
  - apply dumps_str_ascii. by apply bool_decide_eq_true in Hj.
  - constructor; [lia|]. apply Forall_app. split; [|repeat constructor; lia].
    apply join_ascii; [repeat constructor; lia|]. apply Forall_fmap. rewrite forallb_forall in Hj.
    rewrite Forall_forall in IH. apply Forall_forall. intros x Hx. apply IH; [done|].
    by apply Hj, list_elem_of_In.
  - apply andb_true_iff in Hj as [Hj _].
    constructor; [lia|]. apply Forall_app. split; [|repeat constructor; lia].
    apply join_ascii; [repeat constructor; lia|]. apply Forall_fmap. rewrite forallb_forall in Hj.
    rewrite Forall_forall in IH. apply Forall_forall. intros x Hx.
    apply list_elem_of_In in Hx as Hin. apply Hj, andb_true_iff in Hin as [Hk Hv].
    apply bool_decide_eq_true in Hk.
    change (Forall (λ x, x < 128)%N (dumps_str true x.1 ++ 58%N :: dumps true x.2)).
    apply Forall_app. split; [by apply dumps_str_ascii|]. constructor; [lia|]. by apply IH.
Qed.

Lemma encodable_wf s : encodable s → str_wf false s = true.
Proof.
  intros Hs%encodable_forall. unfold str_wf. cbn [negb orb]. rewrite andb_true_r.
  apply forallb_forall. intros c Hc%list_elem_of_In. rewrite Forall_forall in Hs.
  by apply N.ltb_lt, enc_char_bound, Hs.
Qed.

Lemma sendable_wf j : sendable_json j = true → json_wf false j = true ∧ ints_ok j = true.
Proof.
  induction j as [|[]|z|t|s|l IH|d IH] using json_ind; cbn [sendable_json json_wf ints_ok];
    intros Hj; try done.
  - by apply bool_decide_eq_true, encodable_wf in Hj.
  - rewrite Forall_forall in IH. rewrite !forallb_forall in *.
    split; intros x Hx; apply IH; try apply list_elem_of_In; auto.
  - apply andb_true_iff in Hj as [Hj ->]. rewrite andb_true_r.
    rewrite Forall_forall in IH. rewrite !forallb_forall in *.
    split; intros x Hx; pose proof (Hj x Hx) as [Hk Hv]%andb_true_iff;
      apply IH in Hv as [? ?]; try by apply list_elem_of_In.
    + apply bool_decide_eq_true in Hk. apply andb_true_iff. split; [by apply encodable_wf|done].
    + done.
Qed.

(** ** One frame, written and read *)

(** What one [recv] asks for, at either end. *)
Definition RECV_BYTES : nat := 4096.

Section wire.
Context `{Runtime}.

(** What becomes of a [sendall]: it goes through, or it raises after so many bytes have
    left, which the caller is not told.  On a socket that we have closed nothing
    goes through. *)
Inductive sending := Through | Broken (count : nat).

(** The bytes that leave, and whether the call returns. *)
Definition sendall (how : sending) (open : bool) (wire : bytes) : bytes * bool :=
  match how with
  | Through => if open then (wire, true) else ([], false)
  | Broken count => (take count wire, false)
  end.

(** What a reader makes of the chunks that [recv] gives it: its buffer, and the
    frames. *)
Definition received (now : Z) (fresh : pystr) (chunks : list bytes) : LineBuffer * res (list Frame) :=
  let '(b, r) := feed_all new_buffer chunks in
  (b, lines ← r; mapR (decode now fresh) lines).

(** A frame can be written, and if its line is within the limit then it arrives as it
    was, in whatever pieces; if it is longer by more than one [recv], it does not. *)
Definition crosses (f : Frame) : Prop :=
  ∃ wire, encode f = Ok wire ∧
    ((Z.of_nat (length wire) ≤ MAX_LINE_BYTES + 1)%Z → ∀ now fresh chunks,
      concat chunks = wire → received now fresh chunks = (new_buffer, Ok [f])) ∧
    ((MAX_LINE_BYTES + Z.of_nat RECV_BYTES < Z.of_nat (length wire))%Z → ∀ now fresh chunks,
      concat chunks = wire → Forall (λ c, length c ≤ RECV_BYTES) chunks →
      ∃ m, (received now fresh chunks).2 = Raise (ProtocolError m)).

Definition travels (f : Frame) : Prop :=
  frame_ok f ∧ sendable_json (JObj (fields f ++ f_data f)) = true ∧
  json_depth (JObj (fields f ++ f_data f)) ≤ rt_depth.

Lemma travels_wire_ok f : travels f → wire_ok f.
Proof. intros (Hf & Hs & Hd). by split_and!; [|apply sendable_wf|]. Qed.

Lemma encode_total f : travels f → ∃ w, encode f = Ok w.
Proof.
  intros (Hf & Hs & _). unfold encode. rewrite to_dict_ok by done. cbn [mbind res_bind].
  destruct (sendable_wf _ Hs) as [_ ->]. destruct (dumps_encodable _ Hs) as [w ->]. by eexists.
Qed.

Lemma travels_crosses f : travels f → crosses f.
Proof.
  intros Hf. pose proof (travels_wire_ok f Hf) as Hw. destruct (encode_total f Hf) as [w Ew].
  exists w. split; [done|]. split.
  - intros Hlen now fresh chunks Hc. unfold received.
    rewrite (frames_fed [f] [w] chunks); [|by constructor|cbn [mapR]; by rewrite Ew|by constructor|
      rewrite Hc; cbn; by rewrite app_nil_r].
    cbn [mbind res_bind]. by rewrite decode_all by by constructor.
  - intros Hlen now fresh chunks Hc Hn. destruct (encode_line f w Hw Ew) as (body & -> & Hb & _).
    unfold received. rewrite length_app in Hlen. cbn [length] in Hlen.
    destruct (overlong_fed RECV_BYTES new_buffer chunks body) as (lb & m & ->); cbn; try done; try lia.
    by eexists.
Qed.

(** A frame without data, whose fields are text. *)
Lemma text_frame_travels t (sender to body nonce : option pystr) (id : pystr) ts :
  id ≠ [] → encodable id → int64 ts → 1 ≤ rt_depth →
  Forall (λ o, ∀ s : pystr, o = Some s → encodable s) [sender; to; body; nonce] →
  let opt o := match o with Some s => JStr s | None => JNull end in
  travels (mkFrame t (opt sender) (opt to) (opt body) (opt nonce) [] (JStr id) ts
             (JInt PROTOCOL_VERSION)).
Proof.
  intros Hne Hid Hts Hdepth Ho opt. rewrite !Forall_cons in Ho. destruct Ho as (H1 & H2 & H3 & H4 & _).
  set (f := mkFrame _ _ _ _ _ _ _ _ _).
  assert (frame_ok f) as Hf.
  { split_and!; [reflexivity| |constructor|constructor]. cbn. by apply bool_decide_eq_true. }
  split_and!; [done| |].
  - pose proof (fields_data_ok f Hf) as Hd. cbn [sendable_json]. apply andb_true_iff.
    split; [|by apply bool_decide_eq_true].
    assert (∀ k o, encodable k → (∀ s, o = Some s → encodable s) →
      forallb (λ kv : pystr * json, bool_decide (encodable kv.1) && sendable_json kv.2)
        (opt_field k (opt o)) = true) as Hopt.
    { intros k [s|] Hk Hs; [|done]. cbn. rewrite !bool_decide_true by auto. done. }
    unfold fields. subst f. cbn [f_v f_id f_type f_ts f_sender f_to f_body f_nonce f_data].
    rewrite app_nil_r, !forallb_app, !Hopt by (done || (eexists; vm_compute; reflexivity)).
    rewrite !andb_true_r. cbn [forallb fst snd sendable_json].
    rewrite (int64_wf ts), (int64_wf PROTOCOL_VERSION) by (done || (unfold int64; cbn; lia)).
    rewrite (bool_decide_true (encodable id)) by done. by destruct t.
  - subst f. unfold fields. cbn [f_v f_id f_type f_ts f_sender f_to f_body f_nonce f_data].
    by destruct sender, to, body, nonce.
Qed.

(** Data may be added to a frame that travels, if it can be printed, is no field's,
    and is not nested too deep. *)
Lemma data_travels f d :
  travels f → f_data f = [] → dict_ok d → Forall (λ kv, reserved kv.1 = false) d →
  sendable_json (JObj d) = true → json_depth (JObj d) ≤ rt_depth →
  travels (mkFrame (f_type f) (f_sender f) (f_to f) (f_body f) (f_nonce f) d (f_id f) (f_ts f)
             (f_v f)).
Proof.
  intros ((Hv & Hid & _ & _) & Hs & Hdepth) Hnil Hd Hr Hsd Hdd. set (g := mkFrame _ _ _ _ _ _ _ _ _).
  assert (frame_ok g) as Hg by (by split_and!).
  split_and!; [done| |].
  - cbn [sendable_json]. apply andb_true_iff.
    split; [|apply bool_decide_eq_true; by apply fields_data_ok].
    cbn [sendable_json] in Hs, Hsd. apply andb_true_iff in Hs as [Hs _], Hsd as [Hsd _].
    rewrite Hnil, app_nil_r in Hs. change (fields g) with (fields f). subst g. cbn [f_data].
    rewrite forallb_app. by rewrite Hs, Hsd.
  - change (fields g) with (fields f). subst g. cbn [f_data].
    rewrite Hnil, app_nil_r in Hdepth. cbn [json_depth] in *. clear Hs. revert Hdepth.
    induction (fields f) as [|kv l IH]; cbn [app foldr]; [done|]. intros Hl. cbn [foldr] in Hl.
    assert (S (foldr (λ kv n, json_depth kv.2 `max` n) 0 (l ++ d)) ≤ rt_depth) as H1
      by (apply IH; lia).
    lia.
Qed.
End wire.
