(* ===== verification/Users.v ===== *)
(** * Accounts and contacts

    [im/server/store/users.py]: [SqliteUsers] (salted digests and public keys)
    and [SqliteContacts].  The password hash is a parameter of the runtime; the
    salt and the clock reading of a call are its arguments. *)

From S2P Require Import Prelude PyStr PyDict Utf8 Json Registries Database.

Module Users.
Record row := mkRow {
  u_name : pystr;
  u_salt : bytes;
  u_digest : bytes;
  u_pubkey : option pystr;
  u_created : Z;
}.

Abbreviation t := (list row).

(** [self._derive(pass_hash, salt)]: [pass_hash.encode] needs a [str]. *)
Definition _derive `{Runtime} (pass_hash : json) (salt : bytes) : res bytes :=
  match pass_hash with
  | JStr s => match utf8_encode s with
              | Some b => Ok (rt_scrypt b salt)
              | None => Raise UnicodeEncodeError
              end
  | _ => Raise AttributeError
  end.

Definition register `{Runtime} (db : t) (salt : bytes) (now : Z)
    (username : pystr) (pass_hash pubkey : json) : res (t * bool) :=
  digest ← _derive pass_hash salt;
  name ← bind_str username;
  match select u_name db name with
  | Some _ => Ok (db, false)
  | None =>
    key ← bind_text pubkey;
    created ← bind_int now;
    Ok (db ++ [mkRow name salt digest key created], true)
  end.

Definition verify `{Runtime} (db : t) (throwaway : bytes) (username pass_hash : json)
    : res bool :=
  name ← bind_text username;
  match name ≫= select u_name db with
  | None => _ ← _derive pass_hash throwaway; Ok false
  | Some row =>
    d ← _derive pass_hash (u_salt row);
    Ok (bool_decide (u_digest row = d))
  end.

Definition exists_ (db : t) (username : pystr) : res bool :=
  name ← bind_str username; Ok (bool_decide (is_Some (select u_name db name))).

Definition set_pubkey (db : t) (username pubkey : pystr) : res t :=
  key ← bind_str pubkey; name ← bind_str username;
  Ok ((λ r, if decide (u_name r = name)
            then mkRow (u_name r) (u_salt r) (u_digest r) (Some key) (u_created r)
            else r) <$> db).

Definition pubkey (db : t) (username : pystr) : res (option pystr) :=
  name ← bind_str username; Ok (select u_name db name ≫= u_pubkey).

Definition len (db : t) : nat := length db.

(** ** Facts *)

Section facts.
Context `{Runtime}.

Lemma register_spec db salt now u p k db' b :
  table_ok u_name db → register db salt now u p k = Ok (db', b) →
  table_ok u_name db' ∧
  (b = true ↔ select u_name db u = None) ∧
  (b = false → db' = db) ∧
  (b = true → ∃ d key, _derive p salt = Ok d ∧ bind_text k = Ok key ∧
     db' = db ++ [mkRow u salt d key now] ∧ encodable u ∧ int64 now).
Proof.
  intros Hok. unfold register. destruct (_derive p salt) as [d|]; [|done].
  cbn [mbind res_bind]. destruct (bind_str u) as [n|] eqn:En; [|done].
  apply bind_str_Ok in En as [-> He]. cbn [mbind res_bind].
  destruct (select u_name db u) as [r|] eqn:Es.
  - intros [= <- <-]. split_and!; done.
  - destruct (bind_text k) as [key|]; [|done]. cbn [mbind res_bind].
    destruct (bind_int now) as [z|] eqn:Ez; [|done]. apply bind_int_Ok in Ez as [-> ?].
    intros [= <- <-]. split_and!; try done.
    + apply select_None in Es. unfold table_ok. rewrite fmap_app.
      apply NoDup_app. split_and!; [done| |apply NoDup_singleton]. set_solver.
    + intros _. eauto 10.
Qed.

(** Whoever registered can log in with the same hash, and only with a hash
    that derives to the stored digest. *)
Lemma verify_spec db thr u p b :
  encodable u → verify db thr (JStr u) p = Ok b →
  (b = true ↔ ∃ row d, select u_name db u = Some row ∧
     _derive p (u_salt row) = Ok d ∧ u_digest row = d).
Proof.
  intros He. unfold verify, bind_text. rewrite bind_str_ok by done.
  cbn [mbind res_bind option_bind]. destruct (select u_name db u) as [row|] eqn:Es.
  - destruct (_derive p (u_salt row)) as [d|] eqn:Ed; [|done]. cbn [mbind res_bind].
    intros <-%Ok_inj. rewrite bool_decide_eq_true. split; [eauto|].
    intros (r & d' & Hr & Hd & He'). congruence.
  - destruct (_derive p thr); [|done]. intros <-%Ok_inj.
    split; [done|]. intros (r & d & Hr & _). congruence.
Qed.

Lemma exists_spec db u : encodable u →
  exists_ db u = Ok (bool_decide (is_Some (select u_name db u))).
Proof. intros. unfold exists_. by rewrite bind_str_ok. Qed.
End facts.
End Users.

(** ** SqliteContacts *)

Module Contacts.
Record row := mkRow { c_owner : pystr; c_contact : pystr; c_added : Z }.

Definition key (r : row) : pystr * pystr := (c_owner r, c_contact r).

Abbreviation t := (list row).

Definition add (db : t) (owner contact : pystr) (when : Z) : res (t * bool) :=
  if bool_decide (owner = [] ∨ contact = [] ∨ owner = contact) then Ok (db, false)
  else
    o ← bind_str owner; c ← bind_str contact; w ← bind_int when;
    Ok (insert_or_ignore key db (mkRow o c w)).

Definition remove (db : t) (owner contact : pystr) : res (t * bool) :=
  o ← bind_str owner; c ← bind_str contact;
  let db' := filter (λ r, key r ≠ (o, c)) db in
  Ok (db', bool_decide (length db' ≠ length db)).

Definition of_ (db : t) (owner : pystr) : res (list pystr) :=
  o ← bind_str owner;
  Ok (sorted (c_contact <$> filter (λ r, c_owner r = o) db)).

Lemma add_ok db o c w db' b :
  table_ok key db → add db o c w = Ok (db', b) → table_ok key db'.
Proof.
  unfold add. case_bool_decide; [congruence|].
  unfold bind_str, bind_int. repeat case_match; cbn; try done.
  intros Hok [= Hi]. pose proof (insert_or_ignore_ok key db (mkRow o c w) Hok) as Hk.
  by rewrite Hi in Hk.
Qed.

Lemma remove_ok db o c db' b :
  table_ok key db → remove db o c = Ok (db', b) → table_ok key db'.
Proof.
  unfold remove, bind_str. repeat case_match; cbn; try done. intros Hok [= <- _].
  unfold table_ok in *. eapply sublist_NoDup; [done|apply fmap_sublist, sublist_filter].
Qed.

(** The contact list after an addition: the same people and the new one. *)
Lemma of_add db o c w db' b l :
  add db o c w = Ok (db', b) → of_ db o = Ok l → o ≠ [] → c ≠ [] → o ≠ c →
  ∃ l', of_ db' o = Ok l' ∧ (∀ x, x ∈ l' ↔ x ∈ l ∨ x = c) ∧ (b = true ↔ c ∉ l).
Proof.
  unfold add, of_. intros Ha Hl Ho Hc Hoc.
  rewrite bool_decide_eq_false_2 in Ha by naive_solver.
  destruct (bind_str o) as [o'|] eqn:Eo; [|done]. apply bind_str_Ok in Eo as [-> _].
  destruct (bind_str c) as [c'|] eqn:Ec; [|done]. apply bind_str_Ok in Ec as [-> _].
  destruct (bind_int w) as [w'|]; [|done]. cbn [mbind res_bind] in *.
  apply Ok_inj in Ha, Hl. subst l.
  assert (∀ d x, x ∈ sorted (c_contact <$> filter (λ r, c_owner r = o) d)
    ↔ (o, x) ∈ key <$> d) as Hin.
  { intros d x. rewrite elem_of_sorted, !list_elem_of_fmap. split.
    - intros (r & -> & [<- Hr]%list_elem_of_filter). by exists r.
    - intros (r & [= -> ->] & Hr). exists r. by rewrite list_elem_of_filter. }
  eexists. split; [done|]. assert (db' = (insert_or_ignore key db (mkRow o c w')).1) as ->
    by by rewrite Ha. split.
  - intros x. rewrite !Hin, !list_elem_of_fmap.
    setoid_rewrite elem_of_insert_or_ignore. split.
    + intros (r & Hk & [Hr|[-> _]]); [by left; exists r|]. right. by injection Hk.
    + intros [(r & Hk & Hr)| ->]; [exists r; auto|].
      destruct (decide ((o, c) ∈ key <$> db)) as [Hk|Hk].
      * apply list_elem_of_fmap in Hk as (r & Hk & Hr). exists r. auto.
      * exists (mkRow o c w'). auto.
  - assert (b = (insert_or_ignore key db (mkRow o c w')).2) as -> by by rewrite Ha.
    rewrite Hin. unfold insert_or_ignore.
    change (key (mkRow o c w')) with (o, c). destruct (has_key key db (o, c)) eqn:E; cbn.
    + apply has_key_true in E. naive_solver.
    + apply has_key_false in E. naive_solver.
Qed.
End Contacts.
