(* ===== verification/RoomsDb.v ===== *)
(** * SqliteRooms

    [im/server/store/rooms.py]: the tables [rooms] and [memberships], and the
    proof that they implement the same room store as the in-memory registry. *)

From S2P Require Import Prelude PyStr PyDict Utf8 Registries Database.

Module SqliteRooms.
Record t := mkDb {
  rooms : list (pystr * Z);             (* room PRIMARY KEY, created_at *)
  memberships : list (pystr * pystr);   (* (room, username) PRIMARY KEY *)
}.

Definition empty : t := mkDb [] [].

Definition create (db : t) (now : Z) (room : pystr) : res (t * bool) :=
  r ← bind_str room;
  match select fst (rooms db) r with
  | Some _ => Ok (db, false)
  | None => n ← bind_int now;
            Ok (mkDb (rooms db ++ [(r, n)]) (memberships db), true)
  end.

Definition join (db : t) (now : Z) (room username : pystr) : res t :=
  r ← bind_str room; n ← bind_int now; u ← bind_str username;
  Ok (mkDb (insert_or_ignore fst (rooms db) (r, n)).1
           (insert_or_ignore id (memberships db) (r, u)).1).

Definition leave (db : t) (room username : pystr) : res t :=
  r ← bind_str room; u ← bind_str username;
  Ok (mkDb (rooms db) (filter (λ m, m ≠ (r, u)) (memberships db))).

Definition members (db : t) (room : pystr) : res (gset pystr) :=
  r ← bind_str room;
  Ok (list_to_set (filter (λ m, m.1 = r) (memberships db)).*2).

Definition exists_ (db : t) (room : pystr) : res bool :=
  r ← bind_str room; Ok (bool_decide (is_Some (select fst (rooms db) r))).

Definition rooms_of (db : t) (username : pystr) : res (list pystr) :=
  u ← bind_str username;
  Ok (sorted ((filter (λ m, m.2 = u) (memberships db)).*1)).

Definition forget (db : t) (username : pystr) : res t :=
  u ← bind_str username;
  Ok (mkDb (rooms db) (filter (λ m, m.2 ≠ u) (memberships db))).

#[export] Instance store : RoomStore t := {
  rs_create := create;
  rs_join := join;
  rs_leave := leave;
  rs_members := members;
  rs_exists := exists_;
  rs_rooms_of := rooms_of;
  rs_forget := forget;
}.

(** The primary keys, and no membership of a room that does not exist. *)
Definition ok (db : t) : Prop :=
  table_ok fst (rooms db) ∧ table_ok id (memberships db) ∧
  ∀ room u, (room, u) ∈ memberships db → room ∈ (rooms db).*1.

Definition row_members (db : t) (room : pystr) : gset pystr :=
  list_to_set (filter (λ m, m.1 = room) (memberships db)).*2.

(** What the tables mean. *)
Definition view (db : t) : gmap pystr (gset pystr) :=
  list_to_map ((λ r : pystr * Z, (r.1, row_members db r.1)) <$> rooms db).

Lemma elem_of_row_members db room u :
  u ∈ row_members db room ↔ (room, u) ∈ memberships db.
Proof.
  unfold row_members. rewrite elem_of_list_to_set, list_elem_of_fmap. split.
  - intros ([r' u'] & -> & [<- Hin]%list_elem_of_filter). done.
  - intros Hin. exists (room, u). by rewrite list_elem_of_filter.
Qed.

Lemma lookup_view db room :
  view db !! room = if decide (room ∈ (rooms db).*1) then Some (row_members db room) else None.
Proof.
  unfold view. generalize (row_members db). intros f.
  induction (rooms db) as [|[r0 z] l IH]; [done|].
  rewrite !fmap_cons, list_to_map_cons. cbn [fst].
  destruct (decide (room = r0)) as [->|Hne].
  - rewrite lookup_insert_eq, decide_True by left. done.
  - rewrite lookup_insert_ne, IH by done.
    apply decide_ext. rewrite elem_of_cons. tauto.
Qed.

Lemma row_members_fresh db room : ok db → room ∉ (rooms db).*1 → row_members db room = ∅.
Proof.
  intros (_ & _ & Hm) Hr. apply set_eq. intros u. rewrite elem_of_row_members.
  split; [intros Hin; by apply Hm in Hin | set_solver].
Qed.

Lemma view_members db room : ok db → room_members (view db) room = row_members db room.
Proof.
  intros Hok. unfold room_members. rewrite lookup_view. case_decide; [done|].
  symmetry. by apply row_members_fresh.
Qed.

Lemma view_eq db m :
  (∀ room, m !! room =
    if decide (room ∈ (rooms db).*1) then Some (row_members db room) else None) →
  view db = m.
Proof. intros Hm. apply map_eq. intros room. by rewrite lookup_view, Hm. Qed.

Lemma row_members_ext db db' room :
  (∀ u, (room, u) ∈ memberships db ↔ (room, u) ∈ memberships db') →
  row_members db room = row_members db' room.
Proof. intros Hu. apply set_eq. intros u. by rewrite !elem_of_row_members. Qed.

Lemma create_law db now room : int64 now → ok db → encodable room →
  ∃ db' b, create db now room = Ok (db', b) ∧ ok db' ∧
    b = bool_decide (view db !! room = None) ∧
    view db' = if b then <[room := ∅]> (view db) else view db.
Proof.
  intros Hnow%bind_int_ok Hok He. unfold create. rewrite bind_str_ok by done. cbn [mbind res_bind].
  destruct (select fst (rooms db) room) as [r|] eqn:Es.
  - assert (room ∈ (rooms db).*1) as Hin.
    { apply dec_stable. intros Hn. by apply (select_None fst) in Hn; rewrite Hn in Es. }
    eexists _, _. split_and!; [done|done| |done].
    by rewrite lookup_view, decide_True, bool_decide_eq_false_2.
  - apply select_None in Es as Hn. rewrite Hnow. cbn [mbind res_bind].
    pose proof Hok as (Hr & Hm & Href).
    eexists _, _. split_and!; [done| | |].
    + split_and!; cbn [rooms memberships].
      * unfold table_ok. rewrite fmap_app. apply NoDup_app.
        split_and!; [done| |apply NoDup_singleton]. set_solver.
      * done.
      * intros room' u Hin. apply Href in Hin. set_solver.
    + by rewrite lookup_view, decide_False, bool_decide_eq_true_2.
    + apply view_eq. intros room'. cbn [rooms]. destruct (decide (room' = room)) as [->|Hne].
      * rewrite lookup_insert_eq, decide_True by (rewrite fmap_app; apply elem_of_app; right; left).
        f_equal.
        symmetry. rewrite <-(row_members_fresh db room) by done. done.
      * rewrite lookup_insert_ne, lookup_view by done. apply decide_ext.
        rewrite fmap_app, elem_of_app. change ([(room, now)].*1) with [room].
        rewrite list_elem_of_singleton. tauto.
Qed.

Lemma insert_room_keys (t : list (pystr * Z)) r n x :
  x ∈ (insert_or_ignore fst t (r, n)).1.*1 ↔ x ∈ t.*1 ∨ x = r.
Proof.
  unfold insert_or_ignore. destruct (has_key fst t (fst (r, n))) eqn:E; cbn [fst] in *.
  - apply has_key_true in E. set_solver.
  - rewrite fmap_app. set_solver.
Qed.

Lemma join_law db now room u : int64 now → ok db → encodable room → encodable u →
  ∃ db', join db now room u = Ok db' ∧ ok db' ∧
    view db' = <[room := {[u]} ∪ room_members (view db) room]> (view db).
Proof.
  intros Hnow%bind_int_ok Hok He Hu. unfold join. rewrite !bind_str_ok, Hnow by done.
  cbn [mbind res_bind]. eexists. split; [done|].
  pose proof Hok as (Hr & Hm & Href).
  assert (∀ p, p ∈ (insert_or_ignore id (memberships db) (room, u)).1
    ↔ p ∈ memberships db ∨ p = (room, u)) as Hmem.
  { intros p. rewrite elem_of_insert_or_ignore, list_fmap_id. unfold id.
    split; [intros [?|[-> _]]; auto|]. intros [?| ->]; [by left|].
    destruct (decide ((room, u) ∈ memberships db)); auto. }
  split; [split_and!; cbn [rooms memberships]|].
  - by apply insert_or_ignore_ok.
  - by apply insert_or_ignore_ok.
  - intros room' u' [Hin|[= -> ->]]%Hmem; apply insert_room_keys; eauto.
  - apply view_eq. intros room'. cbn [rooms].
    destruct (decide (room' = room)) as [->|Hne].
    + rewrite lookup_insert_eq, decide_True by (apply insert_room_keys; by right).
      f_equal. rewrite view_members by done. apply set_eq. intros x.
      rewrite elem_of_union, !elem_of_row_members, elem_of_singleton. cbn [memberships].
      rewrite Hmem. naive_solver.
    + rewrite lookup_insert_ne, lookup_view by done.
      assert (row_members db room' = row_members (mkDb
        (insert_or_ignore fst (rooms db) (room, now)).1
        (insert_or_ignore id (memberships db) (room, u)).1) room') as ->.
      { apply row_members_ext. intros x. cbn [memberships]. rewrite Hmem. naive_solver. }
      apply decide_ext. rewrite insert_room_keys. naive_solver.
Qed.

Lemma leave_law db room u : ok db → encodable room → encodable u →
  ∃ db', leave db room u = Ok db' ∧ ok db' ∧
    view db' = alter (λ m, m ∖ {[u]}) room (view db).
Proof.
  intros Hok He Hu. unfold leave. rewrite !bind_str_ok by done. cbn [mbind res_bind].
  eexists. split; [done|]. pose proof Hok as (Hr & Hm & Href).
  split; [split_and!; cbn [rooms memberships]|].
  - done.
  - unfold table_ok in *. rewrite list_fmap_id in *. by apply NoDup_filter.
  - intros room' u' [_ Hin]%list_elem_of_filter. eauto.
  - apply view_eq. intros room'. cbn [rooms].
    rewrite lookup_alter, !lookup_view. case_decide as Hd; subst.
    + repeat case_decide; try done. cbn [fmap option_fmap option_map]. f_equal. apply set_eq. intros x.
      rewrite elem_of_difference, !elem_of_row_members, elem_of_singleton.
      cbn [memberships]. rewrite list_elem_of_filter. naive_solver.
    + repeat case_decide; try done. f_equal.
      apply row_members_ext. intros x. cbn [memberships].
      rewrite list_elem_of_filter. naive_solver.
Qed.

Lemma rooms_of_law db u : ok db → encodable u →
  rooms_of db u = Ok (sorted (filter (λ room, u ∈ room_members (view db) room)
                                (elements (dom (view db))))).
Proof.
  intros Hok Hu. unfold rooms_of. rewrite bind_str_ok by done. cbn [mbind res_bind].
  f_equal. apply sorted_proper. pose proof Hok as (Hr & Hm & Href).
  apply NoDup_Permutation.
  - unfold table_ok in Hm. rewrite list_fmap_id in Hm. clear Href.
    induction (memberships db) as [|[r x] l IH]; [constructor|].
    apply NoDup_cons in Hm as [Hn Hl]. destruct (decide (x = u)) as [->|Hx].
    + rewrite filter_cons_True by done. rewrite fmap_cons. constructor; [|auto].
      intros ([r' x'] & Heq & [Hx Hin]%list_elem_of_filter)%list_elem_of_fmap.
      cbn [fst snd] in *. by subst.
    + rewrite filter_cons_False by done. auto.
  - apply NoDup_filter, NoDup_elements.
  - intros room. rewrite list_elem_of_fmap, list_elem_of_filter, elem_of_elements, elem_of_dom.
    rewrite view_members, elem_of_row_members, lookup_view by done. split.
    + intros ([r x] & -> & [Hx Hin]%list_elem_of_filter). cbn [fst snd] in *. subst x.
      split; [done|]. rewrite decide_True by eauto. eauto.
    + intros [Hin _]. exists (room, u). by rewrite list_elem_of_filter.
Qed.

Lemma forget_law db u : ok db → encodable u →
  ∃ db', forget db u = Ok db' ∧ ok db' ∧ view db' = (λ m, m ∖ {[u]}) <$> view db.
Proof.
  intros Hok Hu. unfold forget. rewrite bind_str_ok by done. cbn [mbind res_bind].
  eexists. split; [done|]. pose proof Hok as (Hr & Hm & Href).
  split; [split_and!; cbn [rooms memberships]|].
  - done.
  - unfold table_ok in *. rewrite list_fmap_id in *. by apply NoDup_filter.
  - intros room' u' [_ Hin]%list_elem_of_filter. eauto.
  - apply view_eq. intros room. cbn [rooms]. rewrite lookup_fmap, lookup_view.
    case_decide; [|done]. cbn [fmap option_fmap option_map]. f_equal. apply set_eq. intros x.
    rewrite elem_of_difference, !elem_of_row_members, elem_of_singleton.
    cbn [memberships]. rewrite list_elem_of_filter. cbn [snd]. naive_solver.
Qed.

Lemma members_law db room : ok db → encodable room →
  members db room = Ok (room_members (view db) room).
Proof.
  intros Hok He. unfold members. rewrite bind_str_ok by done. by rewrite view_members.
Qed.

Lemma exists_law db room : ok db → encodable room →
  exists_ db room = Ok (bool_decide (is_Some (view db !! room))).
Proof.
  intros Hok He. unfold exists_. rewrite bind_str_ok by done. cbn [mbind res_bind].
  f_equal. apply bool_decide_ext. rewrite lookup_view.
  destruct (select fst (rooms db) room) as [r|] eqn:Es.
  - rewrite decide_True; [split; eauto|].
    apply dec_stable. intros Hn. by apply (select_None fst) in Hn; rewrite Hn in Es.
  - apply select_None in Es. by rewrite decide_False.
Qed.

(** An operation that returns was given values that can be stored. *)
Lemma join_inv db now room u db' :
  join db now room u = Ok db' → int64 now ∧ encodable room ∧ encodable u.
Proof.
  unfold join. destruct (bind_str room) as [r|] eqn:Er; [|done].
  apply bind_str_Ok in Er as [-> ?]. cbn [mbind res_bind].
  destruct (bind_int now) as [n|] eqn:En; [|done]. apply bind_int_Ok in En as [-> ?].
  cbn [mbind res_bind]. destruct (bind_str u) as [v|] eqn:Eu; [|done].
  by apply bind_str_Ok in Eu as [-> ?].
Qed.

Lemma leave_inv db room u db' :
  leave db room u = Ok db' → encodable room ∧ encodable u.
Proof.
  unfold leave. destruct (bind_str room) as [r|] eqn:Er; [|done].
  apply bind_str_Ok in Er as [-> ?]. cbn [mbind res_bind].
  destruct (bind_str u) as [v|] eqn:Eu; [|done]. by apply bind_str_Ok in Eu as [-> ?].
Qed.

Lemma create_inv db now room p :
  create db now room = Ok p →
  encodable room ∧ (int64 now ∨ create db 0 room = create db now room).
Proof.
  unfold create. destruct (bind_str room) as [r|] eqn:Er; [|done].
  apply bind_str_Ok in Er as [-> ?]. cbn [mbind res_bind].
  destruct (select fst (rooms db) room); [by auto|].
  destruct (bind_int now) as [n|] eqn:En; [|done]. apply bind_int_Ok in En as [-> ?]. auto.
Qed.

#[export] Instance sound : RoomStoreSound t ok view.
Proof.
  split; cbn [rs_create rs_join rs_leave rs_members rs_exists store].
  - intros r now room r' b Hok Hc. destruct (create_inv _ _ _ _ Hc) as [He [Hn|Heq]].
    + destruct (create_law r now room Hn Hok He) as (r2 & b2 & Hc2 & Hx).
      rewrite Hc in Hc2. by injection Hc2 as <- <-.
    + destruct (create_law r 0 room) as (r2 & b2 & Hc2 & Hx); [by split|done..|].
      rewrite Heq, Hc in Hc2. by injection Hc2 as <- <-.
  - intros r now room u r' Hok Hj. destruct (join_inv _ _ _ _ _ Hj) as (Hn & He & Hu).
    destruct (join_law r now room u Hn Hok He Hu) as (r2 & Hj2 & Hx).
    rewrite Hj in Hj2. by apply Ok_inj in Hj2 as <-.
  - intros r room u r' Hok Hl. destruct (leave_inv _ _ _ _ Hl) as (He & Hu).
    destruct (leave_law r room u Hok He Hu) as (r2 & Hl2 & Hx).
    rewrite Hl in Hl2. by apply Ok_inj in Hl2 as <-.
  - intros r room m Hok Hm. destruct (decide (encodable room)) as [He|He].
    + rewrite members_law in Hm by done. congruence.
    + unfold members, bind_str in Hm. by rewrite bool_decide_eq_false_2 in Hm.
  - intros r room b Hok Hm. destruct (decide (encodable room)) as [He|He].
    + rewrite exists_law in Hm by done. congruence.
    + unfold exists_, bind_str in Hm. by rewrite bool_decide_eq_false_2 in Hm.
Qed.

(** The SQLite tables are a room store with the in-memory registry's laws. *)
#[export] Instance laws : RoomStoreLaws t ok view.
Proof.
  split; [exact create_law | exact join_law | exact leave_law | exact members_law
    | exact exists_law | exact rooms_of_law | exact forget_law].
Qed.
End SqliteRooms.
