(* ===== verification/Messages.v ===== *)
(** * Message history and the offline queue

    [im/server/store/messages.py]: the tables [messages] and [pending].  Rows
    are in [rowid] (insertion) order, so SQLite's "ORDER BY ts, rowid" is a
    stable sort on [ts]. *)

From S2P Require Import Prelude PyStr PyDict Utf8 Json Registries Database.

Module Messages.
Definition PAIR_SEPARATOR : pystr := [31%N].
Definition ENVELOPES : pystr := &"*".
Definition SENT : pystr := &"SENT".
Definition DELIVERED : pystr := &"DELIVERED".
Definition READ : pystr := &"READ".
Definition DEFAULT_LIMIT : Z := 50.
Definition MAX_LIMIT : Z := 200.

Definition direct_conversation (a b : pystr) : pystr :=
  join PAIR_SEPARATOR (sorted [a; b]).

Record row := mkRow {
  m_id : pystr;
  m_conversation : pystr;
  m_sender : pystr;
  m_recipient : pystr;
  m_body : option pystr;
  m_nonce : option pystr;
  m_ts : Z;
  m_delivered_at : option Z;
  m_read_at : option Z;
}.

Record t := mkStore {
  messages : list row;                 (* id PRIMARY KEY *)
  pending : list (pystr * pystr);      (* (message_id, username) PRIMARY KEY *)
}.

Definition empty : t := mkStore [] [].

(** ** Writing *)

Definition record `{Runtime} (db : t) (message_id : json)
    (conversation sender recipient : pystr) (body nonce : json) (ts : Z) : res t :=
  i ← bind_key message_id;
  c ← bind_str conversation;
  s ← bind_str sender;
  r ← bind_str recipient;
  b ← bind_text body;
  n ← bind_text nonce;
  z ← bind_int ts;
  Ok (mkStore (insert_or_ignore m_id (messages db) (mkRow i c s r b n z None None)).1
              (pending db)).

Definition queue_for `{Runtime} (db : t) (username : pystr) (message_id : json) : res t :=
  i ← bind_key message_id;
  u ← bind_str username;
  Ok (mkStore (messages db) (insert_or_ignore id (pending db) (i, u)).1).

(** [UPDATE .. SET column = when WHERE id = .. AND column IS NULL]. *)
Definition set_delivered (when : Z) (r : row) : row :=
  match m_delivered_at r with
  | Some _ => r
  | None => mkRow (m_id r) (m_conversation r) (m_sender r) (m_recipient r) (m_body r)
              (m_nonce r) (m_ts r) (Some when) (m_read_at r)
  end.

Definition set_read (when : Z) (r : row) : row :=
  match m_read_at r with
  | Some _ => r
  | None => mkRow (m_id r) (m_conversation r) (m_sender r) (m_recipient r) (m_body r)
              (m_nonce r) (m_ts r) (m_delivered_at r) (Some when)
  end.

Definition update_where (message_id : pystr) (f : row → row) (rows : list row) : list row :=
  (λ r, if decide (m_id r = message_id) then f r else r) <$> rows.

Definition mark (db : t) (message_id state : pystr) (when : Z) : res (t * option pystr) :=
  i ← bind_str message_id;
  match select m_id (messages db) i with
  | None => Ok (db, None)
  | Some row =>
    w ← bind_int when;
    let rows := if decide (state = READ)
                then update_where i (set_delivered w) (update_where i (set_read w) (messages db))
                else update_where i (set_delivered w) (messages db) in
    Ok (mkStore rows (pending db), Some (m_sender row))
  end.

Definition row_state (r : row) : pystr :=
  match m_read_at r, m_delivered_at r with
  | Some _, _ => READ
  | None, Some _ => DELIVERED
  | None, None => SENT
  end.

Definition state_of (db : t) (message_id : pystr) : res pystr :=
  i ← bind_str message_id;
  Ok (match select m_id (messages db) i with None => SENT | Some r => row_state r end).

(** ** Reading *)

Definition ts_leb (a b : row) : bool := (m_ts a <=? m_ts b)%Z.

(** [ORDER BY ts, rowid]. *)
Definition by_ts (rows : list row) : list row := sorted_by ts_leb rows.

Definition flush (db : t) (username : pystr) : res (t * list row) :=
  u ← bind_str username;
  Ok (mkStore (messages db) (filter (λ p, p.2 ≠ u) (pending db)),
      by_ts (filter (λ r, (m_id r, u) ∈ pending db) (messages db))).

Definition pending_count (db : t) (username : pystr) : res nat :=
  u ← bind_str username; Ok (length (filter (λ p, p.2 = u) (pending db))).

(** [max(1, min(limit, MAX_LIMIT))]. *)
Definition clamp (limit : Z) : Z := Z.max 1 (Z.min limit MAX_LIMIT).

(** The [AND ts < ?] of the paged query. *)
Definition is_before (b : option Z) (r : row) : bool :=
  match b with None => true | Some z => (m_ts r <? z)%Z end.

Definition history (db : t) (conversation : pystr) (before : option Z) (limit : Z)
    : res (list row) :=
  c ← bind_str conversation;
  b ← match before with
      | None => Ok None
      | Some z => z' ← bind_int z; Ok (Some z')
      end;
  let wanted := filter (λ r, m_conversation r = c ∧ is_before b r) (messages db) in
  Ok (reverse (take (Z.to_nat (clamp limit)) (reverse (by_ts wanted)))).

Definition len (db : t) : nat := length (messages db).

(** ** The invariant: both primary keys *)

Definition ok (db : t) : Prop :=
  table_ok m_id (messages db) ∧ table_ok id (pending db).

Lemma update_where_ids i f rows :
  (∀ r, m_id (f r) = m_id r) → m_id <$> update_where i f rows = m_id <$> rows.
Proof.
  intros Hf. unfold update_where. rewrite <-list_fmap_compose.
  apply list_fmap_ext. intros k r _. cbn. by destruct (decide _).
Qed.

Lemma set_delivered_id w r : m_id (set_delivered w r) = m_id r.
Proof. unfold set_delivered. by destruct (m_delivered_at r). Qed.

Lemma set_read_id w r : m_id (set_read w r) = m_id r.
Proof. unfold set_read. by destruct (m_read_at r). Qed.

Lemma set_delivered_sender w r : m_sender (set_delivered w r) = m_sender r.
Proof. unfold set_delivered. by destruct (m_delivered_at r). Qed.

Lemma set_read_sender w r : m_sender (set_read w r) = m_sender r.
Proof. unfold set_read. by destruct (m_read_at r). Qed.

Lemma select_update i f rows k :
  (∀ r, m_id (f r) = m_id r) →
  select m_id (update_where i f rows) k =
    (λ r, if decide (k = i) then f r else r) <$> select m_id rows k.
Proof.
  intros Hf. unfold select, update_where. induction rows as [|r rows IH]; [done|].
  rewrite fmap_cons. destruct (decide (m_id r = i)) as [<-|Hi].
  - destruct (decide (m_id r = k)) as [<-|Hk].
    + rewrite !filter_cons_True by (rewrite ?Hf; done). cbn. by rewrite decide_True.
    + rewrite !filter_cons_False by (rewrite ?Hf; done). apply IH.
  - destruct (decide (m_id r = k)) as [<-|Hk].
    + rewrite !filter_cons_True by done. cbn. by rewrite decide_False.
    + rewrite !filter_cons_False by done. apply IH.
Qed.

(** Everything [record] can do. *)
Lemma record_inv `{Runtime} db i c s r b n ts db' :
  record db i c s r b n ts = Ok db' →
  ∃ k b' n', bind_key i = Ok k ∧ bind_text b = Ok b' ∧ bind_text n = Ok n' ∧
    encodable c ∧ encodable s ∧ encodable r ∧ int64 ts ∧
    db' = mkStore (insert_or_ignore m_id (messages db)
                     (mkRow k c s r b' n' ts None None)).1 (pending db).
Proof.
  unfold record. destruct (bind_key i) as [k|]; [|done]. cbn [mbind res_bind].
  destruct (bind_str c) as [c'|] eqn:Ec; [|done]. apply bind_str_Ok in Ec as [-> ?].
  cbn [mbind res_bind].
  destruct (bind_str s) as [s'|] eqn:Es; [|done]. apply bind_str_Ok in Es as [-> ?].
  cbn [mbind res_bind].
  destruct (bind_str r) as [r'|] eqn:Er; [|done]. apply bind_str_Ok in Er as [-> ?].
  cbn [mbind res_bind].
  destruct (bind_text b) as [b'|]; [|done]. cbn [mbind res_bind].
  destruct (bind_text n) as [n'|]; [|done]. cbn [mbind res_bind].
  destruct (bind_int ts) as [z|] eqn:Ez; [|done]. apply bind_int_Ok in Ez as [-> ?].
  intros <-%Ok_inj. eauto 15.
Qed.

Lemma record_ok `{Runtime} db i c s r b n ts db' :
  ok db → record db i c s r b n ts = Ok db' → ok db'.
Proof.
  intros [Hm Hp] (k & b' & n' & _ & _ & _ & _ & _ & _ & _ & ->)%record_inv.
  split; [by apply insert_or_ignore_ok | done].
Qed.

Lemma queue_for_inv `{Runtime} db u i db' :
  queue_for db u i = Ok db' →
  ∃ k, bind_key i = Ok k ∧ encodable u ∧
    db' = mkStore (messages db) (insert_or_ignore id (pending db) (k, u)).1.
Proof.
  unfold queue_for. destruct (bind_key i) as [k|]; [|done]. cbn [mbind res_bind].
  destruct (bind_str u) as [u'|] eqn:Eu; [|done]. apply bind_str_Ok in Eu as [-> ?].
  intros <-%Ok_inj. eauto.
Qed.

Lemma queue_for_ok `{Runtime} db u i db' : ok db → queue_for db u i = Ok db' → ok db'.
Proof.
  intros [Hm Hp] (k & _ & _ & ->)%queue_for_inv. split; [done | by apply insert_or_ignore_ok].
Qed.

Lemma mark_ok db i s w db' o : ok db → mark db i s w = Ok (db', o) → ok db'.
Proof.
  intros [Hm Hp]. unfold mark. destruct (bind_str i) as [i'|]; [|done]. cbn [mbind res_bind].
  destruct (select m_id (messages db) i') as [r|]; [|by intros [= <- _]].
  destruct (bind_int w) as [w'|]; [|done]. intros [= <- _]. split; [|done].
  unfold table_ok in *. cbn [messages]. destruct (decide (s = READ));
    rewrite !update_where_ids by eauto using set_delivered_id, set_read_id; done.
Qed.

Lemma update_where_sender i f rows :
  (∀ r, m_sender (f r) = m_sender r) → m_sender <$> update_where i f rows = m_sender <$> rows.
Proof.
  intros Hf. unfold update_where. rewrite <-list_fmap_compose.
  apply list_fmap_ext. intros k r _. cbn. by destruct (decide _).
Qed.

(** A receipt adds and removes no row and rewrites no sender. *)
Lemma mark_rows db i s w db' o :
  mark db i s w = Ok (db', o) →
  pending db' = pending db ∧ m_id <$> messages db' = m_id <$> messages db ∧
  m_sender <$> messages db' = m_sender <$> messages db.
Proof.
  unfold mark. destruct (bind_str i) as [i'|]; [|done]. cbn [mbind res_bind].
  destruct (select m_id (messages db) i') as [r|]; [|by intros [= <- _]].
  destruct (bind_int w) as [w'|]; [|done]. intros [= <- _]. cbn [messages pending].
  split; [done|]. destruct (decide (s = READ));
    rewrite !update_where_ids, !update_where_sender
      by eauto using set_delivered_id, set_read_id, set_delivered_sender, set_read_sender;
    done.
Qed.

Lemma elem_of_update_where i f rows r :
  r ∈ update_where i f rows → ∃ r0, r0 ∈ rows ∧ (r = r0 ∨ r = f r0).
Proof.
  unfold update_where. intros (r0 & -> & Hr)%list_elem_of_fmap. exists r0.
  split; [done|]. destruct (decide _); auto.
Qed.

(** Every row after a receipt is a row from before it, marked or not. *)
Lemma mark_old db i s w db' o :
  mark db i s w = Ok (db', o) →
  ∀ r, r ∈ messages db' → ∃ r0, r0 ∈ messages db ∧ m_id r0 = m_id r ∧ m_sender r0 = m_sender r.
Proof.
  unfold mark. destruct (bind_str i) as [i'|]; [|done]. cbn [mbind res_bind].
  destruct (select m_id (messages db) i') as [row|]; [|intros [= <- _]; eauto].
  destruct (bind_int w) as [w'|]; [|done]. intros [= <- _] r. cbn [messages].
  assert (∀ r0, m_id (set_delivered w' r0) = m_id r0 ∧ m_sender (set_delivered w' r0) = m_sender r0)
    as Hd by auto using set_delivered_id, set_delivered_sender.
  assert (∀ r0, m_id (set_read w' r0) = m_id r0 ∧ m_sender (set_read w' r0) = m_sender r0)
    as Hrd by auto using set_read_id, set_read_sender.
  destruct (decide (s = READ)).
  - intros (r0 & (r1 & Hr1 & Hor1)%elem_of_update_where & Hor)%elem_of_update_where.
    exists r1. split; [done|]. destruct (Hd r0), (Hrd r1).
    destruct Hor1 as [-> | ->], Hor as [-> | ->]; split; congruence.
  - intros (r0 & Hr0 & Hor)%elem_of_update_where. exists r0. split; [done|].
    destruct (Hd r0). destruct Hor as [-> | ->]; split; congruence.
Qed.

Lemma flush_inv db u db' rows :
  flush db u = Ok (db', rows) →
  encodable u ∧ db' = mkStore (messages db) (filter (λ p, p.2 ≠ u) (pending db)) ∧
  rows = by_ts (filter (λ r, (m_id r, u) ∈ pending db) (messages db)).
Proof.
  unfold flush. destruct (bind_str u) as [u'|] eqn:Eu; [|done].
  apply bind_str_Ok in Eu as [-> ?]. intros [= <- <-]. done.
Qed.

Lemma flush_ok db u db' rows : ok db → flush db u = Ok (db', rows) → ok db'.
Proof.
  intros [Hm Hp] (_ & -> & _)%flush_inv. split; [done|]. unfold table_ok in *.
  cbn [pending]. rewrite list_fmap_id in *. by apply NoDup_filter.
Qed.
End Messages.
