(* ===== verification/MessageFacts.v ===== *)
(** * Message history and the offline queue: what they promise

    The theorems on [Messages]: a message is stored once, its state only moves
    forward, the offline queue hands over exactly what was queued, and scrollback
    is the newest part of the conversation, in order and without gaps. *)

From S2P Require Import Prelude PyStr PyDict Utf8 Json Registries Database Messages.
Import Messages.

(** ** Order on timestamps *)

Definition ts_le (a b : row) : Prop := (m_ts a ≤ m_ts b)%Z.

Lemma by_ts_perm rows : by_ts rows ≡ₚ rows.
Proof. apply sorted_by_perm. Qed.

Lemma by_ts_sorted rows : StronglySorted ts_le (by_ts rows).
Proof.
  assert (StronglySorted (λ a b, ts_leb a b = true) (by_ts rows)) as Hs.
  { apply sorted_by_sorted; unfold ts_leb; intros *; rewrite !Z.leb_le; lia. }
  induction Hs as [|r l _ IH Hr]; constructor; [done|].
  eapply Forall_impl; [done|]. intros x. by apply Z.leb_le.
Qed.

(** Everything a page could show. *)
Definition matching (db : t) (conversation : pystr) (before : option Z) : list row :=
  filter (λ r, m_conversation r = conversation ∧ is_before before r) (messages db).

Lemma history_inv db c before limit rows :
  history db c before limit = Ok rows →
  rows = reverse (take (Z.to_nat (clamp limit)) (reverse (by_ts (matching db c before)))).
Proof.
  unfold history, matching. destruct (bind_str c) as [c'|] eqn:Ec; [|done].
  apply bind_str_Ok in Ec as [-> _]. cbn [mbind res_bind].
  destruct before as [z|]; cbn [mbind res_bind]; [|by intros <-%Ok_inj].
  destruct (bind_int z) as [z'|] eqn:Ez; [|done]. apply bind_int_Ok in Ez as [-> _].
  by intros <-%Ok_inj.
Qed.

(** A page is a suffix of the conversation in time order. *)
Lemma history_suffix db c before limit rows :
  history db c before limit = Ok rows →
  ∃ older, by_ts (matching db c before) = older ++ rows ∧
    length rows = Z.to_nat (clamp limit) `min` length (matching db c before).
Proof.
  intros ->%history_inv. set (l := by_ts _).
  exists (reverse (drop (Z.to_nat (clamp limit)) (reverse l))). split.
  - by rewrite <-reverse_app, take_drop, reverse_involutive.
  - rewrite length_reverse, length_take, length_reverse. subst l. by rewrite by_ts_perm.
Qed.

(** Scrollback: [history] returns between nothing and 200 messages, as many
    as exist up to the clamped limit, each belonging to the conversation and older
    than [before], oldest first; and no message it leaves out is newer than one it
    returns. *)
Theorem history_newest db c before limit rows :
  history db c before limit = Ok rows →
  length rows = Z.to_nat (clamp limit) `min` length (matching db c before) ∧
  length rows ≤ 200 ∧
  StronglySorted ts_le rows ∧
  (∃ older, older ++ rows ≡ₚ matching db c before ∧
     ∀ r r', r ∈ older → r' ∈ rows → (m_ts r ≤ m_ts r')%Z).
Proof.
  intros (older & Hl & Hlen)%history_suffix. pose proof (by_ts_sorted (matching db c before)) as Hs.
  rewrite Hl in Hs. split_and!; [done| | |].
  - rewrite Hlen. unfold clamp, MAX_LIMIT. lia.
  - by eapply StronglySorted_app_1_r.
  - exists older. split; [by rewrite <-Hl, by_ts_perm|]. intros r r' Hr Hr'.
    exact (StronglySorted_app_1_elem_of _ _ _ _ _ Hs Hr Hr').
Qed.

Lemma filter_by_ts_lt (older page : list row) r :
  StronglySorted ts_le (older ++ r :: page) → NoDup (m_ts <$> older ++ r :: page) →
  filter (λ x, m_ts x < m_ts r)%Z (older ++ r :: page) = older.
Proof.
  intros Hs Hnd. rewrite filter_app.
  assert (filter (λ x, m_ts x < m_ts r)%Z (r :: page) = []) as ->.
  { apply StronglySorted_app_1_r in Hs. apply StronglySorted_inv in Hs as [_ Hs].
    rewrite filter_cons_False by lia.
    induction Hs as [|x page Hx _ IH]; [done|]. unfold ts_le in Hx.
    rewrite filter_cons_False by lia. apply IH. clear -Hnd.
    rewrite !fmap_app, !fmap_cons in *. rewrite !NoDup_app, !NoDup_cons in *. set_solver. }
  rewrite app_nil_r. apply filter_all. rewrite Forall_forall. intros x Hx.
  assert (ts_le x r) as Hle by (eapply StronglySorted_app_1_elem_of; [done|done|left]).
  assert (m_ts x ≠ m_ts r); [|unfold ts_le in Hle; lia].
  intros Heq. rewrite fmap_app, fmap_cons in Hnd. apply NoDup_app in Hnd as (_ & Hd & _).
  apply (Hd (m_ts x)); [by apply list_elem_of_fmap_2|]. rewrite Heq. left.
Qed.

(** A stable sort commutes with a filter. *)
Lemma insert_filter (P : row → Prop) `{∀ r, Decision (P r)} x l :
  StronglySorted ts_le l →
  filter P (insert_by ts_leb x l) = if decide (P x) then insert_by ts_leb x (filter P l)
                                    else filter P l.
Proof.
  induction 1 as [|y l Hs IH Hy]; cbn [insert_by].
  { by rewrite (filter_cons P x []), filter_nil. }
  destruct (ts_leb x y) eqn:Exy.
  - rewrite (filter_cons P x (y :: l)). destruct (decide (P x)); [|done].
    assert (Forall (λ r, ts_leb x r = true) (filter P (y :: l))) as Hall.
    { apply Forall_forall. intros r [_ [->|Hr]%elem_of_cons]%list_elem_of_filter; [done|].
      rewrite Forall_forall in Hy. apply Hy in Hr. unfold ts_le, ts_leb in *.
      rewrite Z.leb_le in *. lia. }
    destruct (filter P (y :: l)) as [|z l'] eqn:E; [done|]. rewrite Forall_cons in Hall.
    destruct Hall as [Hz _]. cbn [insert_by]. by rewrite Hz.
  - rewrite (filter_cons P y l), (filter_cons P y (insert_by ts_leb x l)), IH.
    destruct (decide (P x)), (decide (P y)); try done. cbn [insert_by]. by rewrite Exy.
Qed.

Lemma by_ts_filter (P : row → Prop) `{∀ r, Decision (P r)} l :
  by_ts (filter P l) = filter P (by_ts l).
Proof.
  induction l as [|x l IH]; [done|]. cbn [by_ts sorted_by foldr].
  change (foldr (insert_by ts_leb) [] l) with (by_ts l).
  rewrite insert_filter by apply by_ts_sorted. rewrite filter_cons.
  destruct (decide (P x)); [|done]. cbn [by_ts sorted_by foldr].
  change (foldr (insert_by ts_leb) [] (filter P l)) with (by_ts (filter P l)). by rewrite IH.
Qed.

Lemma matching_before db c before t :
  match before with None => True | Some b => (t ≤ b)%Z end →
  matching db c (Some t) = filter (λ x, m_ts x < t)%Z (matching db c before).
Proof.
  intros Hb. unfold matching. rewrite list_filter_filter. apply list_filter_iff.
  intros r. cbn [is_before]. rewrite Is_true_true, Z.ltb_lt.
  destruct before as [b|]; cbn [is_before]; rewrite ?Is_true_true, ?Z.ltb_lt; naive_solver lia.
Qed.

(** Paging backwards is complete: asking again with [before] set to the
    oldest timestamp received returns the messages immediately preceding that
    page, with none skipped and none repeated, as long as no two messages of the
    conversation share a millisecond. *)
Theorem history_pages_contiguous db c before limit limit' r page page' :
  NoDup (m_ts <$> matching db c before) →
  history db c before limit = Ok (r :: page) →
  history db c (Some (m_ts r)) limit' = Ok page' →
  ∃ older, by_ts (matching db c before) = older ++ page' ++ r :: page.
Proof.
  intros Hnd (older & Hl & _)%history_suffix (older' & Hl' & _)%history_suffix.
  assert (NoDup (m_ts <$> older ++ r :: page)) as Hnd'.
  { rewrite <-Hl. by rewrite by_ts_perm. }
  pose proof (by_ts_sorted (matching db c before)) as Hs. rewrite Hl in Hs.
  rewrite (matching_before db c before) in Hl'.
  - rewrite by_ts_filter, Hl, filter_by_ts_lt in Hl' by done.
    exists older'. by rewrite Hl, Hl', <-app_assoc.
  - assert (r ∈ matching db c before) as Hr.
    { rewrite <-by_ts_perm, Hl. apply elem_of_app. right. left. }
    unfold matching in Hr. apply list_elem_of_filter in Hr as [[_ Hr] _].
    destruct before; [|done]. cbn [is_before] in Hr. apply Is_true_true, Z.ltb_lt in Hr. lia.
Qed.

(** ** Recording *)

(** A message is stored once: recording under a new id makes the row
    selectable with exactly what was given and unmarked, recording under a known
    id changes nothing at all, and no other row is touched in either case. *)
Theorem record_once `{Runtime} db i k c s r b n ts db' :
  bind_key i = Ok k → record db i c s r b n ts = Ok db' →
  (∀ old, select m_id (messages db) k = Some old → db' = db) ∧
  (select m_id (messages db) k = None →
     ∃ b' n', bind_text b = Ok b' ∧ bind_text n = Ok n' ∧
       select m_id (messages db') k = Some (mkRow k c s r b' n' ts None None)) ∧
  (∀ k' old, select m_id (messages db) k' = Some old → select m_id (messages db') k' = Some old) ∧
  pending db' = pending db.
Proof.
  intros Hk (k' & b' & n' & Hi & Hb & Hn & _ & _ & _ & _ & ->)%record_inv.
  assert (k' = k) as -> by congruence. cbn [messages pending]. split_and!.
  - intros old [Hin Hid]%select_Some. unfold insert_or_ignore.
    assert (has_key m_id (messages db) k = true) as Hh
      by (apply has_key_true; rewrite <-Hid; by apply list_elem_of_fmap_2).
    cbn [m_id]. rewrite Hh. by destruct db.
  - intros Hnone%select_None. exists b', n'. split_and!; [done..|].
    by apply (select_insert_new m_id (messages db) (mkRow k c s r b' n' ts None None)).
  - intros. by apply select_insert.
  - done.
Qed.

(** ** Receipts *)

(** How far along a row is: SENT, DELIVERED, READ. *)
Definition progress (r : row) : nat :=
  match m_read_at r, m_delivered_at r with
  | Some _, _ => 2
  | None, Some _ => 1
  | None, None => 0
  end.

(** What a receipt may not change. *)
Definition same_message (r r' : row) : Prop :=
  m_id r' = m_id r ∧ m_conversation r' = m_conversation r ∧ m_sender r' = m_sender r ∧
  m_recipient r' = m_recipient r ∧ m_body r' = m_body r ∧ m_nonce r' = m_nonce r ∧
  m_ts r' = m_ts r.

(** The update [mark] makes to the row it names. *)
Definition marked (state : pystr) (when : Z) (r : row) : row :=
  if decide (state = READ) then set_delivered when (set_read when r) else set_delivered when r.

Lemma marked_id state w r : m_id (marked state w r) = m_id r.
Proof.
  unfold marked. destruct (decide _); by rewrite ?set_delivered_id, ?set_read_id.
Qed.

Lemma mark_inv db i state w db' o :
  mark db i state w = Ok (db', o) →
  (o = None ∧ db' = db ∧ select m_id (messages db) i = None) ∨
  (∃ r, select m_id (messages db) i = Some r ∧ o = Some (m_sender r) ∧ int64 w ∧
     pending db' = pending db ∧
     ∀ k, select m_id (messages db') k =
       (λ r, if decide (k = i) then marked state w r else r) <$> select m_id (messages db) k).
Proof.
  unfold mark. destruct (bind_str i) as [i'|] eqn:Ei; [|done]. apply bind_str_Ok in Ei as [-> _].
  cbn [mbind res_bind]. destruct (select m_id (messages db) i) as [r|] eqn:Es.
  2:{ intros [= <- <-]. by left. }
  destruct (bind_int w) as [w'|] eqn:Ew; [|done]. apply bind_int_Ok in Ew as [-> Hw].
  cbn [mbind res_bind]. intros [= <- <-]. right. exists r. split_and!; [done..|].
  intros k. cbn [messages]. unfold marked. destruct (decide (state = READ)).
  - rewrite !select_update by eauto using set_delivered_id, set_read_id.
    destruct (select m_id (messages db) k); cbn; [|done]. by destruct (decide (k = i)).
  - by rewrite select_update by eauto using set_delivered_id.
Qed.

Lemma same_message_trans r1 r2 r3 : same_message r1 r2 → same_message r2 r3 → same_message r1 r3.
Proof. unfold same_message. intuition congruence. Qed.

Lemma elem_of_updated i f rows r :
  r ∈ rows → (∀ r, same_message r (f r)) → ∃ r', r' ∈ update_where i f rows ∧ same_message r r'.
Proof.
  intros Hr Hf. eexists. split; [by apply list_elem_of_fmap_2|]. by destruct (decide _).
Qed.

(** A receipt leaves every message in the store. *)
Lemma mark_message db i state w db' o r :
  mark db i state w = Ok (db', o) → r ∈ messages db →
  ∃ r', r' ∈ messages db' ∧ same_message r r'.
Proof.
  unfold mark. destruct (bind_str i) as [i'|]; [|done]. cbn [mbind res_bind]. intros Hm Hr.
  destruct (select m_id (messages db) i'); [|injection Hm as <- _; by exists r].
  destruct (bind_int w) as [w'|]; [|done]. injection Hm as <- _. cbn [messages].
  assert (∀ r, same_message r (set_delivered w' r)) as Hd
    by (intros x; unfold set_delivered; by destruct (m_delivered_at x)).
  destruct (decide (state = READ)); [|by apply elem_of_updated].
  destruct (elem_of_updated i' (set_read w') (messages db) r) as (r1 & Hr1 & Hs1); [done| |].
  { intros x. unfold set_read. by destruct (m_read_at x). }
  destruct (elem_of_updated i' (set_delivered w') _ r1 Hr1 Hd) as (r2 & Hr2 & Hs2).
  exists r2. split; [done|]. by eapply same_message_trans.
Qed.

(** Message states only move forward: whatever receipts arrive, in whatever
    order, a message keeps its contents, its progress along SENT, DELIVERED, READ
    never decreases, a time once written is never overwritten, and after a READ
    receipt the message counts as delivered too. *)
Theorem mark_monotone db i state w db' o k r :
  mark db i state w = Ok (db', o) → select m_id (messages db) k = Some r →
  ∃ r', select m_id (messages db') k = Some r' ∧ same_message r r' ∧
    progress r ≤ progress r' ∧
    (∀ t, m_delivered_at r = Some t → m_delivered_at r' = Some t) ∧
    (∀ t, m_read_at r = Some t → m_read_at r' = Some t) ∧
    (k ≠ i → r' = r) ∧
    (k = i → 1 ≤ progress r' ∧ m_delivered_at r' ≠ None ∧ (state = READ → row_state r' = READ)).
Proof.
  intros Hm Hr. apply mark_inv in Hm as [(_ & -> & Hi)|(r0 & _ & _ & _ & _ & Hsel)].
  - exists r. split_and!; try done. intros ->. congruence.
  - specialize (Hsel k). rewrite Hr in Hsel. cbn [fmap option_fmap option_map] in Hsel.
    eexists. split; [exact Hsel|]. unfold same_message, marked, set_delivered, set_read, progress,
      row_state.
    destruct (decide (k = i)); [|by split_and!].
    destruct (decide (state = READ)), r as [? ? ? ? ? ? ? [] []]; cbn;
      split_and!; try done; try lia; intros; split_and!; try done; lia.
Qed.

(** ** The offline queue *)

(** The queue hands over exactly what is owed: [flush] returns, oldest first,
    precisely the stored messages queued for that user, each once, empties that
    user's queue and leaves everybody else's, so that a second flush returns
    nothing. *)
Theorem flush_exact db u db' rows :
  ok db → flush db u = Ok (db', rows) →
  StronglySorted ts_le rows ∧ NoDup (m_id <$> rows) ∧
  (∀ r, r ∈ rows ↔ r ∈ messages db ∧ (m_id r, u) ∈ pending db) ∧
  messages db' = messages db ∧
  (∀ k v, (k, v) ∈ pending db' ↔ (k, v) ∈ pending db ∧ v ≠ u) ∧
  pending_count db' u = Ok 0 ∧ flush db' u = Ok (db', []).
Proof.
  intros [Hm Hp] (He & -> & ->)%flush_inv.
  assert (filter (λ p, p.2 = u) (filter (λ p : pystr * pystr, p.2 ≠ u) (pending db)) = []) as Hz.
  { apply filter_none. apply Forall_forall. by intros p [? _]%list_elem_of_filter. }
  split_and!.
  - apply by_ts_sorted.
  - rewrite by_ts_perm. eapply sublist_NoDup; [exact Hm|apply fmap_sublist, sublist_filter].
  - intros r. rewrite by_ts_perm, list_elem_of_filter. tauto.
  - done.
  - intros k v. cbn [pending]. rewrite list_elem_of_filter. cbn [snd]. tauto.
  - unfold pending_count. rewrite bind_str_ok by done. cbn [mbind res_bind pending]. by rewrite Hz.
  - unfold flush. rewrite bind_str_ok by done. cbn [mbind res_bind pending messages].
    rewrite list_filter_filter. f_equal. f_equal.
    + f_equal. apply list_filter_iff. tauto.
    + rewrite filter_none; [done|]. apply Forall_forall.
      intros r _ [? _]%list_elem_of_filter. done.
Qed.

(** ** Conversation keys *)

Lemma sorted_pair a b : sorted [a; b] = if str_leb a b then [a; b] else [b; a].
Proof. reflexivity. Qed.

(** Splitting at the first separator is unambiguous. *)
Lemma app_sep_inj (x : N) a b a' b' :
  x ∉ a → x ∉ a' → a ++ x :: b = a' ++ x :: b' → a = a' ∧ b = b'.
Proof.
  revert a'. induction a as [|c a IH]; intros [|c' a'] Ha Ha' Heq; simplify_eq/=.
  - done.
  - by destruct Ha'; left.
  - by destruct Ha; left.
  - destruct (IH a') as [-> ->]; [set_solver..|done|]. done.
Qed.

Lemma direct_conversation_comm a b : direct_conversation a b = direct_conversation b a.
Proof. unfold direct_conversation. f_equal. apply sorted_proper, Permutation_swap. Qed.

(** One conversation per pair: both directions use one key, and two pairs of
    names without the separator share a key only if they are the same pair. *)
Theorem direct_conversation_spec a b a' b' :
  (31%N ∉ a) → (31%N ∉ b) → (31%N ∉ a') → (31%N ∉ b') →
  direct_conversation a b = direct_conversation b a ∧
  (direct_conversation a b = direct_conversation a' b' ↔
     (a = a' ∧ b = b') ∨ (a = b' ∧ b = a')).
Proof.
  intros Ha Hb Ha' Hb'. split; [apply direct_conversation_comm|]. split.
  - unfold direct_conversation, PAIR_SEPARATOR. rewrite !sorted_pair.
    destruct (str_leb a b), (str_leb a' b'); cbn [join app];
      intros Heq; apply app_sep_inj in Heq as [-> ->]; auto.
  - intros [[-> ->]|[-> ->]]; [done|apply direct_conversation_comm].
Qed.

(** The separator is not refused in a user name, and two different pairs can
    then share one conversation. *)
Theorem direct_conversation_collides :
  ∃ a b a' b', a ≠ a' ∧ a ≠ b' ∧ direct_conversation a b = direct_conversation a' b'.
Proof.
  exists (&"a"), [98; 31; 99]%N, [97; 31; 98]%N, (&"c"). by vm_compute.
Qed.

(** ** Witnesses *)

Definition sample_row (i : pystr) (ts : Z) : row :=
  mkRow i (&"#room") (&"alice") (&"#room") (Some (&"hello")) None ts None None.

Definition sample_db : t :=
  mkStore [sample_row (&"m1") 30; sample_row (&"m2") 10; sample_row (&"m3") 20]
          [(&"m1", &"bob"); (&"m2", &"bob"); (&"m1", &"carol")].

Lemma history_newest_witness :
  let rows := [sample_row (&"m3") 20; sample_row (&"m1") 30] in
  history sample_db (&"#room") None 2 = Ok rows ∧ length rows ≤ 200.
Proof.
  assert (history sample_db (&"#room") None 2 =
            Ok [sample_row (&"m3") 20; sample_row (&"m1") 30]) as H by by vm_compute.
  split; [exact H|]. exact (proj1 (proj2 (history_newest _ _ _ _ _ H))).
Defined.

Lemma history_pages_contiguous_witness :
  ∃ older, by_ts (matching sample_db (&"#room") None) =
    older ++ [sample_row (&"m2") 10] ++ [sample_row (&"m3") 20; sample_row (&"m1") 30].
Proof.
  apply (history_pages_contiguous sample_db (&"#room") None 2 5 (sample_row (&"m3") 20)).
  - assert (m_ts <$> matching sample_db (&"#room") None = [30; 10; 20]%Z) as -> by by vm_compute.
    apply (bool_decide_eq_true_1 (NoDup _)). by vm_compute.
  - by vm_compute.
  - by vm_compute.
Defined.

#[local] Existing Instance plain_runtime.

Lemma record_once_witness :
  ∃ db', record sample_db (JStr (&"m1")) (&"#room") (&"mallory") (&"#room")
           (JStr (&"other")) JNull 99 = Ok db' ∧ db' = sample_db.
Proof.
  eexists. split; [by vm_compute|].
  eapply (record_once sample_db (JStr (&"m1")) (&"m1") (&"#room") (&"mallory") (&"#room")
    (JStr (&"other")) JNull 99); by vm_compute.
Defined.

Lemma mark_monotone_witness :
  ∃ db' r', mark sample_db (&"m1") READ 50 = Ok (db', Some (&"alice")) ∧
    select m_id (messages db') (&"m1") = Some r' ∧ row_state r' = READ.
Proof.
  eexists.
  destruct (mark_monotone sample_db (&"m1") READ 50 _ _ (&"m1") (sample_row (&"m1") 30)
    ltac:(vm_compute; reflexivity) ltac:(vm_compute; reflexivity))
    as (r' & Hs & _ & _ & _ & _ & _ & H).
  exists r'. split; [by vm_compute|]. split; [exact Hs|]. by apply H.
Defined.

Lemma sample_ok : ok sample_db.
Proof. split; apply (bool_decide_eq_true_1 (NoDup _)); by vm_compute. Qed.

Lemma flush_exact_witness :
  ∃ db', flush sample_db (&"bob") = Ok (db', [sample_row (&"m2") 10; sample_row (&"m1") 30]) ∧
    pending_count db' (&"bob") = Ok 0.
Proof.
  eexists. split; [by vm_compute|].
  eapply (flush_exact sample_db (&"bob")); [exact sample_ok|by vm_compute].
Defined.

Lemma direct_conversation_spec_witness :
  direct_conversation (&"bob") (&"alice") = direct_conversation (&"alice") (&"bob").
Proof. apply (direct_conversation_spec _ _ (&"x") (&"y")); by vm_compute; set_solver. Defined.
