(* ===== verification/Wp.v ===== *)
(** * Weakest preconditions for stateful code that may raise

    [wp m Q E w]: run from [w], the code [m] either returns a value and a state
    that satisfy [Q], or raises in a state that satisfies [E].  The rules follow
    the code, so a proof about a handler walks through it; [keeps I m] is the
    special case of an invariant. *)

From S2P Require Import Prelude.

Definition wp {S A} (m : M S A) (Q : A → S → Prop) (E : S → Prop) (w : S) : Prop :=
  match m w with
  | (w', Ok a) => Q a w'
  | (w', Raise _) => E w'
  end.

Definition keeps {S A} (I : S → Prop) (m : M S A) : Prop := ∀ w, I w → I (m w).1.

Section rules.
Context {S : Type}.
Implicit Types (w : S) (E : S → Prop).

Lemma wp_bind {A B} (m : M S A) (k : A → M S B) Q E w :
  wp m (λ a w', wp (k a) Q E w') E w → wp (m ≫= k) Q E w.
Proof.
  unfold wp, mbind, M_bind. destruct (m w) as [w' [a|e]]; done.
Qed.

Lemma wp_ret {A} (a : A) (Q : A → S → Prop) E w : Q a w → wp (mret a) Q E w.
Proof. done. Qed.

Lemma wp_raise {A} e (Q : A → S → Prop) E w : E w → wp (raise e) Q E w.
Proof. done. Qed.

Lemma wp_get (Q : S → S → Prop) E w : Q w w → wp get Q E w.
Proof. done. Qed.

Lemma wp_modify f (Q : unit → S → Prop) E w : Q tt (f w) → wp (modify f) Q E w.
Proof. done. Qed.

Lemma wp_lift_res {A} (r : res A) (Q : A → S → Prop) E w :
  (∀ a, r = Ok a → Q a w) → (∀ e, r = Raise e → E w) → wp (lift_res r) Q E w.
Proof. unfold wp, lift_res. destruct r; eauto. Qed.

Lemma wp_mono {A} (m : M S A) (Q Q' : A → S → Prop) E E' w :
  wp m Q E w → (∀ a w', Q a w' → Q' a w') → (∀ w', E w' → E' w') → wp m Q' E' w.
Proof. unfold wp. destruct (m w) as [w' [a|e]]; eauto. Qed.

(** A loop, by an invariant of its body. *)
Lemma wp_forM {A} (I : S → Prop) (l : list A) f (Q : unit → S → Prop) E w :
  I w → (∀ x w, x ∈ l → I w → wp (f x) (λ _, I) E w) → (∀ w, I w → Q tt w) →
  wp (forM l f) Q E w.
Proof.
  revert w. induction l as [|x l IH]; intros w Hw Hf HQ; [by apply HQ|]. cbn [forM].
  apply wp_bind. eapply wp_mono; [by apply Hf; [left|]| |done].
  intros [] w' Hw'. apply IH; [done| |done]. intros y w'' Hy. apply Hf. by right.
Qed.

Lemma keeps_wp {A} (I : S → Prop) (m : M S A) :
  (∀ w, I w → wp m (λ _, I) I w) → keeps I m.
Proof.
  intros Hm w Hw. specialize (Hm w Hw). unfold wp in Hm. by destruct (m w) as [w' [a|e]].
Qed.

Lemma wp_keeps {A} (I : S → Prop) (m : M S A) (Q : A → S → Prop) E w :
  keeps I m → I w → (∀ a w', I w' → Q a w') → (∀ w', I w' → E w') → wp m Q E w.
Proof.
  intros Hm Hw HQ HE. specialize (Hm w Hw). unfold wp. destruct (m w) as [w' [a|e]]; auto.
Qed.

Lemma wp_forM_keeps {A} (I : S → Prop) (l : list A) (f : A → M S unit) :
  (∀ x, x ∈ l → keeps I (f x)) → keeps I (forM l f).
Proof.
  intros Hf. apply keeps_wp. intros w Hw. apply (wp_forM I); [done| |done].
  intros x w' Hx Hw'. eapply wp_keeps; eauto.
Qed.

(** Reading a result back from [wp]. *)
Lemma wp_run {A} (m : M S A) (Q : A → S → Prop) E w :
  wp m Q E w →
  (∃ a w', m w = (w', Ok a) ∧ Q a w') ∨ (∃ e w', m w = (w', Raise e) ∧ E w').
Proof. unfold wp. destruct (m w) as [w' [a|e]]; [left|right]; eauto. Qed.
End rules.

(** Reading and assigning, as rewrite rules. *)
Lemma get_run {S A} (k : S → M S A) (s : S) : (get ≫= k) s = k s s.
Proof. done. Qed.

Lemma modify_run {S A} (g : S → S) (k : unit → M S A) (s : S) :
  (modify g ≫= k) s = k tt (g s).
Proof. done. Qed.

(** One step through the code: the rule for its first construct. *)
Ltac wp_core :=
  lazymatch goal with
  | |- wp (_ ≫= _) _ _ _ => apply wp_bind
  | |- wp (mret _) _ _ _ => apply wp_ret
  | |- wp (raise _) _ _ _ => apply wp_raise
  | |- wp get _ _ _ => apply wp_get
  | |- wp (modify _) _ _ _ => apply wp_modify
  | |- wp (lift_res _) _ _ _ => apply wp_lift_res; intros ? ?
  | |- wp (if ?b then _ else _) _ _ _ => let H := fresh "Hb" in destruct b eqn:H
  | |- wp (match ?x with _ => _ end) _ _ _ => let H := fresh "Hm" in destruct x eqn:H
  | |- wp (let x := ?v in _) _ _ _ => cbv zeta
  end.
