(* ===== verification/Router.v ===== *)
(** * MessageRouter

    [im/server/router.py], handler by handler, in the order of the file.  The
    router reaches a connection only through its [username] and its [send], so a
    connection is an identity ([sid]) and the frames handed to [send] are a trace.
    The room store is any instance of [RoomStore]. *)

From S2P Require Import Prelude PyStr PyDict Utf8 Json Frames.
From S2P Require Import PyInt Registries Database Users Messages.

Definition ROOM_PREFIX : pystr := &"#".
Definition ONLINE : pystr := &"ONLINE".
Definition OFFLINE : pystr := &"OFFLINE".

Definition opt_json (o : option pystr) : json :=
  match o with Some s => JStr s | None => JNull end.

(** ** The router's state

    [w_user] is each connection's [username] attribute; [w_out] every [send] so
    far; [w_tick] how many clock readings, identifiers and salts were drawn. *)
Record world (R : Type) := mkWorld {
  w_sessions : Sessions.t;
  w_user : gmap sid pystr;
  w_rooms : R;
  w_users : Users.t;
  w_msgs : option Messages.t;
  w_contacts : option Contacts.t;
  w_out : list (sid * Frame);
  w_tick : nat;
}.
Arguments mkWorld {_} _ _ _ _ _ _ _ _.
Arguments w_sessions {_} _.
Arguments w_user {_} _.
Arguments w_rooms {_} _.
Arguments w_users {_} _.
Arguments w_msgs {_} _.
Arguments w_contacts {_} _.
Arguments w_out {_} _.
Arguments w_tick {_} _.

Section setters.
Context {R : Type}.
Implicit Type w : world R.

Definition set_sessions x w := mkWorld x (w_user w) (w_rooms w) (w_users w)
  (w_msgs w) (w_contacts w) (w_out w) (w_tick w).
Definition set_user x w := mkWorld (w_sessions w) x (w_rooms w) (w_users w)
  (w_msgs w) (w_contacts w) (w_out w) (w_tick w).
Definition set_rooms (x : R) w := mkWorld (w_sessions w) (w_user w) x (w_users w)
  (w_msgs w) (w_contacts w) (w_out w) (w_tick w).
Definition set_users x w := mkWorld (w_sessions w) (w_user w) (w_rooms w) x
  (w_msgs w) (w_contacts w) (w_out w) (w_tick w).
Definition set_msgs x w := mkWorld (w_sessions w) (w_user w) (w_rooms w) (w_users w)
  x (w_contacts w) (w_out w) (w_tick w).
Definition set_contacts x w := mkWorld (w_sessions w) (w_user w) (w_rooms w) (w_users w)
  (w_msgs w) x (w_out w) (w_tick w).
Definition set_out x w := mkWorld (w_sessions w) (w_user w) (w_rooms w) (w_users w)
  (w_msgs w) (w_contacts w) x (w_tick w).
Definition set_tick x w := mkWorld (w_sessions w) (w_user w) (w_rooms w) (w_users w)
  (w_msgs w) (w_contacts w) (w_out w) x.
End setters.

Section Router.
Context `{Runtime} {R : Type} `{RoomStore R}.

Abbreviation Mw := (M (world R)).

(** ** Primitives *)

Definition tick : Mw nat := λ w, (set_tick (S (w_tick w)) w, Ok (w_tick w)).

Definition now_ms : Mw Z := n ← tick; mret (rt_now n).

(** [Frame(...)] with its [id] and [ts] left to their defaults. *)
Definition new_frame (t : MessageType) (sender to : json) (data : list (pystr * json))
    : Mw Frame :=
  n ← tick;
  mret (mkFrame t sender to JNull JNull data (JStr (rt_uuid n)) (rt_now n)
          (JInt PROTOCOL_VERSION)).

Definition send (s : sid) (f : Frame) : Mw unit :=
  modify (λ w, set_out (w_out w ++ [(s, f)]) w).

Definition send_error (s : sid) (code message : pystr) : Mw unit :=
  f ← new_frame ERROR JNull JNull (error_data code message); send s f.

Definition gets {A} (f : world R → A) : Mw A := λ w, (w, Ok (f w)).

(** [session.username]. *)
Definition username (s : sid) : Mw (option pystr) := gets (λ w, w_user w !! s).

(** A store operation that changes the rooms, and one that reads them. *)
Definition rooms_upd {A} (op : R → res (R * A)) : Mw A := λ w,
  match op (w_rooms w) with
  | Ok (r, a) => (set_rooms r w, Ok a)
  | Raise e => (w, Raise e)
  end.
Definition rooms_get {A} (op : R → res A) : Mw A := λ w, (w, op (w_rooms w)).

Definition room_create (room : pystr) : Mw bool :=
  n ← tick; rooms_upd (λ r, rs_create r (rt_now n) room).
Definition room_join (room u : pystr) : Mw unit :=
  n ← tick; rooms_upd (λ r, r' ← rs_join r (rt_now n) room u; Ok (r', tt)).
Definition room_leave (room u : pystr) : Mw unit :=
  rooms_upd (λ r, r' ← rs_leave r room u; Ok (r', tt)).
Definition room_exists (room : pystr) : Mw bool := rooms_get (λ r, rs_exists r room).
Definition rooms_of (u : pystr) : Mw (list pystr) := rooms_get (λ r, rs_rooms_of r u).

(** [self.rooms.members(room)], a set; [sorted] of it. *)
Definition room_members_of (room : pystr) : Mw (gset pystr) :=
  rooms_get (λ r, rs_members r room).
Definition sorted_set (m : gset pystr) : list pystr := sorted (elements m).

(** An operation of a store that may be absent ([self.messages is None]). *)
Definition msgs_upd {A} (op : Messages.t → res (Messages.t * A)) : Mw A := λ w,
  match w_msgs w with
  | None => (w, Raise AttributeError)
  | Some db => match op db with
               | Ok (db', a) => (set_msgs (Some db') w, Ok a)
               | Raise e => (w, Raise e)
               end
  end.
Definition contacts_upd {A} (op : Contacts.t → res (Contacts.t * A)) : Mw A := λ w,
  match w_contacts w with
  | None => (w, Raise AttributeError)
  | Some db => match op db with
               | Ok (db', a) => (set_contacts (Some db') w, Ok a)
               | Raise e => (w, Raise e)
               end
  end.
Definition users_get {A} (op : Users.t → res A) : Mw A := λ w, (w, op (w_users w)).

Definition has_msgs : Mw bool := gets (λ w, bool_decide (is_Some (w_msgs w))).
Definition has_contacts : Mw bool := gets (λ w, bool_decide (is_Some (w_contacts w))).
Definition session_of (u : pystr) : Mw (option sid) := gets (λ w, Sessions.get (w_sessions w) u).

(** [self.sessions.login(username, session)]. *)
Definition session_login (u : pystr) (s : sid) : Mw bool := λ w,
  (set_sessions (Sessions.login (w_sessions w) u s).1 w,
   Ok (Sessions.login (w_sessions w) u s).2).

(** [value.startswith(...)]: only a [str] has the method. *)
Definition need_str (j : json) : Mw pystr :=
  match j with JStr s => mret s | _ => raise AttributeError end.

Definition is_room (s : pystr) : bool := startswith s ROOM_PREFIX.

(** ** Presence *)

Definition _announce (u state : pystr) : Mw unit :=
  announcement ← new_frame PRESENCE JNull JNull [(&"user", JStr u); (&"state", JStr state)];
  others ← gets (λ w, Sessions.others (w_sessions w) u);
  forM others (λ other, send other announcement).

Definition on_disconnect (s : sid) : Mw unit :=
  u ← username s;
  match u with
  | None => mret tt
  | Some u =>
    modify (λ w, set_sessions (Sessions.logout (w_sessions w) u) w);;
    modify (λ w, set_user (delete s (w_user w)) w);;
    _announce u OFFLINE
  end.

(** ** Contacts *)

Definition _contact_states (u : pystr) : Mw (list json) :=
  has ← has_contacts;
  if negb has then mret []
  else
    online ← gets (λ w, Sessions.usernames (w_sessions w));
    names ← contacts_upd (λ db, l ← Contacts.of_ db u; Ok (db, l));
    mret ((λ name, JObj [(&"user", JStr name);
                         (&"online", JBool (bool_decide (name ∈ online)))]) <$> names).

Definition _send_contacts (s : sid) : Mw unit :=
  u ← username s;
  states ← _contact_states (default [] u);
  f ← new_frame CONTACTS JNull (opt_json u) [(&"contacts", JList states)];
  send s f.

Definition _add_contact (s : sid) (frame : Frame) : Mw unit :=
  has ← has_contacts;
  if negb has then send_error s (&"UNSUPPORTED") (&"this server keeps no contacts")
  else
    match jget (f_data frame) (&"user") with
    | JStr name =>
      if bool_decide (name = []) then
        send_error s (&"NO_RECIPIENT") (&"ADD_CONTACT needs a user")
      else
        u ← username s;
        if bool_decide (u = Some name) then
          send_error s (&"BAD_CONTACT") (&"you are already in your own contacts")
        else if is_room name then
          send_error s (&"BAD_CONTACT") (&"a room is not a contact -- JOIN it instead")
        else
          known ← users_get (λ db, Users.exists_ db name);
          if negb known then
            send_error s (&"NO_SUCH_USER") (&"nobody is registered as " ++ name)
          else
            now ← now_ms;
            _ ← contacts_upd (λ db, Contacts.add db (default [] u) name now);
            _send_contacts s
    | _ => send_error s (&"NO_RECIPIENT") (&"ADD_CONTACT needs a user")
    end.

Definition _remove_contact (s : sid) (frame : Frame) : Mw unit :=
  has ← has_contacts;
  if negb has then mret tt
  else
    (match jget (f_data frame) (&"user") with
     | JStr name =>
       if bool_decide (name = []) then mret tt
       else u ← username s;
            _ ← contacts_upd (λ db, Contacts.remove db (default [] u) name);
            mret tt
     | _ => mret tt
     end : Mw unit);;
    _send_contacts s.

Definition _note_contact (owner other : pystr) : Mw unit :=
  has ← has_contacts;
  if negb has || bool_decide (other = []) || is_room other then mret tt
  else
    now ← now_ms;
    added ← contacts_upd (λ db, Contacts.add db owner other now);
    if negb added then mret tt
    else
      theirs ← session_of owner;
      match theirs with
      | Some s => _send_contacts s
      | None => mret tt
      end.

(** ** Accounts *)

Definition _register (s : sid) (frame : Frame) : Mw unit :=
  let user := jget (f_data frame) (&"user") in
  let pass_hash := jget (f_data frame) (&"pass_hash") in
  if negb (truthy user) || negb (truthy pass_hash) then
    send_error s (&"BAD_REGISTER") (&"user and pass_hash are required")
  else
    u ← need_str user;
    if is_room u then
      send_error s (&"BAD_USERNAME") (&"a username may not start with " ++ ROOM_PREFIX)
    else
      n ← tick;
      result ← users_get (λ db, Users.register db (rt_salt n) (rt_now n) u pass_hash
                                  (jget (f_data frame) (&"pubkey")));
      if negb result.2 then send_error s (&"USER_EXISTS") (u ++ &" is taken")
      else
        modify (set_users result.1);;
        f ← new_frame OK JNull JNull [(&"user", JStr u)];
        send s f.

(** One stored row, as the reader is allowed to see it. *)
Definition row_progress (r : Messages.row) : pystr :=
  if bool_decide (default 0%Z (Messages.m_read_at r) ≠ 0%Z) then Messages.READ
  else if bool_decide (default 0%Z (Messages.m_delivered_at r) ≠ 0%Z) then Messages.DELIVERED
  else &"SENT".

(** [except ValueError]: what the decoder can raise, a deep nesting apart. *)
Definition is_value_error (e : exn) : bool :=
  match e with JSONDecodeError _ | ValueError => true | _ => false end.

Definition _history_body (r : Messages.row) (reader : pystr)
    : res (option (option pystr * option pystr)) :=
  if bool_decide (Messages.m_nonce r = Some Messages.ENVELOPES) then
    let text := match Messages.m_body r with Some (c :: t) => c :: t | _ => &"{}" end in
    match loads text with
    | Raise e => if is_value_error e then Ok None else Raise e
    | Ok (JObj envelopes) =>
      match jget envelopes reader with
      | JList [body; nonce] => Ok (Some (Some (py_str body), Some (py_str nonce)))
      | _ => Ok None
      end
    | Ok _ => Raise AttributeError
    end
  else Ok (Some (Messages.m_body r, Messages.m_nonce r)).

Definition entry_json (r : Messages.row) (bn : option pystr * option pystr) : json :=
  JObj [(&"id", JStr (Messages.m_id r)); (&"from", JStr (Messages.m_sender r));
        (&"to", JStr (Messages.m_recipient r)); (&"body", opt_json bn.1);
        (&"n", opt_json bn.2); (&"ts", JInt (Messages.m_ts r));
        (&"state", JStr (row_progress r))].

Definition _history_entry (r : Messages.row) (reader : pystr) : res (option json) :=
  match _history_body r reader with
  | Ok o => Ok (option_map (entry_json r) o)
  | Raise e => Raise e
  end.

(** One queued row: the body of the loop in [_flush_pending]. *)
Definition hand_over (s : sid) (u : pystr) (r : Messages.row) : Mw unit :=
  entry ← lift_res (_history_body r u);
  match entry with
  | None => mret tt
  | Some (body, nonce) =>
    send s (mkFrame MSG (JStr (Messages.m_sender r)) (JStr (Messages.m_recipient r))
              (opt_json body) (opt_json nonce) [] (JStr (Messages.m_id r)) (Messages.m_ts r)
              (JInt PROTOCOL_VERSION))
  end.

Definition _flush_pending (s : sid) (u : pystr) : Mw unit :=
  has ← has_msgs;
  if negb has then mret tt
  else
    rows ← msgs_upd (λ db, Messages.flush db u);
    forM rows (hand_over s u).

Definition _login (s : sid) (frame : Frame) : Mw unit :=
  already ← username s;
  match already with
  | Some name =>
    send_error s (&"ALREADY_LOGGED_IN") (&"this connection is already " ++ name)
  | None =>
    let user := jget (f_data frame) (&"user") in
    let pass_hash := jget (f_data frame) (&"pass_hash") in
    if negb (truthy user) || negb (truthy pass_hash) then
      send_error s (&"BAD_LOGIN") (&"user and pass_hash are required")
    else
      n ← tick;
      verified ← users_get (λ db, Users.verify db (rt_salt n) user pass_hash);
      if negb verified then
        send_error s (&"BAD_CREDENTIALS") (&"unknown user or wrong password")
      else
        match user with
        | JStr u =>
          claimed ← session_login u s;
          if negb claimed then
            send_error s (&"ALREADY_ONLINE") (u ++ &" is connected from elsewhere")
          else
            modify (λ w, set_user (<[s := u]> (w_user w)) w);;
            roster ← gets (λ w, filter (λ v, v ≠ u) (Sessions.usernames (w_sessions w)));
            contacts ← _contact_states u;
            rooms ← rooms_of u;
            f ← new_frame LOGIN_OK JNull (JStr u)
                  [(&"user", JStr u); (&"roster", JList (JStr <$> roster));
                   (&"contacts", JList contacts); (&"rooms", JList (JStr <$> rooms))];
            send s f;;
            _announce u ONLINE;;
            _flush_pending s u
        | _ => raise Unmodelled   (* a number that TEXT affinity matched to a name *)
        end
  end.

Definition _get_key (s : sid) (frame : Frame) : Mw unit :=
  let user := jget (f_data frame) (&"user") in
  if negb (truthy user) then send_error s (&"NO_RECIPIENT") (&"GET_KEY needs a user")
  else
    pubkey ← users_get (λ db, Users.pubkey db (py_str user));
    match pubkey with
    | None => send_error s (&"NO_KEY") (&"no public key is published for " ++ py_str user)
    | Some key =>
      f ← new_frame KEY JNull JNull [(&"user", JStr (py_str user)); (&"pubkey", JStr key)];
      send s f
    end.

(** ** Rooms *)

(** The [room] field, or [None] once an error has been sent about it. *)
Definition _room_name (s : sid) (frame : Frame) : Mw (option pystr) :=
  match jget (f_data frame) (&"room") with
  | JStr room =>
    if bool_decide (room = []) then
      send_error s (&"BAD_ROOM") (&"a room name is required");; mret None
    else if negb (is_room room) then
      send_error s (&"BAD_ROOM") (&"a room name must start with " ++ ROOM_PREFIX);; mret None
    else if bool_decide (length room < 2 ∨ 32 < length room) || existsb isspace room then
      send_error s (&"BAD_ROOM") (&"a room name is 2-32 characters and has no spaces");;
      mret None
    else mret (Some room)
  | _ => send_error s (&"BAD_ROOM") (&"a room name is required");; mret None
  end.

Definition _room_state (room : pystr) : Mw Frame :=
  m ← room_members_of room;
  new_frame ROOM_STATE JNull (JStr room)
    [(&"room", JStr room); (&"members", JList (JStr <$> sorted_set m))].

(** Send one frame to whoever of these names is connected. *)
Definition send_online (names : list pystr) (f : Frame) : Mw unit :=
  forM names (λ name,
    target ← session_of name;
    match target with Some s => send s f | None => mret tt end).

Definition _broadcast_room_state (room : pystr) : Mw unit :=
  state ← _room_state room;
  m ← room_members_of room;
  send_online (sorted_set m) state.

(** The names of the list that could be added, in order. *)
Fixpoint add_each (room : pystr) (names : list json) : Mw (list pystr) :=
  match names with
  | [] => mret []
  | j :: names' =>
    let name := py_str j in
    ok ← (if bool_decide (name = []) || is_room name then mret false
          else users_get (λ db, Users.exists_ db name));
    if (ok : bool) then
      room_join room name;;
      rest ← add_each room names';
      mret (name :: rest)
    else add_each room names'
  end.

Definition _add_members (room : pystr) (members : json) : Mw (list pystr) :=
  match members with
  | JList l => add_each room (take 64 l)
  | _ => mret []
  end.

(** [session.username] where the caller has checked that it is set. *)
Definition me (s : sid) : Mw pystr :=
  u ← username s; match u with Some u => mret u | None => raise Unmodelled end.

Definition _create_room (s : sid) (frame : Frame) : Mw unit :=
  name ← _room_name s frame;
  match name with
  | None => mret tt
  | Some room =>
    created ← room_create room;
    if negb created then
      send_error s (&"ROOM_EXISTS") (room ++ &" already exists -- JOIN it instead")
    else
      u ← me s;
      room_join room u;;
      _ ← _add_members room (jget (f_data frame) (&"members"));
      _broadcast_room_state room
  end.

(** The names asked for that are neither added nor members already. *)
Fixpoint missing_of (room : pystr) (added : list pystr) (wanted : list json)
    : Mw (list pystr) :=
  match wanted with
  | [] => mret []
  | j :: wanted' =>
    let name := py_str j in
    if bool_decide (name ∈ added) then missing_of room added wanted'
    else
      m ← room_members_of room;
      rest ← missing_of room added wanted';
      mret (if bool_decide (name ∈ (m : gset pystr)) then rest else name :: rest)
  end.

Definition _invite (s : sid) (frame : Frame) : Mw unit :=
  name ← _room_name s frame;
  match name with
  | None => mret tt
  | Some room =>
    there ← room_exists room;
    if negb there then send_error s (&"NO_SUCH_ROOM") (room ++ &" does not exist")
    else
      m ← room_members_of room;
      u ← me s;
      if negb (bool_decide (u ∈ m)) then
        send_error s (&"NOT_A_MEMBER") (&"join " ++ room ++ &" before inviting anyone to it")
      else
        let wanted := jget (f_data frame) (&"members") in
        added ← _add_members room wanted;
        missing ← missing_of room added (match wanted with JList l => l | _ => [] end);
        (if bool_decide (missing = []) then mret tt
         else send_error s (&"NO_SUCH_USER")
                (&"not registered: " ++ join (&", ") (sorted (remove_dups missing))));;
        if bool_decide (added = []) then mret tt else _broadcast_room_state room
  end.

Definition _join (s : sid) (frame : Frame) : Mw unit :=
  name ← _room_name s frame;
  match name with
  | None => mret tt
  | Some room =>
    there ← room_exists room;
    if negb there then
      send_error s (&"NO_SUCH_ROOM") (room ++ &" does not exist -- CREATE_ROOM first")
    else
      u ← me s;
      room_join room u;;
      _broadcast_room_state room
  end.

Definition _leave (s : sid) (frame : Frame) : Mw unit :=
  name ← _room_name s frame;
  match name with
  | None => mret tt
  | Some room =>
    m ← room_members_of room;
    u ← me s;
    if negb (bool_decide (u ∈ m)) then
      send_error s (&"NOT_A_MEMBER") (&"you are not in " ++ room)
    else
      room_leave room u;;
      _broadcast_room_state room;;
      state ← _room_state room;
      send s state
  end.

(** ** Delivery *)

(** [self.messages.record(...)] with the body and nonce given. *)
Definition record_row (outgoing : Frame) (conversation recipient : pystr) (body nonce : json)
    : Mw unit :=
  has ← has_msgs;
  if negb has then mret tt
  else
    sender ← need_str (match f_sender outgoing with JNull => JStr [] | j => j end);
    msgs_upd (λ db,
      db' ← Messages.record db (f_id outgoing) conversation sender recipient body nonce
              (f_ts outgoing);
      Ok (db', tt)).

Definition _record (outgoing : Frame) (conversation recipient : pystr) : Mw unit :=
  record_row outgoing conversation recipient (f_body outgoing) (f_nonce outgoing).

(** [json.dumps(envelopes, separators=(",", ":"))]. *)
Definition _record_envelopes (outgoing : Frame) (room : pystr)
    (envelopes : list (pystr * json)) : Mw unit :=
  record_row outgoing room room (JStr (dumps true (JObj envelopes))) (JStr Messages.ENVELOPES).

Definition queue_for (name : pystr) (message_id : json) : Mw unit :=
  msgs_upd (λ db, db' ← Messages.queue_for db name message_id; Ok (db', tt)).

Definition _to_user (s : sid) (target : pystr) (outgoing : Frame) : Mw bool :=
  recipient ← session_of target;
  has ← has_msgs;
  reachable ← match recipient with
              | Some _ => mret true
              | None => if negb has then mret false
                        else users_get (λ db, Users.exists_ db target)
              end;
  if negb reachable then
    send_error s (&"USER_OFFLINE") (target ++ &" is not online");; mret false
  else
    sender ← me s;
    _record outgoing (Messages.direct_conversation sender target) target;;
    _note_contact sender target;;
    _note_contact target sender;;
    match recipient with
    | Some r => send r outgoing
    | None => queue_for target (f_id outgoing)
    end;;
    mret true.

(** The copy of a room message that one member can open. *)
Definition _addressed_to (outgoing : Frame) (envelopes : option (list (pystr * json)))
    (member : pystr) : option Frame :=
  match envelopes with
  | None => Some outgoing
  | Some env =>
    match jget env member with
    | JList [body; nonce] =>
      Some (mkFrame MSG (f_sender outgoing) (f_to outgoing) (JStr (py_str body))
              (JStr (py_str nonce)) [] (f_id outgoing) (f_ts outgoing)
              (JInt PROTOCOL_VERSION))
    | _ => None
    end
  end.

Definition deliver_to (outgoing : Frame) (envelopes : option (list (pystr * json)))
    (u name : pystr) : Mw unit :=
  if bool_decide (name = u) then mret tt
  else
    member ← session_of name;
    match _addressed_to outgoing envelopes name with
    | None => mret tt
    | Some addressed =>
      match member with
      | Some r => send r addressed
      | None => has ← has_msgs;
                if negb has then mret tt else queue_for name (f_id outgoing)
      end
    end.

Definition _to_room (s : sid) (room : pystr) (outgoing : Frame)
    (envelopes : option (list (pystr * json))) : Mw bool :=
  there ← room_exists room;
  if negb there then
    send_error s (&"NO_SUCH_ROOM") (room ++ &" does not exist");; mret false
  else
    members ← room_members_of room;
    u ← me s;
    if negb (bool_decide (u ∈ members)) then
      send_error s (&"NOT_A_MEMBER") (&"join " ++ room ++ &" before sending to it");; mret false
    else
      match envelopes with
      | Some env => _record_envelopes outgoing room env
      | None => _record outgoing room room
      end;;
      forM (sorted_set members) (deliver_to outgoing envelopes u);;
      mret true.

Definition _message (s : sid) (frame : Frame) : Mw unit :=
  if negb (truthy (f_to frame)) then send_error s (&"NO_RECIPIENT") (&"MSG needs a 'to'")
  else
    u ← username s;
    let outgoing := mkFrame MSG (opt_json u) (f_to frame) (f_body frame) (f_nonce frame) []
                      (f_id frame) (f_ts frame) (JInt PROTOCOL_VERSION) in
    target ← need_str (f_to frame);
    delivered ← (if is_room target then
                   _to_room s target outgoing
                     (match jget (f_data frame) (&"env") with JObj e => Some e | _ => None end)
                 else _to_user s target outgoing);
    if (delivered : bool) then
      f ← new_frame ACK JNull JNull [(&"ref", f_id frame)];
      send s f
    else mret tt.

(** ** History *)

Definition opt_int (j : json) : res (option Z) :=
  if truthy j then match py_int j with Ok z => Ok (Some z) | Raise e => Raise e end
  else Ok None.

Definition history_target (frame : Frame) : json :=
  let room := jget (f_data frame) (&"room") in
  if truthy room then room else f_to frame.

Definition send_history (s : sid) (u target conversation : pystr) (frame : Frame) : Mw unit :=
  before ← lift_res (opt_int (jget (f_data frame) (&"before")));
  limit ← lift_res (opt_int (jget (f_data frame) (&"limit")));
  rows ← msgs_upd (λ db, l ← Messages.history db conversation before
                               (default Messages.DEFAULT_LIMIT limit); Ok (db, l));
  entries ← lift_res (mapR (λ r, _history_entry r u) rows);
  f ← new_frame HISTORY_RESULT JNull (JStr target)
        [(&"room", JStr target); (&"messages", JList (omap id entries))];
  send s f.

Definition _history (s : sid) (frame : Frame) : Mw unit :=
  has ← has_msgs;
  if negb has then send_error s (&"UNSUPPORTED") (&"this server keeps no history")
  else if negb (truthy (history_target frame)) then
    send_error s (&"NO_RECIPIENT") (&"HISTORY needs a conversation")
  else
    let target := py_str (history_target frame) in
    u ← me s;
    if is_room target then
      m ← room_members_of target;
      if negb (bool_decide (u ∈ m)) then
        send_error s (&"NOT_A_MEMBER") (&"join " ++ target ++ &" to read its history")
      else send_history s u target target frame
    else send_history s u target (Messages.direct_conversation u target) frame.

(** ** Receipts and typing *)

Definition receipt_state (j : json) : option pystr :=
  match j with
  | JStr st => if bool_decide (st = Messages.DELIVERED ∨ st = Messages.READ) then Some st
               else None
  | _ => None
  end.

Definition _receipt (s : sid) (frame : Frame) : Mw unit :=
  has ← has_msgs;
  if negb has then mret tt
  else
    let ref := jget (f_data frame) (&"ref") in
    match receipt_state (jget (f_data frame) (&"state")) with
    | Some st =>
      if negb (truthy ref) then
        send_error s (&"BAD_RECEIPT") (&"a receipt needs a ref and a state")
      else
        now ← now_ms;
        sender ← msgs_upd (λ db, Messages.mark db (py_str ref) st now);
        u ← username s;
        match sender with
        | None => mret tt
        | Some from =>
          if bool_decide (Some from = u) then mret tt
          else
            recipient ← session_of from;
            match recipient with
            | None => mret tt
            | Some r =>
              f ← new_frame RECEIPT (opt_json u) (JStr from)
                    [(&"ref", JStr (py_str ref)); (&"state", JStr st)];
              send r f
            end
        end
    | None => send_error s (&"BAD_RECEIPT") (&"a receipt needs a ref and a state")
    end.

Definition _typing (s : sid) (frame : Frame) : Mw unit :=
  if negb (truthy (f_to frame)) then mret tt
  else
    u ← me s;
    relayed ← new_frame TYPING (JStr u) (f_to frame)
                [(&"on", JBool (truthy (jget (f_data frame) (&"on"))))];
    target ← need_str (f_to frame);
    if is_room target then
      m ← room_members_of target;
      if negb (bool_decide (u ∈ m)) then mret tt
      else send_online (filter (λ name, name ≠ u) (sorted_set m)) relayed
    else send_online [target] relayed.

(** ** Inbound *)

Definition handle (s : sid) (frame : Frame) : Mw unit :=
  match f_type frame with
  | PING => f ← new_frame PONG JNull JNull []; send s f
  | REGISTER => _register s frame
  | LOGIN => _login s frame
  | _ =>
    u ← username s;
    match u with
    | None => send_error s (&"NOT_LOGGED_IN") (&"log in before sending anything else")
    | Some _ =>
      match f_type frame with
      | MSG => _message s frame
      | CREATE_ROOM => _create_room s frame
      | JOIN => _join s frame
      | LEAVE => _leave s frame
      | INVITE => _invite s frame
      | ADD_CONTACT => _add_contact s frame
      | REMOVE_CONTACT => _remove_contact s frame
      | TYPING => _typing s frame
      | RECEIPT => _receipt s frame
      | HISTORY => _history s frame
      | GET_KEY => _get_key s frame
      | t => send_error s (&"UNSUPPORTED") (type_value t ++ &" arrives in a later phase")
      end
    end
  end.
End Router.
