(* ===== verification/RouterSpec.v ===== *)
(** * What the router may do

    An abstract specification of [MessageRouter]: the atomic actions that
    handling one frame is allowed to consist of ([act]), with the condition under
    which each is allowed, and which frame may be sent to which connection
    ([allowed]).  [RouterRefines] proves that every handler is a sequence of
    allowed actions. *)

From S2P Require Import Prelude PyStr PyDict Utf8 Json Frames.
From S2P Require Import Registries Database Users Messages Router Wp.

(** The message a client's MSG frame becomes: [from] is the session's name. *)
Definition outgoing (u : pystr) (f : Frame) : Frame :=
  mkFrame MSG (JStr u) (f_to f) (f_body f) (f_nonce f) [] (f_id f) (f_ts f)
    (JInt PROTOCOL_VERSION).

Definition env_of (f : Frame) : option (list (pystr * json)) :=
  match jget (f_data f) (&"env") with JObj e => Some e | _ => None end.

(** A stored row as the frame that hands it over at login. *)
Definition stored_frame (r : Messages.row) (body nonce : option pystr) : Frame :=
  mkFrame MSG (JStr (Messages.m_sender r)) (JStr (Messages.m_recipient r)) (opt_json body)
    (opt_json nonce) [] (JStr (Messages.m_id r)) (Messages.m_ts r) (JInt PROTOCOL_VERSION).

(** A room name that passes [_room_name]. *)
Definition valid_room (room : pystr) : Prop :=
  is_room room = true ∧ 2 ≤ length room ≤ 32 ∧ Forall (λ c, isspace c = false) room.

Section spec.
Context `{Runtime} {R : Type} `{RoomStore R}.

(** The frame being handled, where it came from, and the state it met. *)
Variables (w0 : world R) (s : sid) (f : Frame).

Implicit Types (w : world R) (u v room : pystr).

Definition registered w v : Prop := v ∈ Users.u_name <$> w_users w.

#[export] Instance registered_dec w v : Decision (registered w v).
Proof. unfold registered. apply _. Defined.

Definition member w room v : Prop :=
  ∃ m, rs_members (w_rooms w) room = Ok m ∧ v ∈ m.

(** The answers that only ever go back to whoever asked. *)
Definition is_reply (g : Frame) : bool :=
  match f_type g with
  | OK | ERROR | LOGIN_OK | KEY | ACK | ROOM_STATE | CONTACTS | HISTORY_RESULT | PONG => true
  | _ => false
  end.

(** [allowed w d g]: in state [w], [g] may be sent to connection [d]. *)
Inductive allowed w : sid → Frame → Prop :=
| send_reply g :
    is_reply g = true → allowed w s g
| send_contacts o d g :
    f_type g = CONTACTS → f_to g = opt_json (w_user w !! d) →
    Sessions.get (w_sessions w) o = Some d → allowed w d g
| send_room_state room name d g :
    f_type g = ROOM_STATE → f_to g = JStr room → member w room name →
    Sessions.get (w_sessions w) name = Some d → allowed w d g
| send_presence u d g :
    f_type g = PRESENCE → f_type f = LOGIN → w_user w !! s = Some u →
    f_data g = [(&"user", JStr u); (&"state", JStr ONLINE)] →
    d ∈ Sessions.others (w_sessions w) u → allowed w d g
| send_message u target d :
    f_type f = MSG → w_user w0 !! s = Some u → f_to f = JStr target →
    is_room target = false →
    Sessions.get (w_sessions w) target = Some d → allowed w d (outgoing u f)
| send_room_message u room name d g :
    f_type f = MSG → w_user w0 !! s = Some u → f_to f = JStr room → is_room room = true →
    member w0 room u → member w0 room name → name ≠ u →
    Sessions.get (w_sessions w) name = Some d →
    _addressed_to (outgoing u f) (env_of f) name = Some g → allowed w d g
| send_stored u db r body nonce :
    f_type f = LOGIN → w_user w0 !! s = None → w_user w !! s = Some u →
    w_msgs w0 = Some db → r ∈ Messages.messages db → (Messages.m_id r, u) ∈ Messages.pending db →
    _history_body r u = Ok (Some (body, nonce)) → allowed w s (stored_frame r body nonce)
| send_receipt u sender d g :
    f_type f = RECEIPT → f_type g = RECEIPT → w_user w0 !! s = Some u →
    f_sender g = JStr u → f_to g = JStr sender → sender ≠ u →
    Sessions.get (w_sessions w) sender = Some d → allowed w d g
| send_typing u name d g :
    f_type f = TYPING → f_type g = TYPING → w_user w0 !! s = Some u →
    f_sender g = JStr u → f_to g = f_to f →
    (f_to f = JStr name ∨
     ∃ room, f_to f = JStr room ∧ member w0 room u ∧ member w0 room name ∧ name ≠ u) →
    Sessions.get (w_sessions w) name = Some d → allowed w d g.

(** Whom a frame may put into a room. *)
Inductive may_join room v : Prop :=
| join_self :
    f_type f = JOIN → w_user w0 !! s = Some v → rs_exists (w_rooms w0) room = Ok true →
    may_join room v
| join_created u n r :
    f_type f = CREATE_ROOM → w_user w0 !! s = Some u →
    rs_create (w_rooms w0) (rt_now n) room = Ok (r, true) →
    (v = u ∨ Users.exists_ (w_users w0) v = Ok true) → may_join room v
| join_invited u :
    f_type f = INVITE → w_user w0 !! s = Some u → member w0 room u →
    Users.exists_ (w_users w0) v = Ok true → may_join room v.

(** [act w w']: one allowed change of the state. *)
Inductive act w : world R → Prop :=
| act_tick n : act w (set_tick n w)
| act_send d g : allowed w d g → act w (set_out (w_out w ++ [(d, g)]) w)
| act_register n u p k db :
    f_type f = REGISTER → u ≠ [] → is_room u = false →
    Users.register (w_users w) (rt_salt n) (rt_now n) u p k = Ok (db, true) →
    act w (set_users db w)
| act_login u p thr :
    f_type f = LOGIN → w_user w0 !! s = None → w_user w !! s = None → u ≠ [] →
    Users.verify (w_users w) thr (JStr u) p = Ok true →
    Sessions.get (w_sessions w) u = None →
    act w (set_user (<[s := u]> (w_user w))
             (set_sessions (Sessions.login (w_sessions w) u s).1 w))
| act_create n room r b :
    f_type f = CREATE_ROOM → valid_room room →
    rs_create (w_rooms w) (rt_now n) room = Ok (r, b) → act w (set_rooms r w)
| act_join n room v r :
    valid_room room → may_join room v →
    rs_join (w_rooms w) (rt_now n) room v = Ok r → act w (set_rooms r w)
| act_leave room u r :
    f_type f = LEAVE → w_user w0 !! s = Some u → rs_leave (w_rooms w) room u = Ok r →
    act w (set_rooms r w)
| act_record u target conv b n db db' :
    f_type f = MSG → w_user w0 !! s = Some u → f_to f = JStr target →
    conv = (if is_room target then target else Messages.direct_conversation u target) →
    (is_room target = true → member w0 target u) →
    w_msgs w = Some db →
    Messages.record db (f_id f) conv u target b n (f_ts f) = Ok db' →
    act w (set_msgs (Some db') w)
| act_queue name db db' k :
    f_type f = MSG → Sessions.get (w_sessions w) name = None →
    (Users.exists_ (w_users w0) name = Ok true ∨ ∃ room, member w0 room name) →
    w_msgs w = Some db →
    bind_key (f_id f) = Ok k → k ∈ Messages.m_id <$> Messages.messages db →
    Messages.queue_for db name (f_id f) = Ok db' →
    act w (set_msgs (Some db') w)
| act_mark ref st n db db' o :
    f_type f = RECEIPT → w_msgs w = Some db →
    Messages.mark db ref st (rt_now n) = Ok (db', o) → act w (set_msgs (Some db') w)
| act_flush u db db' rows :
    f_type f = LOGIN → w_user w0 !! s = None → w_user w !! s = Some u → w_msgs w = Some db →
    Messages.flush db u = Ok (db', rows) → act w (set_msgs (Some db') w)
| act_add_contact o c n db db' b :
    f_type f = MSG ∨ f_type f = ADD_CONTACT → w_contacts w = Some db →
    Contacts.add db o c (rt_now n) = Ok (db', b) → act w (set_contacts (Some db') w)
| act_remove_contact u c db db' b :
    f_type f = REMOVE_CONTACT → w_user w0 !! s = Some u → w_contacts w = Some db →
    Contacts.remove db u c = Ok (db', b) → act w (set_contacts (Some db') w).

(** What a frame that is not LOGIN or REGISTER leaves alone. *)
Definition same_people w : Prop :=
  w_user w = w_user w0 ∧ w_sessions w = w_sessions w0 ∧ w_users w = w_users w0.

Definition acts w : Prop := rtc act w0 w.
End spec.
