(* ===== verification/RouterRefines.v ===== *)
(** * The router refines its specification

    Every handler of [Router], run from any state, is a sequence of actions that
    [RouterSpec] allows for that frame and connection. *)

From S2P Require Import Prelude PyStr PyDict Utf8 Json Frames.
From S2P Require Import Registries Database Users Messages Router Wp RouterSpec.

(** ** Rules for the primitives *)

Section primitives.
Context `{Runtime} {R : Type} `{RoomStore R}.
Implicit Types (w : world R) (E : world R → Prop).

Lemma wp_tick Q E w : Q (w_tick w) (set_tick (S (w_tick w)) w) → wp tick Q E w.
Proof. done. Qed.

Lemma wp_gets {A} (g : world R → A) (Q : A → world R → Prop) E w :
  Q (g w) w → wp (gets g) Q E w.
Proof. done. Qed.

Lemma wp_send d g (Q : unit → world R → Prop) E w :
  Q tt (set_out (w_out w ++ [(d, g)]) w) → wp (send d g) Q E w.
Proof. done. Qed.

Lemma wp_rooms_upd {A} (op : R → res (R * A)) (Q : A → world R → Prop) E w :
  (∀ r a, op (w_rooms w) = Ok (r, a) → Q a (set_rooms r w)) → E w →
  wp (rooms_upd op) Q E w.
Proof.
  intros HQ HE. unfold wp, rooms_upd. destruct (op (w_rooms w)) as [[r a]|e]; auto.
Qed.

Lemma wp_rooms_get {A} (op : R → res A) (Q : A → world R → Prop) E w :
  (∀ a, op (w_rooms w) = Ok a → Q a w) → E w → wp (rooms_get op) Q E w.
Proof. intros HQ HE. unfold wp, rooms_get. destruct (op (w_rooms w)); auto. Qed.

Lemma wp_users_get {A} (op : Users.t → res A) (Q : A → world R → Prop) E w :
  (∀ a, op (w_users w) = Ok a → Q a w) → E w → wp (users_get op) Q E w.
Proof. intros HQ HE. unfold wp, users_get. destruct (op (w_users w)); auto. Qed.

Lemma wp_msgs_upd {A} (op : Messages.t → res (Messages.t * A)) (Q : A → world R → Prop) E w :
  (∀ db db' a, w_msgs w = Some db → op db = Ok (db', a) → Q a (set_msgs (Some db') w)) →
  E w → wp (msgs_upd op) Q E w.
Proof.
  intros HQ HE. unfold wp, msgs_upd. destruct (w_msgs w) as [db|] eqn:Em; [|done].
  destruct (op db) as [[db' a]|e] eqn:Eo; eauto.
Qed.

Lemma wp_contacts_upd {A} (op : Contacts.t → res (Contacts.t * A))
    (Q : A → world R → Prop) E w :
  (∀ db db' a, w_contacts w = Some db → op db = Ok (db', a) →
     Q a (set_contacts (Some db') w)) →
  E w → wp (contacts_upd op) Q E w.
Proof.
  intros HQ HE. unfold wp, contacts_upd. destruct (w_contacts w) as [db|] eqn:Em; [|done].
  destruct (op db) as [[db' a]|e] eqn:Eo; eauto.
Qed.

Lemma wp_new_frame t sender to data (Q : Frame → world R → Prop) E w :
  Q (mkFrame t sender to JNull JNull data (JStr (rt_uuid (w_tick w))) (rt_now (w_tick w))
       (JInt PROTOCOL_VERSION)) (set_tick (S (w_tick w)) w) →
  wp (new_frame t sender to data) Q E w.
Proof. done. Qed.

Lemma wp_now_ms (Q : Z → world R → Prop) E w :
  Q (rt_now (w_tick w)) (set_tick (S (w_tick w)) w) → wp now_ms Q E w.
Proof. done. Qed.

Lemma wp_need_str j (Q : pystr → world R → Prop) E w :
  (∀ x, j = JStr x → Q x w) → E w → wp (need_str j) Q E w.
Proof. destruct j; cbn; eauto. Qed.

Lemma wp_me s (Q : pystr → world R → Prop) E w :
  (∀ u, w_user w !! s = Some u → Q u w) → E w → wp (me s) Q E w.
Proof.
  unfold me, username. intros HQ HE. apply wp_bind, wp_gets.
  destruct (w_user w !! s) eqn:Eu; [by apply HQ | done].
Qed.

Lemma wp_session_login u s (Q : bool → world R → Prop) E w :
  (Sessions.get (w_sessions w) u = None →
   Q true (set_sessions (Sessions.login (w_sessions w) u s).1 w)) →
  (is_Some (Sessions.get (w_sessions w) u) → Q false w) →
  wp (session_login u s) Q E w.
Proof.
  intros HT HF. unfold wp, session_login, Sessions.login, Sessions.get in *. unfold dict_has in *.
  destruct (dict_get (w_sessions w) u) as [d|]; [|by apply HT].
  cbn [fst snd]. destruct w; by apply HF.
Qed.

Lemma forM_send l g w :
  forM l (λ d, send d g) w = (set_out (w_out w ++ ((λ d, (d, g)) <$> l)) w, Ok tt).
Proof.
  revert w. induction l as [|d l IH]; intros w; cbn [forM fmap list_fmap].
  - rewrite app_nil_r. by destruct w.
  - unfold mbind at 1, M_bind at 1, send at 1, modify. cbn. rewrite IH. cbn.
    by rewrite <-app_assoc.
Qed.

(** Reading the contact list changes nothing. *)
Lemma wp_contact_states u (Q : list json → world R → Prop) E w :
  (∀ l, Q l w) → E w → wp (_contact_states u) Q E w.
Proof.
  intros HQ HE. unfold _contact_states, has_contacts. apply wp_bind, wp_gets.
  destruct (negb _); [by apply wp_ret|]. apply wp_bind, wp_gets, wp_bind.
  apply wp_contacts_upd; [|done]. intros db db' l Hdb Hop.
  destruct (Contacts.of_ db u); [|done]. cbn in Hop. injection Hop as <- <-.
  apply wp_ret. rewrite <-Hdb. by destruct w.
Qed.
End primitives.

(** One step of a handler. *)
Ltac wp1 :=
  lazymatch goal with
  | |- wp tick _ _ _ => apply wp_tick
  | |- wp now_ms _ _ _ => apply wp_now_ms
  | |- wp (gets _) _ _ _ => apply wp_gets
  | |- wp (username _) _ _ _ => apply wp_gets
  | |- wp has_msgs _ _ _ => apply wp_gets
  | |- wp has_contacts _ _ _ => apply wp_gets
  | |- wp (session_of _) _ _ _ => apply wp_gets
  | |- wp (send _ _) _ _ _ => apply wp_send
  | |- wp (new_frame _ _ _ _) _ _ _ => apply wp_new_frame
  | |- wp (send_error _ _ _) _ _ _ => unfold send_error
  | |- wp (need_str _) _ _ _ => apply wp_need_str; [intros ? ?|]
  | |- wp (me _) _ _ _ => apply wp_me; [intros ? ?|]
  | |- wp (rooms_upd _) _ _ _ => apply wp_rooms_upd; [intros ? ? ?|]
  | |- wp (rooms_get _) _ _ _ => apply wp_rooms_get; [intros ? ?|]
  | |- wp (users_get _) _ _ _ => apply wp_users_get; [intros ? ?|]
  | |- wp (msgs_upd _) _ _ _ => apply wp_msgs_upd; [intros ? ? ? ? ?|]
  | |- wp (contacts_upd _) _ _ _ => apply wp_contacts_upd; [intros ? ? ? ? ?|]
  | |- wp (room_members_of _) _ _ _ => apply wp_rooms_get; [intros ? ?|]
  | |- wp (room_exists _) _ _ _ => apply wp_rooms_get; [intros ? ?|]
  | |- wp (rooms_of _) _ _ _ => apply wp_rooms_get; [intros ? ?|]
  | |- wp (room_create _) _ _ _ => unfold room_create
  | |- wp (room_join _ _) _ _ _ => unfold room_join
  | |- wp (room_leave _ _) _ _ _ => unfold room_leave
  | |- wp (_contact_states _) _ _ _ => apply wp_contact_states; [intros ?|]
  | |- wp (session_login _ _) _ _ _ => apply wp_session_login; intros ?
  | |- _ => wp_core
  end; cbv beta.

Create HintDb router.

(** Walk as far as the rules go. *)
Ltac wps := repeat (wp1; try assumption; try discriminate).

Section refines.
Context `{Runtime} {R : Type} `{RoomStore R}.
Variables (w0 : world R) (s : sid) (f : Frame).
Implicit Types (w : world R).

Abbreviation A := (acts w0 s f).
Abbreviation act := (act w0 s f).

Lemma acts_step w w' : A w → act w w' → A w'.
Proof. apply rtc_r. Qed.

Lemma acts_by w w' : act w w' → A w → A w'.
Proof. intros. by eapply acts_step. Qed.

Lemma acts_tick w n : A w → A (set_tick n w).
Proof. intros Hw. eapply acts_step; [done|constructor]. Qed.

Lemma acts_send w d g : A w → allowed w0 s f w d g → A (set_out (w_out w ++ [(d, g)]) w).
Proof. intros Hw Hg. eapply acts_step; [done|by constructor]. Qed.

Lemma acts_reply w g : A w → is_reply g = true → A (set_out (w_out w ++ [(s, g)]) w).
Proof. intros Hw Hg. apply acts_send; [done|by constructor]. Qed.

(** What the callees of the MSG and CONTACT handlers keep: the actions so far
    are allowed, the people are those of the start, and so is [P] of the
    stored messages. *)
Definition K (P : option Messages.t → Prop) w : Prop :=
  A w ∧ same_people w0 w ∧ P (w_msgs w).

Lemma K_tick P w n : K P w → K P (set_tick n w).
Proof. intros (? & ? & ?). split_and!; [by apply acts_tick|done..]. Qed.

Lemma K_send P w d g : K P w → allowed w0 s f w d g → K P (set_out (w_out w ++ [(d, g)]) w).
Proof. intros (? & ? & ?) ?. split_and!; [by apply acts_send|done..]. Qed.

Lemma K_contacts P w db :
  K P w → act w (set_contacts (Some db) w) → K P (set_contacts (Some db) w).
Proof. intros (? & ? & ?) ?. split_and!; [by eapply acts_step|done..]. Qed.

#[local] Hint Resolve acts_tick acts_reply acts_send K_tick K_send : router.

Lemma keeps_send_contacts P o d :
  (d = s ∨ Sessions.get (w_sessions w0) o = Some d) → keeps (K P) (_send_contacts d).
Proof.
  intros Hd. apply keeps_wp. intros w Hw. unfold _send_contacts. wps.
  apply K_send; [by apply K_tick|]. destruct Hd as [->|Hd]; [by apply send_reply|].
  eapply send_contacts; [done..|]. destruct Hw as (_ & (_ & Hs & _) & _). cbn. by rewrite Hs.
Qed.

Lemma keeps_note_contact P o c :
  f_type f = MSG → keeps (K P) (_note_contact o c).
Proof.
  intros Hf. apply keeps_wp. intros w Hw. unfold _note_contact. wps; eauto with router.
  all: assert (K P (set_contacts (Some db') (set_tick (S (w_tick w)) w))) as Hk
    by (apply K_contacts; [by apply K_tick|]; eapply act_add_contact; eauto).
  all: try exact Hk. eapply wp_keeps; [eapply (keeps_send_contacts P o)|exact Hk|done..].
  right. destruct Hk as (_ & (_ & Hs & _) & _). by rewrite <-Hs.
Qed.

(** ** Accounts *)

Lemma acts_refl : A w0.
Proof. unfold acts. reflexivity. Qed.

(** Peel off the clock readings and the answers to the asker. *)
Ltac acts_tac :=
  repeat lazymatch goal with
  | |- acts _ _ _ (set_tick _ _) => apply acts_tick
  | |- acts _ _ _ (set_out _ _) => apply acts_reply; [|reflexivity]
  | |- acts ?w _ _ ?w => exact acts_refl
  end; try assumption.

Lemma register_refines : f_type f = REGISTER → wp (_register s f) (λ _, A) A w0.
Proof.
  intros Hf. unfold _register. wps; acts_tac.
  destruct a as [l []]; [|done].
  eapply acts_by; [eapply act_register; [done| |done|exact H2]|by acts_tac].
  intros ->. apply orb_false_iff in Hb as [Hb _]. by rewrite H1 in Hb.
Qed.

Lemma get_key_refines : wp (_get_key s f) (λ _, A) A w0.
Proof. unfold _get_key. wps; acts_tac. Qed.

Lemma add_contact_refines : f_type f = ADD_CONTACT → wp (_add_contact s f) (λ _, A) A w0.
Proof.
  intros Hf. unfold _add_contact. wps; acts_tac.
  eapply (wp_keeps (K (λ _, True))); [apply (keeps_send_contacts _ []); by left| | |].
  - split_and!; [|done..]. eapply acts_by; [eapply act_add_contact; eauto|].
    acts_tac.
  - by intros _ w' [].
  - by intros w' [].
Qed.

Lemma remove_contact_refines :
  f_type f = REMOVE_CONTACT → is_Some (w_user w0 !! s) →
  wp (_remove_contact s f) (λ _, A) A w0.
Proof.
  intros Hf [u Hu]. unfold _remove_contact.
  assert (∀ w, K (λ _, True) w → wp (_send_contacts s) (λ _, A) A w) as Hsend.
  { intros w Hw. eapply (wp_keeps (K (λ _, True)));
      [apply (keeps_send_contacts _ []); by left|done|by intros ? w' []|by intros w' []]. }
  assert (K (λ _, True) w0) as H0' by by (unfold K, same_people; auto using acts_refl).
  wps; acts_tac; apply Hsend; try exact H0'. rewrite Hu in H2. split_and!; [|done..].
  eapply acts_by; [by eapply act_remove_contact|]. acts_tac.
Qed.

Lemma announce_refines u w :
  f_type f = LOGIN → w_user w !! s = Some u → A w →
  wp (_announce u ONLINE)
    (λ _ w', A w' ∧ w_user w' !! s = Some u ∧ w_msgs w' = w_msgs w)
    A w.
Proof.
  intros Hf Hu Hw. unfold _announce. wps.
  apply (wp_forM (λ w', A w' ∧ w_user w' !! s = Some u ∧ w_msgs w' = w_msgs w ∧
                       w_sessions w' = w_sessions w)); [|intros d w' Hd (Ha & Hu' & Hm & Hs)|].
  - split_and!; [acts_tac|done..].
  - wps. split_and!; [|done..]. apply acts_send; [done|].
    eapply send_presence; try done. by rewrite Hs.
  - by intros w' (? & ? & ? & ?).
Qed.

Lemma flush_refines u w :
  f_type f = LOGIN → w_user w0 !! s = None → w_user w !! s = Some u → A w →
  w_msgs w = w_msgs w0 → wp (_flush_pending s u) (λ _, A) A w.
Proof.
  intros Hf Hs0 Hu Hw Hm. unfold _flush_pending. wps; acts_tac.
  destruct (Messages.flush_inv db u db' a H2) as (_ & _ & Hrows).
  apply (wp_forM (λ w', A w' ∧ w_user w' !! s = Some u)).
  - split; [|done]. eapply acts_by; [by eapply act_flush|done].
  - intros r w' Hr [Ha Hu']. unfold hand_over. wps; eauto. split; [|done]. apply acts_send; [done|].
    assert (r ∈ Messages.messages db ∧ (Messages.m_id r, u) ∈ Messages.pending db) as [Hin Hp].
    { subst a. unfold Messages.by_ts in Hr. rewrite sorted_by_perm in Hr.
      apply list_elem_of_filter in Hr. tauto. }
    eapply (send_stored w0 s f w' u db); try done. congruence.
  - by intros w' [].
Qed.

Lemma login_refines : f_type f = LOGIN → wp (_login s f) (λ _, A) A w0.
Proof.
  intros Hf. unfold _login.
  assert (∀ u a, Users.verify (w_users w0) (rt_salt (w_tick w0)) (JStr u)
                   (jget (f_data f) (&"pass_hash")) = Ok a → negb a = false →
            w_user w0 !! s = None → u ≠ [] →
            Sessions.get (w_sessions w0) u = None →
            A (set_user (<[s := u]> (w_user w0))
                 (set_sessions (Sessions.login (w_sessions w0) u s).1
                    (set_tick (S (w_tick w0)) w0)))) as Hlogin.
  { intros u [] Hv Ha Hs0 Hu Hg; [|done].
    apply (acts_by (set_tick (S (w_tick w0)) w0)); [|by acts_tac].
    by apply (act_login w0 s f (set_tick (S (w_tick w0)) w0) u _ _ Hf Hs0 Hs0 Hu Hv Hg). }
  wps; acts_tac.
  all: assert (s0 ≠ []) as Hne
    by (intros ->; by rewrite orb_false_iff in Hb; destruct Hb).
  all: specialize (Hlogin s0 _ H1 Hb0 eq_refl Hne H2).
  - eapply wp_mono; [eapply announce_refines; [done| |]| |done].
    + cbn. apply lookup_insert_eq.
    + acts_tac.
    + intros _ w' (Ha & Hu & Hmsgs). by apply flush_refines.
  - exact Hlogin.
  - exact Hlogin.
Qed.

(** ** Rooms *)

(** A room name comes back only if it is valid, and then nothing has happened. *)
Lemma wp_room_name (Q : option pystr → world R → Prop) E w :
  A w →
  (∀ room, jget (f_data f) (&"room") = JStr room → valid_room room → Q (Some room) w) →
  (∀ w', A w' → same_people w w' → w_rooms w' = w_rooms w → w_msgs w' = w_msgs w →
     Q None w') →
  wp (_room_name s f) Q E w.
Proof.
  intros Hw HS HN. unfold _room_name. wps.
  all: try (apply HN; [acts_tac|done..]).
  apply HS; [done|]. apply orb_false_iff in Hb1 as [Hl Hs]. apply bool_decide_eq_false in Hl.
  split_and!; [by destruct (is_room _)|lia|lia|].
  apply Forall_forall. intros c Hc. apply not_true_iff_false. intros Ht.
  apply not_true_iff_false in Hs. apply Hs, existsb_exists. exists c.
  by rewrite <-list_elem_of_In.
Qed.

(** Sending the room's state to its members. *)
Lemma keeps_broadcast room : keeps A (_broadcast_room_state room).
Proof.
  apply keeps_wp. intros w Hw. unfold _broadcast_room_state, _room_state, send_online. wps.
  2: acts_tac.
  apply (wp_forM (λ w', A w' ∧ w_rooms w' = w_rooms w ∧ w_sessions w' = w_sessions w)).
  - split_and!; [acts_tac|done..].
  - intros name w' Hn (Ha & Hr & Hs). wps; [|done]. split_and!; [|done..].
    apply acts_send; [done|]. eapply (send_room_state _ _ _ _ room name); [done..| |done].
    exists a0. rewrite Hr. split; [done|]. unfold sorted_set in Hn.
    by apply elem_of_sorted, elem_of_elements in Hn.
  - by intros w' [].
Qed.

Lemma wp_broadcast room (Q : unit → world R → Prop) w :
  A w → (∀ w', A w' → Q tt w') → wp (_broadcast_room_state room) Q A w.
Proof.
  intros Hw HQ. eapply wp_keeps; [apply keeps_broadcast|done| |done]. intros [] w'. apply HQ.
Qed.

Lemma keeps_add_members room members :
  valid_room room →
  (∀ v, Users.exists_ (w_users w0) v = Ok true → may_join w0 s f room v) →
  keeps (λ w, A w ∧ same_people w0 w) (_add_members room members).
Proof.
  intros Hv Hj. apply keeps_wp. unfold _add_members. intros w Hw.
  destruct members as [| | | | |l|]; try by apply wp_ret.
  generalize (take 64 l). clear l. intros l. revert w Hw.
  induction l as [|j l IH]; intros w Hw; [by apply wp_ret|]. cbn [add_each]. cbv zeta.
  assert (∀ w', A w' ∧ same_people w0 w' →
    wp (add_each room l) (λ _ w'', A w'' ∧ same_people w0 w'') (λ w'', A w'' ∧ same_people w0 w'')
      w') as IH' by eauto.
  wps; eauto.
  - destruct Hw as [Hw (? & ? & Hus)]. rewrite Hus in H1.
    eapply wp_mono; [apply IH'|by eauto|done].
    destruct (rs_join (w_rooms (set_tick (S (w_tick w)) w)) (rt_now (w_tick w)) room (py_str j))
      as [r''|] eqn:Er; [|done]. cbn in H2. injection H2 as <- <-.
    split; [|by split_and!]. eapply acts_by; [|by apply acts_tick].
    eapply act_join; eauto.
  - destruct Hw as [Hw ?]. split; [by apply acts_tick|done].
Qed.

Lemma wp_add_members room members (Q : list pystr → world R → Prop) w :
  valid_room room →
  (∀ v, Users.exists_ (w_users w0) v = Ok true → may_join w0 s f room v) →
  A w → same_people w0 w → (∀ l w', A w' → Q l w') → wp (_add_members room members) Q A w.
Proof.
  intros Hv Hj Hw Hp HQ. eapply wp_keeps; [by apply keeps_add_members|done| |].
  - intros l w' []. eauto.
  - by intros w' [].
Qed.

(** A [join] or [leave] that went through is one action. *)
Lemma acts_join room v w r (a : unit) n :
  valid_room room → may_join w0 s f room v → A w →
  (r' ← rs_join (w_rooms w) (rt_now n) room v; Ok (r', tt)) = Ok (r, a) → A (set_rooms r w).
Proof.
  intros Hv Hj Hw Hr. destruct (rs_join _ _ _ _) as [r'|] eqn:Er; [|done]. cbn in Hr.
  injection Hr as <- <-. eapply acts_by; [by eapply act_join|done].
Qed.

Lemma create_room_refines : f_type f = CREATE_ROOM → wp (_create_room s f) (λ _, A) A w0.
Proof.
  intros Hf. unfold _create_room. apply wp_bind, wp_room_name; [exact acts_refl| |].
  2:{ intros w' Hw' _ _ _. by apply wp_ret. }
  intros room Hroom Hv.
  assert (∀ r b, rs_create (w_rooms w0) (rt_now (w_tick w0)) room = Ok (r, b) →
    A (set_rooms r (set_tick (S (w_tick w0)) w0))) as Hcreate.
  { intros r b Hc. eapply acts_by; [by eapply (act_create _ _ _ (set_tick _ w0))|acts_tac]. }
  wps; acts_tac; try (by eapply Hcreate).
  assert (a = true) as -> by by destruct a.
  assert (∀ v, v = u ∨ Users.exists_ (w_users w0) v = Ok true → may_join w0 s f room v) as Hj.
  { intros v Hor. by eapply join_created. }
  assert (A (set_rooms r0 (set_tick (S (S (w_tick w0))) (set_rooms r (set_tick (S (w_tick w0)) w0)))))
    as Hw3.
  { eapply (acts_join room u _ r0 a0); [done|by apply Hj; left| |exact H3].
    apply acts_tick. by eapply Hcreate. }
  apply wp_add_members; [done|by intros v ?; apply Hj; right|exact Hw3|done|].
  intros _ w' Hw'. by apply wp_broadcast.
Qed.

Lemma join_refines : f_type f = JOIN → wp (_join s f) (λ _, A) A w0.
Proof.
  intros Hf. unfold _join. apply wp_bind, wp_room_name; [exact acts_refl| |].
  2:{ intros w' Hw' _ _ _. by apply wp_ret. }
  intros room Hroom Hv. wps; acts_tac. apply wp_broadcast; [|done].
  eapply (acts_join room u _ _ a0); [done| | |exact H3]; [|acts_tac].
  by apply join_self; destruct a.
Qed.

Lemma leave_refines : f_type f = LEAVE → wp (_leave s f) (λ _, A) A w0.
Proof.
  intros Hf. unfold _leave. apply wp_bind, wp_room_name; [exact acts_refl| |].
  2:{ intros w' Hw' _ _ _. by apply wp_ret. }
  intros room Hroom Hv. wps; acts_tac. apply wp_broadcast.
  - destruct (rs_leave (w_rooms w0) room u) as [r'|] eqn:Er; [|done]. cbn in H3.
    injection H3 as <- <-. eapply acts_by; [by eapply act_leave|acts_tac].
  - intros w' Hw'. unfold _room_state. wps; acts_tac.
Qed.

Lemma wp_missing_of room added wanted (Q : list pystr → world R → Prop) E w :
  (∀ l, Q l w) → E w → wp (missing_of room added wanted) Q E w.
Proof.
  revert Q. induction wanted as [|j l IH]; intros Q HQ HE; cbn [missing_of]; cbv zeta;
    [by apply wp_ret|]. wps; [by apply IH|]. apply IH; [|done]. intros l'. by wps.
Qed.

Lemma invite_refines : f_type f = INVITE → wp (_invite s f) (λ _, A) A w0.
Proof.
  intros Hf. unfold _invite. apply wp_bind, wp_room_name; [exact acts_refl| |].
  2:{ intros w' Hw' _ _ _. by apply wp_ret. }
  intros room Hroom Hv. wps; acts_tac. apply wp_add_members; [done| |acts_tac|done|].
  { intros v Hx. apply (join_invited _ _ _ _ _ u); [done|done| |done]. exists a0. split; [done|].
    by apply negb_false_iff, bool_decide_eq_true in Hb0. }
  intros added w' Hw'. apply wp_bind, wp_missing_of; [|done]. intros missing.
  wps; acts_tac; apply wp_broadcast; eauto; acts_tac.
Qed.

(** ** Delivery *)

(** The message being handled is in the store, if there is one. *)
Definition has_id (mo : option Messages.t) : Prop :=
  ∀ db, mo = Some db →
    ∃ k, bind_key (f_id f) = Ok k ∧ k ∈ Messages.m_id <$> Messages.messages db.

Lemma record_has_id db conv v to b n db' :
  Messages.record db (f_id f) conv v to b n (f_ts f) = Ok db' → has_id (Some db').
Proof.
  intros (k & b' & n' & Hk & _ & _ & _ & _ & _ & _ & ->)%Messages.record_inv d [= <-].
  exists k. split; [done|]. cbn [Messages.messages]. apply list_elem_of_fmap.
  set (row := Messages.mkRow k conv v to b' n' (f_ts f) None None).
  destruct (decide (k ∈ Messages.m_id <$> Messages.messages db)) as [Hin|Hin].
  - apply list_elem_of_fmap in Hin as (r & -> & Hr). exists r. split; [done|].
    apply elem_of_insert_or_ignore. by left.
  - exists row. split; [done|]. apply elem_of_insert_or_ignore. by right.
Qed.

Lemma wp_record_row u target conv b n (Q : unit → world R → Prop) :
  f_type f = MSG → w_user w0 !! s = Some u → f_to f = JStr target →
  conv = (if is_room target then target else Messages.direct_conversation u target) →
  (is_room target = true → member w0 target u) →
  (∀ w', K has_id w' → Q tt w') →
  wp (record_row (outgoing u f) conv target b n) Q A w0.
Proof.
  intros Hf Hu Ht Hc Hm HQ. unfold record_row. wps; acts_tac.
  - apply HQ. split_and!; [apply acts_refl|done..|]. intros db Hdb.
    apply negb_true_iff, bool_decide_eq_false in Hb. destruct Hb. by rewrite Hdb.
  - cbn [f_sender outgoing] in H1. injection H1 as <-. cbn [f_id f_ts outgoing] in H3.
    destruct (Messages.record db (f_id f) conv u target b n (f_ts f)) as [db1|] eqn:Er; [|done].
    cbn in H3. injection H3 as <- <-. apply HQ. split_and!; [|done..|by eapply record_has_id].
    eapply acts_by; [by eapply act_record|apply acts_refl].
Qed.

Lemma keeps_queue_for name :
  f_type f = MSG → Sessions.get (w_sessions w0) name = None →
  (Users.exists_ (w_users w0) name = Ok true ∨ ∃ room, member w0 room name) →
  keeps (K has_id) (queue_for name (f_id f)).
Proof.
  intros Hf Hn He. apply keeps_wp. intros w (Hw & (Hu & Hs & Hus) & Hid).
  unfold queue_for. wps; [|by split_and!].
  destruct (Messages.queue_for db name (f_id f)) as [db1|] eqn:Eq; [|done]. cbn in H2.
  injection H2 as <- <-. destruct (Hid db) as (k & Hk & Hin); [by rewrite H1|].
  split_and!; [|done..|].
  - eapply acts_by; [|done]. eapply act_queue; eauto. by rewrite Hs.
  - intros d [= <-]. exists k. split; [done|].
    apply Messages.queue_for_inv in Eq as (k' & _ & _ & ->). done.
Qed.

Lemma to_user_refines target :
  f_type f = MSG → f_to f = JStr target → is_room target = false →
  ∀ u, w_user w0 !! s = Some u →
  wp (_to_user s target (outgoing u f)) (λ _, A) A w0.
Proof.
  intros Hf Ht Hr u Hu. unfold _to_user, _record.
  assert (∀ w, K has_id w →
    (Sessions.get (w_sessions w0) target = None →
       Users.exists_ (w_users w0) target = Ok true) →
    wp (_note_contact u target;; _note_contact target u;;
        match Sessions.get (w_sessions w0) target with
        | Some r => send r (outgoing u f)
        | None => queue_for target (f_id (outgoing u f))
        end;; mret true) (λ _, A) A w) as Htail.
  { intros w Hw He. apply wp_bind.
    eapply (wp_keeps (K has_id)); [by apply keeps_note_contact|done| |by intros w' []].
    intros [] w1 Hw1. apply wp_bind.
    eapply (wp_keeps (K has_id)); [by apply keeps_note_contact|done| |by intros w' []].
    intros [] w2 Hw2. destruct (Sessions.get (w_sessions w0) target) as [d|] eqn:Ed.
    - wps. destruct Hw2 as (Ha & (_ & Hs & _) & _). apply acts_send; [done|].
      eapply send_message; try done. by rewrite Hs.
    - apply wp_bind. eapply (wp_keeps (K has_id)); [by apply keeps_queue_for; auto|done| |].
      + intros [] w3 []. by apply wp_ret.
      + by intros w' []. }
  wps; acts_tac; try (by apply wp_ret).
  all: try (assert (u0 = u) as -> by (rewrite Hu in *; congruence);
    eapply wp_record_row; [done..|by rewrite Hr|by rewrite Hr|]; intros w' Hw').
  - by apply Htail.
  - apply Htail; [done|]. intros _. by destruct a.
Qed.

Lemma keeps_deliver_to room u name :
  f_type f = MSG → w_user w0 !! s = Some u → f_to f = JStr room → is_room room = true →
  member w0 room u → member w0 room name →
  keeps (K has_id) (deliver_to (outgoing u f) (env_of f) u name).
Proof.
  intros Hf Hu Ht Hr Hm Hn. apply keeps_wp. intros w Hw. unfold deliver_to.
  pose proof Hw as (Ha & (_ & Hs & _) & _). wps.
  - apply K_send; [done|]. apply bool_decide_eq_false in Hb. by eapply send_room_message.
  - rewrite Hs in Hm1. eapply (wp_keeps (K has_id)); [|done..].
    apply keeps_queue_for; eauto.
Qed.

Lemma to_room_refines room :
  f_type f = MSG → f_to f = JStr room → is_room room = true →
  ∀ u, w_user w0 !! s = Some u →
  wp (_to_room s room (outgoing u f) (env_of f)) (λ _, A) A w0.
Proof.
  intros Hf Ht Hr u Hu. unfold _to_room, _record, _record_envelopes.
  wps; acts_tac; try (by apply wp_ret).
  all: assert (u0 = u) as -> by congruence.
  all: assert (member w0 room u) as Hm' by
    (exists a0; split; [done|]; by apply negb_false_iff, bool_decide_eq_true in Hb0).
  all: eapply wp_record_row; [done..|by rewrite Hr|done|]; intros w' Hw'.
  all: apply wp_bind; eapply (wp_keeps (K has_id));
    [|exact Hw'|by intros [] w'' []; apply wp_ret|by intros w'' []].
  all: apply wp_forM_keeps; intros name Hn; rewrite <-?Hm; eapply keeps_deliver_to; try done.
  all: exists a0; split; [done|]; unfold sorted_set in Hn;
    by apply elem_of_sorted, elem_of_elements in Hn.
Qed.

Lemma message_refines : f_type f = MSG → is_Some (w_user w0 !! s) →
  wp (_message s f) (λ _, A) A w0.
Proof.
  intros Hf [u Hu]. unfold _message. wps; acts_tac.
  - rewrite Hu. change (mkFrame MSG _ _ _ _ _ _ _ _) with (outgoing u f).
    eapply wp_mono; [by apply to_room_refines| |done].
    intros b w' Hw'. wps; acts_tac.
  - rewrite Hu. change (mkFrame MSG _ _ _ _ _ _ _ _) with (outgoing u f).
    eapply wp_mono; [by apply to_user_refines| |done].
    intros b w' Hw'. wps; acts_tac.
Qed.

(** ** History, receipts, typing *)

Lemma send_history_refines u target conv : wp (send_history s u target conv f) (λ _, A) A w0.
Proof.
  unfold send_history. wps; acts_tac.
  all: destruct (Messages.history _ _ _ _) as [l|] eqn:El; [|done].
  all: cbn in *; simplify_eq.
  all: assert (set_msgs (Some db') w0 = w0) as -> by (destruct w0; cbn in *; by subst).
  all: acts_tac.
Qed.

Lemma history_refines : wp (_history s f) (λ _, A) A w0.
Proof.
  unfold _history. wps; acts_tac; apply send_history_refines.
Qed.

Lemma receipt_refines : f_type f = RECEIPT → is_Some (w_user w0 !! s) →
  wp (_receipt s f) (λ _, A) A w0.
Proof.
  intros Hf [u Hu]. unfold _receipt.
  assert (∀ db db' ref st o, receipt_state (jget (f_data f) (&"state")) = Some st →
    w_msgs w0 = Some db → Messages.mark db ref st (rt_now (w_tick w0)) = Ok (db', o) →
    A (set_msgs (Some db') (set_tick (S (w_tick w0)) w0))) as Hmark.
  { intros db db' ref st o Hst Hdb Hop.
    eapply acts_by; [by eapply (act_mark _ _ _ (set_tick _ w0))|acts_tac]. }
  wps; acts_tac; try (by eapply Hmark).
  apply acts_send; [apply acts_tick; by eapply Hmark|].
  apply bool_decide_eq_false in Hb1. cbn [w_user set_msgs set_tick] in Hb1.
  eapply (send_receipt _ _ _ _ u l0); try done; [|naive_solver congruence].
  cbn [f_sender w_user set_msgs set_tick]. by rewrite Hu.
Qed.

Lemma typing_refines : f_type f = TYPING → wp (_typing s f) (λ _, A) A w0.
Proof.
  intros Hf. unfold _typing, send_online. wps; acts_tac.
  - apply (wp_forM (λ w, A w ∧ w_sessions w = w_sessions w0)).
    + split; [acts_tac|done].
    + intros name w Hn [Ha Hs]. apply list_elem_of_filter in Hn as [Hne Hn].
      apply elem_of_sorted, elem_of_elements in Hn. wps; [|done]. split; [|done].
      apply acts_send; [done|]. eapply (send_typing _ _ _ _ u name); try done.
      right. exists x. split_and!; [done| | |done]; exists a; [split; [done|]..|].
      * by apply negb_false_iff, bool_decide_eq_true in Hb1.
      * split; [done|]. done.
    + by intros w [].
  - apply (wp_forM (λ w, A w ∧ w_sessions w = w_sessions w0)).
    + split; [acts_tac|done].
    + intros name w ->%list_elem_of_singleton [Ha Hs]. wps; [|done]. split; [|done].
      apply acts_send; [done|]. eapply (send_typing _ _ _ _ u x); try done. by left.
    + by intros w [].
Qed.

Lemma handle_wp : wp (handle s f) (λ _, A) A w0.
Proof.
  unfold handle. destruct (f_type f) eqn:Hf; try by (wps; acts_tac).
  - by apply register_refines.
  - by apply login_refines.
  - wps; acts_tac. apply get_key_refines.
  - wps; acts_tac. apply message_refines; eauto.
  - wps; acts_tac. by apply create_room_refines.
  - wps; acts_tac. by apply join_refines.
  - wps; acts_tac. by apply leave_refines.
  - wps; acts_tac. by apply invite_refines.
  - wps; acts_tac. by apply add_contact_refines.
  - wps; acts_tac. apply remove_contact_refines; eauto.
  - wps; acts_tac. by apply typing_refines.
  - wps; acts_tac. apply receipt_refines; eauto.
  - wps; acts_tac. apply history_refines.
Qed.

(** C3. The router refines its specification: from any state, whatever the frame
    and whichever connection it came from, and even if handling it raises, what
    the handler does is a sequence of actions the specification allows. *)
Theorem handle_refines_spec : rtc act w0 (handle s f w0).1.
Proof.
  pose proof handle_wp as Hw. unfold wp in Hw. by destruct (handle s f w0) as [w' [[]|e]].
Qed.
End refines.
