(* ===== verification/RouterInv.v ===== *)
(** * The server's invariant

    What holds in every state the server can reach, by rule induction on the
    frames, disconnections and restarts that lead to it.  The induction goes over
    the actions of [RouterSpec], so it never looks at a handler. *)

From S2P Require Import Prelude PyStr PyDict Utf8 Json Frames.
From S2P Require Import Registries Database Users Messages Router Wp RouterSpec RouterRefines.

Section inv.
Context `{Runtime} {R : Type} `{RoomStore R} {ok : R → Prop}
  {view : R → gmap pystr (gset pystr)} `{!RoomStoreSound R ok view}.
Implicit Types (w : world R).

(** The message store: its keys, authentic senders, and a queue whose entries
    name an account and a stored message. *)
Record msgs_inv (known : pystr → Prop) (db : Messages.t) : Prop := {
  mi_ok : Messages.ok db;
  mi_sender : ∀ r, r ∈ Messages.messages db → known (Messages.m_sender r);
  mi_pending : ∀ k v, (k, v) ∈ Messages.pending db →
    known v ∧ k ∈ Messages.m_id <$> Messages.messages db;
}.

Record inv w : Prop := {
  i_users : table_ok Users.u_name (w_users w);
  i_names : ∀ v, registered w v → v ≠ [] ∧ is_room v = false ∧ encodable v;
  i_sessions : dict_ok (w_sessions w);
  i_agree : ∀ u d, Sessions.get (w_sessions w) u = Some d ↔ w_user w !! d = Some u;
  i_online : ∀ d u, w_user w !! d = Some u → registered w u;
  i_rooms : ok (w_rooms w);
  i_room_names : ∀ room, is_Some (view (w_rooms w) !! room) → valid_room room;
  i_members : ∀ room v, v ∈ room_members (view (w_rooms w)) room → registered w v;
  i_msgs : ∀ db, w_msgs w = Some db → msgs_inv (registered w) db;
  i_contacts : ∀ db, w_contacts w = Some db → table_ok Contacts.key db;
}.

Lemma exists_registered w v : Users.exists_ (w_users w) v = Ok true → registered w v.
Proof.
  unfold Users.exists_, registered. destruct (bind_str v) as [v'|] eqn:Ev; [|done].
  apply bind_str_Ok in Ev as [-> _]. cbn [mbind res_bind].
  intros Hd%Ok_inj%bool_decide_eq_true. destruct (decide (v ∈ Users.u_name <$> w_users w));
    [done|]. by apply (select_None Users.u_name) in n as Hn; rewrite Hn in Hd; destruct Hd.
Qed.

Lemma member_registered w room v : inv w → member w room v → registered w v.
Proof.
  intros Hi (m & Hm & Hv). apply (i_members w Hi room).
  apply rs_members_sound in Hm as ->; [done|]. apply (i_rooms w Hi).
Qed.

(** Facts about the people are kept as the table grows. *)
Definition grows w w' : Prop := ∀ v, registered w v → registered w' v.

Lemma msgs_inv_grows w w' db : grows w w' → msgs_inv (registered w) db → msgs_inv (registered w') db.
Proof.
  intros Hg []. split; [done|by eauto|]. intros k v [? ?]%mi_pending0. eauto.
Qed.

(** A login keeps names and connections in agreement. *)
Lemma login_agree w u s :
  inv w → w_user w !! s = None → Sessions.get (w_sessions w) u = None →
  dict_ok (Sessions.login (w_sessions w) u s).1 ∧
  ∀ v d, Sessions.get (Sessions.login (w_sessions w) u s).1 v = Some d ↔
         <[s := u]> (w_user w) !! d = Some v.
Proof.
  intros Hi Hs Hu. pose proof (i_agree w Hi) as Ha.
  destruct (Sessions.login (w_sessions w) u s) as [r' b] eqn:El.
  destruct (Sessions.login_spec _ _ _ _ _ (i_sessions w Hi) El) as (Hok & Hb & Hnew & Hold).
  assert (b = true) as -> by tauto. cbn [fst]. split; [done|]. intros v d.
  destruct (decide (v = u)) as [->|Hv], (decide (d = s)) as [->|Hd].
  - rewrite lookup_insert_eq, Hnew by done. tauto.
  - rewrite lookup_insert_ne, Hnew, <-Ha, Hu by done. split; congruence.
  - rewrite lookup_insert_eq, Hold, Ha, Hs by done. split; congruence.
  - rewrite lookup_insert_ne, Hold by done. apply Ha.
Qed.

Section one_frame.
Variables (w0 : world R) (s : sid) (f : Frame).
Hypothesis H0inv : inv w0.

Lemma session_registered w u :
  w_user w0 !! s = Some u → grows w0 w → registered w u.
Proof. intros Hu Hg. by eapply Hg, i_online. Qed.

Lemma may_join_registered w room v :
  may_join w0 s f room v → grows w0 w → registered w v.
Proof.
  intros [Hf Hu _|u n r Hf Hu _ [->|Hv]|u Hf Hu _ Hv] Hg.
  - by eapply session_registered.
  - by eapply session_registered.
  - by apply Hg, exists_registered.
  - by apply Hg, exists_registered.
Qed.

(** A change of the rooms. *)
Lemma inv_set_rooms w r :
  inv w → ok r →
  (∀ room, is_Some (view r !! room) → valid_room room) →
  (∀ room v, v ∈ room_members (view r) room → registered w v) →
  inv (set_rooms r w).
Proof. intros [] ? ? ?. by split. Qed.

Lemma inv_set_msgs w db : inv w → msgs_inv (registered w) db → inv (set_msgs (Some db) w).
Proof. intros [] ?. split; try done. by intros db' [= <-]. Qed.

Lemma inv_set_contacts w db :
  inv w → table_ok Contacts.key db → inv (set_contacts (Some db) w).
Proof. intros [] ?. split; try done. by intros db' [= <-]. Qed.

Lemma inv_tick w n : inv w → inv (set_tick n w).
Proof. intros []. by split. Qed.

Lemma inv_out w o : inv w → inv (set_out o w).
Proof. intros []. by split. Qed.

Lemma room_members_insert (m : gmap pystr (gset pystr)) (room room' : pystr) x :
  room_members (<[room := x]> m) room' = if decide (room' = room) then x
                                         else room_members m room'.
Proof.
  unfold room_members. destruct (decide (room' = room)) as [->|].
  - by rewrite lookup_insert_eq.
  - by rewrite lookup_insert_ne.
Qed.

Lemma inv_create w n room r b :
  inv w → valid_room room → rs_create (w_rooms w) (rt_now n) room = Ok (r, b) →
  inv (set_rooms r w).
Proof.
  intros Hi Hv Hc. apply rs_create_sound in Hc as (Hok & _ & Hview); [|apply (i_rooms w Hi)].
  apply inv_set_rooms; [done|done|..]; rewrite Hview; destruct b;
    [|apply (i_room_names w Hi)| |apply (i_members w Hi)].
  - intros room'. rewrite lookup_insert_is_Some. intros [<-|[_ ?]]; [done|].
    by apply (i_room_names w Hi).
  - intros room' v. rewrite room_members_insert. case_decide; [set_solver|].
    apply (i_members w Hi).
Qed.

Lemma inv_join w n room v r :
  inv w → valid_room room → registered w v →
  rs_join (w_rooms w) (rt_now n) room v = Ok r → inv (set_rooms r w).
Proof.
  intros Hi Hv Hr Hj. apply rs_join_sound in Hj as (Hok & Hview); [|apply (i_rooms w Hi)].
  apply inv_set_rooms; [done|done|..]; rewrite Hview.
  - intros room'. rewrite lookup_insert_is_Some. intros [<-|[_ ?]]; [done|].
    by apply (i_room_names w Hi).
  - intros room' x. rewrite room_members_insert. case_decide; [|apply (i_members w Hi)].
    rewrite elem_of_union, elem_of_singleton. intros [->|?]; [done|].
    by eapply (i_members w Hi).
Qed.

Lemma inv_leave w room u r :
  inv w → rs_leave (w_rooms w) room u = Ok r → inv (set_rooms r w).
Proof.
  intros Hi Hl. apply rs_leave_sound in Hl as (Hok & Hview); [|apply (i_rooms w Hi)].
  apply inv_set_rooms; [done|done|..]; rewrite Hview.
  - intros room'. rewrite lookup_alter_is_Some. apply (i_room_names w Hi).
  - intros room' x Hx. apply (i_members w Hi room'). revert Hx. unfold room_members.
    rewrite lookup_alter. case_decide; [|done]. subst.
    destruct (view (w_rooms w) !! room'); cbn; set_solver.
Qed.

Lemma inv_register w n u p k db :
  inv w → u ≠ [] → is_room u = false →
  Users.register (w_users w) (rt_salt n) (rt_now n) u p k = Ok (db, true) →
  inv (set_users db w) ∧ grows w (set_users db w).
Proof.
  intros Hi Hu Hr Hreg.
  destruct (Users.register_spec _ _ _ _ _ _ _ _ (i_users w Hi) Hreg)
    as (Hok & _ & _ & Hnew). destruct (Hnew eq_refl) as (d & key & _ & _ & -> & He & _).
  assert (∀ v, registered (set_users (w_users w ++ [Users.mkRow u (rt_salt n) d key (rt_now n)]) w) v
    ↔ registered w v ∨ v = u) as Hreg'.
  { intros v. unfold registered. cbn [w_users set_users]. rewrite fmap_app, elem_of_app.
    cbn [fmap list_fmap Users.u_name]. by rewrite list_elem_of_singleton. }
  assert (grows w (set_users (w_users w ++ [Users.mkRow u (rt_salt n) d key (rt_now n)]) w))
    as Hg by (intros v ?; rewrite Hreg'; auto).
  split; [|done]. destruct Hi. split; try done.
  - intros v [?| ->]%Hreg'; auto.
  - intros c v Hc. apply Hg. eauto.
  - intros room v Hv. apply Hg. eauto.
  - intros db Hdb. eapply msgs_inv_grows; eauto.
Qed.

Lemma msgs_inv_record (known : pystr → Prop) db i conv u to b n ts db' :
  msgs_inv known db → known u → Messages.record db i conv u to b n ts = Ok db' →
  msgs_inv known db'.
Proof.
  intros [Hok Hs Hp] Hu Hr. split; [by eapply Messages.record_ok|..];
    apply Messages.record_inv in Hr as (k & b' & n' & _ & _ & _ & _ & _ & _ & _ & ->);
    cbn [Messages.messages Messages.pending].
  - intros r [Hr|[-> _]]%elem_of_insert_or_ignore; [by apply Hs|done].
  - intros j v [Hv Hj]%Hp. split; [done|]. apply list_elem_of_fmap in Hj as (r & -> & Hr).
    apply list_elem_of_fmap_2, elem_of_insert_or_ignore. by left.
Qed.

Lemma msgs_inv_queue (known : pystr → Prop) db v i k db' :
  msgs_inv known db → known v → bind_key i = Ok k →
  k ∈ Messages.m_id <$> Messages.messages db →
  Messages.queue_for db v i = Ok db' → msgs_inv known db'.
Proof.
  intros [Hok Hs Hp] Hv Hk Hin Hq. split; [by eapply Messages.queue_for_ok|..];
    apply Messages.queue_for_inv in Hq as (k' & Hk' & _ & ->); [done|].
  assert (k' = k) as -> by congruence.
  intros j x [?|[[= -> ->] _]]%elem_of_insert_or_ignore; [by apply Hp|done].
Qed.

Lemma msgs_inv_mark (known : pystr → Prop) db ref st when db' o :
  msgs_inv known db → Messages.mark db ref st when = Ok (db', o) → msgs_inv known db'.
Proof.
  intros [Hok Hs Hp] Hm. pose proof (Messages.mark_ok _ _ _ _ _ _ Hok Hm) as Hok'.
  destruct (Messages.mark_rows _ _ _ _ _ _ Hm) as (Hpend & Hids & Hsend).
  split; [done| |].
  - intros r' Hr'. assert (Messages.m_sender r' ∈ Messages.m_sender <$> Messages.messages db') as Hx
      by by apply list_elem_of_fmap_2.
    rewrite Hsend in Hx. apply list_elem_of_fmap in Hx as (r & -> & Hr). by apply Hs.
  - intros k v. rewrite Hpend, Hids. apply Hp.
Qed.

Lemma msgs_inv_flush (known : pystr → Prop) db u db' rows :
  msgs_inv known db → Messages.flush db u = Ok (db', rows) → msgs_inv known db'.
Proof.
  intros [Hok Hs Hp] Hf. split; [by eapply Messages.flush_ok|..];
    apply Messages.flush_inv in Hf as (_ & -> & _); [done|].
  intros k v [_ ?]%list_elem_of_filter. by apply Hp.
Qed.

Lemma verify_registered w thr u p :
  Users.verify (w_users w) thr (JStr u) p = Ok true → registered w u.
Proof.
  unfold Users.verify, bind_text. destruct (bind_str u) as [u'|] eqn:Eu; [|done].
  apply bind_str_Ok in Eu as [-> He]. cbn [mbind res_bind option_bind]. unfold registered.
  destruct (select Users.u_name (w_users w) u) as [r|] eqn:Es.
  - apply select_Some in Es as [Hr <-]. intros _. by apply list_elem_of_fmap_2.
  - destruct (Users._derive p thr); [|done]. intros [=].
Qed.

(** One action of one frame keeps the invariant and forgets nobody. *)
Lemma act_inv w w' :
  act w0 s f w w' → inv w → grows w0 w → inv w' ∧ grows w0 w'.
Proof.
  intros [n|d g _|n u p k db Hf Hu Hr Hreg|u p thr Hf _ Hs Hu Hv Hg|n room r b Hf Hv Hc
    |n room v r Hv Hj Hr|room u r Hf Hu Hl|u target conv b n db db' Hf Hu _ _ _ Hdb Hrec
    |name db db' k Hf _ Hn Hdb Hk Hin Hq|ref st n db db' o Hf Hdb Hm|u db db' rows Hf _ Hu Hdb Hfl
    |o c n db db' b Hf Hdb Ha|u c db db' b Hf Hu Hdb Hrm] Hi Hgr;
    try (split; [|exact Hgr]).
  - by apply inv_tick.
  - by apply inv_out.
  - destruct (inv_register w n u p k db Hi Hu Hr Hreg) as [Hi' Hg'].
    split; [done|]. intros v ?. by apply Hg', Hgr.
  - pose proof (verify_registered _ _ _ _ Hv) as Hreg.
    destruct (login_agree w u s Hi Hs Hg) as [Hok Hag]. destruct Hi. split; try done.
    intros d v. cbn [w_user set_user]. destruct (decide (d = s)) as [->|].
    + rewrite lookup_insert_eq. by intros [= <-].
    + rewrite lookup_insert_ne by done. eauto.
  - by eapply inv_create.
  - eapply inv_join; [done..| |done]. by eapply may_join_registered.
  - by eapply inv_leave.
  - apply inv_set_msgs; [done|]. eapply msgs_inv_record; [by eapply i_msgs| |done].
    by eapply session_registered.
  - apply inv_set_msgs; [done|]. eapply msgs_inv_queue; [by eapply i_msgs| |done..].
    apply Hgr. destruct Hn as [Hn|[room Hn]];
      [by apply exists_registered|by eapply member_registered].
  - apply inv_set_msgs; [done|]. eapply msgs_inv_mark; [by eapply i_msgs|done].
  - apply inv_set_msgs; [done|]. eapply msgs_inv_flush; [by eapply i_msgs|done].
  - apply inv_set_contacts; [done|]. eapply Contacts.add_ok; [by eapply i_contacts|done].
  - apply inv_set_contacts; [done|]. eapply Contacts.remove_ok; [by eapply i_contacts|done].
Qed.

Lemma acts_inv w : rtc (act w0 s f) w0 w → inv w ∧ grows w0 w.
Proof.
  intros Hs. enough (∀ a b, rtc (act w0 s f) a b → inv a → grows w0 a → inv b ∧ grows w0 b)
    as Hgen by (by eapply Hgen; [done..|intros v]).
  induction 1 as [a|a b c Hab _ IH]; [done|]. intros Ha Hg.
  destruct (act_inv _ _ Hab Ha Hg). by apply IH.
Qed.
End one_frame.

Lemma handle_inv w s f : inv w → inv (handle s f w).1.
Proof.
  intros Hi. pose proof (handle_wp w s f) as Hw. unfold wp in Hw.
  destruct (handle s f w) as [w' [[]|e]]; by eapply acts_inv.
Qed.

(** ** The other ways the state changes *)

(** What [on_disconnect] does, in full. *)
Lemma on_disconnect_eq w s u :
  w_user w !! s = Some u →
  on_disconnect s w =
    let w1 := set_user (delete s (w_user w))
                (set_sessions (Sessions.logout (w_sessions w) u) w) in
    let g := mkFrame PRESENCE JNull JNull JNull JNull
               [(&"user", JStr u); (&"state", JStr OFFLINE)]
               (JStr (rt_uuid (w_tick w))) (rt_now (w_tick w)) (JInt PROTOCOL_VERSION) in
    (set_tick (S (w_tick w))
       (set_out (w_out w ++ ((λ d, (d, g)) <$> Sessions.others (Sessions.logout (w_sessions w) u) u))
          w1), Ok tt).
Proof.
  intros Hu. unfold on_disconnect, username. unfold mbind at 1, M_bind at 1, gets.
  rewrite Hu. cbv zeta. unfold modify, _announce, new_frame, gets, tick, mret, M_ret.
  unfold mbind, M_bind. cbn [w_sessions w_user set_sessions set_user set_tick w_tick].
  rewrite forM_send. reflexivity.
Qed.

Lemma disconnect_inv w s : inv w → inv (on_disconnect s w).1.
Proof.
  intros Hi. destruct (w_user w !! s) as [u|] eqn:Hu.
  - rewrite (on_disconnect_eq w s u Hu). cbv zeta. cbn [fst].
    apply inv_tick, inv_out. pose proof (i_agree w Hi) as Ha.
    destruct (Sessions.logout_spec _ u (i_sessions w Hi)) as (Hok & Hn & Hold).
    destruct Hi. split; try done; cbn [w_sessions w_user set_user set_sessions].
    + intros v d. destruct (decide (v = u)) as [->|Hv], (decide (d = s)) as [->|Hd].
      * rewrite lookup_delete_eq, Hn. done.
      * rewrite lookup_delete_ne, Hn by done. split; [done|].
        intros Hd'%Ha. apply Ha in Hu. congruence.
      * rewrite lookup_delete_eq, Hold, Ha, Hu by done. split; congruence.
      * rewrite lookup_delete_ne, Hold by done. apply Ha.
    + intros d v Hd. apply lookup_delete_Some in Hd as [_ Hd]. eauto.
  - unfold on_disconnect, username, mbind, M_bind, gets. by rewrite Hu.
Qed.

(** A restart: the tables survive, the connections do not. *)
Definition restart w : world R :=
  mkWorld [] ∅ (w_rooms w) (w_users w) (w_msgs w) (w_contacts w) (w_out w) (w_tick w).

Lemma restart_inv w : inv w → inv (restart w).
Proof.
  intros []. split; try done; cbn [w_sessions w_user restart]. constructor.
Qed.

(** ** Reachable states *)

Inductive step w : world R → Prop :=
| step_frame s f : step w (handle s f w).1
| step_disconnect s : step w (on_disconnect s w).1
| step_restart : step w (restart w).

(** A new server on empty tables, with or without history and contacts. *)
Definition fresh (r : R) (has_messages keeps_contacts : bool) : world R :=
  mkWorld [] ∅ r [] (if has_messages then Some Messages.empty else None)
    (if keeps_contacts then Some [] else None) [] 0.

Lemma fresh_inv r b c : ok r → view r = ∅ → inv (fresh r b c).
Proof.
  intros Hok Hv. split; unfold registered; cbn [w_sessions w_user w_users w_rooms w_msgs w_contacts fresh];
    rewrite ?Hv; try done; try (by constructor).
  - by intros v ?%not_elem_of_nil.
  - intros room. rewrite lookup_empty. by intros [].
  - intros db Hdb. destruct b; [|done]. injection Hdb as <-.
    split; [split; constructor| |]; by intros * ?%not_elem_of_nil.
  - intros db Hdb. destruct c; [|done]. injection Hdb as <-. constructor.
Qed.

Lemma steps_inv w w' : rtc step w w' → inv w → inv w'.
Proof.
  induction 1 as [|w1 w2 w3 [s f|s|] _ IH]; [done|..]; intros Hi; apply IH.
  - by apply handle_inv.
  - by apply disconnect_inv.
  - by apply restart_inv.
Qed.

(** C4. In every state the server can reach from empty tables, by any frames from
    any connections (well-formed or not, handled to the end or stopped by an
    exception), disconnections and restarts: the tables keep their keys; names and
    live connections correspond one to one; whoever is logged in, is in a room, sent
    a stored message or is owed one has an account; every room has a valid name; and
    the offline queue only names stored messages. *)
Theorem reachable_inv r b c w :
  ok r → view r = ∅ → rtc step (fresh r b c) w → inv w.
Proof.
  intros Hok Hv Hs. eapply steps_inv; [exact Hs|]. by apply fresh_inv.
Qed.
End inv.
