(* ===== verification/Scenario.v ===== *)
(** * A scenario for the witnesses

    A small server run on the SQLite room store: three accounts, two of them
    connected, one room.  The theorems about the router are instantiated here at
    concrete states that the model computes. *)

From S2P Require Import Prelude PyStr PyDict Utf8 Json Frames.
From S2P Require Import Registries Database Users Messages RoomsDb.
From S2P Require Import Router RouterSpec RouterRefines RouterInv.

#[export] Existing Instance plain_runtime.
#[export] Existing Instance SqliteRooms.store.
#[export] Existing Instance SqliteRooms.sound.
#[export] Existing Instance SqliteRooms.laws.
#[export] Existing Instance Rooms.store.
#[export] Existing Instance Rooms.sound.
#[export] Existing Instance Rooms.laws.

Definition ask (t : MessageType) (to : json) (data : list (pystr * json)) : Frame :=
  mkFrame t JNull to (JStr (&"hi")) JNull data (JStr (&"id1")) 7 (JInt 1).

Definition credentials (u : string) : list (pystr * json) :=
  [(&"user", JStr (py u)); (&"pass_hash", JStr (&"secret"))].

Lemma plain_clock n : int64 (rt_now n).
Proof.
  cbn [rt_now plain_runtime]. unfold int64.
  pose proof (Z.mod_pos_bound (Z.of_nat n) 1000000000). lia.
Qed.

(** Handle a list of frames, each from its connection. *)
Definition play {R} `{RoomStore R} (script : list (sid * Frame)) (w : world R) : world R :=
  foldl (λ w p, (handle p.1 p.2 w).1) w script.

(** alice (1) and bob (2) are logged in; carol has an account; alice and bob are in
    a room, carol is not. *)
Definition cast : list (sid * Frame) :=
  [(1, ask REGISTER JNull (credentials "alice")); (2, ask REGISTER JNull (credentials "bob"));
   (3, ask REGISTER JNull (credentials "carol"));
   (1, ask LOGIN JNull (credentials "alice")); (2, ask LOGIN JNull (credentials "bob"));
   (1, ask CREATE_ROOM JNull [(&"room", JStr (&"#team")); (&"members", JList [JStr (&"bob")])])].

Definition stage : world SqliteRooms.t :=
  play cast (fresh SqliteRooms.empty true true).

Abbreviation sqlite_inv := (inv (ok := SqliteRooms.ok) (view := SqliteRooms.view)).

Lemma play_reachable script (w : world SqliteRooms.t) :
  rtc step (fresh SqliteRooms.empty true true) w →
  rtc step (fresh SqliteRooms.empty true true) (play script w).
Proof.
  revert w. induction script as [|[s f] script IH]; intros w Hw; [done|].
  apply IH. eapply rtc_r; [done|constructor].
Qed.

Lemma empty_rooms_ok : SqliteRooms.ok SqliteRooms.empty.
Proof. split_and!; [constructor..|]. by intros room u ?%not_elem_of_nil. Qed.

Lemma empty_rooms_view : SqliteRooms.view SqliteRooms.empty = ∅.
Proof. reflexivity. Qed.

Lemma stage_inv : sqlite_inv stage.
Proof.
  eapply (steps_inv (fresh SqliteRooms.empty true true)).
  - apply play_reachable. reflexivity.
  - apply fresh_inv; [exact empty_rooms_ok|exact empty_rooms_view].
Qed.
