(* ===== verification/RouterSafety.v ===== *)
(** * What clients can rely on

    Safety properties of the router, read off the specification it refines and
    the invariant: who a message can claim to come from, who can be sent
    anything, who can change a room, and who can read an envelope. *)

From S2P Require Import Prelude PyStr PyDict Utf8 Json Frames.
From S2P Require Import Registries Database Users Messages RoomsDb.
From S2P Require Import Router Wp RouterSpec RouterRefines RouterInv Scenario.

Section safety.
Context `{Runtime} {R : Type} `{RoomStore R} {ok : R → Prop}
  {view : R → gmap pystr (gset pystr)} `{!RoomStoreSound R ok view}.
Implicit Types (w : world R).

Abbreviation inv := (inv (ok := ok) (view := view)).

(** The frames one call sent. *)
Definition new_out w w' : list (sid * Frame) := drop (length (w_out w)) (w_out w').

(** A property of actions holds along every run of them. *)
Lemma acts_handle w s f : rtc (act w s f) w (handle s f w).1.
Proof.
  pose proof (handle_wp w s f) as Hw. unfold wp in Hw. by destruct (handle s f w) as [w' [[]|e]].
Qed.

Lemma acts_ind w0 s f (P : world R → Prop) :
  P w0 →
  (∀ w1 w2, rtc (act w0 s f) w0 w1 → act w0 s f w1 w2 → P w1 → P w2) →
  ∀ w, rtc (act w0 s f) w0 w → P w.
Proof. apply rtc_ind_r. Qed.

Lemma act_out w0 s f w w' :
  act w0 s f w w' →
  w_out w' = w_out w ∨ ∃ d g, allowed w0 s f w d g ∧ w_out w' = w_out w ++ [(d, g)].
Proof. intros []; [by left|right|by left..]. eauto. Qed.

Lemma acts_sent w0 s f w :
  rtc (act w0 s f) w0 w →
  ∃ new, w_out w = w_out w0 ++ new ∧
    ∀ d g, (d, g) ∈ new → ∃ w1, rtc (act w0 s f) w0 w1 ∧ allowed w0 s f w1 d g.
Proof.
  revert w. apply acts_ind; [|intros w1 w2 Hr Hs (new & Heq & Hnew)].
  - exists []. rewrite app_nil_r. split; [done|]. by intros d g ?%not_elem_of_nil.
  - apply act_out in Hs as [->|(d & g & Hg & ->)]; [by exists new|].
    exists (new ++ [(d, g)]). rewrite Heq, app_assoc. split; [done|].
    intros d' g' [?|[= -> ->]%list_elem_of_singleton]%elem_of_app; eauto.
Qed.

(** Every frame a call sent was allowed in some state on the way. *)
Lemma handle_sent w s f d g :
  (d, g) ∈ new_out w (handle s f w).1 →
  ∃ w1, rtc (act w s f) w w1 ∧ allowed w s f w1 d g.
Proof.
  destruct (acts_sent w s f _ (acts_handle w s f)) as (new & Heq & Hnew).
  unfold new_out. rewrite Heq, drop_app_length. apply Hnew.
Qed.

(** Only LOGIN and REGISTER change the people. *)
Lemma act_people w0 s f w w' :
  act w0 s f w w' → f_type f ≠ LOGIN → f_type f ≠ REGISTER →
  w_user w' = w_user w ∧ w_sessions w' = w_sessions w ∧ w_users w' = w_users w.
Proof. by intros []. Qed.

Lemma acts_people w0 s f w :
  rtc (act w0 s f) w0 w → f_type f ≠ LOGIN → f_type f ≠ REGISTER → same_people w0 w.
Proof.
  intros Hs Hl Hr. revert w Hs. apply acts_ind; [done|].
  intros w1 w2 _ Ha (Hu & Hse & Hus). unfold same_people.
  destruct (act_people _ _ _ _ _ Ha Hl Hr) as (-> & -> & ->). done.
Qed.

(** A frame that speaks for a user. *)
Definition speaks (g : Frame) : bool :=
  match f_type g with MSG | TYPING | RECEIPT => true | _ => false end.

(** C5. No client can speak for another: every MSG, TYPING or RECEIPT frame that
    handling a frame sends carries the name the asking connection is logged in
    under, whatever [from] the client wrote; the only exception is a login, which
    hands the new connection stored messages under the senders they were stored
    with. *)
Theorem sender_authentic w s f d g :
  (d, g) ∈ new_out w (handle s f w).1 → speaks g = true →
  (∃ u, w_user w !! s = Some u ∧ f_sender g = JStr u) ∨
  (f_type f = LOGIN ∧ d = s ∧ ∃ db r, w_msgs w = Some db ∧ r ∈ Messages.messages db ∧
     f_sender g = JStr (Messages.m_sender r) ∧ f_id g = JStr (Messages.m_id r)).
Proof.
  intros (w1 & _ & Ha)%handle_sent Hg. unfold speaks in Hg.
  destruct Ha as [g Hr|o d g Hr|room name d g Hr|u d g Hr|u target d|u room name d g Hf Hu _ _ _ _ _ _ Ht
    |u db r body nonce Hf _ _ Hdb Hin|u sender d g _ Hr Hu Hs|u name d g _ Hr Hu Hs].
  1: unfold is_reply in Hr; by destruct (f_type g).
  1-3: by rewrite Hr in Hg.
  - left. eauto.
  - left. exists u. split; [done|]. unfold _addressed_to in Ht.
    destruct (env_of f); [|by simplify_eq]. repeat case_match; by simplify_eq.
  - right. eauto 10.
  - left. eauto.
  - left. eauto.
Qed.

(** C39. What is stored is authentic too: a row that handling a frame adds to the
    history names the logged-in user as its sender, and only a MSG frame adds one. *)
Theorem stored_sender_authentic w s f db' r :
  w_msgs (handle s f w).1 = Some db' → r ∈ Messages.messages db' →
  (∃ db r', w_msgs w = Some db ∧ r' ∈ Messages.messages db ∧
     Messages.m_id r' = Messages.m_id r ∧ Messages.m_sender r' = Messages.m_sender r) ∨
  (f_type f = MSG ∧ w_user w !! s = Some (Messages.m_sender r)).
Proof.
  enough (∀ w', rtc (act w s f) w w' → ∀ db' r, w_msgs w' = Some db' →
    r ∈ Messages.messages db' →
    (∃ db r', w_msgs w = Some db ∧ r' ∈ Messages.messages db ∧
       Messages.m_id r' = Messages.m_id r ∧ Messages.m_sender r' = Messages.m_sender r) ∨
    (f_type f = MSG ∧ w_user w !! s = Some (Messages.m_sender r)))
    as Hgen by (intros Hm Hr; exact (Hgen _ (acts_handle w s f) _ _ Hm Hr)).
  clear db' r. refine (acts_ind w s f _ _ _); [|intros w1 w2 _ Ha IH].
  { intros db r Hdb Hr. left. eauto 10. }
  intros db' r Hdb' Hr. destruct Ha; try (by eapply IH); cbn [w_msgs set_msgs] in Hdb'; simplify_eq.
  - match goal with Hrec : Messages.record _ _ _ _ _ _ _ _ = _ |- _ =>
      apply Messages.record_inv in Hrec as (k & b' & n' & _ & _ & _ & _ & _ & _ & _ & ->) end.
    apply elem_of_insert_or_ignore in Hr as [Hr|[-> _]]; [by eapply IH|]. by right.
  - match goal with Hq : Messages.queue_for _ _ _ = _ |- _ =>
      apply Messages.queue_for_inv in Hq as (k' & _ & _ & ->) end. by eapply IH.
  - match goal with Hm : Messages.mark _ _ _ _ = _ |- _ =>
      destruct (Messages.mark_old _ _ _ _ _ _ Hm r Hr) as (r1 & Hr1 & Hid & Hse) end.
    rewrite <-Hid, <-Hse. by eapply IH.
  - match goal with Hq : Messages.flush _ _ = _ |- _ =>
      apply Messages.flush_inv in Hq as (_ & -> & _) end. by eapply IH.
Qed.

(** ** Who is sent anything *)

Lemma acts_inv_here w s f w1 : inv w → rtc (act w s f) w w1 → inv w1.
Proof. intros Hi Ha. by eapply acts_inv. Qed.

(** Handling a frame changes the login of no other connection. *)
Lemma acts_user_other w s f w1 d :
  rtc (act w s f) w w1 → d ≠ s → w_user w1 !! d = w_user w !! d.
Proof.
  intros Hw1 Hd. revert w1 Hw1. refine (acts_ind w s f _ _ _); [done|].
  intros w1 w2 _ Ha IH. destruct Ha; try done. cbn [w_user set_user].
  by rewrite lookup_insert_ne.
Qed.

Lemma sent_to w s f d g :
  inv w → (d, g) ∈ new_out w (handle s f w).1 → d = s ∨ is_Some (w_user w !! d).
Proof.
  intros Hi (w1 & Hw1 & Ha)%handle_sent. pose proof (acts_inv_here _ _ _ _ Hi Hw1) as Hi1.
  destruct (decide (d = s)) as [|Hd]; [by left|right].
  rewrite <-(acts_user_other w s f w1) by done.
  pose proof (i_agree w1 Hi1) as Hag.
  destruct Ha as [| | |u d g _ _ _ _ Ho| | |u db r body nonce| |]; try done;
    try (eexists; by eapply Hag).
  apply Sessions.elem_of_others in Ho as (v & _ & Hv); [|apply (i_sessions w1 Hi1)].
  exists v. by apply Hag.
Qed.

(** The router only ever sends to the connection that asked or to one that is
    logged in, so nothing reaches a stranger's socket. *)
Theorem recipients_logged_in w s f d g :
  inv w → (d, g) ∈ new_out w (handle s f w).1 →
  d = s ∨ is_Some (w_user w !! d).
Proof. apply sent_to. Qed.

(** ** Who can change a room *)

Abbreviation members w room := (room_members (view (w_rooms w)) room).

Lemma member_members w room v : inv w → member w room v → v ∈ members w room.
Proof.
  intros Hi (m & Hm & Hv). by apply rs_members_sound in Hm as ->; [|apply (i_rooms w Hi)].
Qed.

(** C23. Membership changes only by consent: a name that handling a frame adds to a
    room was put there by its owner joining an existing room, by whoever created
    the room, or by somebody who was a member when the frame arrived; and a name
    is only ever removed by its owner leaving. *)
Theorem membership_controlled w s f room v :
  inv w →
  let w' := (handle s f w).1 in
  (v ∈ members w' room → v ∉ members w room →
     ∃ u, w_user w !! s = Some u ∧
       ((f_type f = JOIN ∧ v = u ∧ is_Some (view (w_rooms w) !! room)) ∨
        (f_type f = CREATE_ROOM ∧ view (w_rooms w) !! room = None) ∨
        (f_type f = INVITE ∧ u ∈ members w room))) ∧
  (v ∉ members w' room → v ∈ members w room →
     f_type f = LEAVE ∧ w_user w !! s = Some v).
Proof.
  intros Hi w'. subst w'.
  enough (∀ w', rtc (act w s f) w w' →
    (v ∈ members w' room → v ∈ members w room ∨ may_join w s f room v) ∧
    (v ∈ members w room → v ∈ members w' room ∨ (f_type f = LEAVE ∧ w_user w !! s = Some v)))
    as Hgen.
  { destruct (Hgen _ (acts_handle w s f)) as [Hin Hout]. split; [|tauto].
    intros [|Hj]%Hin Hn; [done|].
    destruct Hj as [Hf Hu He|u n r Hf Hu Hc _|u Hf Hu Hm _].
    - exists v. split; [done|]. left. split_and!; [done..|].
      apply rs_exists_sound in He; [|apply (i_rooms w Hi)]. by symmetry in He; apply bool_decide_eq_true in He.
    - exists u. split; [done|]. right; left. split; [done|].
      apply rs_create_sound in Hc as (_ & He & _); [|apply (i_rooms w Hi)].
      by symmetry in He; apply bool_decide_eq_true in He.
    - exists u. split; [done|]. right; right. split; [done|]. by apply member_members. }
  refine (acts_ind w s f _ _ _); [auto|]. intros w1 w2 Hw1 Ha [IHin IHout].
  pose proof (i_rooms w1 (acts_inv_here _ _ _ _ Hi Hw1)) as Hok.
  destruct Ha as [| | | |n room' r b Hf _ Hc|n room' x r _ Hj Hr|room' u r Hf Hu Hl| | | | | |];
    try done; cbn [w_rooms set_rooms].
  - apply rs_create_sound in Hc as (_ & Hb & ->); [|done]. destruct b; [|done].
    symmetry in Hb. apply bool_decide_eq_true in Hb. rewrite room_members_insert.
    case_decide; [subst room'|done].
    assert (members w1 room = ∅) as Hempty by (unfold room_members; by rewrite Hb).
    rewrite Hempty in *. done.
  - apply rs_join_sound in Hr as (_ & ->); [|done]. rewrite room_members_insert.
    case_decide; [subst room'|done]. rewrite elem_of_union, elem_of_singleton. split.
    + intros [->|?]; [by right|]. by apply IHin.
    + intros [?|?]%IHout; auto.
  - apply rs_leave_sound in Hl as (_ & ->); [|done].
    unfold room_members in *. rewrite lookup_alter. case_decide; [subst room'|done].
    destruct (view (w_rooms w1) !! room) as [m|]; [|done]. cbn in *.
    rewrite elem_of_difference, elem_of_singleton. split.
    + intros [? _]. by apply IHin.
    + intros [Hin|?]%IHout; [|by right]. destruct (decide (v = u)) as [->|]; auto.
Qed.

(** ** Envelopes *)

(** C6. An encrypted room message shows each member their own envelope and nobody
    else's: every copy the router sends goes to a connection whose user is a member
    of the room and carries exactly the body and nonce sealed under that user's
    name. *)
Theorem envelope_confidential w s f room env d g :
  inv w → f_type f = MSG → f_to f = JStr room → is_room room = true →
  env_of f = Some env →
  (d, g) ∈ new_out w (handle s f w).1 → f_type g = MSG →
  ∃ name body nonce, w_user w !! d = Some name ∧ name ∈ members w room ∧
    jget env name = JList [body; nonce] ∧
    f_body g = JStr (py_str body) ∧ f_nonce g = JStr (py_str nonce).
Proof.
  intros Hi Hf Ht Hr He (w1 & Hw1 & Ha)%handle_sent Hg.
  destruct (acts_people w s f w1) as (Hu1 & Hs1 & _); [done|by rewrite Hf..|].
  assert (∀ name, Sessions.get (w_sessions w1) name = Some d → w_user w !! d = Some name)
    as Hag by (intros name; rewrite Hs1; by apply (i_agree w Hi)).
  destruct Ha as [g Hx|o d g Hx|room' name d g Hx|u d g Hx|u target d _ Hu Ht' Hx
    |u room' name d g _ Hu Ht' _ _ Hm _ Hd Hx|u db r body nonce Hx|u sender d g Hx|u name d g Hx];
    try congruence.
  - unfold is_reply in Hx. by rewrite Hg in Hx.
  - assert (room' = room) as -> by congruence.
    unfold _addressed_to in Hx. rewrite He in Hx.
    destruct (jget env name) as [| | | | |[|body [|nonce []]]|] eqn:Ej; try done.
    injection Hx as <-. exists name, body, nonce. split_and!; try done; [by apply Hag|].
    by apply member_members.
Qed.
End safety.


(** ** Witnesses *)

Lemma reachable_inv_witness :
  rtc step (fresh SqliteRooms.empty true true) stage ∧ sqlite_inv stage.
Proof.
  assert (rtc step (fresh SqliteRooms.empty true true) stage) as Hs
    by (apply play_reachable; reflexivity).
  split; [exact Hs|].
  exact (reachable_inv _ _ _ _ empty_rooms_ok empty_rooms_view Hs).
Defined.

(** Bob claims to be carol. *)
Definition forged : Frame :=
  mkFrame MSG (JStr (&"carol")) (JStr (&"alice")) (JStr (&"pay me")) JNull [] (JStr (&"id9")) 9
    (JInt 1).

Definition forged_out : Frame :=
  mkFrame MSG (JStr (&"bob")) (JStr (&"alice")) (JStr (&"pay me")) JNull [] (JStr (&"id9")) 9
    (JInt 1).

Lemma new_out_nth {R} (w w' : world R) n p :
  drop (length (w_out w)) (w_out w') !! n = Some p → p ∈ new_out w w'.
Proof. apply list_elem_of_lookup_2. Qed.

Lemma forged_delivered : (1, forged_out) ∈ new_out stage (handle 2 forged stage).1.
Proof. apply (new_out_nth _ _ 2). by vm_compute. Qed.

Lemma sender_authentic_witness :
  (1, forged_out) ∈ new_out stage (handle 2 forged stage).1 ∧
  ((∃ u, w_user stage !! 2 = Some u ∧ f_sender forged_out = JStr u) ∨ f_type forged = LOGIN).
Proof.
  split; [exact forged_delivered|].
  destruct (sender_authentic stage 2 forged 1 forged_out forged_delivered eq_refl) as [Hu|[Hl _]];
    [by left|by right].
Defined.

Definition forged_row : Messages.row :=
  Messages.mkRow (&"id9") (Messages.direct_conversation (&"bob") (&"alice")) (&"bob") (&"alice")
    (Some (&"pay me")) None 9 None None.

Lemma stored_sender_authentic_witness :
  ∃ db', w_msgs (handle 2 forged stage).1 = Some db' ∧ forged_row ∈ Messages.messages db' ∧
    w_user stage !! 2 = Some (&"bob").
Proof.
  eexists. split; [by vm_compute|]. split; [apply (list_elem_of_lookup_2 _ 0); by vm_compute|].
  destruct (stored_sender_authentic stage 2 forged (Messages.mkStore [forged_row] []) forged_row)
    as [(db & r' & Hdb & Hr' & _)|[_ Hu]].
  - by vm_compute.
  - left.
  - vm_compute in Hdb. injection Hdb as <-. by apply not_elem_of_nil in Hr'.
  - exact Hu.
Defined.

Lemma recipients_logged_in_witness :
  (1, forged_out) ∈ new_out stage (handle 2 forged stage).1 ∧ is_Some (w_user stage !! 1).
Proof.
  split; [exact forged_delivered|].
  destruct (recipients_logged_in stage 2 forged 1 forged_out stage_inv forged_delivered)
    as [[=]|Hd].
  exact Hd.
Defined.

(** Bob, a member, invites carol; alice leaves. *)
Definition invite_carol : Frame :=
  ask INVITE JNull [(&"room", JStr (&"#team")); (&"members", JList [JStr (&"carol")])].

Lemma membership_controlled_witness :
  let w' := (handle 2 invite_carol stage).1 in
  (&"carol") ∈ room_members (SqliteRooms.view (w_rooms w')) (&"#team") ∧
  ((&"carol") ∉ room_members (SqliteRooms.view (w_rooms stage)) (&"#team")) ∧
  ∃ u, w_user stage !! 2 = Some u.
Proof.
  cbv zeta.
  assert ((&"carol") ∈ room_members (SqliteRooms.view (w_rooms (handle 2 invite_carol stage).1)) (&"#team"))
    as Hin by (apply (bool_decide_eq_true_1 (_ ∈ _)); by vm_compute).
  assert ((&"carol") ∉ room_members (SqliteRooms.view (w_rooms stage)) (&"#team"))
    as Hout by (apply (bool_decide_eq_false_1 (_ ∈ _)); by vm_compute).
  split; [exact Hin|]. split; [exact Hout|].
  destruct (proj1 (membership_controlled stage 2 invite_carol (&"#team") (&"carol") stage_inv) Hin Hout)
    as (u & Hu & _).
  exists u. exact Hu.
Defined.

(** A sealed room message from alice: one envelope for bob. *)
Definition sealed : Frame :=
  ask MSG (JStr (&"#team"))
    [(&"env", JObj [(&"bob", JList [JStr (&"c2VjcmV0"); JStr (&"bm9uY2U=")])])].

Definition sealed_out : Frame :=
  mkFrame MSG (JStr (&"alice")) (JStr (&"#team")) (JStr (&"c2VjcmV0")) (JStr (&"bm9uY2U=")) []
    (JStr (&"id1")) 7 (JInt 1).

Lemma envelope_confidential_witness :
  (2, sealed_out) ∈ new_out stage (handle 1 sealed stage).1 ∧
  ∃ name, w_user stage !! 2 = Some name ∧
    name ∈ room_members (SqliteRooms.view (w_rooms stage)) (&"#team").
Proof.
  assert ((2, sealed_out) ∈ new_out stage (handle 1 sealed stage).1) as Hs
    by (apply (new_out_nth _ _ 0); by vm_compute).
  split; [exact Hs|].
  destruct (envelope_confidential stage 1 sealed (&"#team")
    [(&"bob", JList [JStr (&"c2VjcmV0"); JStr (&"bm9uY2U=")])] 2 sealed_out)
    as (name & body & nonce & Hu & Hm & _); [exact stage_inv|by vm_compute..|exact Hs|done|].
  exists name. split; [exact Hu|exact Hm].
Defined.
