(* ===== verification/RouterRuns.v ===== *)
(** * What each request does

    The functional behaviour of the router on its main paths: who may ask, how a
    login is refused or accepted, how a direct message is delivered or queued, how a
    room message reaches the room, and what a non-member is told. *)

From S2P Require Import Prelude PyStr PyDict Utf8 Json Frames.
From S2P Require Import Registries Database Users Messages RoomsDb.
From S2P Require Import Router Wp RouterSpec RouterRefines RouterInv Scenario RouterSafety.

Lemma bind_run {S A B} (m : M S A) (k : A → M S B) w w1 a :
  m w = (w1, Ok a) → (m ≫= k) w = k a w1.
Proof. unfold mbind, M_bind. by intros ->. Qed.

(** Run the first step of a sequence, given what it does. *)
Ltac run := etrans; [apply bind_run|cbv beta].

Section runs.
Context `{Runtime} {R : Type} `{RoomStore R} {ok : R → Prop}
  {view : R → gmap pystr (gset pystr)} `{!RoomStoreSound R ok view, !RoomStoreLaws R ok view}.
Implicit Types (w : world R).

Abbreviation inv := (inv (ok := ok) (view := view)).
Abbreviation members w room := (room_members (view (w_rooms w)) room).

(** The clock stays within what SQLite can store. *)
Context (clock : ∀ n, int64 (rt_now n)).

Lemma contacts_upd_run {A} (op : Contacts.t → res (Contacts.t * A)) w db db' a :
  w_contacts w = Some db → op db = Ok (db', a) →
  contacts_upd op w = (set_contacts (Some db') w, Ok a).
Proof. unfold contacts_upd. by intros -> ->. Qed.

Lemma msgs_upd_run {A} (op : Messages.t → res (Messages.t * A)) w db db' a :
  w_msgs w = Some db → op db = Ok (db', a) →
  msgs_upd op w = (set_msgs (Some db') w, Ok a).
Proof. unfold msgs_upd. by intros -> ->. Qed.

Lemma users_get_run {A} (op : Users.t → res A) w a :
  op (w_users w) = Ok a → users_get op w = (w, Ok a).
Proof. unfold users_get. by intros ->. Qed.

Lemma session_of_run w u o :
  Sessions.get (w_sessions w) u = o → session_of u w = (w, Ok o).
Proof. by intros <-. Qed.

Lemma me_run w s u : w_user w !! s = Some u → me s w = (w, Ok u).
Proof. unfold me, username, mbind, M_bind, gets. by intros ->. Qed.

Lemma rooms_get_run {A} (op : R → res A) w a :
  op (w_rooms w) = Ok a → rooms_get op w = (w, Ok a).
Proof. unfold rooms_get. by intros ->. Qed.

(** ** Answers *)

(** The state after one ERROR frame to the asker and nothing else. *)
Definition refused w (s : sid) (code message : pystr) : world R :=
  set_tick (S (w_tick w))
    (set_out (w_out w ++ [(s, error code message (rt_uuid (w_tick w)) (rt_now (w_tick w)))]) w).

Lemma send_error_run w s code message :
  send_error s code message w = (refused w s code message, Ok tt).
Proof. reflexivity. Qed.

(** A frame built by the server, to one connection. *)
Definition answered w (s : sid) (t : MessageType) (to : json) (data : list (pystr * json))
    : world R :=
  set_tick (S (w_tick w))
    (set_out (w_out w ++ [(s, mkFrame t JNull to JNull JNull data (JStr (rt_uuid (w_tick w)))
                                (rt_now (w_tick w)) (JInt PROTOCOL_VERSION))]) w).

Lemma answer_run w s t to data :
  (f ← new_frame t JNull to data; send s f) w = (answered w s t to data, Ok tt).
Proof. reflexivity. Qed.

Definition open_type (t : MessageType) : bool :=
  match t with PING | REGISTER | LOGIN => true | _ => false end.

(** Nobody acts before logging in: on a connection that is not logged in, every
    frame but PING, REGISTER and LOGIN is answered with one NOT_LOGGED_IN error and
    changes nothing else. *)
Theorem login_required w s f :
  w_user w !! s = None → open_type (f_type f) = false →
  handle s f w =
    (refused w s (&"NOT_LOGGED_IN") (&"log in before sending anything else"), Ok tt).
Proof.
  intros Hu Hf. unfold handle. destruct (f_type f); try discriminate;
    (run; [reflexivity|]); cbv beta; rewrite Hu; reflexivity.
Qed.

(** ** Logging in *)

(** A LOGIN frame with a name and a password hash. *)
Definition login_frame (f : Frame) (u p : pystr) : Prop :=
  f_type f = LOGIN ∧ jget (f_data f) (&"user") = JStr u ∧
  jget (f_data f) (&"pass_hash") = JStr p ∧ u ≠ [] ∧ p ≠ [].

Lemma derive_encodable p salt : encodable p → ∃ d, Users._derive (JStr p) salt = Ok d.
Proof. intros [b Hb]. unfold Users._derive. rewrite Hb. eauto. Qed.

(** Whether a password is right for an account. *)
Definition password_ok w (u p : pystr) : Prop :=
  ∃ row, select Users.u_name (w_users w) u = Some row ∧
    Users._derive (JStr p) (Users.u_salt row) = Ok (Users.u_digest row).

Lemma verify_run w thr u p :
  encodable u → encodable p →
  ∃ b, Users.verify (w_users w) thr (JStr u) (JStr p) = Ok b ∧ (b = true ↔ password_ok w u p).
Proof.
  intros Hu Hp. unfold Users.verify, bind_text. rewrite bind_str_ok by done.
  cbn [mbind res_bind option_bind]. unfold password_ok.
  destruct (select Users.u_name (w_users w) u) as [row|] eqn:Es.
  - destruct (derive_encodable p (Users.u_salt row) Hp) as [d Hd]. rewrite Hd.
    cbn [mbind res_bind]. eexists. split; [done|]. rewrite bool_decide_eq_true. split.
    + intros Heq. exists row. by rewrite Heq.
    + intros (r & Hr & Hx). congruence.
  - destruct (derive_encodable p thr Hp) as [d Hd]. rewrite Hd. cbn [mbind res_bind].
    eexists. split; [done|]. split; [done|]. intros (r & Hr & _). congruence.
Qed.

(** The part of LOGIN before the password is known to be right. *)
Lemma login_checks w s f u p :
  w_user w !! s = None → login_frame f u p → encodable u → encodable p →
  ∃ b, (b = true ↔ password_ok w u p) ∧
    handle s f w =
      (if negb b then send_error s (&"BAD_CREDENTIALS") (&"unknown user or wrong password")
       else claimed ← session_login u s;
            if negb claimed then
              send_error s (&"ALREADY_ONLINE") (u ++ &" is connected from elsewhere")
            else
              modify (λ w, set_user (<[s := u]> (w_user w)) w);;
              roster ← gets (λ w, filter (λ v, v ≠ u) (Sessions.usernames (w_sessions w)));
              contacts ← _contact_states u;
              rooms ← rooms_of u;
              f ← new_frame LOGIN_OK JNull (JStr u)
                    [(&"user", JStr u); (&"roster", JList (JStr <$> roster));
                     (&"contacts", JList contacts); (&"rooms", JList (JStr <$> rooms))];
              send s f;;
              _announce u ONLINE;;
              _flush_pending s u) (set_tick (S (w_tick w)) w).
Proof.
  intros Hs (Hf & Huser & Hpass & Hu & Hp) Heu Hep.
  destruct (verify_run w (rt_salt (w_tick w)) u p Heu Hep) as (b & Hv & Hb). exists b.
  split; [done|]. unfold handle. rewrite Hf. unfold _login. run; [reflexivity|].
  rewrite Hs, Huser, Hpass. cbv zeta.
  assert (negb (truthy (JStr u)) || negb (truthy (JStr p)) = false) as ->.
  { cbn [truthy]. by rewrite !bool_decide_eq_true_2. }
  run; [reflexivity|]. run; [unfold users_get; cbn [w_users set_tick]; by rewrite Hv|].
  by destruct b.
Qed.

(** A refused login gives nothing away: an unknown name and a wrong password get
    the very same answer, and the connection stays logged out. *)
Theorem login_refused w s f u p :
  w_user w !! s = None → login_frame f u p → encodable u → encodable p →
  ¬ password_ok w u p →
  handle s f w =
    (refused (set_tick (S (w_tick w)) w) s (&"BAD_CREDENTIALS")
       (&"unknown user or wrong password"), Ok tt).
Proof.
  intros Hs Hf Hu Hp Hbad. destruct (login_checks w s f u p) as (b & Hb & ->); [done..|].
  destruct b; [tauto|]. reflexivity.
Qed.

(** One connection per account: a correct login for a name that is online
    elsewhere is refused, and neither connection changes. *)
Theorem login_exclusive w s f u p d :
  w_user w !! s = None → login_frame f u p → encodable u → encodable p →
  password_ok w u p → Sessions.get (w_sessions w) u = Some d →
  handle s f w =
    (refused (set_tick (S (w_tick w)) w) s (&"ALREADY_ONLINE")
       (u ++ &" is connected from elsewhere"), Ok tt).
Proof.
  intros Hs Hf Hu Hp Hgood Hd. destruct (login_checks w s f u p) as (b & Hb & ->); [done..|].
  assert (b = true) as -> by tauto. cbn [negb]. run.
  - unfold session_login, Sessions.login, dict_has. cbn [w_sessions set_tick].
    unfold Sessions.get in Hd. rewrite Hd. reflexivity.
  - by destruct w.
Qed.

(** What LOGIN_OK reports about the contacts and the rooms. *)
Definition contacts_view w (u : pystr) : list json :=
  match w_contacts w with
  | None => []
  | Some db =>
    (λ name, JObj [(&"user", JStr name);
                   (&"online", JBool (bool_decide (name ∈ Sessions.usernames (w_sessions w))))])
    <$> sorted (Contacts.c_contact <$> filter (λ r, Contacts.c_owner r = u) db)
  end.

Lemma contact_states_run w u :
  encodable u → _contact_states u w = (w, Ok (contacts_view w u)).
Proof.
  intros Hu. unfold _contact_states, contacts_view, has_contacts. run; [reflexivity|].
  destruct w as [se us ro ac ms [db|] ou ti]; cbn [w_contacts]; [|reflexivity].
  run; [reflexivity|]. run; [|reflexivity]. unfold contacts_upd, Contacts.of_. cbn [w_contacts].
  rewrite bind_str_ok by done. reflexivity.
Qed.

Definition rooms_view w (u : pystr) : list pystr :=
  sorted (filter (λ room, u ∈ members w room) (elements (dom (view (w_rooms w))))).

(** The frames a login hands over from the queue. *)
Definition handed (s : sid) (u : pystr) (rows : list Messages.row) : list (sid * Frame) :=
  omap (λ r, match _history_body r u with
             | Ok (Some (body, nonce)) => Some (s, stored_frame r body nonce)
             | _ => None
             end) rows.

Definition readable (u : pystr) (r : Messages.row) : Prop := ∃ o, _history_body r u = Ok o.

Definition queued (db : Messages.t) (u : pystr) : list Messages.row :=
  Messages.by_ts (filter (λ r, (Messages.m_id r, u) ∈ Messages.pending db) (Messages.messages db)).

Definition backlog w (s : sid) (u : pystr) : list (sid * Frame) :=
  match w_msgs w with None => [] | Some db => handed s u (queued db u) end.

Definition unqueued (u : pystr) (db : Messages.t) : Messages.t :=
  Messages.mkStore (Messages.messages db) (filter (λ p, p.2 ≠ u) (Messages.pending db)).

Lemma hand_over_run s u rows w :
  Forall (readable u) rows →
  forM rows (hand_over s u) w = (set_out (w_out w ++ handed s u rows) w, Ok tt).
Proof.
  intros Hr. revert w. unfold handed.
  induction Hr as [|r rows [o Ho] _ IH]; intros w; cbn [forM omap list_omap].
  { rewrite app_nil_r. by destruct w. }
  unfold hand_over at 2. rewrite Ho. destruct o as [[body nonce]|].
  - run; [run; [reflexivity|]; reflexivity|]. rewrite IH. cbn. by rewrite <-app_assoc.
  - run; [run; [reflexivity|]; reflexivity|]. apply IH.
Qed.

Lemma flush_run w s u :
  encodable u → (∀ db, w_msgs w = Some db → Forall (readable u) (queued db u)) →
  _flush_pending s u w =
    (set_out (w_out w ++ backlog w s u) (set_msgs (unqueued u <$> w_msgs w) w), Ok tt).
Proof.
  intros Hu Hr. unfold _flush_pending, has_msgs, backlog. run; [reflexivity|].
  destruct (w_msgs w) as [db|] eqn:Edb.
  2:{ cbn. rewrite app_nil_r, <-Edb. by destruct w. }
  rewrite bool_decide_eq_true_2 by eauto. cbn [negb]. run.
  { unfold msgs_upd. rewrite Edb. unfold Messages.flush. rewrite bind_str_ok by done.
    reflexivity. }
  rewrite hand_over_run; [reflexivity|]. by apply Hr.
Qed.

Definition server_frame (n : nat) (t : MessageType) (to : json) (data : list (pystr * json))
    : Frame :=
  mkFrame t JNull to JNull JNull data (JStr (rt_uuid n)) (rt_now n) (JInt PROTOCOL_VERSION).

Lemma announce_run w u state :
  _announce u state w =
    (set_tick (S (w_tick w))
       (set_out (w_out w ++
          ((λ d, (d, server_frame (w_tick w) PRESENCE JNull
                       [(&"user", JStr u); (&"state", JStr state)]))
           <$> Sessions.others (w_sessions w) u)) w), Ok tt).
Proof.
  unfold _announce. run; [reflexivity|]. run; [reflexivity|]. by rewrite forM_send.
Qed.

Lemma password_ok_encodable w u p :
  inv w → password_ok w u p → encodable u ∧ encodable p.
Proof.
  intros Hi (row & Hrow & Hd). apply select_Some in Hrow as [Hin <-]. split.
  - apply (i_names w Hi). by apply list_elem_of_fmap_2.
  - unfold Users._derive in Hd. unfold encodable. destruct (utf8_encode p); [eauto|done].
Qed.

(** The state right after a login is accepted. *)
Definition logged_in w (s : sid) (u : pystr) : world R :=
  set_user (<[s := u]> (w_user w)) (set_sessions (w_sessions w ++ [(u, s)]) w).

(** LOGIN_OK and the announcement, as sent from the state [w]. *)
Definition login_ok_frame w (s : sid) (u : pystr) : Frame :=
  server_frame (S (w_tick w)) LOGIN_OK (JStr u)
    [(&"user", JStr u);
     (&"roster", JList (JStr <$> filter (λ v, v ≠ u)
                          (Sessions.usernames (w_sessions (logged_in w s u)))));
     (&"contacts", JList (contacts_view (logged_in w s u) u));
     (&"rooms", JList (JStr <$> rooms_view w u))].

Definition login_news w (s : sid) (u : pystr) : list (sid * Frame) :=
  (λ d, (d, server_frame (S (S (w_tick w))) PRESENCE JNull
              [(&"user", JStr u); (&"state", JStr ONLINE)]))
  <$> Sessions.others (w_sessions (logged_in w s u)) u.

Lemma login_run w s f u p :
  inv w → w_user w !! s = None → login_frame f u p → password_ok w u p →
  Sessions.get (w_sessions w) u = None →
  (∀ db, w_msgs w = Some db → Forall (readable u) (queued db u)) →
  handle s f w =
    (set_tick (S (S (S (w_tick w))))
       (set_out (w_out w ++ (s, login_ok_frame w s u) :: login_news w s u ++ backlog w s u)
          (set_msgs (unqueued u <$> w_msgs w) (logged_in w s u))), Ok tt).
Proof.
  intros Hi Hs Hf Hp Hon Hq. destruct (password_ok_encodable w u p Hi Hp) as [Heu Hep].
  destruct (login_checks w s f u p) as (b & Hb & Hrun); [done..|].
  assert (b = true) as -> by tauto. cbn [negb] in Hrun.
  assert (Sessions.login (w_sessions w) u s = (w_sessions w ++ [(u, s)], true)) as Hlogin.
  { unfold Sessions.login, dict_has. unfold Sessions.get in Hon. rewrite Hon.
    rewrite bool_decide_eq_false_2 by (by intros []). f_equal.
    apply dict_set_fresh. by apply dict_get_None. }
  rewrite Hrun. run.
  { unfold session_login. cbn [w_sessions set_tick]. by rewrite Hlogin. }
  cbn [negb]. run; [reflexivity|]. run; [reflexivity|].
  run; [by apply contact_states_run|]. run.
  { unfold rooms_of, rooms_get. cbn [w_rooms set_user set_sessions set_tick].
    by rewrite rs_rooms_of_law by (done || apply (i_rooms w Hi)). }
  run; [reflexivity|]. run; [reflexivity|]. run; [apply announce_run|].
  etrans; [by apply flush_run|]. 
  cbn [w_out set_out set_msgs set_tick set_user set_sessions].
  rewrite <-!app_assoc. reflexivity.
Qed.

(** An accepted login: the connection becomes the account's, alone; the first
    frame it gets is LOGIN_OK with everybody else who is online, its contacts and its
    rooms; everybody else who is online is told, once; and then it is handed, oldest
    first, exactly what was queued for it, after which nothing is. *)
Theorem login_accepted w s f u p :
  inv w → w_user w !! s = None → login_frame f u p → password_ok w u p →
  Sessions.get (w_sessions w) u = None →
  (∀ db, w_msgs w = Some db → Forall (readable u) (queued db u)) →
  let w' := (handle s f w).1 in
  (handle s f w).2 = Ok tt ∧
  new_out w w' = (s, login_ok_frame w s u) :: login_news w s u ++ backlog w s u ∧
  Sessions.get (w_sessions w') u = Some s ∧ w_user w' = <[s := u]> (w_user w) ∧
  (∀ v, v ≠ u → Sessions.get (w_sessions w') v = Sessions.get (w_sessions w) v) ∧
  w_msgs w' = unqueued u <$> w_msgs w ∧
  w_rooms w' = w_rooms w ∧ w_users w' = w_users w ∧ w_contacts w' = w_contacts w.
Proof.
  intros Hi Hs Hf Hp Hon Hq. cbv zeta. rewrite (login_run w s f u p) by done. cbn [fst snd].
  unfold new_out. cbn [w_out w_sessions set_out set_msgs set_tick logged_in set_user set_sessions].
  assert (u ∉ dict_keys (w_sessions w)) as Hfresh by by apply dict_get_None.
  rewrite drop_app_length, <-dict_set_fresh by done. unfold Sessions.get.
  split_and!; try done.
  - apply dict_get_set_eq.
  - intros v Hv. by apply dict_get_set_ne.
Qed.
End runs.

(** ** Witnesses *)

Lemma login_required_witness :
  handle 9 (ask MSG (JStr (&"alice")) []) stage =
    (refused stage 9 (&"NOT_LOGGED_IN") (&"log in before sending anything else"), Ok tt).
Proof. apply login_required; vm_compute; reflexivity. Defined.

Definition login_as (u p : string) : Frame :=
  ask LOGIN JNull [(&"user", JStr (py u)); (&"pass_hash", JStr (py p))].

Lemma login_as_frame u p : py u ≠ [] → py p ≠ [] → login_frame (login_as u p) (py u) (py p).
Proof. done. Qed.

Lemma literal_encodable s : bool_decide (encodable s) = true → encodable s.
Proof. apply bool_decide_eq_true_1. Qed.

Lemma login_refused_witness :
  handle 3 (login_as "carol" "guess") stage =
    (refused (set_tick (S (w_tick stage)) stage) 3 (&"BAD_CREDENTIALS")
       (&"unknown user or wrong password"), Ok tt) ∧
  handle 3 (login_as "nobody" "guess") stage =
    (refused (set_tick (S (w_tick stage)) stage) 3 (&"BAD_CREDENTIALS")
       (&"unknown user or wrong password"), Ok tt).
Proof.
  split.
  - apply (login_refused stage 3 (login_as "carol" "guess") (&"carol") (&"guess"));
      [vm_compute; reflexivity | by apply login_as_frame | by apply literal_encodable..|].
    intros (row & Hr & Hd). vm_compute in Hr. injection Hr as <-. vm_compute in Hd. discriminate Hd.
  - apply (login_refused stage 3 (login_as "nobody" "guess") (&"nobody") (&"guess"));
      [vm_compute; reflexivity | by apply login_as_frame | by apply literal_encodable..|].
    intros (row & Hr & Hd). vm_compute in Hr. discriminate Hr.
Defined.

Lemma password_ok_stage u : u = "alice" ∨ u = "carol" → password_ok stage (py u) (&"secret").
Proof. intros [-> | ->]; eexists; split; vm_compute; reflexivity. Qed.

Lemma login_exclusive_witness :
  handle 3 (login_as "alice" "secret") stage =
    (refused (set_tick (S (w_tick stage)) stage) 3 (&"ALREADY_ONLINE")
       (&"alice is connected from elsewhere"), Ok tt).
Proof.
  apply (login_exclusive stage 3 (login_as "alice" "secret") (&"alice") (&"secret") 1).
  - vm_compute; reflexivity.
  - by apply login_as_frame.
  - by apply literal_encodable.
  - by apply literal_encodable.
  - apply password_ok_stage. by left.
  - vm_compute; reflexivity.
Defined.

Lemma login_accepted_witness :
  let w' := (handle 3 (login_as "carol" "secret") stage).1 in
  Sessions.get (w_sessions w') (&"carol") = Some 3 ∧
  new_out stage w' = (3, login_ok_frame (view := SqliteRooms.view) stage 3 (&"carol"))
    :: login_news stage 3 (&"carol") ++ backlog stage 3 (&"carol").
Proof.
  destruct (login_accepted (ok := SqliteRooms.ok) (view := SqliteRooms.view)
    stage 3 (login_as "carol" "secret") (&"carol") (&"secret")) as (_ & Ho & Hs & _).
  - exact stage_inv.
  - vm_compute; reflexivity.
  - by apply login_as_frame.
  - apply password_ok_stage. by right.
  - vm_compute; reflexivity.
  - intros db Hdb. vm_compute in Hdb. injection Hdb as <-.
    assert (queued (Messages.mkStore [] []) (&"carol") = []) as -> by (vm_compute; reflexivity).
    constructor.
  - split; [exact Hs|exact Ho].
Defined.
