(* ===== verification/Delivery.v ===== *)
(** * Delivery

    What happens to a message: a direct one is stored, then handed to the recipient
    or queued for them and handed over at their next login; a room message reaches
    every other member one way or the other; and a connection that is not a member
    of a room gets nothing in or out of it. *)

From S2P Require Import Prelude PyStr PyDict Utf8 Json Frames.
From S2P Require Import Registries Database Users Messages RoomsDb.
From S2P Require Import Router Wp RouterSpec RouterRefines RouterInv Scenario RouterSafety.
From S2P Require Import RouterRuns MessageFacts.

Section delivery.
Context `{Runtime} {R : Type} `{RoomStore R} {ok : R → Prop}
  {view : R → gmap pystr (gset pystr)} `{!RoomStoreSound R ok view, !RoomStoreLaws R ok view}.
Implicit Types (w : world R).

Abbreviation inv := (inv (ok := ok) (view := view)).
Abbreviation members w room := (room_members (view (w_rooms w)) room).

(** The clock stays within what SQLite can store. *)
Context (clock : ∀ n, int64 (rt_now n)).

(** Only CONTACTS frames were sent, and only the contact lists changed. *)
Definition contact_news (pre : list (sid * Frame)) : Prop :=
  Forall (λ p, f_type p.2 = CONTACTS) pre.

Definition noted w w' : Prop :=
  ∃ n pre ct, w' = set_tick n (set_out (w_out w ++ pre) (set_contacts ct w)) ∧ contact_news pre.

Lemma noted_refl w : noted w w.
Proof. exists (w_tick w), [], (w_contacts w). split; [|constructor]. rewrite app_nil_r. by destruct w. Qed.

Lemma noted_tick w n : noted w (set_tick n w).
Proof. exists n, [], (w_contacts w). split; [|constructor]. rewrite app_nil_r. by destruct w. Qed.

Lemma noted_trans w1 w2 w3 : noted w1 w2 → noted w2 w3 → noted w1 w3.
Proof.
  intros (n & pre & ct & -> & Hp) (n' & pre' & ct' & -> & Hp').
  exists n', (pre ++ pre'), ct'. split; [by rewrite app_assoc|by apply Forall_app].
Qed.

Lemma send_contacts_run w d u :
  w_user w !! d = Some u → encodable u →
  ∃ w', _send_contacts d w = (w', Ok tt) ∧ noted w w'.
Proof.
  intros Hu He. eexists. split.
  - unfold _send_contacts. run; [reflexivity|]. rewrite Hu. cbn [default].
    run; [by apply contact_states_run|]. run; reflexivity.
  - eexists _, _, (w_contacts w). split; [reflexivity|]. by repeat constructor.
Qed.

Lemma note_contact_run w o c :
  encodable o → encodable c →
  (∀ d, Sessions.get (w_sessions w) o = Some d → w_user w !! d = Some o) →
  ∃ w', _note_contact o c w = (w', Ok tt) ∧ noted w w'.
Proof.
  intros Ho Hc Hd. unfold _note_contact, has_contacts.
  destruct (negb (bool_decide (is_Some (w_contacts w))) || bool_decide (c = []) || is_room c) eqn:E.
  { exists w. split; [|apply noted_refl]. run; [reflexivity|]. rewrite E. reflexivity. }
  assert (∃ db, w_contacts w = Some db) as [db Edb].
  { apply orb_false_iff in E as [[E _]%orb_false_iff _].
    by apply negb_false_iff, bool_decide_eq_true in E. }
  assert (∃ db' b, Contacts.add db o c (rt_now (w_tick w)) = Ok (db', b)) as (db' & b & Hadd).
  { unfold Contacts.add. destruct (bool_decide (o = [] ∨ c = [] ∨ o = c)); [eauto|].
    rewrite !bind_str_ok, bind_int_ok by done. cbn [mbind res_bind].
    destruct (insert_or_ignore _ _ _). by eexists _, _. }
  set (w1 := set_contacts (Some db') (set_tick (S (w_tick w)) w)).
  assert (noted w w1) as Hw1.
  { exists (S (w_tick w)), [], (Some db'). split; [|constructor]. rewrite app_nil_r. by destruct w. }
  destruct (negb b) eqn:Eb.
  - exists w1. split; [|done]. run; [reflexivity|]. rewrite E.
    run; [reflexivity|]. run; [by eapply contacts_upd_run|].
    by rewrite Eb.
  - destruct (Sessions.get (w_sessions w) o) as [d|] eqn:Ed.
    + destruct (send_contacts_run w1 d o) as (w2 & Hrun & Hw2); [by apply Hd|done|].
      exists w2. split; [|by apply (noted_trans _ w1)]. run; [reflexivity|]. rewrite E.
      run; [reflexivity|]. run; [by eapply contacts_upd_run|].
      rewrite Eb. run; [by apply session_of_run, Ed|]. done.
    + exists w1. split; [|done]. run; [reflexivity|]. rewrite E.
      run; [reflexivity|]. run; [by eapply contacts_upd_run|].
      rewrite Eb. run; [by apply session_of_run, Ed|]. done.
Qed.

(** A frame whose columns SQLite can take. *)
Definition storable (f : Frame) (k : pystr) (b n : option pystr) : Prop :=
  bind_key (f_id f) = Ok k ∧ bind_text (f_body f) = Ok b ∧ bind_text (f_nonce f) = Ok n ∧
  int64 (f_ts f).

Lemma direct_encodable a b :
  encodable a → encodable b → encodable (Messages.direct_conversation a b).
Proof.
  intros Ha Hb. unfold Messages.direct_conversation. rewrite MessageFacts.sorted_pair.
  destruct (str_leb a b); cbn [join]; repeat apply encodable_app; try done;
    by eexists; vm_compute.
Qed.

(** The store after recording a message. *)
Definition recorded (db : Messages.t) (row : Messages.row) : Messages.t :=
  Messages.mkStore (insert_or_ignore Messages.m_id (Messages.messages db) row).1
    (Messages.pending db).

Lemma record_run w u f conv to body nonce k b n :
  bind_key (f_id f) = Ok k → bind_text body = Ok b → bind_text nonce = Ok n → int64 (f_ts f) →
  encodable u → encodable conv → encodable to →
  record_row (outgoing u f) conv to body nonce w =
    (set_msgs ((λ db, recorded db (Messages.mkRow k conv u to b n (f_ts f) None None))
               <$> w_msgs w) w, Ok tt).
Proof.
  intros Hk Hb Hn Ht Hu Hc Hto. unfold record_row, has_msgs. run; [reflexivity|].
  destruct (w_msgs w) as [db|] eqn:Edb; cbn [fmap option_fmap option_map].
  - rewrite bool_decide_eq_true_2 by eauto. cbn [negb]. run; [reflexivity|].
    eapply msgs_upd_run; [done|]. unfold Messages.record. cbn [f_id f_ts outgoing].
    rewrite Hk. cbn [mbind res_bind]. rewrite !bind_str_ok by done. cbn [mbind res_bind].
    rewrite Hb, Hn. cbn [mbind res_bind]. by rewrite bind_int_ok.
  - rewrite bool_decide_eq_false_2 by (by intros []). by destruct w; cbn in *; subst.
Qed.

(** The store after queueing a message. *)
Definition owed (db : Messages.t) (k u : pystr) : Messages.t :=
  Messages.mkStore (Messages.messages db) (insert_or_ignore id (Messages.pending db) (k, u)).1.

Lemma queue_run w u i k db :
  w_msgs w = Some db → bind_key i = Ok k → encodable u →
  queue_for u i w = (set_msgs (Some (owed db k u)) w, Ok tt).
Proof.
  intros Hdb Hk Hu. unfold queue_for. eapply msgs_upd_run; [done|].
  unfold Messages.queue_for. rewrite Hk. cbn [mbind res_bind]. by rewrite bind_str_ok.
Qed.

Lemma elem_of_owed db k u p :
  p ∈ Messages.pending (owed db k u) ↔ p ∈ Messages.pending db ∨ p = (k, u).
Proof.
  unfold owed. cbn [Messages.pending]. rewrite elem_of_insert_or_ignore, list_fmap_id.
  unfold id. split; [tauto|]. intros [?| ->]; [by left|].
  destruct (decide ((k, u) ∈ Messages.pending db)); auto.
Qed.

Lemma noted_fields w w' :
  noted w w' → w_user w' = w_user w ∧ w_sessions w' = w_sessions w ∧ w_msgs w' = w_msgs w ∧
    w_users w' = w_users w ∧ w_rooms w' = w_rooms w ∧
    ∃ pre, w_out w' = w_out w ++ pre ∧ contact_news pre.
Proof. intros (n & pre & ct & -> & Hp). split_and!; try done. by exists pre. Qed.

Definition ack_frame (n : nat) (f : Frame) : Frame :=
  server_frame n ACK JNull [(&"ref", f_id f)].

(** A direct MSG: its sender, its recipient and its columns are in order. *)
Record direct w (s : sid) (f : Frame) (u target k : pystr) (b n : option pystr) : Prop := {
  d_type : f_type f = MSG;
  d_user : w_user w !! s = Some u;
  d_to : f_to f = JStr target;
  d_name : target ≠ [] ∧ is_room target = false;
  d_storable : storable f k b n;
}.

(** The row a direct message is stored as. *)
Definition direct_row (f : Frame) (u target k : pystr) (b n : option pystr) : Messages.row :=
  Messages.mkRow k (Messages.direct_conversation u target) u target b n (f_ts f) None None.

(** Both contact lists are brought up to date. *)
Lemma contacts_tail w w0 u target :
  inv w → w_user w0 = w_user w → w_sessions w0 = w_sessions w →
  registered w u → registered w target →
  ∃ w1 w2, _note_contact u target w0 = (w1, Ok tt) ∧ _note_contact target u w1 = (w2, Ok tt) ∧
    noted w0 w2.
Proof.
  intros Hi Hu0 Hs0 Hru Hrt.
  destruct (i_names w Hi target Hrt) as (_ & _ & Het).
  destruct (i_names w Hi u Hru) as (_ & _ & Heu).
  destruct (note_contact_run w0 u target) as (w1 & Hr1 & Hn1); [done..| |].
  { intros d. rewrite Hu0, Hs0. apply (i_agree w Hi). }
  pose proof (noted_fields _ _ Hn1) as (Hu1 & Hs1 & _).
  destruct (note_contact_run w1 target u) as (w2 & Hr2 & Hn2); [done..| |].
  { intros d. rewrite Hs1, Hu1, Hu0, Hs0. apply (i_agree w Hi). }
  exists w1, w2. split_and!; [done..|]. by apply (noted_trans _ w1).
Qed.

Lemma exists_run w u : inv w → registered w u → Users.exists_ (w_users w) u = Ok true.
Proof.
  intros Hi Hr. destruct (i_names w Hi u Hr) as (_ & _ & He).
  rewrite Users.exists_spec by done. f_equal. apply bool_decide_eq_true.
  destruct (select Users.u_name (w_users w) u) eqn:Es; [eauto|].
  by apply select_None in Es.
Qed.

(** The beginning of a MSG to a person, up to [_to_user]. *)
Lemma message_run w s f u target k b n w' :
  direct w s f u target k b n →
  _to_user s target (outgoing u f) w = (w', Ok true) →
  handle s f w =
    (set_tick (S (w_tick w')) (set_out (w_out w' ++ [(s, ack_frame (w_tick w') f)]) w'), Ok tt).
Proof.
  intros [Ht Hu Hto [Hne Hr] _] Hrun. unfold handle. rewrite Ht. run; [reflexivity|].
  rewrite Hu. unfold _message. rewrite Hto. cbn [truthy]. rewrite bool_decide_eq_true_2 by done.
  cbn [negb]. run; [reflexivity|]. rewrite Hu. cbv zeta. rewrite <-Hto.
  change (mkFrame MSG _ _ _ _ _ _ _ _) with (outgoing u f). rewrite Hto.
  run; [reflexivity|]. rewrite Hr. run; [exact Hrun|]. reflexivity.
Qed.

(** [_to_user] for a recipient who has an account. *)
Lemma to_user_run w s f u target k b n :
  inv w → direct w s f u target k b n → registered w target →
  (Sessions.get (w_sessions w) target = None → is_Some (w_msgs w)) →
  ∃ w' pre, _to_user s target (outgoing u f) w = (w', Ok true) ∧ contact_news pre ∧
    w_out w' = w_out w ++ pre ++
      match Sessions.get (w_sessions w) target with
      | Some d => [(d, outgoing u f)]
      | None => []
      end ∧
    w_msgs w' =
      (λ db, let db' := recorded db (direct_row f u target k b n) in
             match Sessions.get (w_sessions w) target with
             | Some _ => db'
             | None => owed db' k target
             end) <$> w_msgs w.
Proof.
  intros Hi [Ht Hu Hto [Hne Hr] (Hk & Hb & Hbn & Hts)] Hreg Hoff.
  destruct (i_names w Hi target Hreg) as (_ & _ & Het).
  assert (registered w u) as Hru by by eapply i_online.
  destruct (i_names w Hi u Hru) as (_ & _ & Heu).
  pose proof (record_run w u f (Messages.direct_conversation u target) target (f_body f) (f_nonce f)
    k b n Hk Hb Hbn Hts Heu (direct_encodable _ _ Heu Het) Het) as Hrec.
  set (w0 := set_msgs _ w) in Hrec.
  destruct (contacts_tail w w0 u target) as (w1 & w2 & Hr1 & Hr2 & Hn); [done..|].
  destruct (noted_fields _ _ Hn) as (_ & _ & Hm & _ & _ & pre & Ho & Hp).
  unfold _to_user, _record.
  destruct (Sessions.get (w_sessions w) target) as [d|] eqn:Ed.
  - eexists _, pre. split_and!; [|exact Hp| |].
    + run; [by apply session_of_run, Ed|]. run; [reflexivity|]. run; [reflexivity|].
      cbn [negb]. run; [by apply me_run|]. run; [exact Hrec|]. run; [exact Hr1|].
      run; [exact Hr2|]. run; [reflexivity|]. reflexivity.
    + cbn [w_out set_out]. rewrite Ho, <-app_assoc. done.
    + cbn [w_msgs set_out]. by rewrite Hm.
  - destruct (Hoff eq_refl) as [db Hdb].
    assert (w_msgs w2 = Some (recorded db (direct_row f u target k b n))) as Hdb2.
    { rewrite Hm. subst w0. cbn [w_msgs set_msgs]. by rewrite Hdb. }
    eexists _, pre. split_and!; [|exact Hp| |].
    + run; [by apply session_of_run, Ed|]. run; [reflexivity|]. run.
      { rewrite Hdb, bool_decide_eq_true_2 by eauto. cbn [negb].
        apply users_get_run. by apply exists_run. }
      cbn [negb]. run; [by apply me_run|]. run; [exact Hrec|]. run; [exact Hr1|].
      run; [exact Hr2|]. run; [by eapply queue_run|]. reflexivity.
    + cbn [w_out set_msgs]. by rewrite Ho, app_nil_r.
    + cbn [w_msgs set_msgs]. by rewrite Hdb.
Qed.

(** A direct message is never lost on the way in: once its columns can be
    stored and its recipient has an account, it is in the history under its id, the
    sender gets an ACK naming that id, and the recipient gets exactly this message,
    signed with the sender's name, at once if they are online and from the queue if
    they are not. *)
Theorem direct_message_delivered w s f u target k b n :
  inv w → direct w s f u target k b n → registered w target →
  (Sessions.get (w_sessions w) target = None → is_Some (w_msgs w)) →
  let w' := (handle s f w).1 in
  ∃ pre m,
    (handle s f w).2 = Ok tt ∧ contact_news pre ∧
    new_out w w' = pre ++
      match Sessions.get (w_sessions w) target with
      | Some d => [(d, outgoing u f)]
      | None => []
      end ++ [(s, ack_frame m f)] ∧
    w_msgs w' =
      (λ db, let db' := recorded db (direct_row f u target k b n) in
             match Sessions.get (w_sessions w) target with
             | Some _ => db'
             | None => owed db' k target
             end) <$> w_msgs w.
Proof.
  intros Hi Hd Hreg Hoff.
  destruct (to_user_run w s f u target k b n Hi Hd Hreg Hoff) as (w1 & pre & Hrun & Hp & Ho & Hm).
  cbv zeta. rewrite (message_run _ _ _ _ _ _ _ _ _ Hd Hrun).
  exists pre, (w_tick w1). split_and!; [done|done| |done].
  unfold new_out. cbn [fst w_out set_tick set_out].
  by rewrite Ho, <-!app_assoc, drop_app_length.
Qed.

(** A message to a name nobody has, from anyone, leaves no trace: the sender
    hears USER_OFFLINE and nothing is stored, queued or sent to anybody else. *)
Theorem unknown_recipient_refused w s f u target k b n :
  inv w → direct w s f u target k b n → encodable target → ¬ registered w target →
  handle s f w = (refused w s (&"USER_OFFLINE") (target ++ &" is not online"), Ok tt).
Proof.
  intros Hi [Ht Hu Hto [Hne Hr] _] He Hn.
  assert (Sessions.get (w_sessions w) target = None) as Hg.
  { destruct (Sessions.get (w_sessions w) target) as [d|] eqn:Ed; [|done].
    apply (i_agree w Hi) in Ed. destruct Hn. by eapply i_online. }
  assert (Users.exists_ (w_users w) target = Ok false) as Hx.
  { rewrite Users.exists_spec by done. f_equal. apply bool_decide_eq_false.
    intros [row [Hin <-]%select_Some]. by apply Hn, list_elem_of_fmap_2. }
  unfold handle. rewrite Ht. run; [reflexivity|].
  rewrite Hu. unfold _message. rewrite Hto. cbn [truthy]. rewrite bool_decide_eq_true_2 by done.
  cbn [negb]. run; [reflexivity|]. cbv zeta. run; [reflexivity|]. rewrite Hr. run.
  { unfold _to_user. run; [by apply session_of_run, Hg|]. run; [reflexivity|]. run.
    { instantiate (1 := false). instantiate (1 := w).
      destruct (negb _); [done|]. by apply users_get_run. }
    cbn [negb]. reflexivity. }
  reflexivity.
Qed.

Lemma history_body_plain r u :
  Messages.m_nonce r ≠ Some Messages.ENVELOPES →
  _history_body r u = Ok (Some (Messages.m_body r, Messages.m_nonce r)).
Proof. intros Hn. unfold _history_body. by rewrite bool_decide_eq_false_2. Qed.

Lemma handed_elem s u rows r body nonce :
  r ∈ rows → _history_body r u = Ok (Some (body, nonce)) →
  (s, stored_frame r body nonce) ∈ handed s u rows.
Proof.
  intros Hr Hb. unfold handed. apply list_elem_of_omap. exists r. by rewrite Hb.
Qed.

Lemma by_ts_elem r rows : r ∈ Messages.by_ts rows ↔ r ∈ rows.
Proof. unfold Messages.by_ts. by rewrite sorted_by_perm. Qed.

(** What is owed stays owed: an entry of the offline queue, and the message it is for,
    only disappear from what the server keeps when the owner logs in. *)
Theorem queue_kept_until_login w s f db k v row :
  w_msgs w = Some db → (k, v) ∈ Messages.pending db → row ∈ Messages.messages db →
  let w' := (handle s f w).1 in
  (∃ db' row', w_msgs w' = Some db' ∧ (k, v) ∈ Messages.pending db' ∧
     row' ∈ Messages.messages db' ∧ same_message row row') ∨
  (f_type f = LOGIN ∧ w_user w !! s = None ∧ w_user w' !! s = Some v).
Proof.
  intros Hdb Hp Hrow w'. subst w'.
  enough (∀ w', rtc (act w s f) w w' →
    (∃ db' row', w_msgs w' = Some db' ∧ (k, v) ∈ Messages.pending db' ∧
       row' ∈ Messages.messages db' ∧ same_message row row') ∨
    (f_type f = LOGIN ∧ w_user w !! s = None ∧ w_user w' !! s = Some v)) as Hgen
    by apply Hgen, acts_handle.
  refine (acts_ind w s f _ _ _); [left; by exists db, row|].
  intros w1 w2 _ Ha [(db1 & row1 & Hdb1 & Hp1 & Hr1 & Hsame)|(Hf & Hs & Hv)].
  - destruct Ha as [| | | | | | |u target conv b n db0 db' _ _ _ _ _ Hdb0 Hrec
      |name db0 db' k' _ _ _ Hdb0 _ _ Hq|ref st n db0 db' o _ Hdb0 Hm
      |u db0 db' rows Hf Hs Hu Hdb0 Hfl| |]; try (left; by exists db1, row1);
      assert (db0 = db1) as -> by congruence; cbn [w_msgs w_user set_msgs].
    + left. eexists _, row1. split; [done|].
      apply Messages.record_inv in Hrec as (? & ? & ? & _ & _ & _ & _ & _ & _ & _ & ->).
      split_and!; try done. apply elem_of_insert_or_ignore. by left.
    + left. eexists _, row1. split; [done|]. apply Messages.queue_for_inv in Hq as (? & _ & _ & ->).
      split_and!; try done. apply elem_of_insert_or_ignore. by left.
    + left. destruct (mark_message _ _ _ _ _ _ _ Hm Hr1) as (row2 & Hr2 & Hs2). eexists _, row2.
      destruct (Messages.mark_rows _ _ _ _ _ _ Hm) as (-> & _).
      split_and!; try done. by eapply same_message_trans.
    + apply Messages.flush_inv in Hfl as (_ & -> & _).
      destruct (decide (v = u)) as [->|Hne]; [by right|].
      left. eexists _, row1. split; [done|]. split_and!; try done. by apply list_elem_of_filter.
  - right. split_and!; [done..|]. destruct Ha; try done. cbn [w_user set_user].
    congruence.
Qed.

(** Anything that happens to the server without leaving [target] online: frames from
    anybody, disconnections, restarts. *)
Definition without (target : pystr) w w' : Prop :=
  step w w' ∧ Sessions.get (w_sessions w') target = None.

Definition keeps_for (k target : pystr) (row : Messages.row) w : Prop :=
  ∃ db row', w_msgs w = Some db ∧ (k, target) ∈ Messages.pending db ∧
    row' ∈ Messages.messages db ∧ same_message row row'.

Lemma without_keeps k target row w w' :
  rtc (without target) w w' → inv w → keeps_for k target row w → inv w' ∧ keeps_for k target row w'.
Proof.
  induction 1 as [|w1 w2 w3 [Hstep Hoff] _ IH]; [done|]. intros Hi (db & row1 & Hdb & Hp & Hr & Hs).
  assert (inv w2) as Hi2 by (eapply steps_inv; [by apply rtc_once|done]).
  apply IH; [done|]. destruct Hstep as [s f|s|].
  - destruct (queue_kept_until_login w1 s f db k target row1 Hdb Hp Hr)
      as [(db2 & row2 & ? & ? & ? & ?)|(_ & _ & Hu)].
    + exists db2, row2. split_and!; try done. by eapply same_message_trans.
    + apply (i_agree _ Hi2) in Hu. congruence.
  - destruct (w_user w1 !! s) as [u|] eqn:Hu.
    + rewrite (on_disconnect_eq w1 s u Hu). by exists db, row1.
    + assert ((on_disconnect s w1).1 = w1) as ->; [|by exists db, row1].
      unfold on_disconnect, username, mbind, M_bind, gets. by rewrite Hu.
  - by exists db, row1.
Qed.

(** C13. A message to somebody who is away reaches them.  A direct message under an id
    that the store does not hold yet, and with a nonce other than the one that
    marks room rows, is sent to somebody who is registered and not online; then
    anything may happen that does not leave them online (frames from anybody,
    receipts and re-used ids and failing logins included, disconnections,
    restarts); then they log in.  If every message queued for them at that time
    can be read back from its row, then their new connection is handed the
    message, with its id, time, body and nonce as the sender's client wrote them
    and the sender's real name. *)
Theorem offline_message_arrives w s f u target k b n db w2 s' g p
    (Hinv : inv w) (Hdirect : direct w s f u target k b n) (Hregistered : registered w target)
    (Haway : Sessions.get (w_sessions w) target = None) (Hstore : w_msgs w = Some db)
    (Hnew : k ∉ Messages.m_id <$> Messages.messages db) (Hnonce : n ≠ Some Messages.ENVELOPES)
    (Hlater : rtc (without target) (handle s f w).1 w2)
    (Hunused : w_user w2 !! s' = None) (Hlogin : login_frame g target p)
    (Hpassword : password_ok w2 target p)
    (Hreadable : ∀ db2, w_msgs w2 = Some db2 → Forall (readable target) (queued db2 target)) :
  (s', mkFrame MSG (JStr u) (JStr target) (opt_json b) (opt_json n) [] (JStr k) (f_ts f)
         (JInt PROTOCOL_VERSION)) ∈ new_out w2 (handle s' g w2).1.
Proof.
  destruct (to_user_run w s f u target k b n Hinv Hdirect Hregistered) as (w1 & pre & Hrun & _ & _ & Hm);
    [by rewrite Hstore|].
  set (row := direct_row f u target k b n).
  assert (Sessions.get (w_sessions (handle s f w).1) target = None) as Haway1.
  { destruct (acts_people w s f (handle s f w).1 (acts_handle w s f)) as (_ & -> & _);
      [by rewrite (d_type _ _ _ _ _ _ _ _ Hdirect)..|done]. }
  assert (keeps_for k target row (handle s f w).1) as Hkept.
  { exists (owed (recorded db row) k target), row. split_and!.
    - rewrite (message_run _ _ _ _ _ _ _ _ _ Hdirect Hrun). cbn [fst w_msgs set_tick set_out].
      by rewrite Hm, Hstore, Haway.
    - apply elem_of_owed. by right.
    - cbn [owed recorded Messages.messages]. apply elem_of_insert_or_ignore. by right.
    - by unfold same_message. }
  destruct (without_keeps k target row _ w2 Hlater) as (Hi2 & db2 & row2 & Hdb2 & Hp2 & Hr2 & Hsame);
    [by apply handle_inv|done|].
  assert (Sessions.get (w_sessions w2) target = None) as Haway2.
  { apply rtc_inv_r in Hlater as [<-|(w3 & _ & _ & ?)]; [exact Haway1|done]. }
  rewrite (login_run w2 s' g target p Hi2) by done.
  unfold new_out. cbn [fst w_out set_tick set_out].
  rewrite drop_app_length. right. apply elem_of_app. right. unfold backlog. rewrite Hdb2.
  destruct Hsame as (Ei & _ & Es & Er & Eb & En & Et). cbn in Ei, Es, Er, Eb, En, Et.
  replace (mkFrame MSG _ _ _ _ _ _ _ _) with (stored_frame row2 (Messages.m_body row2) (Messages.m_nonce row2))
    by (unfold stored_frame; congruence).
  refine (handed_elem s' target _ row2 _ _ _ _); [|apply history_body_plain; by rewrite En].
  unfold queued. rewrite by_ts_elem, list_elem_of_filter. split; [by rewrite Ei|done].
Qed.
End delivery.

(** ** Witnesses *)

Lemma stage_registered u : bool_decide (registered stage (py u)) = true → registered stage (py u).
Proof. apply bool_decide_eq_true_1. Qed.

Definition to_person (u : string) : Frame := ask MSG (JStr (py u)) [].

Lemma to_person_direct u :
  py u ≠ [] → is_room (py u) = false →
  direct stage 2 (to_person u) (&"bob") (py u) (&"id1") (Some (&"hi")) None.
Proof.
  intros Hu Hr. split; [reflexivity|vm_compute; reflexivity|reflexivity|done|].
  split_and!; [vm_compute; reflexivity..|]. unfold int64. cbn. lia.
Qed.

Lemma direct_message_delivered_witness :
  let w' := (handle 2 (to_person "alice") stage).1 in
  ∃ pre m, contact_news pre ∧
    new_out stage w' = pre ++ [(1, outgoing (&"bob") (to_person "alice"))] ++
      [(2, ack_frame m (to_person "alice"))].
Proof.
  destruct (direct_message_delivered (ok := SqliteRooms.ok) (view := SqliteRooms.view) plain_clock
    stage 2 (to_person "alice") (&"bob") (&"alice") (&"id1") (Some (&"hi")) None)
    as (pre & m & _ & Hp & Ho & _).
  - exact stage_inv.
  - by apply to_person_direct.
  - apply stage_registered; vm_compute; reflexivity.
  - intros Hn. vm_compute in Hn. discriminate Hn.
  - exists pre, m. split; [exact Hp|exact Ho].
Defined.

Lemma unknown_recipient_refused_witness :
  handle 2 (to_person "dave") stage =
    (refused stage 2 (&"USER_OFFLINE") (&"dave is not online"), Ok tt).
Proof.
  apply (unknown_recipient_refused (ok := SqliteRooms.ok) (view := SqliteRooms.view)
    stage 2 (to_person "dave") (&"bob") (&"dave") (&"id1") (Some (&"hi")) None).
  - exact stage_inv.
  - by apply to_person_direct.
  - by apply literal_encodable.
  - apply (bool_decide_eq_false_1 (registered stage (py "dave"))). vm_compute. reflexivity.
Defined.

(** Bob writes to carol; alice reads it behind her back, the server is restarted, and
    carol gets her password wrong before she logs in. *)
Definition early_receipt : Frame :=
  ask RECEIPT JNull [(&"ref", JStr (&"id1")); (&"state", JStr Messages.READ)].

Definition receipt_seen : world SqliteRooms.t :=
  (handle 1 early_receipt (handle 2 (to_person "carol") stage).1).1.

Definition while_away : world SqliteRooms.t :=
  (handle 3 (login_as "carol" "wrong") (restart receipt_seen)).1.

Lemma offline_message_arrives_witness :
  (3, mkFrame MSG (JStr (&"bob")) (JStr (&"carol")) (JStr (&"hi")) JNull [] (JStr (&"id1")) 7
        (JInt 1)) ∈ new_out while_away (handle 3 (login_as "carol" "secret") while_away).1.
Proof.
  apply (offline_message_arrives (ok := SqliteRooms.ok) (view := SqliteRooms.view) plain_clock
    stage 2 (to_person "carol") (&"bob") (&"carol") (&"id1") (Some (&"hi")) None
    (Messages.mkStore [] []) while_away 3 (login_as "carol" "secret") (&"secret")).
  - exact stage_inv.
  - by apply to_person_direct.
  - apply stage_registered; vm_compute; reflexivity.
  - vm_compute; reflexivity.
  - vm_compute; reflexivity.
  - by intros ?%not_elem_of_nil.
  - done.
  - apply (rtc_l _ _ receipt_seen).
    { split; [exact (step_frame _ 1 early_receipt)|vm_compute; reflexivity]. }
    apply (rtc_l _ _ (restart receipt_seen)).
    { split; [exact (step_restart _)|vm_compute; reflexivity]. }
    apply (rtc_l _ _ while_away); [|apply rtc_refl].
    split; [exact (step_frame _ 3 (login_as "carol" "wrong"))|vm_compute; reflexivity].
  - vm_compute; reflexivity.
  - by apply login_as_frame.
  - eexists. split; vm_compute; reflexivity.
  - intros db2 Hdb2. assert (queued db2 (&"carol") =
      queued (default Messages.empty (w_msgs while_away)) (&"carol")) as -> by (by rewrite Hdb2).
    apply Forall_forall. intros r Hr. assert (Messages.m_nonce r = None) as Hn.
    { revert r Hr. apply Forall_forall. apply (bool_decide_eq_true_1 (Forall (λ r, Messages.m_nonce r = None) _)).
      vm_compute. reflexivity. }
    eexists. apply history_body_plain. by rewrite Hn.
Defined.

(** Carol's message is still queued after alice has sent one too. *)
Lemma queue_kept_until_login_witness :
  let w1 := (handle 2 (to_person "carol") stage).1 in
  ∃ db' row', w_msgs (handle 1 (to_person "bob") w1).1 = Some db' ∧
    (&"id1", &"carol") ∈ Messages.pending db' ∧ row' ∈ Messages.messages db' ∧
    Messages.m_body row' = Some (&"hi").
Proof.
  cbv zeta. set (row := direct_row (to_person "carol") (&"bob") (&"carol") (&"id1") (Some (&"hi")) None).
  destruct (queue_kept_until_login (handle 2 (to_person "carol") stage).1 1 (to_person "bob")
    (Messages.mkStore [row] [(&"id1", &"carol")]) (&"id1") (&"carol") row)
    as [(db' & row' & H1 & H2 & H3 & _ & _ & _ & _ & H4 & _)|[Hf _]].
  - vm_compute; reflexivity.
  - left.
  - left.
  - exists db', row'. split; [exact H1|]. split; [exact H2|]. split; [exact H3|exact H4].
  - discriminate Hf.
Defined.
