(* ===== verification/RoomDelivery.v ===== *)
(** * Room messages

    A message to a room is stored once and reaches every other member, at once or
    through the queue; and a connection that is not a member of a room is told so,
    whatever it tries, with no effect on anybody. *)

From S2P Require Import Prelude PyStr PyDict Utf8 Json Frames.
From S2P Require Import Registries Database Users Messages RoomsDb.
From S2P Require Import Router Wp RouterSpec RouterRefines RouterInv Scenario RouterSafety.
From S2P Require Import RouterRuns MessageFacts Delivery.

Section rooms.
Context `{Runtime} {R : Type} `{RoomStore R} {ok : R → Prop}
  {view : R → gmap pystr (gset pystr)} `{!RoomStoreSound R ok view, !RoomStoreLaws R ok view}.
Implicit Types (w : world R).

Abbreviation inv := (inv (ok := ok) (view := view)).
Abbreviation members w room := (room_members (view (w_rooms w)) room).

(** Frames were sent and messages queued; nothing else changed. *)
Definition handed_on w w' : Prop :=
  w_sessions w' = w_sessions w ∧
  (∃ new, w_out w' = w_out w ++ new) ∧
  match w_msgs w, w_msgs w' with
  | None, None => True
  | Some db, Some db' => Messages.messages db' = Messages.messages db ∧
      (∀ p, p ∈ Messages.pending db → p ∈ Messages.pending db')
  | _, _ => False
  end.

Lemma handed_on_refl w : handed_on w w.
Proof. split_and!; [done|exists []; by rewrite app_nil_r|]. by destruct (w_msgs w). Qed.

Lemma handed_on_trans w1 w2 w3 : handed_on w1 w2 → handed_on w2 w3 → handed_on w1 w3.
Proof.
  intros (H1 & (n1 & Ho1) & Hm1) (H2 & (n2 & Ho2) & Hm2). split_and!.
  - by rewrite H2.
  - exists (n1 ++ n2). by rewrite Ho2, Ho1, app_assoc.
  - destruct (w_msgs w1), (w_msgs w2), (w_msgs w3); try done.
    destruct Hm1 as [<- ?], Hm2 as [<- ?]. eauto.
Qed.

(** One member has been sent the frame, or is owed the message. *)
Definition reached w0 w (k name : pystr) (g : Frame) : Prop :=
  match Sessions.get (w_sessions w0) name with
  | Some d => (d, g) ∈ new_out w0 w
  | None => ∀ db, w_msgs w = Some db → (k, name) ∈ Messages.pending db
  end.

Lemma reached_online w0 w k name g d :
  reached w0 w k name g → Sessions.get (w_sessions w0) name = Some d → (d, g) ∈ new_out w0 w.
Proof. unfold reached. intros Hr Hs. by rewrite Hs in Hr. Qed.

Lemma reached_later w0 w1 w2 k name g :
  reached w0 w1 k name g → handed_on w0 w1 → handed_on w1 w2 → reached w0 w2 k name g.
Proof.
  unfold reached, new_out. intros Hr (_ & (n0 & Ho0) & Hm0) (_ & (n1 & Ho1) & Hm).
  destruct (Sessions.get (w_sessions w0) name).
  - rewrite Ho1. rewrite Ho0 in *. rewrite <-app_assoc, drop_app_length.
    rewrite drop_app_length in Hr. apply elem_of_app. by left.
  - intros db2 Hdb2. rewrite Hdb2 in Hm. destruct (w_msgs w1) as [db1|]; [|done].
    apply Hm, Hr. done.
Qed.

Lemma deliver_one w0 w f u k name :
  handed_on w0 w → bind_key (f_id f) = Ok k → encodable name →
  ∃ w', deliver_to (outgoing u f) (env_of f) u name w = (w', Ok tt) ∧ handed_on w w' ∧
    ∀ g, name ≠ u → _addressed_to (outgoing u f) (env_of f) name = Some g →
      reached w0 w' k name g.
Proof.
  intros (Hs & (n0 & Ho) & Hm) Hk He. unfold deliver_to.
  destruct (bool_decide (name = u)) eqn:Eb.
  { exists w. apply bool_decide_eq_true in Eb. split_and!; [done|apply handed_on_refl|done]. }
  destruct (_addressed_to (outgoing u f) (env_of f) name) as [g|] eqn:Eg.
  2:{ exists w. split_and!; [|apply handed_on_refl|done]. run; reflexivity. }
  destruct (Sessions.get (w_sessions w) name) as [d|] eqn:Ed.
  - eexists. split_and!.
    + run; [by apply session_of_run, Ed|]. reflexivity.
    + split_and!; [done|by eexists|]. cbn [w_msgs set_out]. by destruct (w_msgs w).
    + intros g' _ [= <-]. unfold reached. rewrite <-Hs, Ed. unfold new_out. cbn [w_out set_out].
      rewrite Ho, <-app_assoc, drop_app_length. apply elem_of_app. right. by left.
  - destruct (w_msgs w) as [db|] eqn:Edb.
    + eexists. split_and!.
      * run; [by apply session_of_run, Ed|]. run; [reflexivity|].
        rewrite Edb, bool_decide_eq_true_2 by eauto. cbn [negb]. by eapply queue_run.
      * split_and!; [done|by exists []; rewrite app_nil_r|]. rewrite Edb. cbn [w_msgs set_msgs].
        split; [done|]. intros p Hp. apply elem_of_owed. by left.
      * intros g' _ [= <-]. unfold reached. rewrite <-Hs, Ed. intros db' [= <-].
        apply elem_of_owed. by right.
    + exists w. split_and!; [|apply handed_on_refl|].
      * run; [by apply session_of_run, Ed|]. run; [reflexivity|].
        by rewrite Edb, bool_decide_eq_false_2 by (by intros []).
      * intros g' _ [= <-]. unfold reached. rewrite <-Hs, Ed, Edb. done.
Qed.

Lemma deliver_all w0 w f u k names :
  handed_on w0 w → bind_key (f_id f) = Ok k → Forall encodable names →
  ∃ w', forM names (deliver_to (outgoing u f) (env_of f) u) w = (w', Ok tt) ∧ handed_on w w' ∧
    ∀ name g, name ∈ names → name ≠ u →
      _addressed_to (outgoing u f) (env_of f) name = Some g → reached w0 w' k name g.
Proof.
  intros Hw Hk He. revert w Hw. induction He as [|name names Hn _ IH]; intros w Hw.
  { exists w. split_and!; [done|apply handed_on_refl|]. by intros name g ?%not_elem_of_nil. }
  destruct (deliver_one w0 w f u k name Hw Hk Hn) as (w1 & Hr1 & Hw1 & Hg1).
  destruct (IH w1) as (w2 & Hr2 & Hw2 & Hg2); [by eapply handed_on_trans|].
  exists w2. split_and!.
  - cbn [forM]. by rewrite (bind_run _ _ _ _ _ Hr1).
  - by eapply handed_on_trans.
  - intros name' g [->|Hin]%elem_of_cons Hne Hg; [|by eapply Hg2].
    eapply reached_later; [by apply Hg1|by eapply handed_on_trans|done].
Qed.

(** A MSG to a room by one of its members, with columns SQLite can take. *)
Record to_room w (s : sid) (f : Frame) (u room k : pystr) : Prop := {
  r_type : f_type f = MSG;
  r_user : w_user w !! s = Some u;
  r_to : f_to f = JStr room;
  r_room : is_room room = true ∧ encodable room ∧ is_Some (view (w_rooms w) !! room);
  r_member : u ∈ members w room;
  r_key : bind_key (f_id f) = Ok k ∧ int64 (f_ts f);
  r_body : match env_of f with
           | Some env => encodable (dumps true (JObj env))
           | None => (∃ b, bind_text (f_body f) = Ok b) ∧ ∃ n, bind_text (f_nonce f) = Ok n
           end;
}.

(** Whatever the shape of the message, one row at most is added. *)
Lemma room_record_run w s f u room k :
  inv w → to_room w s f u room k →
  ∃ row, Messages.m_id row = k ∧
    match env_of f with
    | Some env => _record_envelopes (outgoing u f) room env
    | None => _record (outgoing u f) room room
    end w = (set_msgs ((λ db, recorded db row) <$> w_msgs w) w, Ok tt).
Proof.
  intros Hi [_ Hu _ (_ & Her & _) _ [Hk Hts] Hb].
  destruct (i_names w Hi u) as (_ & _ & Heu); [by eapply i_online|].
  destruct (env_of f) as [env|].
  - exists (Messages.mkRow k room u room (Some (dumps true (JObj env)))
              (Some Messages.ENVELOPES) (f_ts f) None None).
    split; [done|]. unfold _record_envelopes. apply record_run; try done.
    unfold bind_text. by rewrite bind_str_ok.
  - destruct Hb as [[b Hb] [n Hn]].
    exists (Messages.mkRow k room u room b n (f_ts f) None None). split; [done|].
    by apply record_run.
Qed.

Lemma recorded_has db row : Messages.m_id row ∈ Messages.m_id <$> Messages.messages (recorded db row).
Proof.
  cbn [recorded Messages.messages].
  destruct (decide (Messages.m_id row ∈ Messages.m_id <$> Messages.messages db)) as [Hin|Hin].
  - apply list_elem_of_fmap in Hin as (r & -> & Hr). apply list_elem_of_fmap_2.
    apply elem_of_insert_or_ignore. by left.
  - apply list_elem_of_fmap_2, elem_of_insert_or_ignore. by right.
Qed.

(** The whole handler, for a room message that goes through. *)
Lemma room_message_run w s f u room k :
  inv w → to_room w s f u room k →
  ∃ row w2, let w1 := set_msgs ((λ db, recorded db row) <$> w_msgs w) w in
    Messages.m_id row = k ∧ handed_on w1 w2 ∧
    handle s f w = (set_tick (S (w_tick w2))
      (set_out (w_out w2 ++ [(s, ack_frame (w_tick w2) f)]) w2), Ok tt) ∧
    ∀ name g, name ∈ members w room → name ≠ u →
      _addressed_to (outgoing u f) (env_of f) name = Some g → reached w1 w2 k name g.
Proof.
  intros Hi Hr. destruct (room_record_run w s f u room k Hi Hr) as (row & Hrow & Hrec).
  destruct Hr as [Ht Hu Hto (Hroom & Her & Hex) Hmem [Hk Hts] _].
  set (w1 := set_msgs _ w) in Hrec.
  assert (∀ name, name ∈ sorted_set (members w room) ↔ name ∈ members w room) as Hsorted.
  { intros name. unfold sorted_set. by rewrite elem_of_sorted, elem_of_elements. }
  assert (Forall encodable (sorted_set (members w room))) as Hnames.
  { apply Forall_forall. intros name Hn%Hsorted. apply (i_names w Hi), (i_members w Hi room), Hn. }
  destruct (deliver_all w1 w1 f u k _ (handed_on_refl w1) Hk Hnames) as (w2 & Hrun & Hw2 & Hg).
  exists row, w2. split_and!; [done|done| |by intros name g Hn%Hsorted; apply Hg].
  assert (_to_room s room (outgoing u f) (env_of f) w = (w2, Ok true)) as Hto'.
  { unfold _to_room. run.
    { apply rooms_get_run. apply rs_exists_law; [apply (i_rooms w Hi)|done]. }
    rewrite bool_decide_eq_true_2 by done. cbn [negb]. run.
    { apply rooms_get_run. apply rs_members_law; [apply (i_rooms w Hi)|done]. }
    run; [by apply me_run|]. rewrite bool_decide_eq_true_2 by done. cbn [negb].
    run; [exact Hrec|]. run; [exact Hrun|]. reflexivity. }
  unfold handle. rewrite Ht. run; [reflexivity|]. rewrite Hu. unfold _message. rewrite Hto.
  assert (room ≠ []) as Hne by (by intros ->). cbn [truthy].
  rewrite bool_decide_eq_true_2 by done. cbn [negb]. run; [reflexivity|]. rewrite Hu. cbv zeta.
  rewrite <-Hto. change (mkFrame MSG _ _ _ _ _ _ _ _) with (outgoing u f). rewrite Hto.
  run; [reflexivity|]. rewrite Hroom. run; [exact Hto'|]. reflexivity.
Qed.

(** A room message reaches the whole room: it is stored once, under one id,
    however many members there are; and every other member for whom there is
    something to open gets it, at once if they are connected and through the queue
    if they are not; and the sender gets an ACK. *)
Theorem room_message_reaches_members w s f u room k :
  inv w → to_room w s f u room k →
  let w' := (handle s f w).1 in
  (handle s f w).2 = Ok tt ∧
  (∀ name g, name ∈ members w room → name ≠ u →
     _addressed_to (outgoing u f) (env_of f) name = Some g → reached w w' k name g) ∧
  (∀ db, w_msgs w = Some db → ∃ db', w_msgs w' = Some db' ∧
     length (Messages.messages db') ≤ S (length (Messages.messages db)) ∧
     k ∈ Messages.m_id <$> Messages.messages db') ∧
  ∃ m, (s, ack_frame m f) ∈ new_out w w'.
Proof.
  intros Hi Hr. destruct (room_message_run w s f u room k Hi Hr) as (row & w2 & Hrow & Hw2 & Hall & Hg).
  rewrite Hall. cbv zeta. cbn [fst snd].
  destruct Hw2 as (Hs2 & (new & Ho2) & Hm2). cbn [w_out w_msgs set_msgs] in Ho2, Hm2.
  split_and!; [done| | |].
  - intros name g Hn Hne Ha. specialize (Hg name g Hn Hne Ha). unfold reached in *.
    cbn [w_sessions set_msgs] in Hg. destruct (Sessions.get (w_sessions w) name); [|done].
    unfold new_out in *. cbn [w_out set_tick set_out set_msgs] in *.
    rewrite Ho2 in *. rewrite <-app_assoc, drop_app_length. rewrite drop_app_length in Hg.
    apply elem_of_app. by left.
  - intros db Hdb. cbn [w_msgs set_tick set_out]. rewrite Hdb in Hm2.
    cbn [fmap option_fmap option_map] in Hm2.
    destruct (w_msgs w2) as [db2|]; [|done]. destruct Hm2 as [Hms _]. exists db2.
    split; [done|]. rewrite Hms, <-Hrow. split; [|apply recorded_has].
    cbn [recorded Messages.messages]. unfold insert_or_ignore.
    destruct (has_key _ _ _); cbn [fst]; rewrite ?length_app; cbn [length]; lia.
  - exists (w_tick w2). unfold new_out. cbn [w_out set_tick set_out]. rewrite Ho2.
    rewrite <-app_assoc, drop_app_length. apply elem_of_app. right. by left.
Qed.

(** ** Strangers to a room *)

Lemma room_name_run w s f room :
  jget (f_data f) (&"room") = JStr room → valid_room room →
  _room_name s f w = (w, Ok (Some room)).
Proof.
  intros Hj (Hr & Hl & Hs). unfold _room_name. rewrite Hj.
  rewrite bool_decide_eq_false_2 by (by intros ->). rewrite Hr. cbn [negb].
  rewrite bool_decide_eq_false_2 by lia. cbn [orb].
  assert (existsb isspace room = false) as ->; [|done].
  apply not_true_iff_false. intros (c & Hc & Ht)%existsb_exists.
  rewrite Forall_forall in Hs. rewrite <-list_elem_of_In in Hc. by rewrite (Hs c Hc) in Ht.
Qed.

(** A frame about a room that only its members may send. *)
Inductive about_room (f : Frame) (room : pystr) : Prop :=
| about_msg : f_type f = MSG → f_to f = JStr room → about_room f room
| about_leave : f_type f = LEAVE → jget (f_data f) (&"room") = JStr room → about_room f room
| about_invite : f_type f = INVITE → jget (f_data f) (&"room") = JStr room → about_room f room
| about_history : f_type f = HISTORY → history_target f = JStr room → about_room f room.

(** C38. Strangers get nothing in or out of a room: sending to it, leaving it,
    inviting to it and reading its history are all answered, on a connection whose
    user is not a member, with one NOT_A_MEMBER error and no other effect. *)
Theorem non_member_refused w s f u room :
  inv w → w_user w !! s = Some u → is_Some (w_msgs w) →
  encodable room → is_Some (view (w_rooms w) !! room) → u ∉ members w room →
  about_room f room →
  ∃ message, handle s f w = (refused w s (&"NOT_A_MEMBER") message, Ok tt).
Proof.
  intros Hi Hu Hmsgs He Hex Hn Ha.
  pose proof (i_room_names w Hi room Hex) as Hv. pose proof Hv as (Hr & _ & _).
  assert (room ≠ []) as Hne by (by intros ->).
  assert (rs_exists (w_rooms w) room = Ok true) as Hexists.
  { rewrite rs_exists_law by (done || apply (i_rooms w Hi)). by rewrite bool_decide_eq_true_2. }
  pose proof (rs_members_law (w_rooms w) room (i_rooms w Hi) He) as Hmem.
  unfold handle. destruct Ha as [Hf Hto|Hf Hj|Hf Hj|Hf Hto]; rewrite Hf; eexists;
    (run; [reflexivity|]; rewrite Hu).
  - unfold _message. rewrite Hto. cbn [truthy]. rewrite bool_decide_eq_true_2 by done. cbn [negb].
    run; [reflexivity|]. cbv zeta. run; [reflexivity|]. rewrite Hr. run.
    { unfold _to_room. run; [by apply rooms_get_run|]. cbn [negb].
      run; [by apply rooms_get_run|].
      run; [by apply me_run|]. rewrite bool_decide_eq_false_2 by done. reflexivity. }
    reflexivity.
  - unfold _leave. run; [by apply room_name_run|]. run; [by apply rooms_get_run|].
    run; [by apply me_run|]. rewrite bool_decide_eq_false_2 by done. reflexivity.
  - unfold _invite. run; [by apply room_name_run|]. run; [by apply rooms_get_run|]. cbn [negb].
    run; [by apply rooms_get_run|].
    run; [by apply me_run|]. rewrite bool_decide_eq_false_2 by done. reflexivity.
  - unfold _history. run; [reflexivity|]. rewrite bool_decide_eq_true_2 by done. cbn [negb].
    rewrite Hto. cbn [truthy]. rewrite bool_decide_eq_true_2 by done. cbn [negb]. cbv zeta.
    run; [by apply me_run|]. cbn [py_str]. rewrite Hr. run; [by apply rooms_get_run|].
    rewrite bool_decide_eq_false_2 by done. reflexivity.
Qed.
End rooms.

(** ** Witnesses *)

Definition to_team : Frame := ask MSG (JStr (&"#team")) [].

Lemma room_message_reaches_members_witness :
  (2, outgoing (&"alice") to_team) ∈ new_out stage (handle 1 to_team stage).1.
Proof.
  assert ((&"bob") ∈ room_members (SqliteRooms.view (w_rooms stage)) (&"#team")) as Hbob
    by (apply (bool_decide_eq_true_1 (_ ∈ _)); by vm_compute).
  destruct (room_message_reaches_members (ok := SqliteRooms.ok) (view := SqliteRooms.view)
    stage 1 to_team (&"alice") (&"#team") (&"id1")) as (_ & Hr & _).
  - exact stage_inv.
  - split; try (vm_compute; reflexivity).
    + split_and!; [vm_compute; reflexivity|by apply literal_encodable|].
      apply (bool_decide_eq_true_1 (is_Some _)); vm_compute; reflexivity.
    + split; [vm_compute; reflexivity|]. unfold int64. cbn. lia.
    + split; [by exists (Some (&"hi"))|by exists None].
  - assert ((&"bob") ≠ &"alice") as Hne by done.
    assert (Sessions.get (w_sessions stage) (&"bob") = Some 2) as Hs by (vm_compute; reflexivity).
    exact (reached_online _ _ _ _ _ _ (Hr _ (outgoing (&"alice") to_team) Hbob Hne eq_refl) Hs).
Defined.

(** Carol, who is not in the room, tries to read its history. *)
Definition carol_in : world SqliteRooms.t := (handle 3 (login_as "carol" "secret") stage).1.

Lemma non_member_refused_witness :
  ∃ message, handle 3 (ask HISTORY (JStr (&"#team")) []) carol_in =
    (refused carol_in 3 (&"NOT_A_MEMBER") message, Ok tt).
Proof.
  apply (non_member_refused (ok := SqliteRooms.ok) (view := SqliteRooms.view)
    carol_in 3 (ask HISTORY (JStr (&"#team")) []) (&"carol") (&"#team")).
  - apply handle_inv, stage_inv.
  - vm_compute; reflexivity.
  - apply (bool_decide_eq_true_1 (is_Some _)); vm_compute; reflexivity.
  - by apply literal_encodable.
  - apply (bool_decide_eq_true_1 (is_Some _)); vm_compute; reflexivity.
  - apply (bool_decide_eq_false_1 (_ ∈ _)); by vm_compute.
  - by apply about_history.
Defined.
