(* ===== verification/RoomStores.v ===== *)
(** * The router does not care where the rooms are kept

    A router over any lawful room store and the router over the in-memory
    registry send the same frames and raise the same exceptions, and their states
    stay related: the in-memory [RoomRegistry] is an abstract specification that
    [SqliteRooms] refines, seen through the whole router.  The proof relates the two
    runs step by step. *)

From S2P Require Import Prelude PyStr PyDict Utf8 Json Frames.
From S2P Require Import Registries Database Users Messages RoomsDb.
From S2P Require Import Router Wp RouterSpec RouterRefines RouterInv Scenario.

(** What can happen to a router: a frame from a connection, or its end. *)
Inductive event :=
| Received (s : sid) (f : Frame)
| Gone (s : sid).

Definition run_event `{Runtime} {R} `{RoomStore R} (w : world R) (e : event) : world R :=
  match e with
  | Received s f => (handle s f w).1
  | Gone s => (on_disconnect s w).1
  end.

Definition run_events `{Runtime} {R} `{RoomStore R} (w : world R) (es : list event) : world R :=
  foldl run_event w es.

Section simulation.
Context `{Runtime} {R1 R2 : Type} `{RoomStore R1, RoomStore R2}
  {ok1 : R1 → Prop} {view1 : R1 → gmap pystr (gset pystr)}
  {ok2 : R2 → Prop} {view2 : R2 → gmap pystr (gset pystr)}
  `{!RoomStoreLaws R1 ok1 view1, !RoomStoreLaws R2 ok2 view2}.
Context (clock : ∀ n, int64 (rt_now n)).

(** The two states agree on everything the clients can see. *)
Record sim (w1 : world R1) (w2 : world R2) : Prop := {
  sim_sessions : w_sessions w1 = w_sessions w2;
  sim_user : w_user w1 = w_user w2;
  sim_users : w_users w1 = w_users w2;
  sim_msgs : w_msgs w1 = w_msgs w2;
  sim_contacts : w_contacts w1 = w_contacts w2;
  sim_out : w_out w1 = w_out w2;
  sim_tick : w_tick w1 = w_tick w2;
  sim_rooms : ok1 (w_rooms w1) ∧ ok2 (w_rooms w2) ∧ view1 (w_rooms w1) = view2 (w_rooms w2);
  sim_names : ∀ d u, w_user w1 !! d = Some u → encodable u;
}.

(** Two pieces of code run alike; a value they return satisfies [P]. *)
Definition alike {A} (m1 : M (world R1) A) (m2 : M (world R2) A) (P : A → Prop) : Prop :=
  ∀ w1 w2, sim w1 w2 →
    sim (m1 w1).1 (m2 w2).1 ∧ (m1 w1).2 = (m2 w2).2 ∧ ∀ a, (m1 w1).2 = Ok a → P a.

Abbreviation same m1 m2 := (alike m1 m2 (λ _, True)).

Lemma alike_bind {A B} (m1 : M (world R1) A) m2 (k1 : A → M (world R1) B) k2 P Q :
  alike m1 m2 P → (∀ a, P a → alike (k1 a) (k2 a) Q) → alike (m1 ≫= k1) (m2 ≫= k2) Q.
Proof.
  intros Hm Hk w1 w2 Hw. destruct (Hm w1 w2 Hw) as (Hs & Hr & HP).
  unfold mbind, M_bind. destruct (m1 w1) as [w1' [a|e]], (m2 w2) as [w2' [b|e']];
    cbn in *; try done.
  - injection Hr as <-. apply Hk; auto.
  - by injection Hr as <-.
Qed.

Lemma alike_ret {A} (a : A) (P : A → Prop) : P a → alike (mret a) (mret a) P.
Proof. intros Ha w1 w2 Hw. split_and!; [done..|]. by intros b [= <-]. Qed.

Lemma alike_raise {A} e (P : A → Prop) : alike (raise e) (raise e) P.
Proof. by intros w1 w2 Hw. Qed.

Lemma alike_weaken {A} (m1 : M (world R1) A) m2 (P Q : A → Prop) :
  alike m1 m2 P → (∀ a, P a → Q a) → alike m1 m2 Q.
Proof. intros Hm HPQ w1 w2 Hw. destruct (Hm w1 w2 Hw) as (? & ? & ?). eauto 10. Qed.

Lemma alike_lift {A} (r : res A) : same (lift_res r) (lift_res r).
Proof. by intros w1 w2 Hw. Qed.

Lemma alike_tick : same tick tick.
Proof.
  intros w1 w2 []. unfold tick. cbn. split_and!; [split; cbn; (done || congruence)|congruence|done].
Qed.

Lemma alike_gets {A} (g1 : world R1 → A) (g2 : world R2 → A) (P : A → Prop) :
  (∀ w1 w2, sim w1 w2 → g1 w1 = g2 w2 ∧ P (g1 w1)) → alike (gets g1) (gets g2) P.
Proof.
  intros Hg w1 w2 Hw. destruct (Hg w1 w2 Hw) as [He HP]. unfold gets. cbn.
  split_and!; [done|congruence|]. by intros a [= <-].
Qed.

Lemma alike_username s : alike (username s) (username s) (λ o, ∀ u, o = Some u → encodable u).
Proof.
  apply alike_gets. intros w1 w2 Hw. rewrite <-(sim_user _ _ Hw). split; [done|].
  by apply (sim_names _ _ Hw).
Qed.

Lemma alike_me s : alike (me s) (me s) encodable.
Proof.
  eapply alike_bind; [apply alike_username|]. intros [u|] Hu;
    [apply alike_ret; auto|apply alike_raise].
Qed.

Lemma alike_modify f1 f2 : (∀ w1 w2, sim w1 w2 → sim (f1 w1) (f2 w2)) →
  same (modify f1) (modify f2).
Proof. intros Hf w1 w2 Hw. split_and!; [by apply Hf|done|done]. Qed.

Lemma alike_send d g : same (send d g) (send d g).
Proof.
  apply alike_modify. intros w1 w2 []. split; cbn; try done. by f_equal.
Qed.

Lemma alike_session_of u : same (session_of u) (session_of u).
Proof. apply alike_gets. intros w1 w2 Hw. by rewrite (sim_sessions _ _ Hw). Qed.

Lemma alike_has_msgs : same has_msgs has_msgs.
Proof. apply alike_gets. intros w1 w2 Hw. by rewrite (sim_msgs _ _ Hw). Qed.

Lemma alike_has_contacts : same has_contacts has_contacts.
Proof. apply alike_gets. intros w1 w2 Hw. by rewrite (sim_contacts _ _ Hw). Qed.

Lemma alike_users_get {A} (op : Users.t → res A) (P : A → Prop) :
  (∀ db a, op db = Ok a → P a) → alike (users_get op) (users_get op) P.
Proof.
  intros HP w1 w2 Hw. unfold users_get. cbn. rewrite (sim_users _ _ Hw). split_and!; eauto.
Qed.

Lemma alike_msgs_upd {A} (op : Messages.t → res (Messages.t * A)) :
  same (msgs_upd op) (msgs_upd op).
Proof.
  intros w1 w2 Hw. unfold msgs_upd. rewrite (sim_msgs _ _ Hw).
  destruct (w_msgs w2) as [db|]; [|done]. destruct (op db) as [[db' a]|e]; [|done].
  split_and!; [|done|done]. destruct Hw. by split.
Qed.

Lemma alike_contacts_upd {A} (op : Contacts.t → res (Contacts.t * A)) :
  same (contacts_upd op) (contacts_upd op).
Proof.
  intros w1 w2 Hw. unfold contacts_upd. rewrite (sim_contacts _ _ Hw).
  destruct (w_contacts w2) as [db|]; [|done]. destruct (op db) as [[db' a]|e]; [|done].
  split_and!; [|done|done]. destruct Hw. by split.
Qed.

(** A change of the rooms on both sides that the laws make equal. *)
Lemma alike_rooms_upd {A} (op1 : R1 → res (R1 * A)) (op2 : R2 → res (R2 * A)) :
  (∀ r1 r2, ok1 r1 → ok2 r2 → view1 r1 = view2 r2 →
     ∃ r1' r2' a, op1 r1 = Ok (r1', a) ∧ op2 r2 = Ok (r2', a) ∧
       ok1 r1' ∧ ok2 r2' ∧ view1 r1' = view2 r2') →
  same (rooms_upd op1) (rooms_upd op2).
Proof.
  intros Hop w1 w2 Hw. destruct (sim_rooms _ _ Hw) as (Ho1 & Ho2 & Hv).
  destruct (Hop _ _ Ho1 Ho2 Hv) as (r1 & r2 & a & E1 & E2 & ? & ? & ?).
  unfold rooms_upd. rewrite E1, E2. split_and!; [|done|done]. destruct Hw. by split.
Qed.

Lemma alike_rooms_get {A} (op1 : R1 → res A) (op2 : R2 → res A) :
  (∀ r1 r2, ok1 r1 → ok2 r2 → view1 r1 = view2 r2 → op1 r1 = op2 r2) →
  same (rooms_get op1) (rooms_get op2).
Proof.
  intros Hop w1 w2 Hw. destruct (sim_rooms _ _ Hw) as (Ho1 & Ho2 & Hv).
  unfold rooms_get. cbn. by rewrite (Hop _ _ Ho1 Ho2 Hv).
Qed.

Lemma alike_room_exists room : encodable room → same (room_exists room) (room_exists room).
Proof.
  intros He. apply alike_rooms_get. intros r1 r2 Hr1 Hr2 Hv. by rewrite !rs_exists_law, Hv.
Qed.

Lemma alike_room_members room :
  encodable room → same (room_members_of room) (room_members_of room).
Proof.
  intros He. apply alike_rooms_get. intros r1 r2 Hr1 Hr2 Hv. by rewrite !rs_members_law, Hv.
Qed.

Lemma alike_rooms_of u : encodable u → same (rooms_of u) (rooms_of u).
Proof.
  intros He. apply alike_rooms_get. intros r1 r2 Hr1 Hr2 Hv. by rewrite !rs_rooms_of_law, Hv.
Qed.

Lemma alike_room_create room : encodable room → same (room_create room) (room_create room).
Proof.
  intros He. eapply alike_bind; [apply alike_tick|]. intros n _.
  apply alike_rooms_upd. intros r1 r2 Hr1 Hr2 Hv.
  destruct (rs_create_law r1 (rt_now n) room) as (r1' & b1 & E1 & ? & -> & V1); [done..|].
  destruct (rs_create_law r2 (rt_now n) room) as (r2' & b2 & E2 & ? & -> & V2); [done..|].
  rewrite Hv in E1, V1. eexists _, _, _. split_and!; [done..|]. by rewrite V1, V2.
Qed.

Lemma alike_room_join room u :
  encodable room → encodable u → same (room_join room u) (room_join room u).
Proof.
  intros He Hu. eapply alike_bind; [apply alike_tick|]. intros n _.
  apply alike_rooms_upd. intros r1 r2 Hr1 Hr2 Hv.
  destruct (rs_join_law r1 (rt_now n) room u) as (r1' & E1 & ? & V1); [done..|].
  destruct (rs_join_law r2 (rt_now n) room u) as (r2' & E2 & ? & V2); [done..|].
  eexists _, _, tt. rewrite E1, E2. split_and!; [done..|]. by rewrite V1, V2, Hv.
Qed.

Lemma alike_room_leave room u :
  encodable room → encodable u → same (room_leave room u) (room_leave room u).
Proof.
  intros He Hu. apply alike_rooms_upd. intros r1 r2 Hr1 Hr2 Hv.
  destruct (rs_leave_law r1 room u) as (r1' & E1 & ? & V1); [done..|].
  destruct (rs_leave_law r2 room u) as (r2' & E2 & ? & V2); [done..|].
  eexists _, _, tt. rewrite E1, E2. split_and!; [done..|]. by rewrite V1, V2, Hv.
Qed.

Lemma alike_session_login u s : same (session_login u s) (session_login u s).
Proof.
  intros w1 w2 Hw. unfold session_login. cbn. rewrite (sim_sessions _ _ Hw).
  split_and!; [|done|done]. destruct Hw. by split.
Qed.

Lemma alike_forM {A} (l : list A) f1 f2 :
  (∀ x, x ∈ l → same (f1 x) (f2 x)) → same (forM l f1) (forM l f2).
Proof.
  induction l as [|x l IH]; intros Hf; [by apply alike_ret|]. cbn [forM].
  eapply alike_bind; [apply Hf; by left|]. intros [] _. apply IH. intros y Hy.
  apply Hf. by right.
Qed.

Lemma alike_bind_T {A B} (m1 : M (world R1) A) m2 (k1 : A → M (world R1) B) k2 Q :
  same m1 m2 → (∀ a, alike (k1 a) (k2 a) Q) → alike (m1 ≫= k1) (m2 ≫= k2) Q.
Proof. intros Hm Hk. by eapply alike_bind. Qed.

Lemma alike_new_frame t sender to data : same (new_frame t sender to data) (new_frame t sender to data).
Proof. apply alike_bind_T; [apply alike_tick|]. intros n. by apply alike_ret. Qed.

Lemma alike_now_ms : same now_ms now_ms.
Proof. apply alike_bind_T; [apply alike_tick|]. intros n. by apply alike_ret. Qed.

Lemma alike_send_error s code message :
  same (send_error s code message) (send_error s code message).
Proof. apply alike_bind_T; [apply alike_new_frame|]. intros f. apply alike_send. Qed.

Lemma alike_need_str j : alike (need_str j) (need_str j) (λ x, j = JStr x).
Proof. destruct j; try apply alike_raise. by apply alike_ret. Qed.

Create HintDb alike.

Lemma alike_others u :
  same (gets (λ w : world R1, Sessions.others (w_sessions w) u))
       (gets (λ w : world R2, Sessions.others (w_sessions w) u)).
Proof. apply alike_gets. intros w1 w2 Hw. by rewrite (sim_sessions _ _ Hw). Qed.

Lemma alike_usernames {A} (g : list pystr → A) :
  same (gets (λ w : world R1, g (Sessions.usernames (w_sessions w))))
       (gets (λ w : world R2, g (Sessions.usernames (w_sessions w)))).
Proof. apply alike_gets. intros w1 w2 Hw. by rewrite (sim_sessions _ _ Hw). Qed.

Lemma alike_set_sessions (g : Sessions.t → Sessions.t) :
  same (modify (λ w : world R1, set_sessions (g (w_sessions w)) w))
       (modify (λ w : world R2, set_sessions (g (w_sessions w)) w)).
Proof. apply alike_modify. intros w1 w2 []. split; cbn; try done. by f_equal. Qed.

Lemma alike_set_users db : same (modify (set_users db)) (modify (set_users db)).
Proof. apply alike_modify. intros w1 w2 []. by split. Qed.

Lemma alike_add_user s u : encodable u →
  same (modify (λ w : world R1, set_user (<[s := u]> (w_user w)) w))
       (modify (λ w : world R2, set_user (<[s := u]> (w_user w)) w)).
Proof.
  intros Hu. apply alike_modify. intros w1 w2 []. split; cbn; try done; [by f_equal|].
  intros d v. rewrite lookup_insert_Some. intros [[_ <-]|[_ ?]]; eauto.
Qed.

Lemma alike_del_user s :
  same (modify (λ w : world R1, set_user (delete s (w_user w)) w))
       (modify (λ w : world R2, set_user (delete s (w_user w)) w)).
Proof.
  apply alike_modify. intros w1 w2 []. split; cbn; try done; [by f_equal|].
  intros d v. rewrite lookup_delete_Some. intros [_ ?]; eauto.
Qed.

(** One step of two equal pieces of code. *)
Ltac prim :=
  first
    [ apply alike_tick | apply alike_now_ms | apply alike_new_frame | apply alike_send
    | apply alike_send_error | apply alike_username | apply alike_me | apply alike_need_str
    | apply alike_session_of | apply alike_has_msgs | apply alike_has_contacts
    | apply alike_msgs_upd | apply alike_contacts_upd | apply alike_lift
    | apply alike_room_exists; solve [eauto] | apply alike_room_members; solve [eauto]
    | apply alike_rooms_of; solve [eauto] | apply alike_room_create; solve [eauto]
    | apply alike_room_join; solve [eauto] | apply alike_room_leave; solve [eauto]
    | apply alike_session_login | apply alike_others
    | apply (alike_usernames id) | apply (alike_usernames (filter _))
    | apply alike_set_users | apply alike_del_user | apply alike_add_user; solve [eauto]
    | apply (alike_set_sessions (λ x, Sessions.logout x _))
    | solve [eauto with alike]
    | apply (alike_users_get _ (λ _, True)); solve [auto] ].

Ltac alike1 :=
  lazymatch goal with
  | |- alike (_ ≫= _) (_ ≫= _) _ =>
      first [eapply alike_bind; [prim|intros ? ?] | apply alike_bind_T; [|intros ?]]
  | |- alike (mret _) (mret _) _ => apply alike_ret
  | |- alike (raise _) (raise _) _ => apply alike_raise
  | |- alike (if ?b then _ else _) _ _ => destruct b eqn:?
  | |- alike (match ?x with _ => _ end) _ _ => destruct x eqn:?
  | |- alike (let x := ?v in _) _ _ => cbv zeta
  | |- alike _ _ _ => prim
  end; cbv beta in *; try done.

Ltac alikes := repeat alike1.

Lemma alike_announce u st : same (_announce u st) (_announce u st).
Proof. unfold _announce. alikes. apply alike_forM. intros. alikes. Qed.

Lemma alike_contact_states u : same (_contact_states u) (_contact_states u).
Proof. unfold _contact_states. alikes. Qed.
#[local] Hint Resolve alike_announce alike_contact_states : alike.

Lemma alike_send_contacts s : same (_send_contacts s) (_send_contacts s).
Proof. unfold _send_contacts. alikes. Qed.
#[local] Hint Resolve alike_send_contacts : alike.

Lemma alike_note_contact o c : same (_note_contact o c) (_note_contact o c).
Proof. unfold _note_contact. alikes. Qed.
#[local] Hint Resolve alike_note_contact : alike.

Lemma alike_on_disconnect s : same (on_disconnect s) (on_disconnect s).
Proof. unfold on_disconnect. alikes. Qed.

Section one_frame.
Variable f : Frame.

(** The names of rooms in the frame are text that can be stored. *)
Record storable_names : Prop := {
  sn_to : ∀ x, f_to f = JStr x → encodable x;
  sn_room : ∀ x, jget (f_data f) (&"room") = JStr x → encodable x;
  sn_history : encodable (py_str (history_target f));
}.
Hypothesis names : storable_names.

Lemma alike_room_name s :
  alike (_room_name s f) (_room_name s f) (λ o, ∀ room, o = Some room → encodable room).
Proof.
  pose proof (sn_room names) as Hroom.
  unfold _room_name. alikes; intros room' [= <-]; eauto.
Qed.

Lemma alike_room_state room : encodable room → same (_room_state room) (_room_state room).
Proof. intros He. unfold _room_state. alikes. Qed.

Lemma alike_send_online ns g : same (send_online ns g) (send_online ns g).
Proof. apply alike_forM. intros. alikes. Qed.
#[local] Hint Resolve alike_room_state alike_send_online : alike.

Lemma alike_broadcast room :
  encodable room → same (_broadcast_room_state room) (_broadcast_room_state room).
Proof. intros He. unfold _broadcast_room_state. alikes. Qed.

Lemma exists_encodable db v : Users.exists_ db v = Ok true → encodable v.
Proof.
  unfold Users.exists_. destruct (bind_str v) eqn:E; [|done].
  by apply bind_str_Ok in E as [_ ?].
Qed.

Lemma alike_add_members room members :
  encodable room → same (_add_members room members) (_add_members room members).
Proof.
  intros He. unfold _add_members. destruct members; try by apply alike_ret.
  generalize (take 64 l). clear l. intros l. induction l as [|j l IH]; [by apply alike_ret|].
  cbn [add_each]. cbv zeta. eapply (alike_bind _ _ _ _ (λ b, b = true → encodable (py_str j))).
  - destruct (bool_decide _ || _); [by apply alike_ret|]. apply alike_users_get.
    intros db b Hb ->. by eapply exists_encodable.
  - intros [] Hn; [|done]. specialize (Hn eq_refl). alike1. apply alike_bind_T; [done|].
    intros. by apply alike_ret.
Qed.
#[local] Hint Resolve alike_broadcast alike_add_members : alike.

Lemma alike_missing_of room added wanted :
  encodable room → same (missing_of room added wanted) (missing_of room added wanted).
Proof.
  intros He. induction wanted as [|j l IH]; [by apply alike_ret|]. cbn [missing_of]. cbv zeta.
  destruct (bool_decide _); [done|]. alike1. apply alike_bind_T; [done|].
  intros. by apply alike_ret.
Qed.
#[local] Hint Resolve alike_missing_of : alike.

(** The four handlers that start with the room's name. *)
Ltac with_room :=
  eapply alike_bind; [apply alike_room_name|]; intros [room|] Hroom;
  [specialize (Hroom room eq_refl)|by apply alike_ret].

Lemma alike_create_room s : same (_create_room s f) (_create_room s f).
Proof. unfold _create_room. with_room. alikes. Qed.

Lemma alike_invite s : same (_invite s f) (_invite s f).
Proof. unfold _invite. with_room. alikes. Qed.

Lemma alike_join s : same (_join s f) (_join s f).
Proof. unfold _join. with_room. alikes. Qed.

Lemma alike_leave s : same (_leave s f) (_leave s f).
Proof. unfold _leave. with_room. alikes. Qed.

Lemma alike_record g c v b n : same (record_row g c v b n) (record_row g c v b n).
Proof. unfold record_row. alikes. Qed.

Lemma alike_queue_for v i : same (queue_for v i) (queue_for v i).
Proof. unfold queue_for. alikes. Qed.
#[local] Hint Resolve alike_record alike_queue_for : alike.

Lemma alike_to_user s t g : same (_to_user s t g) (_to_user s t g).
Proof. unfold _to_user, _record. alikes. Qed.

Lemma alike_deliver_to g e u v : same (deliver_to g e u v) (deliver_to g e u v).
Proof. unfold deliver_to. alikes. Qed.

Lemma alike_to_room s room g e :
  encodable room → same (_to_room s room g e) (_to_room s room g e).
Proof.
  intros He. unfold _to_room, _record_envelopes, _record. alikes.
  apply alike_forM. intros. apply alike_deliver_to.
Qed.
#[local] Hint Resolve alike_to_user alike_to_room : alike.

Lemma alike_message s : same (_message s f) (_message s f).
Proof.
  pose proof (sn_to names) as Hto. unfold _message. alikes.
Qed.

Lemma alike_send_history s u t c : same (send_history s u t c f) (send_history s u t c f).
Proof. unfold send_history. alikes. Qed.
#[local] Hint Resolve alike_send_history : alike.

Lemma alike_history s : same (_history s f) (_history s f).
Proof. pose proof (sn_history names) as Hh. unfold _history. alikes. Qed.

Lemma alike_receipt s : same (_receipt s f) (_receipt s f).
Proof. unfold _receipt. alikes. Qed.

Lemma alike_typing s : same (_typing s f) (_typing s f).
Proof. pose proof (sn_to names) as Hto. unfold _typing. alikes. Qed.

Lemma verify_encodable db thr u p b : Users.verify db thr (JStr u) p = Ok b → encodable u.
Proof.
  unfold Users.verify, bind_text. destruct (bind_str u) eqn:E; [|done].
  by apply bind_str_Ok in E as [_ ?].
Qed.

Lemma alike_hand_over s u r : same (hand_over s u r) (hand_over s u r).
Proof. unfold hand_over. alikes. Qed.

Lemma alike_flush s u : same (_flush_pending s u) (_flush_pending s u).
Proof.
  unfold _flush_pending. alikes. apply alike_forM. intros. apply alike_hand_over.
Qed.
#[local] Hint Resolve alike_flush : alike.

Lemma alike_login s : same (_login s f) (_login s f).
Proof.
  unfold _login. alike1. alike1; [by alikes|]. cbv zeta. alike1; [by alikes|]. alike1.
  eapply (alike_bind _ _ _ _ (λ b, ∀ u, jget (f_data f) (&"user") = JStr u → encodable u)).
  - apply alike_users_get. intros db b Hv u Hu. rewrite Hu in Hv. by eapply verify_encodable.
  - intros b Hb. alike1; [by alikes|]. alike1; by alikes.
Qed.

Lemma alike_register s : same (_register s f) (_register s f).
Proof. unfold _register. alikes. Qed.

Lemma alike_get_key s : same (_get_key s f) (_get_key s f).
Proof. unfold _get_key. alikes. Qed.

Lemma alike_add_contact s : same (_add_contact s f) (_add_contact s f).
Proof. unfold _add_contact. alikes. Qed.

Lemma alike_remove_contact s : same (_remove_contact s f) (_remove_contact s f).
Proof. unfold _remove_contact. alikes. Qed.
#[local] Hint Resolve alike_create_room alike_invite alike_join alike_leave alike_message
  alike_history alike_receipt alike_typing alike_login alike_register alike_get_key
  alike_add_contact alike_remove_contact : alike.

Lemma alike_handle s : same (handle s f) (handle s f).
Proof. unfold handle. alikes. Qed.
End one_frame.

Definition event_names (e : event) : Prop :=
  match e with Received _ f => storable_names f | Gone _ => True end.

(** C24. The SQLite rooms and the in-memory rooms cannot be told apart: over any
    sequence of frames and disconnections whose room names can be stored, a router
    over either store sends the same frames to the same connections and keeps the
    same accounts, sessions, messages, contacts and rooms. *)
Theorem room_stores_interchangeable w1 w2 es :
  sim w1 w2 → Forall event_names es → sim (run_events w1 es) (run_events w2 es).
Proof.
  intros Hw He. revert w1 w2 Hw. induction He as [|[s f|s] es Hn _ IH]; intros w1 w2 Hw;
    [done|..]; apply IH; cbn [run_event].
  - by destruct (alike_handle f Hn s w1 w2 Hw).
  - by destruct (alike_on_disconnect s w1 w2 Hw).
Qed.
End simulation.

(** ** Witness *)

Lemma fresh_sim :
  sim (ok1 := SqliteRooms.ok) (view1 := SqliteRooms.view) (ok2 := λ _, True) (view2 := id)
    (fresh SqliteRooms.empty true true) (fresh (∅ : Rooms.t) true true).
Proof.
  split; try done. split_and!; [exact empty_rooms_ok|done|exact empty_rooms_view].
Qed.

(** The two servers, before anybody connects. *)
Definition on_sqlite : world SqliteRooms.t := fresh SqliteRooms.empty true true.
Definition in_memory : world Rooms.t := fresh ∅ true true.

Definition text_of (j : json) : pystr := match j with JStr x => x | _ => [] end.

(** [storable_names], decided. *)
Definition names_ok `{Runtime} (f : Frame) : bool :=
  bool_decide (encodable (text_of (f_to f))) &&
  bool_decide (encodable (text_of (jget (f_data f) (&"room")))) &&
  bool_decide (encodable (py_str (history_target f))).

Lemma names_ok_sound f : names_ok f = true → storable_names f.
Proof.
  intros [[H1 H2]%andb_true_iff H3]%andb_true_iff. apply bool_decide_eq_true in H1, H2, H3.
  split; [|..|done]; intros x Hx; by rewrite Hx in *.
Qed.

Definition scene : list event :=
  [Received 1 (ask REGISTER JNull (credentials "alice"));
   Received 1 (ask LOGIN JNull (credentials "alice"));
   Received 1 (ask CREATE_ROOM JNull [(&"room", JStr (&"#team"))]);
   Received 1 (ask MSG (JStr (&"#team")) []); Gone 1].

Lemma room_stores_interchangeable_witness :
  let w1 := run_events on_sqlite scene in
  let w2 := run_events in_memory scene in
  w_out w1 = w_out w2 ∧ length (w_out w1) = 4.
Proof.
  cbv zeta. split; [|by vm_compute].
  eapply sim_out, (room_stores_interchangeable plain_clock); [exact fresh_sim|].
  repeat apply Forall_cons_2; try apply Forall_nil_2; try exact I;
    apply names_ok_sound; vm_compute; reflexivity.
Defined.
