(* ===== verification/Findings.v ===== *)
(** * Where the router does not do what it says

    Behaviour that the source's own comments rule out: a receipt from somebody the
    message was not for, a stored message that makes its recipient lose a login and
    the queue with it, and a re-used message id that hands one person another's
    conversation. *)

From S2P Require Import Prelude PyStr PyDict Utf8 Json Frames.
From S2P Require Import Registries Database Users Messages RoomsDb.
From S2P Require Import Router RouterSpec RouterInv Scenario RouterSafety RouterRuns Delivery.

(** What a call sent, without identifiers and times. *)
Definition sent {R} (w w' : world R) : list (sid * MessageType * json * json * json) :=
  (λ p, (p.1, f_type p.2, f_sender p.2, f_to p.2, f_body p.2)) <$> new_out w w'.

Lemma sent_nth {R} (w w' : world R) n p : sent w w' !! n = Some p → p ∈ sent w w'.
Proof. apply list_elem_of_lookup_2. Qed.

(** Alice writes to bob; then carol, whom it does not concern, logs in. *)
Definition private_note : Frame :=
  mkFrame MSG JNull (JStr (&"bob")) (JStr (&"for bob only")) JNull [] (JStr (&"note")) 7 (JInt 1).



Section stranger.
Context `{Runtime} {R : Type} `{RoomStore R} (clock : ∀ n, int64 (rt_now n)).
Implicit Types (w : world R).


End stranger.


(** Bob leaves carol, who is offline, a poisoned message and then a real one. *)
Definition poison : Frame :=
  mkFrame MSG JNull (JStr (&"carol")) (JStr (&"[1]")) (JStr (&"*")) [] (JStr (&"bad")) 1 (JInt 1).

Definition poisoned : world SqliteRooms.t := play [(2, poison); (2, to_person "carol")] stage.

(** A sender can make a recipient lose their queue: a direct message with the
    nonce that marks room rows and a body that is a JSON list makes the recipient's
    next login raise, after the queue has been emptied and before anything of it was
    handed over. *)
Theorem poisoned_queue_is_lost :
  let run := handle 3 (login_as "carol" "secret") poisoned in
  (λ db, Messages.pending_count db (&"carol")) <$> w_msgs poisoned = Some (Ok 2) ∧
  run.2 = Raise AttributeError ∧
  (λ db, Messages.pending_count db (&"carol")) <$> w_msgs run.1 = Some (Ok 0) ∧
  (λ p, f_type p.2) <$> new_out poisoned run.1 = [LOGIN_OK; PRESENCE; PRESENCE].
Proof. cbv zeta. split_and!; vm_compute; reflexivity. Qed.

(** Bob, who has seen the id of alice's note, sends carol a message under it. *)
Definition reused : Frame :=
  mkFrame MSG JNull (JStr (&"carol")) (JStr (&"hello")) JNull [] (JStr (&"note")) 8 (JInt 1).

(** Message ids are not bound to conversations: a second message under a known id
    is dropped, but its recipient is queued for the first one, and is handed at
    login a message that was addressed to somebody else. *)
Theorem reused_id_leaks_message :
  let w := play [(1, private_note); (2, reused)] stage in
  (3, MSG, JStr (&"alice"), JStr (&"bob"), JStr (&"for bob only"))
    ∈ sent w (handle 3 (login_as "carol" "secret") w).1.
Proof. cbv zeta. apply (sent_nth _ _ 3). vm_compute; reflexivity. Qed.
