(* ===== verification/ConnState.v ===== *)
(** * The client's connection state machine

    [im/client/net/state.py]: the six states, the eight events, the table of
    legal transitions and [ConnectionStateMachine].  The observer is code
    outside the machine, so the calls made to it are kept as a list. *)

From S2P Require Import Prelude PyDict.

Inductive ConnectionState :=
| DISCONNECTED | CONNECTING | AUTHENTICATING | ONLINE | RETRYING | CLOSED.

#[export] Instance ConnectionState_eq_dec : EqDecision ConnectionState.
Proof. solve_decision. Defined.

(** The [StrEnum] value of a state. *)
Definition state_value (s : ConnectionState) : pystr :=
  match s with
  | DISCONNECTED => &"DISCONNECTED" | CONNECTING => &"CONNECTING"
  | AUTHENTICATING => &"AUTHENTICATING" | ONLINE => &"ONLINE"
  | RETRYING => &"RETRYING" | CLOSED => &"CLOSED"
  end.

Inductive Event :=
| CONNECT | SOCKET_READY | SOCKET_FAILED | LOGIN_OK | LOGIN_REFUSED
| CONNECTION_LOST | BACKOFF_EXPIRED | CLOSE.

#[export] Instance Event_eq_dec : EqDecision Event.
Proof. solve_decision. Defined.

Definition _TRANSITIONS : list ((ConnectionState * Event) * ConnectionState) :=
  [ ((DISCONNECTED, CONNECT), CONNECTING);
    ((CONNECTING, SOCKET_READY), AUTHENTICATING);
    ((CONNECTING, SOCKET_FAILED), RETRYING);
    ((AUTHENTICATING, LOGIN_OK), ONLINE);
    ((AUTHENTICATING, LOGIN_REFUSED), DISCONNECTED);
    ((AUTHENTICATING, CONNECTION_LOST), RETRYING);
    ((ONLINE, CONNECTION_LOST), RETRYING);
    ((RETRYING, BACKOFF_EXPIRED), CONNECTING);
    ((RETRYING, SOCKET_FAILED), RETRYING) ].

Definition _TERMINAL : ConnectionState := CLOSED.

(** [sm_watched] says whether an observer is attached; [sm_seen] lists the
    states it was called with. *)
Record Machine := mkMachine {
  sm_state : ConnectionState;
  sm_watched : bool;
  sm_seen : list ConnectionState;
}.

Definition new_machine (watched : bool) : Machine := mkMachine DISCONNECTED watched [].

Definition can_send (m : Machine) : bool := bool_decide (sm_state m = ONLINE).

Definition is_closed (m : Machine) : bool := bool_decide (sm_state m = _TERMINAL).

Definition allows (m : Machine) (event : Event) : bool :=
  if decide (sm_state m = _TERMINAL) then false
  else if decide (event = CLOSE) then true
  else dict_has _TRANSITIONS (sm_state m, event).

(** The state after [event], as the body of [transition] finds it. *)
Definition next_state (s : ConnectionState) (event : Event) : res ConnectionState :=
  if decide (s = _TERMINAL) then Raise IllegalTransition
  else if decide (event = CLOSE) then Ok _TERMINAL
  else match dict_get _TRANSITIONS (s, event) with
       | Some new_state => Ok new_state
       | None => Raise IllegalTransition
       end.

(** [self._state = new_state], and the observer's call. *)
Definition enter (new_state : ConnectionState) (m : Machine) : Machine :=
  if decide (new_state = sm_state m) then m
  else mkMachine new_state (sm_watched m)
         (if sm_watched m then sm_seen m ++ [new_state] else sm_seen m).

Definition transition (event : Event) : M Machine ConnectionState :=
  m ← get;
  new_state ← lift_res (next_state (sm_state m) event);
  modify (enter new_state);;
  mret new_state.

(** ** The diagrams of the documents *)

(** The arrows that are drawn in the docstring of [state.py], as they are drawn:
    the end of the backoff leads into ONLINE. *)
Inductive figure : ConnectionState → ConnectionState → Prop :=
| fig_connect : figure DISCONNECTED CONNECTING
| fig_ready : figure CONNECTING AUTHENTICATING
| fig_socket_failed : figure CONNECTING RETRYING
| fig_login_ok : figure AUTHENTICATING ONLINE
| fig_refused : figure AUTHENTICATING DISCONNECTED
| fig_lost : figure ONLINE RETRYING
| fig_again : figure RETRYING ONLINE
| fig_close : figure ONLINE CLOSED.

(** Those of section 5 of [docs/design.md]. *)
Inductive section5 : ConnectionState → ConnectionState → Prop :=
| sec_connect : section5 DISCONNECTED CONNECTING
| sec_socket : section5 CONNECTING AUTHENTICATING
| sec_failed : section5 CONNECTING CLOSED
| sec_login_ok : section5 AUTHENTICATING ONLINE
| sec_close : section5 ONLINE CLOSED
| sec_lost : section5 ONLINE RETRYING
| sec_retrying : section5 RETRYING CLOSED.

(** What the figure lacks. *)
Inductive undrawn : ConnectionState → ConnectionState → Prop :=
| und_lost_early : undrawn AUTHENTICATING RETRYING
| und_again : undrawn RETRYING CONNECTING
| und_close s : s ≠ CLOSED → s ≠ ONLINE → undrawn s CLOSED.

(** The moves a connection may make: those of the figure but for the one from
    RETRYING to ONLINE, and those it lacks. *)
Definition arrow (s s' : ConnectionState) : Prop :=
  (figure s s' ∧ (s, s') ≠ (RETRYING, ONLINE)) ∨ undrawn s s'.

(** [path s l]: the states of [l] are entered one after the other from [s]. *)
Fixpoint path (s : ConnectionState) (l : list ConnectionState) : Prop :=
  match l with
  | [] => True
  | s' :: l' => arrow s s' ∧ path s' l'
  end.

(** Where a path ends. *)
Definition path_end (s : ConnectionState) (l : list ConnectionState) : ConnectionState :=
  default s (last l).

(** Events thrown at the machine one after the other; the illegal ones raise
    and the caller carries on. *)
Definition attempt (m : Machine) (e : Event) : Machine := (transition e m).1.
Definition attempts (m : Machine) (es : list Event) : Machine := foldl attempt m es.

Lemma path_snoc s l s' : path s (l ++ [s']) ↔ path s l ∧ arrow (path_end s l) s'.
Proof.
  unfold path_end. revert s. induction l as [|x l IH]; intros s; cbn [path app].
  { cbn. tauto. }
  rewrite IH. destruct l as [|y l]; cbn [last]; [tauto|].
  destruct (last (y :: l)) eqn:E; [tauto|]. by apply last_None in E.
Qed.

Lemma path_end_snoc s l s' : path_end s (l ++ [s']) = s'.
Proof. unfold path_end. by rewrite last_snoc. Qed.

(** The table makes those moves and no others. *)
Lemma next_state_arrow s e s' : next_state s e = Ok s' → s' ≠ s → arrow s s'.
Proof.
  destruct s, e; cbn; intros [= <-]; try done; intros _;
    solve [left; split; [constructor|done] | right; by constructor].
Qed.

Lemma arrow_next_state s s' : arrow s s' → s' ≠ s ∧ ∃ e, next_state s e = Ok s'.
Proof.
  intros [[[] Hne]|[| |s0 Hc _]]; try done; (split; [done|]).
  - by exists CONNECT. - by exists SOCKET_READY. - by exists SOCKET_FAILED. - by exists LOGIN_OK.
  - by exists LOGIN_REFUSED. - by exists CONNECTION_LOST. - by exists CLOSE.
  - by exists CONNECTION_LOST. - by exists BACKOFF_EXPIRED.
  - exists CLOSE. unfold next_state. by rewrite decide_False.
Qed.


Lemma transition_run e m :
  transition e m = match next_state (sm_state m) e with
                   | Ok s => (enter s m, Ok s)
                   | Raise x => (m, Raise x)
                   end.
Proof. unfold transition, mbind, M_bind, get, lift_res. by destruct (next_state _ _). Qed.

Lemma enter_state s m : sm_state (enter s m) = s.
Proof. unfold enter. by case_decide. Qed.

Lemma enter_watched s m : sm_watched (enter s m) = sm_watched m.
Proof. unfold enter. by case_decide. Qed.

(** What an observed machine keeps: the calls are the states it went through. *)
Definition observed (m : Machine) : Prop :=
  sm_watched m = true ∧ path DISCONNECTED (sm_seen m) ∧
  path_end DISCONNECTED (sm_seen m) = sm_state m.

Lemma attempt_observed m e : observed m → observed (attempt m e).
Proof.
  intros (Hw & Hp & He). unfold attempt. rewrite transition_run.
  destruct (next_state (sm_state m) e) as [s|x] eqn:Hn; [|done].
  unfold observed. cbn [fst]. rewrite enter_watched, enter_state.
  unfold enter. case_decide as Hs; [by subst|]. rewrite Hw. cbn [sm_seen].
  rewrite path_snoc, path_end_snoc, He. split_and!; [done..| |done].
  by eapply next_state_arrow.
Qed.

Lemma attempts_observed es m : observed m → observed (attempts m es).
Proof.
  revert m. induction es as [|e es IH]; intros m Hm; [done|].
  apply IH. by apply attempt_observed.
Qed.

Lemma attempts_closed es m : sm_state m = CLOSED → attempts m es = m.
Proof.
  intros Hc. induction es as [|e es IH]; [done|]. cbn [attempts foldl].
  unfold attempt. rewrite transition_run, Hc. done.
Qed.

(** C22. What an observer of the connection sees, against the documents.  Whatever
    events are thrown at a fresh machine, legal or not, its observer is called
    along moves of [arrow] only, every call a change, and each of those moves is
    made by some event: the arrows drawn in [state.py] but for the one from
    RETRYING to ONLINE, which is never taken, and besides them the loss of an
    unfinished login, the new attempt after the backoff, and closing from
    anywhere.  (The diagram of [design.md] differs from it too: its arrow for a
    failed socket is never taken.)  The last call is the current state, so a view
    that enables its composer on ONLINE alone agrees with [can_send]; [allows]
    predicts exactly which event the machine would accept next without raising;
    and a closed machine stays exactly as it is. *)
Theorem observer_follows_diagram (es : list Event) :
  let m := attempts (new_machine true) es in
  path DISCONNECTED (sm_seen m) ∧
  (∀ s s', arrow s s' ↔ s' ≠ s ∧ ∃ e, next_state s e = Ok s') ∧
  (∀ s s', figure s s' ∧ ¬ arrow s s' ↔ s = RETRYING ∧ s' = ONLINE) ∧
  (section5 CONNECTING CLOSED ∧ ∀ e, e ≠ CLOSE → next_state CONNECTING e ≠ Ok CLOSED) ∧
  path_end DISCONNECTED (sm_seen m) = sm_state m ∧
  can_send m = bool_decide (path_end DISCONNECTED (sm_seen m) = ONLINE) ∧
  (∀ e, allows m e = true ↔ ∃ s, (transition e m).2 = Ok s) ∧
  (is_closed m = true → ∀ es', attempts m es' = m).
Proof.
  intros m. assert (observed m) as (_ & Hp & He) by by apply attempts_observed.
  split; [done|]. split; [|split; [|split; [|split; [done|split; [by rewrite He|split]]]]].
  - intros s s'. split; [apply arrow_next_state|]. intros [Hne [e Hs]]. by eapply next_state_arrow.
  - intros s s'. split.
    + intros [Hf Ha]. destruct Hf; try done; exfalso; apply Ha; left; (split; [constructor|done]).
    + intros [-> ->]. split; [constructor|]. by intros [[_ ?]|Hu]; [|inversion Hu].
  - split; [constructor|]. by intros [].
  - intros e. rewrite transition_run. destruct (sm_state m) eqn:Hs, e;
      unfold allows, next_state; rewrite Hs; cbn; naive_solver.
  - intros Hc%bool_decide_eq_true es'. by apply attempts_closed.
Qed.
