(* ===== verification/Backoff.v ===== *)
(** * The reconnection schedule

    [im/client/net/backoff.py].  Delays are rationals: with the default
    parameters every nominal delay is a small integer that a double holds
    exactly, so only the product with the jitter is rounded.  What a double
    cannot hold is kept: [factor ** attempts] raises [OverflowError] once it
    passes the largest finite double.  The value drawn by [random.random()] is
    an argument. *)

From S2P Require Import Prelude.
From Stdlib Require Import QArith Lqa Qpower.

#[local] Open Scope Q_scope.

Definition FIRST_DELAY : Q := 1.
Definition FACTOR : Q := 2.
Definition MAX_DELAY : Q := 30.
Definition JITTER : Q := 1 # 4.

Record Backoff := mkBackoff {
  b_first : Q;
  b_factor : Q;
  b_maximum : Q;
  b_jitter : Q;
  b_attempts : nat;
}.

Definition new_backoff (first factor maximum jitter : Q) : Backoff :=
  mkBackoff first factor maximum jitter 0.

Definition default_backoff : Backoff := new_backoff FIRST_DELAY FACTOR MAX_DELAY JITTER.

Definition set_attempts (n : nat) (b : Backoff) : Backoff :=
  mkBackoff (b_first b) (b_factor b) (b_maximum b) (b_jitter b) n.

Definition reset (b : Backoff) : Backoff := set_attempts 0 b.

(** The least value that rounds past the largest finite double. *)
Definition FLOAT_OVERFLOW : Q := inject_Z (2 ^ 1024 - 2 ^ 970).

(** [x ** n] of a float and an int. *)
Definition float_pow (x : Q) (n : nat) : res Q :=
  let p := Qpower x (Z.of_nat n) in
  if Qle_bool FLOAT_OVERFLOW p || Qle_bool FLOAT_OVERFLOW (- p) then Raise OverflowError
  else Ok p.

(** [min(a, b)]: the first unless the second is smaller. *)
Definition py_min (a b : Q) : Q := if Qle_bool a b then a else b.

Definition nominal (b : Backoff) : res Q :=
  p ← float_pow (b_factor b) (b_attempts b);
  Ok (py_min (b_first b * p) (b_maximum b)).

Definition next_delay (random : Q) : M Backoff Q :=
  b ← get;
  delay ← lift_res (nominal b);
  modify (set_attempts (S (b_attempts b)));;
  mret (if Qle_bool (b_jitter b) 0 then delay else delay * (1 - random * b_jitter b)).

(** A schedule that makes sense: delays grow and the jitter shortens them. *)
Definition schedule_ok (b : Backoff) : Prop :=
  0 < b_first b ∧ 0 < b_maximum b ∧ 1 <= b_factor b ∧ 0 <= b_jitter b ∧ b_jitter b <= 1.

Lemma py_min_le_r a b : py_min a b <= b.
Proof.
  unfold py_min. destruct (Qle_bool a b) eqn:E; [by apply Qle_bool_iff|apply Qle_refl].
Qed.

Lemma py_min_pos a b : 0 < a → 0 < b → 0 < py_min a b.
Proof. unfold py_min. by destruct (Qle_bool a b). Qed.

Lemma power_pos x n : 1 <= x → 0 < Qpower x (Z.of_nat n).
Proof. intros. apply Qpower_0_lt. eapply Qlt_le_trans; [|done]. reflexivity. Qed.

Lemma nominal_range b n : schedule_ok b → nominal b = Ok n → 0 < n ∧ n <= b_maximum b.
Proof.
  intros (Hf & Hm & Hx & _ & _). unfold nominal, float_pow.
  destruct (_ || _); [done|]. intros [= <-]. split; [|apply py_min_le_r].
  apply py_min_pos; [|done]. apply Qmult_lt_0_compat; [done|]. by apply power_pos.
Qed.

(** The doubling is exact, and the overflow is at the 1024th doubling. *)
Lemma power_two n : Qpower FACTOR (Z.of_nat n) == inject_Z (2 ^ Z.of_nat n).
Proof. symmetry. apply Zpower_Qpower. lia. Qed.

Lemma overflow_compare n :
  Qle_bool FLOAT_OVERFLOW (Qpower FACTOR (Z.of_nat n)) = bool_decide (1024 <= n)%nat.
Proof.
  apply eq_iff_eq_true. rewrite Qle_bool_iff, bool_decide_eq_true, power_two.
  unfold FLOAT_OVERFLOW. rewrite <-Zle_Qle. split; intros Hn.
  - destruct (decide (1024 <= n)%nat); [done|]. exfalso.
    assert (2 ^ Z.of_nat n <= 2 ^ 1023)%Z as Hle by (apply Z.pow_le_mono_r; lia).
    assert (2 ^ 1023 < 2 ^ 1024 - 2 ^ 970)%Z by (vm_compute; reflexivity). lia.
  - assert (2 ^ 1024 <= 2 ^ Z.of_nat n)%Z as Hle by (apply Z.pow_le_mono_r; lia).
    assert (0 < 2 ^ 970)%Z by (vm_compute; reflexivity). lia.
Qed.

Lemma float_pow_two n :
  float_pow FACTOR n =
  if bool_decide (1024 <= n)%nat then Raise OverflowError
  else Ok (Qpower FACTOR (Z.of_nat n)).
Proof.
  unfold float_pow. rewrite overflow_compare.
  assert (Qle_bool FLOAT_OVERFLOW (- Qpower FACTOR (Z.of_nat n)) = false) as ->.
  { apply not_true_iff_false. rewrite Qle_bool_iff, power_two.
    unfold FLOAT_OVERFLOW. rewrite <-inject_Z_opp, <-Zle_Qle. intros Hle.
    assert (0 < 2 ^ Z.of_nat n)%Z by (apply Z.pow_pos_nonneg; lia).
    assert (0 < 2 ^ 1024 - 2 ^ 970)%Z by (vm_compute; reflexivity). lia. }
  by rewrite orb_false_r.
Qed.

Lemma py_min_proper a a' b : a == a' → py_min a b == py_min a' b.
Proof.
  intros Ha. unfold py_min. assert (Qle_bool a b = Qle_bool a' b) as ->.
  { apply eq_iff_eq_true. by rewrite !Qle_bool_iff, Ha. }
  by destruct (Qle_bool a' b).
Qed.

(** The nominal delay when no attempt has been counted. *)
Lemma nominal_first b :
  b_attempts b = 0%nat → ∃ m, nominal b = Ok m ∧ m == py_min (b_first b) (b_maximum b).
Proof.
  intros Hz. unfold nominal, float_pow. rewrite Hz. change (Qpower (b_factor b) (Z.of_nat 0)) with 1. cbv zeta.
  assert (Qle_bool FLOAT_OVERFLOW 1 || Qle_bool FLOAT_OVERFLOW (- (1)) = false) as ->
    by (vm_compute; reflexivity).
  eexists. split; [reflexivity|]. apply py_min_proper. apply Qmult_1_r.
Qed.

(** C29. Every delay the schedule hands out lies between the nominal delay less
    the jitter and the nominal delay, which is positive and never above the
    maximum; the attempt is counted; and after [reset] no attempt is counted and
    the next nominal delay is the first delay, or the maximum if that is less.
    With the module's defaults the nominal delay is defined for all of the first
    1024 attempts. *)
Theorem delay_bounds (b : Backoff) (n random : Q)
    (Hb : schedule_ok b) (Hn : nominal b = Ok n) (Hr : 0 <= random < 1) :
  (∃ d, next_delay random b = (set_attempts (S (b_attempts b)) b, Ok d) ∧
        n * (1 - b_jitter b) <= d ∧ d <= n ∧ 0 < n ∧ n <= b_maximum b) ∧
  (let again := reset (next_delay random b).1 in
   b_attempts again = 0%nat ∧
   ∃ m, nominal again = Ok m ∧ m == py_min (b_first b) (b_maximum b)) ∧
  (∀ k, (k < 1024)%nat → ∃ m, nominal (set_attempts k default_backoff) = Ok m).
Proof.
  destruct (nominal_range b n Hb Hn) as [Hpos Hmax].
  destruct Hb as (_ & _ & _ & Hj0 & Hj1), Hr as [Hr0 Hr1]. split_and!.
  - unfold next_delay, mbind, M_bind, get, lift_res, modify. rewrite Hn.
    eexists. split; [done|].
    assert (0 <= random * b_jitter b) by by apply Qmult_le_0_compat.
    assert (random * b_jitter b <= b_jitter b).
    { rewrite <-(Qmult_1_l (b_jitter b)) at 2. apply Qmult_le_compat_r; [|done].
      by apply Qlt_le_weak. }
    destruct (Qle_bool (b_jitter b) 0) eqn:E; [apply Qle_bool_iff in E|]; nra.
  - unfold next_delay, mbind, M_bind, get, lift_res, modify. rewrite Hn. cbv zeta.
    split; [done|]. exact (nominal_first (reset b) eq_refl).
  - intros k Hk. unfold nominal. cbn [b_factor b_attempts set_attempts default_backoff new_backoff].
    rewrite float_pow_two, bool_decide_false by lia. eexists. reflexivity.
Qed.

Lemma delay_bounds_witness :
  ∃ d, next_delay (1 # 2) (set_attempts 3 default_backoff)
       = (set_attempts 4 default_backoff, Ok d) ∧ d == 7.
Proof.
  assert (schedule_ok (set_attempts 3 default_backoff)) as H1
    by (repeat split; try reflexivity; intros Hc; discriminate Hc).
  assert (0 <= (1 # 2) < 1) as H2 by (split; [intros Hc; discriminate Hc|reflexivity]).
  destruct (delay_bounds (set_attempts 3 default_backoff) 8 (1 # 2) H1
              ltac:(vm_compute; reflexivity) H2) as [(d & Hd & _) _].
  exists d. split; [exact Hd|].
  assert ((next_delay (1 # 2) (set_attempts 3 default_backoff)).2 = Ok (56 # 8)) as Hv
    by (vm_compute; reflexivity).
  rewrite Hd in Hv. cbn [snd] in Hv. injection Hv as ->. reflexivity.
Defined.

(** The default schedule, attempt by attempt. *)
Lemma next_delay_default n random :
  ∃ d, next_delay random (set_attempts n default_backoff) =
  if bool_decide (1024 <= n)%nat then (set_attempts n default_backoff, Raise OverflowError)
  else (set_attempts (S n) default_backoff, Ok d).
Proof.
  unfold next_delay, mbind, M_bind, get, lift_res, modify, nominal.
  cbn [b_factor b_attempts set_attempts default_backoff new_backoff].
  rewrite float_pow_two. case_bool_decide; [by exists 0|]. by eexists.
Qed.

(** The schedule of the module's defaults breaks down at the 1025th attempt
    of one outage: [2.0 ** 1024] is not a double, so [next_delay] raises
    [OverflowError], and since the attempt is then not counted it raises again
    on every later call, whatever the jitter. *)
Theorem backoff_overflows (n : nat) (random : Q) :
  (1024 <= n)%nat ↔
  next_delay random (set_attempts n default_backoff)
  = (set_attempts n default_backoff, Raise OverflowError).
Proof.
  destruct (next_delay_default n random) as [d ->]. case_bool_decide; by split.
Qed.
