(* ===== verification/Conversation.v ===== *)
(** * Conversations and the events a view receives

    [im/client/model/conversation.py] and [im/client/model/events.py].  The id
    and the body of a message come from a decoded frame that nothing checks, so
    they are JSON values; the unread count only ever counts up from zero. *)

From S2P Require Import Prelude PyStr PyDict Json.

(** ** The Unicode tables of the interpreter *)
Class Casing := {
  to_lower : pystr → pystr;     (* str.lower *)
  to_upper : pystr → pystr;     (* str.upper *)
  to_title : pystr → pystr;     (* str.title *)
  casefold : pystr → pystr;     (* str.casefold *)
}.

Record Message := mkMessage {
  m_id : json;
  m_sender : pystr;
  m_body : json;
  m_ts : Z;
  m_mine : bool;
  m_state : pystr;
}.

(** [Message(...)] with its [state] left to the default. *)
Definition new_message (id : json) (sender : pystr) (body : json) (ts : Z) (mine : bool)
    : Message := mkMessage id sender body ts mine (&"SENT").

(** [dataclasses.replace(message, state=state)]. *)
Definition replace_state (m : Message) (state : pystr) : Message :=
  mkMessage (m_id m) (m_sender m) (m_body m) (m_ts m) (m_mine m) state.

Record Conversation := mkConversation {
  c_key : pystr;
  c_messages : list Message;
  c_unread : nat;
}.

Definition new_conversation (key : pystr) : Conversation := mkConversation key [] 0.

Definition is_room (c : Conversation) : bool := startswith (c_key c) (&"#").

Definition add (c : Conversation) (message : Message) (active : bool) : Conversation :=
  mkConversation (c_key c) (c_messages c ++ [message])
    (if negb active && negb (m_mine message) then S (c_unread c) else c_unread c).

Definition mark_read (c : Conversation) : Conversation * bool :=
  if decide (c_unread c = 0) then (c, false)
  else (mkConversation (c_key c) (c_messages c) 0, true).

Definition last_message (c : Conversation) : option Message := last (c_messages c).

Definition len (c : Conversation) : nat := length (c_messages c).

Record SearchHit := mkHit { h_key : pystr; h_message : Message }.

(** [body.casefold()] of a body that may not be a string. *)
Definition folded `{Casing} (body : json) : res pystr :=
  match body with JStr s => Ok (casefold s) | _ => Raise AttributeError end.

Definition snippet `{Casing} (h : SearchHit) (query : pystr) (width : nat) : res pystr :=
  text ← folded (m_body (h_message h));
  let body := default [] (as_str (m_body (h_message h))) in
  match find text (casefold (strip query)) with
  | None => Ok (take width body)
  | Some at_ =>
    let start := at_ - width `div` 3 in
    let stop := length body `min` (start + width) in
    Ok ((if decide (start = 0) then [] else &"...") ++ slice start stop body ++
        (if decide (stop < length body) then &"..." else []))
  end.

(** ** Events *)

Inductive Event :=
| IdentityEstablished (username : pystr)
| RosterReplaced (users : list pystr)
| PresenceChanged (user : pystr) (online : bool)
| MessageAdded (conversation : pystr) (message : Message)
| UnreadChanged (conversation : pystr) (unread : nat)
| ReceiptChanged (conversation : pystr) (message_id : pystr) (state : pystr)
| HistoryLoaded (conversation : pystr) (count : nat)
| TypingChanged (conversation : pystr) (users : list pystr)
| RoomMembersChanged (room : pystr) (members : list pystr)
| ConversationSelected (conversation : option pystr)
| ConnectionStateChanged (state : pystr)
| ErrorRaised (code message : pystr)
| ContactsChanged (contacts : list pystr).

(** The casing of ASCII text, on which the examples of the development run. *)
Definition ascii_lower (c : N) : N := (if (65 <=? c) && (c <=? 90) then c + 32 else c)%N.

Definition ascii_upper (c : N) : N := (if (97 <=? c) && (c <=? 122) then c - 32 else c)%N.

Definition ascii_letter (c : N) : bool :=
  ((65 <=? c) && (c <=? 90) || (97 <=? c) && (c <=? 122))%N.

(** The first letter of every run of letters in upper case. *)
Fixpoint ascii_title (fresh : bool) (s : pystr) : pystr :=
  match s with
  | [] => []
  | c :: s' => (if fresh then ascii_upper c else ascii_lower c) :: ascii_title (negb (ascii_letter c)) s'
  end.

Definition ascii_casing : Casing := {|
  to_lower s := ascii_lower <$> s;
  to_upper s := ascii_upper <$> s;
  to_title := ascii_title true;
  casefold s := ascii_lower <$> s;
|}.

Lemma add_unread c message active :
  c_unread (add c message active) = c_unread c ∨
  c_unread (add c message active) = S (c_unread c).
Proof. unfold add. cbn [c_unread]. destruct (_ && _); auto. Qed.

(** The excerpt of a hit is never longer than the width and two ellipses. *)
Lemma snippet_length `{Casing} h query width s :
  snippet h query width = Ok s → length s ≤ width + 6.
Proof.
  unfold snippet, slice. generalize (width `div` 3). intros k. destruct (folded _) as [text|]; [|done]. cbn [mbind res_bind].
  destruct (find _ _) as [at_|]; intros [= <-].
  - assert (∀ (P : Prop) (d : {P} + {¬ P}), length (if d then [] else &"...") ≤ 3 ∧
      length (if d then &"..." else []) ≤ 3) as Hd by (intros ? []; split; vm_compute; lia).
    rewrite !length_app, length_take.
    pose proof (proj1 (Hd _ (decide (at_ - k = 0)))).
    match goal with |- context [if ?d then &"..." else []] =>
      pose proof (proj2 (Hd _ d)) end. lia.
  - rewrite length_take. lia.
Qed.

Example snippet_ex :
  @snippet ascii_casing
    (mkHit (&"bob") (new_message (JStr (&"1")) (&"bob") (JStr (&"meet me at the old Mill at nine"))
       0 false)) (&" mill") 9 = Ok (&"...ld Mill a...").
Proof. reflexivity. Qed.
