(* ===== verification/ChatModel.v ===== *)
(** * ChatModel

    [im/client/model/chat.py].  The model is driven from one thread, so each
    method is a function from one state to the next.  A listener is code
    outside the model: it is a number, and [cm_calls] lists the calls
    [_emit] has made to the listeners, each with the model as the listener
    can read it while it is called. *)

From S2P Require Import Prelude PyStr PyDict Json Conversation.

Unset Elimination Schemes.
Inductive ChatModel := mkModel {
  cm_username : option pystr;
  cm_connection_state : pystr;
  cm_roster : list (pystr * bool);
  cm_contacts : list (pystr * bool);
  cm_conversations : list (pystr * Conversation);
  cm_rooms : list (pystr * list pystr);
  cm_typing : list (pystr * gset pystr);
  cm_active : option pystr;
  cm_listeners : list nat;
  cm_calls : list (nat * Event * ChatModel);
}.
Set Elimination Schemes.

(** [ChatModel()]. *)
Definition new_model : ChatModel :=
  mkModel None (&"DISCONNECTED") [] [] [] [] [] None [] [].

(** ** Assignments to one attribute *)

Definition set_username x m := mkModel x (cm_connection_state m) (cm_roster m)
  (cm_contacts m) (cm_conversations m) (cm_rooms m) (cm_typing m) (cm_active m)
  (cm_listeners m) (cm_calls m).
Definition set_state x m := mkModel (cm_username m) x (cm_roster m)
  (cm_contacts m) (cm_conversations m) (cm_rooms m) (cm_typing m) (cm_active m)
  (cm_listeners m) (cm_calls m).
Definition set_roster x m := mkModel (cm_username m) (cm_connection_state m) x
  (cm_contacts m) (cm_conversations m) (cm_rooms m) (cm_typing m) (cm_active m)
  (cm_listeners m) (cm_calls m).
Definition set_contacts x m := mkModel (cm_username m) (cm_connection_state m) (cm_roster m)
  x (cm_conversations m) (cm_rooms m) (cm_typing m) (cm_active m)
  (cm_listeners m) (cm_calls m).
Definition set_conversations x m := mkModel (cm_username m) (cm_connection_state m)
  (cm_roster m) (cm_contacts m) x (cm_rooms m) (cm_typing m) (cm_active m)
  (cm_listeners m) (cm_calls m).
Definition set_rooms x m := mkModel (cm_username m) (cm_connection_state m) (cm_roster m)
  (cm_contacts m) (cm_conversations m) x (cm_typing m) (cm_active m)
  (cm_listeners m) (cm_calls m).
Definition set_typists x m := mkModel (cm_username m) (cm_connection_state m) (cm_roster m)
  (cm_contacts m) (cm_conversations m) (cm_rooms m) x (cm_active m)
  (cm_listeners m) (cm_calls m).
Definition set_active x m := mkModel (cm_username m) (cm_connection_state m) (cm_roster m)
  (cm_contacts m) (cm_conversations m) (cm_rooms m) (cm_typing m) x
  (cm_listeners m) (cm_calls m).
Definition set_listeners x m := mkModel (cm_username m) (cm_connection_state m) (cm_roster m)
  (cm_contacts m) (cm_conversations m) (cm_rooms m) (cm_typing m) (cm_active m)
  x (cm_calls m).
Definition set_calls x m := mkModel (cm_username m) (cm_connection_state m) (cm_roster m)
  (cm_contacts m) (cm_conversations m) (cm_rooms m) (cm_typing m) (cm_active m)
  (cm_listeners m) x.

(** ** Observers *)

Definition subscribe (l : nat) (m : ChatModel) : ChatModel :=
  set_listeners (cm_listeners m ++ [l]) m.

(** [list.remove]: the first occurrence goes. *)
Fixpoint remove_first (l : nat) (ls : list nat) : list nat :=
  match ls with
  | [] => []
  | x :: ls' => if decide (x = l) then ls' else x :: remove_first l ls'
  end.

(** The function that [subscribe] returns. *)
Definition unsubscribe (l : nat) (m : ChatModel) : ChatModel :=
  set_listeners (remove_first l (cm_listeners m)) m.

(** The model without the history of its calls. *)
Definition visible (m : ChatModel) : ChatModel := set_calls [] m.

Definition _emit (e : Event) (m : ChatModel) : ChatModel :=
  set_calls (cm_calls m ++ ((λ l, (l, e, visible m)) <$> cm_listeners m)) m.

(** What a listener was called with: the events, each with the model at the time;
    and what it was called with since an earlier state of the model. *)
Definition heard_with (l : nat) (m : ChatModel) : list (ChatModel * Event) :=
  (λ c : nat * Event * ChatModel, (c.2, c.1.2)) <$> filter (λ c, c.1.1 = l) (cm_calls m).

Definition heard_since (l : nat) (before m : ChatModel) : list (ChatModel * Event) :=
  drop (length (heard_with l before)) (heard_with l m).

(** ** Identity and connection state *)

Definition set_identity (username : pystr) (m : ChatModel) : ChatModel :=
  _emit (IdentityEstablished username) (set_username (Some username) m).

Definition set_connection_state (state : pystr) (m : ChatModel) : ChatModel :=
  if decide (state = cm_connection_state m) then m
  else _emit (ConnectionStateChanged state) (set_state state m).

(** ** Roster and contacts *)

Definition replace_roster (users : list pystr) (m : ChatModel) : ChatModel :=
  let roster := foldl (λ d name, dict_set d name true) (cm_roster m) users in
  let roster := (λ kv : pystr * bool,
                   (kv.1, if decide (kv.1 ∈ users) then kv.2 else false)) <$> roster in
  _emit (RosterReplaced (sorted (dict_keys roster))) (set_roster roster m).

(** [for x in value], for a decoded value. *)
Definition py_iter (j : json) : res (list json) :=
  match j with
  | JList l => Ok l
  | JStr s => Ok ((λ c, JStr [c]) <$> s)
  | JObj d => Ok ((λ kv, JStr kv.1) <$> d)
  | _ => Raise TypeError
  end.

(** [entry.get(key)]. *)
Definition entry_get (entry : json) (key : pystr) : res json :=
  match entry with JObj d => Ok (jget d key) | _ => Raise AttributeError end.

(** The dict comprehension of [replace_contacts]. *)
Definition fresh_contacts `{Runtime} (entries : list json) : res (list (pystr * bool)) :=
  foldl (λ acc entry,
    d ← acc;
    user ← entry_get entry (&"user");
    if truthy user then
      online ← entry_get entry (&"online");
      Ok (dict_set d (py_str user) (truthy online))
    else Ok d) (Ok []) entries.

(** [a == b] of two dicts, whatever their order. *)
Definition dict_eqb (a b : list (pystr * bool)) : bool :=
  bool_decide (length a = length b) &&
  forallb (λ kv, bool_decide (dict_get b kv.1 = Some kv.2)) a.

Definition replace_contacts `{Runtime} (contacts : json) (m : ChatModel) : res ChatModel :=
  entries ← py_iter contacts;
  fresh ← fresh_contacts entries;
  if dict_eqb fresh (cm_contacts m) then Ok m
  else
    let roster := foldl (λ d kv, dict_setdefault d kv.1 kv.2) (cm_roster m) fresh in
    Ok (_emit (ContactsChanged (sorted (dict_keys fresh)))
          (set_roster roster (set_contacts fresh m))).

Definition is_online (m : ChatModel) (user : pystr) : bool :=
  default false (dict_get (cm_roster m) user).

Definition set_presence (user : pystr) (online : bool) (m : ChatModel) : ChatModel :=
  let m := if dict_has (cm_contacts m) user
           then set_contacts (dict_set (cm_contacts m) user online) m else m in
  if decide (dict_get (cm_roster m) user = Some online) then m
  else _emit (PresenceChanged user online) (set_roster (dict_set (cm_roster m) user online) m).

(** Comparing the sort keys [(flag, text)]: False comes before True. *)
Definition key_leb (a b : bool * pystr) : bool :=
  if eqb a.1 b.1 then str_leb a.2 b.2 else negb a.1.

Definition sorted_on {A} (key : A → bool * pystr) (l : list A) : list A :=
  sorted_by (λ a b, key_leb (key a) (key b)) l.

Definition contact_names `{Casing} (m : ChatModel) : list pystr :=
  sorted_on (λ name, (negb (is_online m name), to_lower name))
    (filter (λ name, name ≠ [] ∧ Some name ≠ cm_username m) (dict_keys (cm_contacts m))).

Definition online_users (m : ChatModel) : list pystr :=
  sorted (dict_keys (filter (λ kv : pystr * bool, kv.2 = true) (cm_roster m))).

(** ** Conversations *)

(** [self.conversation(key)]: the model afterwards and the conversation. *)
Definition conversation (key : pystr) (m : ChatModel) : ChatModel * Conversation :=
  match dict_get (cm_conversations m) key with
  | Some existing => (m, existing)
  | None => let fresh := new_conversation key in
            (set_conversations (dict_set (cm_conversations m) key fresh) m, fresh)
  end.

(** A change to the conversation object that the dict holds under [key]. *)
Definition put_conversation (key : pystr) (c : Conversation) (m : ChatModel) : ChatModel :=
  set_conversations (dict_set (cm_conversations m) key c) m.

Definition set_typing (key user : pystr) (typing : bool) (m : ChatModel) : ChatModel :=
  let before := default ∅ (dict_get (cm_typing m) key) in
  let who := if typing then {[user]} ∪ before else before ∖ {[user]} in
  let m := set_typists (dict_set (cm_typing m) key who) m in
  if decide (who = before) then m
  else _emit (TypingChanged key (sorted (elements who))) m.

Definition add_message (key : pystr) (message : Message) (m : ChatModel) : ChatModel :=
  let '(m, c) := conversation key m in
  let c' := add c message (bool_decide (Some key = cm_active m)) in
  let m := put_conversation key c' m in
  let m := if m_mine message then m else set_typing key (m_sender message) false m in
  let m := _emit (MessageAdded key message) m in
  if decide (c_unread c' = c_unread c) then m
  else _emit (UnreadChanged key (c_unread c')) m.

Definition load_history (key : pystr) (messages : list Message) (m : ChatModel) : ChatModel :=
  let '(m, c) := conversation key m in
  _emit (HistoryLoaded key (length messages))
    (put_conversation key (mkConversation (c_key c) messages (c_unread c)) m).

(** [order.get(state, 0)]. *)
Definition receipt_order (state : pystr) : nat :=
  default 0 (dict_get [(&"SENT", 0); (&"DELIVERED", 1); (&"READ", 2)] state).

(** The loop of [set_receipt]: the messages afterwards, unless none changed. *)
Fixpoint receipt_loop (message_id state : pystr) (l : list Message) : option (list Message) :=
  match l with
  | [] => None
  | message :: l' =>
    if decide (as_str (m_id message) = Some message_id) then
      if decide (receipt_order state ≤ receipt_order (m_state message)) then None
      else Some (replace_state message state :: l')
    else (λ rest, message :: rest) <$> receipt_loop message_id state l'
  end.

Definition set_receipt (key message_id state : pystr) (m : ChatModel) : ChatModel :=
  match dict_get (cm_conversations m) key with
  | None => m
  | Some c =>
    match receipt_loop message_id state (c_messages c) with
    | None => m
    | Some messages =>
      _emit (ReceiptChanged key message_id state)
        (put_conversation key (mkConversation (c_key c) messages (c_unread c)) m)
    end
  end.

Definition select (key : option pystr) (m : ChatModel) : ChatModel :=
  let m := _emit (ConversationSelected key) (set_active key m) in
  match key with
  | None => m
  | Some k =>
    let '(m, c) := conversation k m in
    match mark_read c with
    | (c', true) => _emit (UnreadChanged k 0) (put_conversation k c' m)
    | (_, false) => m
    end
  end.

Definition unread_total (m : ChatModel) : nat :=
  sum_list (c_unread <$> (cm_conversations m).*2).

(** ** Search *)

Definition hits_of `{Casing} (needle : pystr) (kc : pystr * Conversation)
    : res (list SearchHit) :=
  foldr (λ message acc,
    text ← folded (m_body message);
    rest ← acc;
    Ok (if contains text needle then mkHit kc.1 message :: rest else rest))
    (Ok []) (c_messages kc.2).

Definition search `{Casing} (query : pystr) (limit : nat) (m : ChatModel)
    : res (list SearchHit) :=
  let needle := casefold (strip query) in
  if decide (needle = []) then Ok []
  else
    hits ← mapR (hits_of needle) (cm_conversations m);
    Ok (take limit (sorted_by
          (λ a b, (m_ts (h_message b) <=? m_ts (h_message a))%Z) (concat hits))).

Definition keys `{Casing} (m : ChatModel) : list pystr :=
  sorted_on (λ k, (negb (startswith k (&"#")), to_lower k)) (dict_keys (cm_conversations m)).

(** ** Typing, rooms and errors *)

Definition typing_in (m : ChatModel) (key : pystr) : list pystr :=
  sorted (elements (default ∅ (dict_get (cm_typing m) key))).

Definition set_room_members (room : pystr) (members : list pystr) (m : ChatModel) : ChatModel :=
  let ordered := sorted members in
  if decide (dict_get (cm_rooms m) room = Some ordered) then m
  else
    let m := set_rooms (dict_set (cm_rooms m) room ordered) m in
    let '(m, _) := conversation room m in
    _emit (RoomMembersChanged room ordered) m.

Definition room_members (m : ChatModel) (room : pystr) : list pystr :=
  default [] (dict_get (cm_rooms m) room).

Definition my_rooms (m : ChatModel) : list pystr :=
  match cm_username m with
  | None => []
  | Some me => sorted (dict_keys (filter (λ kv : pystr * list pystr, me ∈ kv.2) (cm_rooms m)))
  end.

Definition raise_error (code message : pystr) (m : ChatModel) : ChatModel :=
  _emit (ErrorRaised code message) m.
