(* ===== verification/ChatModelFacts.v ===== *)
(** * What the chat model keeps

    The promise of [im/client/model/chat.py] that a view which renders on events
    alone is never behind: a view is a function of the events it heard, and it
    agrees with the model after any operations. *)

From S2P Require Import Prelude PyStr PyDict Json Conversation ChatModel.

(** ** The operations of the model as data *)

Inductive op :=
| Identity (username : pystr)
| ConnectionStateIs (state : pystr)
| Roster (users : list pystr)
| Contacts (contacts : json)
| Presence (user : pystr) (online : bool)
| Open (key : pystr)
| Add (key : pystr) (message : Message)
| History (key : pystr) (messages : list Message)
| Receipt (key message_id state : pystr)
| Select (key : option pystr)
| Typing (key user : pystr) (typing : bool)
| Members (room : pystr) (members : list pystr)
| Error (code message : pystr)
| Subscribe (listener : nat)
| Unsubscribe (listener : nat).

(** A call that raises leaves the model as it was. *)
Definition run_op `{Runtime} (m : ChatModel) (o : op) : ChatModel :=
  match o with
  | Identity u => set_identity u m
  | ConnectionStateIs s => set_connection_state s m
  | Roster us => replace_roster us m
  | Contacts j => match replace_contacts j m with Ok m' => m' | Raise _ => m end
  | Presence u b => set_presence u b m
  | Open k => (conversation k m).1
  | Add k x => add_message k x m
  | History k xs => load_history k xs m
  | Receipt k i s => set_receipt k i s m
  | Select k => select k m
  | Typing k u b => set_typing k u b m
  | Members r us => set_room_members r us m
  | Error c t => raise_error c t m
  | Subscribe l => subscribe l m
  | Unsubscribe l => unsubscribe l m
  end.

Definition run_ops `{Runtime} (m : ChatModel) (os : list op) : ChatModel := foldl run_op m os.

(** ** A view: what can be known from the events alone *)

Record view := mkView {
  v_username : option pystr;
  v_state : pystr;
  v_active : option pystr;
  v_unread : gmap pystr nat;
  v_typing : gmap pystr (list pystr);
  v_rooms : gmap pystr (list pystr);
  v_contacts : list pystr;
}.

(** The model a view starts from is the empty one. *)
Definition blank : view := mkView None (&"DISCONNECTED") None ∅ ∅ ∅ [].

Definition see (v : view) (e : Event) : view :=
  match e with
  | IdentityEstablished u => mkView (Some u) (v_state v) (v_active v) (v_unread v)
      (v_typing v) (v_rooms v) (v_contacts v)
  | ConnectionStateChanged s => mkView (v_username v) s (v_active v) (v_unread v)
      (v_typing v) (v_rooms v) (v_contacts v)
  | ConversationSelected k => mkView (v_username v) (v_state v) k (v_unread v)
      (v_typing v) (v_rooms v) (v_contacts v)
  | UnreadChanged k n => mkView (v_username v) (v_state v) (v_active v) (<[k:=n]> (v_unread v))
      (v_typing v) (v_rooms v) (v_contacts v)
  | TypingChanged k us => mkView (v_username v) (v_state v) (v_active v) (v_unread v)
      (<[k:=us]> (v_typing v)) (v_rooms v) (v_contacts v)
  | RoomMembersChanged r us => mkView (v_username v) (v_state v) (v_active v) (v_unread v)
      (v_typing v) (<[r:=us]> (v_rooms v)) (v_contacts v)
  | ContactsChanged us => mkView (v_username v) (v_state v) (v_active v) (v_unread v)
      (v_typing v) (v_rooms v) us
  | _ => v
  end.

(** The events one listener was called with. *)
Definition heard (l : nat) (m : ChatModel) : list Event :=
  (filter (λ c : nat * Event * ChatModel, c.1.1 = l) (cm_calls m)).*1.*2.

Definition unread_in (m : ChatModel) (key : pystr) : nat :=
  default 0 (c_unread <$> dict_get (cm_conversations m) key).

(** The view shows what the model holds. *)
Record in_step (v : view) (m : ChatModel) : Prop := {
  in_username : v_username v = cm_username m;
  in_state : v_state v = cm_connection_state m;
  in_active : v_active v = cm_active m;
  in_unread k : default 0 (v_unread v !! k) = unread_in m k;
  in_typing k : default [] (v_typing v !! k) = typing_in m k;
  in_rooms r : default [] (v_rooms v !! r) = room_members m r;
  in_contacts : v_contacts v = sorted (dict_keys (cm_contacts m));
}.

(** Exactly one subscription of this listener is alive. *)
Definition subscribed (l : nat) (m : ChatModel) : Prop :=
  filter (λ x, x = l) (cm_listeners m) = [l].

(** [follows m m']: from [m] to [m'] the same listeners stay, and the events
    emitted on the way are enough to follow the change. *)
Definition follows (m m' : ChatModel) : Prop :=
  cm_listeners m' = cm_listeners m ∧
  ∃ es, (∀ l, subscribed l m → heard l m' = heard l m ++ es) ∧
        ∀ v, in_step v m → in_step (foldl see v es) m'.

Lemma follows_refl m : follows m m.
Proof. split; [done|]. exists []. split; [intros; by rewrite app_nil_r|done]. Qed.

Lemma follows_trans m1 m2 m3 : follows m1 m2 → follows m2 m3 → follows m1 m3.
Proof.
  intros (Hl1 & es1 & Hh1 & Hv1) (Hl2 & es2 & Hh2 & Hv2). split; [congruence|].
  exists (es1 ++ es2). split.
  - intros l Hl. rewrite app_assoc, <-Hh1 by done. apply Hh2.
    unfold subscribed. by rewrite Hl1.
  - intros v Hv. rewrite foldl_app. auto.
Qed.

(** A silent change that shows nowhere. *)
Lemma follows_silent m m' :
  cm_listeners m' = cm_listeners m → cm_calls m' = cm_calls m →
  (∀ v, in_step v m → in_step v m') → follows m m'.
Proof.
  intros Hl Hc Hv. split; [done|]. exists []. split; [|done].
  intros l _. unfold heard. by rewrite Hc, app_nil_r.
Qed.

Lemma heard_emit l e m : subscribed l m → heard l (_emit e m) = heard l m ++ [e].
Proof.
  unfold subscribed, heard, _emit. cbn [cm_calls set_calls cm_listeners]. intros Hs.
  rewrite filter_app, !fmap_app. f_equal. generalize (visible m). intros seen.
  assert (∀ ls : list nat, filter (λ c : nat * Event * ChatModel, c.1.1 = l)
            ((λ x, (x, e, seen)) <$> ls)
          = (λ x, (x, e, seen)) <$> filter (λ x, x = l) ls) as ->; [|by rewrite Hs].
  intros ls. induction ls as [|x ls IH]; [done|]. rewrite fmap_cons, !filter_cons.
  cbn [fst]. case_decide; rewrite ?fmap_cons, IH; done.
Qed.

(** One event that tells of a change. *)
Lemma follows_event e m m' :
  cm_listeners m' = cm_listeners m → cm_calls m' = cm_calls m →
  (∀ v, in_step v m → in_step (see v e) m') → follows m (_emit e m').
Proof.
  intros Hl Hc Hv. split; [done|]. exists [e]. split.
  - intros l Hs. assert (heard l m = heard l m') as -> by (unfold heard; by rewrite Hc).
    apply heard_emit. unfold subscribed. by rewrite Hl.
  - intros v Hin. destruct (Hv v Hin). by constructor.
Qed.

(** An attribute the event does not speak about is unchanged. *)
Ltac same := match goal with H : in_step _ _ |- _ =>
  destruct H as [Hu Hs Ha Hn Ht Hr Hco]; constructor;
  cbn [see v_username v_state v_active v_unread v_typing v_rooms v_contacts]; try done end.

Lemma conversation_follows k m : follows m (conversation k m).1.
Proof.
  unfold conversation. destruct (dict_get _ _) as [c|] eqn:E; [apply follows_refl|].
  apply follows_silent; [done..|]. intros v Hv. same. intros k'. rewrite Hn.
  unfold unread_in. cbn. rewrite dict_get_set.
  case_decide; [subst; by rewrite E|done].
Qed.

Lemma conversation_get k m m' c :
  conversation k m = (m', c) → dict_get (cm_conversations m') k = Some c.
Proof.
  unfold conversation. destruct (dict_get _ _) eqn:E; intros [= <- <-]; [done|].
  cbn. apply dict_get_set_eq.
Qed.

(** Putting a conversation back with the same unread count shows nowhere. *)
Lemma put_unread k c m k' :
  unread_in (put_conversation k c m) k' = if decide (k' = k) then c_unread c else unread_in m k'.
Proof.
  unfold unread_in, put_conversation. cbn [cm_conversations set_conversations].
  rewrite dict_get_set. by case_decide.
Qed.

Lemma set_typing_follows k u b m : follows m (set_typing k u b m).
Proof.
  unfold set_typing. set (before := default ∅ (dict_get (cm_typing m) k)).
  set (who := if b then {[u]} ∪ before else before ∖ {[u]}).
  assert (∀ v, in_step v m → ∀ k', k' ≠ k →
    default [] (v_typing v !! k') = typing_in (set_typists (dict_set (cm_typing m) k who) m) k')
    as Hother.
  { intros v [] k' Hk. rewrite in_typing0. unfold typing_in. cbn.
    by rewrite dict_get_set_ne. }
  case_decide as Hw.
  - apply follows_silent; [done..|]. intros v Hv. pose proof (Hother v Hv) as Ho. same.
    intros k'. destruct (decide (k' = k)) as [->|]; [|by apply Ho].
    rewrite Ht. unfold typing_in. cbn. rewrite dict_get_set_eq. cbn. by rewrite Hw.
  - apply follows_event; [done..|]. intros v Hv. pose proof (Hother v Hv) as Ho. same.
    intros k'. destruct (decide (k' = k)) as [->|].
    + rewrite lookup_insert_eq. unfold typing_in. cbn. by rewrite dict_get_set_eq.
    + rewrite lookup_insert_ne by done. by apply Ho.
Qed.

Lemma put_follows k c m :
  unread_in m k = c_unread c → follows m (put_conversation k c m).
Proof.
  intros Heq. apply follows_silent; [done..|]. intros v Hv. same.
  intros k'. rewrite Hn, put_unread. case_decide; [by subst|done].
Qed.

Lemma put_event_follows k c m :
  follows m (_emit (UnreadChanged k (c_unread c)) (put_conversation k c m)).
Proof.
  apply follows_event; [done..|]. intros v Hv. same. intros k'. rewrite put_unread.
  case_decide as Hk; [subst; by rewrite lookup_insert_eq|].
  by rewrite lookup_insert_ne by done.
Qed.

(** An event that only repeats what is shown elsewhere. *)
Lemma emit_follows e m : (∀ v, in_step v m → in_step (see v e) m) → follows m (_emit e m).
Proof. intros. by apply follows_event. Qed.

Ltac emit_only := apply emit_follows; intros v Hv; exact Hv.

(** ** Models that differ in what a listener saw while it was called *)

Definition alike (m m' : ChatModel) : Prop :=
  visible m = visible m' ∧ (cm_calls m).*1 = (cm_calls m').*1.

Lemma heard_calls l m :
  heard l m = (filter (λ c : nat * Event, c.1 = l) (cm_calls m).*1).*2.
Proof.
  unfold heard. f_equal. induction (cm_calls m) as [|[[l' e] s] cs IH]; [done|].
  rewrite fmap_cons, !filter_cons. cbn [fst]. by case_decide; rewrite ?fmap_cons, IH.
Qed.

Lemma follows_alike m m1 m2 : alike m1 m2 → follows m m1 → follows m m2.
Proof.
  intros [Hv Hc] (Hl & es & Hh & Hs). split.
  { transitivity (cm_listeners m1); [|done]. by injection Hv. }
  exists es. split.
  - intros l Hsub. rewrite <-Hh by done. by rewrite !heard_calls, Hc.
  - intros v Hin. destruct (Hs v Hin), m1, m2. unfold visible in Hv. cbn in *.
    injection Hv as <- <- <- <- <- <- <- <- <-. by constructor.
Qed.

Lemma emit_alike e m m' : alike m m' → alike (_emit e m) (_emit e m').
Proof.
  intros [Hv Hc]. split; [exact Hv|]. cbn. rewrite !fmap_app, Hc. f_equal.
  rewrite <-!list_fmap_compose. f_equal. change (cm_listeners m) with (cm_listeners (visible m)).
  by rewrite Hv.
Qed.

Lemma put_emit_alike k c e m : alike (put_conversation k c (_emit e m)) (_emit e (put_conversation k c m)).
Proof. split; [done|]. cbn. rewrite !fmap_app, <-!list_fmap_compose. done. Qed.

Lemma put_set_typing k c u b m :
  alike (put_conversation k c (set_typing k u b m)) (set_typing k u b (put_conversation k c m)).
Proof. unfold set_typing. cbn. case_decide; [done|]. apply put_emit_alike. Qed.

(** [add_message], with the assignments put after the events that do not speak
    about them. *)
Lemma add_message_alike k x m :
  let '(m1, c) := conversation k m in
  let c' := add c x (bool_decide (Some k = cm_active m1)) in
  let m2 := _emit (MessageAdded k x)
              (if m_mine x then m1 else set_typing k (m_sender x) false m1) in
  alike (if decide (c_unread c' = c_unread c) then put_conversation k c' m2
         else _emit (UnreadChanged k (c_unread c')) (put_conversation k c' m2))
        (add_message k x m).
Proof.
  destruct (conversation k m) as [m1 c] eqn:E. unfold add_message. rewrite E. cbv zeta.
  set (c' := add c x _).
  assert (alike (put_conversation k c' (_emit (MessageAdded k x)
      (if m_mine x then m1 else set_typing k (m_sender x) false m1)))
    (_emit (MessageAdded k x) (if m_mine x then put_conversation k c' m1
      else set_typing k (m_sender x) false (put_conversation k c' m1)))) as Ha.
  { destruct (m_mine x); [apply put_emit_alike|].
    destruct (put_emit_alike k c' (MessageAdded k x) (set_typing k (m_sender x) false m1)) as [E1 E2].
    destruct (emit_alike (MessageAdded k x) _ _ (put_set_typing k c' (m_sender x) false m1)) as [E3 E4].
    split; [by rewrite E1|by rewrite E2]. }
  case_decide; [done|by apply emit_alike].
Qed.

Lemma set_typing_conversations k u b m :
  cm_conversations (set_typing k u b m) = cm_conversations m.
Proof. unfold set_typing. by case_decide. Qed.

Lemma add_message_follows k x m : follows m (add_message k x m).
Proof.
  pose proof (add_message_alike k x m) as Heq. pose proof (conversation_follows k m) as Hf.
  destruct (conversation k m) as [m1 c] eqn:E. cbv zeta in Heq.
  eapply follows_alike; [exact Heq|]. clear Heq.
  apply conversation_get in E. eapply follows_trans; [exact Hf|]. cbn [fst].
  set (m2 := if m_mine x then m1 else _).
  apply (follows_trans _ m2).
  { unfold m2. destruct (m_mine x); [apply follows_refl|apply set_typing_follows]. }
  apply (follows_trans _ (_emit (MessageAdded k x) m2)); [emit_only|].
  case_decide as Hu; [|apply put_event_follows].
  apply put_follows. rewrite Hu. unfold unread_in. cbn [cm_conversations _emit set_calls].
  unfold m2. destruct (m_mine x); rewrite ?set_typing_conversations, E; done.
Qed.

Lemma load_history_follows k xs m : follows m (load_history k xs m).
Proof.
  unfold load_history. pose proof (conversation_follows k m) as Hf.
  destruct (conversation k m) as [m1 c] eqn:E. apply conversation_get in E.
  eapply follows_trans; [exact Hf|]. cbn [fst].
  eapply follows_trans; [apply (put_follows k (mkConversation (c_key c) xs (c_unread c)))|].
  { unfold unread_in. by rewrite E. }
  emit_only.
Qed.

Lemma set_receipt_follows k i s m : follows m (set_receipt k i s m).
Proof.
  unfold set_receipt. destruct (dict_get _ _) as [c|] eqn:E; [|apply follows_refl].
  destruct (receipt_loop i s _) as [xs|]; [|apply follows_refl].
  eapply follows_trans; [apply (put_follows k (mkConversation (c_key c) xs (c_unread c)))|].
  { unfold unread_in. by rewrite E. }
  emit_only.
Qed.

Lemma select_follows k m : follows m (select k m).
Proof.
  unfold select.
  assert (follows m (_emit (ConversationSelected k) (set_active k m))) as Hsel.
  { apply follows_event; [done..|]. intros v Hv. same. }
  destruct k as [k|]; [|done]. eapply follows_trans; [exact Hsel|].
  pose proof (conversation_follows k (_emit (ConversationSelected (Some k))
    (set_active (Some k) m))) as Hf.
  destruct (conversation k _) as [m1 c] eqn:E. cbn [fst] in Hf.
  eapply follows_trans; [exact Hf|]. unfold mark_read. case_decide; [apply follows_refl|].
  apply (put_event_follows k (mkConversation (c_key c) (c_messages c) 0)).
Qed.

Lemma set_room_members_follows r us m : follows m (set_room_members r us m).
Proof.
  unfold set_room_members. case_decide as Hd; [apply follows_refl|].
  set (m1 := set_rooms (dict_set (cm_rooms m) r (sorted us)) m).
  pose proof (conversation_follows r m) as (Hl & es & Hh & Hv).
  assert (conversation r m1 = (set_rooms (dict_set (cm_rooms m) r (sorted us))
    (conversation r m).1, (conversation r m).2)) as ->.
  { unfold conversation, m1. cbn. by destruct (dict_get (cm_conversations m) r). }
  eapply follows_trans; [apply (conversation_follows r)|].
  apply follows_event; [done..|]. intros v Hin. same. intros r'. unfold room_members. cbn.
  rewrite dict_get_set. case_decide as Hr'; [subst; by rewrite lookup_insert_eq|].
  rewrite lookup_insert_ne by done. rewrite Hr. unfold room_members.
  unfold conversation. by destruct (dict_get (cm_conversations m) r).
Qed.

Lemma dict_eqb_keys a b : dict_ok a → dict_ok b → dict_eqb a b = true →
  sorted (dict_keys a) = sorted (dict_keys b).
Proof.
  unfold dict_eqb. intros Ha Hb [Hlen Hall]%andb_true_iff.
  apply bool_decide_eq_true in Hlen. apply sorted_proper.
  apply submseteq_length_Permutation; [|unfold dict_keys; by rewrite !length_fmap, Hlen].
  apply NoDup_submseteq; [done|].
  intros k Hk. apply list_elem_of_fmap in Hk as ([k' x] & -> & Hin).
  rewrite forallb_forall in Hall. specialize (Hall (k', x)).
  rewrite <-list_elem_of_In in Hall. apply Hall, bool_decide_eq_true in Hin.
  apply dict_get_is_Some. by rewrite Hin.
Qed.

Lemma fresh_contacts_ok `{Runtime} entries d : fresh_contacts entries = Ok d → dict_ok d.
Proof.
  unfold fresh_contacts.
  assert (∀ acc, (∀ d, acc = Ok d → dict_ok d) → ∀ d,
    foldl (λ acc entry, d ← acc; user ← entry_get entry (&"user");
      if truthy user then online ← entry_get entry (&"online");
        Ok (dict_set d (py_str user) (truthy online)) else Ok d) acc entries = Ok d → dict_ok d)
    as Hgen; [|apply Hgen; intros ? [= <-]; constructor].
  induction entries as [|e es IH]; intros acc Hacc d'; [apply Hacc|]. cbn [foldl]. apply IH.
  intros d0. destruct acc as [d1|]; [|done]. specialize (Hacc d1 eq_refl). cbn [mbind res_bind].
  destruct (entry_get e (&"user")) as [u|]; [|done]. cbn [mbind res_bind].
  destruct (truthy u); [|by intros [= <-]].
  destruct (entry_get e (&"online")) as [o|]; [|done]. cbn [mbind res_bind]. intros [= <-]. by apply dict_set_ok.
Qed.

Lemma replace_contacts_follows `{Runtime} j m m' :
  replace_contacts j m = Ok m' → follows m m'.
Proof.
  unfold replace_contacts. destruct (py_iter j) as [es|]; [|done]. cbn [mbind res_bind].
  destruct (fresh_contacts es) as [d|]; [|done]. cbn [mbind res_bind].
  destruct (dict_eqb _ _); intros [= <-]; [apply follows_refl|].
  apply follows_event; [done..|]. intros v Hv. same.
Qed.

Lemma set_presence_follows u b m : follows m (set_presence u b m).
Proof.
  unfold set_presence. destruct (dict_has (cm_contacts m) u) eqn:E.
  - eapply (follows_trans _ (set_contacts (dict_set (cm_contacts m) u b) m)).
    + apply follows_silent; [done..|]. intros v Hv. same. rewrite Hco.
      cbn [cm_contacts set_contacts]. by rewrite dict_set_keys by by apply dict_has_true.
    + case_decide; [apply follows_refl|]. apply follows_event; [done..|]. intros v Hv. same.
  - case_decide; [apply follows_refl|]. apply follows_event; [done..|]. intros v Hv. same.
Qed.

(** Every operation but a subscription can be followed. *)
Lemma run_op_follows `{Runtime} m o :
  (∀ l, o ≠ Subscribe l ∧ o ≠ Unsubscribe l) → follows m (run_op m o).
Proof.
  intros Hno. destruct o as [u|s|us|j|u b|k|k x|k xs|k i s|k|k u b|r us|c t|l|l]; cbn [run_op].
  - apply follows_event; [done..|]. intros v Hv. same.
  - unfold set_connection_state. case_decide; [apply follows_refl|].
    apply follows_event; [done..|]. intros v Hv. same.
  - apply follows_event; [done..|]. intros v Hv. same.
  - destruct (replace_contacts j m) eqn:E; [by eapply replace_contacts_follows|apply follows_refl].
  - apply set_presence_follows.
  - apply conversation_follows.
  - apply add_message_follows.
  - apply load_history_follows.
  - apply set_receipt_follows.
  - apply select_follows.
  - apply set_typing_follows.
  - apply set_room_members_follows.
  - emit_only.
  - by destruct (Hno l).
  - by destruct (Hno l).
Qed.

Lemma filter_remove_first l l' ls :
  l' ≠ l → filter (λ x, x = l) (remove_first l' ls) = filter (λ x, x = l) ls.
Proof.
  intros Hne. induction ls as [|x ls IH]; [done|]. cbn [remove_first].
  case_decide as Hx; [by rewrite filter_cons_False by congruence|].
  rewrite !filter_cons. by rewrite IH.
Qed.

(** An attached view that is up to date. *)
Definition tracked (l : nat) (m : ChatModel) : Prop :=
  subscribed l m ∧ in_step (foldl see blank (heard l m)) m.

Lemma follows_tracked l m m' : follows m m' → tracked l m → tracked l m'.
Proof.
  intros (Hl & es & Hh & Hv) [Hs Hi]. split; [unfold subscribed; by rewrite Hl|].
  rewrite Hh, foldl_app by done. auto.
Qed.

Lemma run_op_tracked `{Runtime} l m o :
  o ≠ Subscribe l → o ≠ Unsubscribe l → tracked l m → tracked l (run_op m o).
Proof.
  intros Ho1 Ho2 Ht. assert ((∃ l', o = Subscribe l' ∨ o = Unsubscribe l') ∨
    ∀ l', o ≠ Subscribe l' ∧ o ≠ Unsubscribe l') as [Hs|Hs]
    by (destruct o; first [left; eexists; by auto | by right]).
  - destruct Ht as [Hsub Hin], Hs as [l' [->| ->]]; (split; [|by destruct Hin]);
      unfold subscribed in *; cbn [run_op subscribe unsubscribe cm_listeners set_listeners].
    + rewrite filter_app, Hsub, filter_cons_False by congruence. done.
    + rewrite filter_remove_first by congruence. done.
  - eapply follows_tracked; [|done]. by apply run_op_follows.
Qed.

(** C11. A view that renders on events alone is never behind.  Attached to a new
    model, and whatever operations follow (messages, history, receipts,
    contact lists, presence, typing, rooms, other views coming and going), the
    user name, the connection state, the chat on screen, the unread count of
    every conversation, who is typing where, the members of every room and the
    contact names, as computed from the events it was called with, are those
    the model holds. *)
Theorem views_in_step `{Runtime} (l : nat) (os : list op)
    (Hos : Forall (λ o, o ≠ Subscribe l ∧ o ≠ Unsubscribe l) os) :
  let m := run_ops (subscribe l new_model) os in
  in_step (foldl see blank (heard l m)) m.
Proof.
  assert (tracked l (subscribe l new_model)) as H0.
  { split; [unfold subscribed; cbn; by rewrite decide_True|]. by constructor. }
  intros m. enough (tracked l m) by by destruct H1. unfold m, run_ops. clear m.
  generalize dependent (subscribe l new_model).
  induction Hos as [|o os [Ho1 Ho2] _ IH]; intros m0 Hm0; [done|].
  apply IH. by apply run_op_tracked.
Qed.

(** Two messages from bob, one read, one not, while another view comes and goes. *)
Definition sample : list op :=
  [Identity (&"alice"); Subscribe 3; Add (&"bob") (new_message (JStr (&"1")) (&"bob") (JStr (&"hi")) 5 false);
   Typing (&"bob") (&"bob") true; Select (Some (&"bob")); Unsubscribe 3; Select None;
   Add (&"bob") (new_message (JStr (&"2")) (&"bob") (JStr (&"still there?")) 9 false)].

Lemma views_in_step_witness :
  let m := @run_ops plain_runtime (subscribe 7 new_model) sample in
  unread_in m (&"bob") = 1 ∧ length (heard 7 m) = 10 ∧ in_step (foldl see blank (heard 7 m)) m.
Proof.
  assert (Forall (λ o, o ≠ Subscribe 7 ∧ o ≠ Unsubscribe 7) sample) as Hs
    by (repeat constructor; discriminate).
  split; [vm_compute; reflexivity|]. split; [vm_compute; reflexivity|].
  exact (@views_in_step plain_runtime 7 sample Hs).
Defined.
