(* ===== verification/Events.v ===== *)
(** * What an observer is called with

    The events of an operation of the model, each with the model as it is when the
    event is emitted: what the observers of both views work on. *)

From S2P Require Import Prelude PyStr PyDict Json Conversation ChatModel ChatModelFacts.

Lemma conversation_snd m k :
  (conversation k m).2 = default (new_conversation k) (dict_get (cm_conversations m) k).
Proof. unfold conversation. by destruct (dict_get _ _). Qed.

(** Where [conversation] leaves the rest of the model. *)
Lemma conversation_rest k m : let m1 := (conversation k m).1 in
  cm_listeners m1 = cm_listeners m ∧ cm_calls m1 = cm_calls m ∧ cm_active m1 = cm_active m ∧
  cm_roster m1 = cm_roster m ∧ cm_connection_state m1 = cm_connection_state m ∧
  ∀ a, a ≠ k → dict_get (cm_conversations m1) a = dict_get (cm_conversations m) a.
Proof.
  cbv zeta. unfold conversation. destruct (dict_get _ _); [done|]. cbn. split_and!; try done.
  intros a Ha. by rewrite dict_get_set_ne.
Qed.

(** From [m] to [m'] a listener is called with these events. *)
Definition tells (l : nat) (m m' : ChatModel) (events : list (ChatModel * Event)) : Prop :=
  subscribed l m → subscribed l m' ∧ heard_with l m' = heard_with l m ++ events.

Lemma tells_silent l m m' :
  cm_listeners m' = cm_listeners m → cm_calls m' = cm_calls m → tells l m m' [].
Proof.
  intros Hl Hc Hs. unfold subscribed, heard_with. by rewrite Hl, Hc, app_nil_r.
Qed.

Lemma tells_trans l m1 m2 m3 e1 e2 : tells l m1 m2 e1 → tells l m2 m3 e2 → tells l m1 m3 (e1 ++ e2).
Proof.
  intros H1' H2' Hs. destruct (H1' Hs) as [Hs2 E1]. destruct (H2' Hs2) as [Hs3 E2].
  split; [done|]. by rewrite E2, E1, app_assoc.
Qed.

Lemma tells_emit l m e : tells l m (_emit e m) [(visible m, e)].
Proof.
  intros Hs. split; [done|]. unfold subscribed, heard_with, _emit in *.
  cbn [cm_calls set_calls]. rewrite filter_app, fmap_app. f_equal.
  assert (∀ ls : list nat, filter (λ c : nat * Event * ChatModel, c.1.1 = l)
      ((λ x, (x, e, visible m)) <$> ls) = (λ x, (x, e, visible m)) <$> filter (λ x, x = l) ls) as ->.
  { intros ls. induction ls as [|x ls IH]; [done|]. rewrite fmap_cons, !filter_cons.
    cbn [fst]. destruct (decide (x = l)); by rewrite ?fmap_cons, IH. }
  by rewrite Hs.
Qed.

(** A silent change and one event that tells of it. *)
Lemma tells_change l m m' e :
  cm_listeners m' = cm_listeners m → cm_calls m' = cm_calls m →
  tells l m (_emit e m') [(visible m', e)].
Proof.
  intros Hl Hc. apply (tells_trans l m m' _ [] [(visible m', e)]); [by apply tells_silent|].
  apply tells_emit.
Qed.

(** The events of a new message: perhaps that its sender has stopped typing, then
    the message, then perhaps a new count. *)
Lemma add_tells (l : nat) (m : ChatModel) k x : subscribed l m →
  ∃ ev1 m1 ev2,
    heard_with l (add_message k x m) =
      heard_with l m ++ ev1 ++ (visible m1, MessageAdded k x) :: ev2 ∧
    (∀ me, me ∈ ev1 → cm_active me.1 = cm_active m ∧ ∃ us, me.2 = TypingChanged k us) ∧
    (∀ me, me ∈ ev2 → ∃ n, me.2 = UnreadChanged k n) ∧
    cm_active m1 = cm_active m ∧
    (conversation k m1).2 = add (conversation k m).2 x (bool_decide (Some k = cm_active m)).
Proof.
  intros Hs. unfold add_message.
  destruct (conversation_rest k m) as (El & Ec & Ea & _).
  destruct (conversation k m) as [m0 c]. cbn [fst snd] in *. rewrite Ea.
  set (c' := add c x _). set (m2 := put_conversation k c' m0).
  set (m3 := if m_mine x then m2 else set_typing k (m_sender x) false m2).
  assert (∃ ev1, tells l m m3 ev1 ∧ cm_active m3 = cm_active m ∧
            cm_conversations m3 = cm_conversations m2 ∧
            ∀ me, me ∈ ev1 → cm_active me.1 = cm_active m ∧ ∃ us, me.2 = TypingChanged k us)
    as (ev1 & Ht & Ha & Hc & Hev).
  { unfold m3, set_typing. destruct (m_mine x); [|case_decide];
      [exists []; split; [by apply tells_silent|]..|]; try by (split_and!; [done..|by intros ? ?%not_elem_of_nil]).
    eexists. split; [apply (tells_change l m)|]; [done..|]. split_and!; [done..|].
    intros me ->%list_elem_of_singleton. cbn. split; [done|]. by eexists. }
  assert (∃ ev2, tells l (_emit (MessageAdded k x) m3)
            (if decide (c_unread c' = c_unread c) then _emit (MessageAdded k x) m3
             else _emit (UnreadChanged k (c_unread c')) (_emit (MessageAdded k x) m3)) ev2 ∧
            ∀ me, me ∈ ev2 → ∃ n, me.2 = UnreadChanged k n) as (ev2 & Ht2 & Hev2).
  { case_decide; eexists; (split; [first [by apply tells_silent|apply tells_emit]|]).
    - by intros me []%not_elem_of_nil.
    - intros me ->%list_elem_of_singleton. by eexists. }
  destruct (tells_trans _ _ _ _ _ _ Ht (tells_trans _ _ _ _ _ _ (tells_emit l m3 (MessageAdded k x)) Ht2) Hs)
    as [_ Eh].
  exists ev1, m3, ev2. split; [exact Eh|]. split_and!; [done..|].
  rewrite conversation_snd, Hc. cbn [m2 put_conversation set_conversations cm_conversations].
  unfold m2. cbn. by rewrite dict_get_set_eq.
Qed.
