(* ===== verification/ChatModelTypes.v ===== *)
(** * The types of the chat model, and receipts

    The data-structure invariant of [ChatModel] and its preservation by every
    operation, and what an operation may do to a message that is already in a
    conversation. *)

From S2P Require Import Prelude PyStr PyDict Json Conversation ChatModel ChatModelFacts.

Definition receipt_states : list pystr := [&"SENT"; &"DELIVERED"; &"READ"].

Definition message_ok (x : Message) : Prop := m_state x ∈ receipt_states.

Record conversation_ok (key : pystr) (c : Conversation) : Prop := {
  co_key : c_key c = key;
  co_messages : Forall message_ok (c_messages c);
}.

Record model_ok (m : ChatModel) : Prop := {
  mo_roster : dict_ok (cm_roster m);
  mo_contacts : dict_ok (cm_contacts m);
  mo_conversations : dict_ok (cm_conversations m);
  mo_rooms : dict_ok (cm_rooms m);
  mo_typing : dict_ok (cm_typing m);
  (* a conversation is filed under its own key *)
  mo_conversation k c : dict_get (cm_conversations m) k = Some c → conversation_ok k c;
  (* a room is a sorted member list, and its chat is in the chat list *)
  mo_room r us : dict_get (cm_rooms m) r = Some us →
    StronglySorted str_le us ∧ is_Some (dict_get (cm_conversations m) r);
  (* a contact is on the roster *)
  mo_known u : u ∈ dict_keys (cm_contacts m) → u ∈ dict_keys (cm_roster m);
  (* the conversation on screen exists and has nothing unread *)
  mo_active k : cm_active m = Some k →
    ∃ c, dict_get (cm_conversations m) k = Some c ∧ c_unread c = 0;
}.

(** An operation whose arguments have the type the source declares: a message
    carries one of the three receipt states. *)
Definition op_ok (o : op) : Prop :=
  match o with
  | Add _ x => message_ok x
  | History _ xs => Forall message_ok xs
  | _ => True
  end.

Lemma new_model_ok : model_ok new_model.
Proof. constructor; try done; try apply NoDup_nil_2. Qed.

Lemma emit_ok e m : model_ok m → model_ok (_emit e m).
Proof. intros []. by constructor. Qed.

Lemma listeners_ok ls m : model_ok m → model_ok (set_listeners ls m).
Proof. intros []. by constructor. Qed.

Lemma put_ok k c m :
  conversation_ok k c → (cm_active m = Some k → c_unread c = 0) →
  model_ok m → model_ok (put_conversation k c m).
Proof.
  intros Hc Ha []. constructor;
    cbn [put_conversation set_conversations cm_roster cm_contacts cm_conversations cm_rooms
         cm_typing cm_active]; try done; auto with dict.
  - intros k' c'. rewrite dict_get_set. case_decide; [by intros [= <-]; subst|auto].
  - intros r us [Hs Hr]%mo_room0. split; [done|]. rewrite dict_get_set. by case_decide.
  - intros k' Hk'. rewrite dict_get_set. case_decide; [subst; eauto|auto].
Qed.

Lemma conversation_ok_get k m m' c :
  model_ok m → conversation k m = (m', c) →
  model_ok m' ∧ conversation_ok k c ∧ dict_get (cm_conversations m') k = Some c ∧
  cm_active m' = cm_active m ∧ cm_rooms m' = cm_rooms m ∧
  (dict_get (cm_conversations m) k = Some c ∨ c_unread c = 0).
Proof.
  intros Hm E. pose proof (conversation_get _ _ _ _ E) as Hg. revert E. unfold conversation.
  destruct (dict_get (cm_conversations m) k) as [c0|] eqn:E0; intros [= <- <-].
  - split_and!; [done|by eapply mo_conversation|done..|by left].
  - split_and!; [|by repeat constructor|done..|by right].
    apply (put_ok k (new_conversation k) m); [by repeat constructor|done|done].
Qed.

(** What is on screen has nothing unread. *)
Lemma active_read k m c :
  model_ok m → cm_active m = Some k → dict_get (cm_conversations m) k = Some c → c_unread c = 0.
Proof. intros Hm Ha Hc. destruct (mo_active m Hm k Ha) as (c' & Hc' & ?). congruence. Qed.

Lemma roster_ok_of (d : list (pystr * bool)) m :
  dict_ok d → (∀ u, u ∈ dict_keys (cm_contacts m) → u ∈ dict_keys d) →
  model_ok m → model_ok (set_roster d m).
Proof. intros ? ? []. by constructor. Qed.

Lemma set_typing_ok k u b m : model_ok m → model_ok (set_typing k u b m).
Proof.
  intros Hm. unfold set_typing. set (who := if b then _ else _).
  assert (model_ok (set_typists (dict_set (cm_typing m) k who) m)) as Ht.
  { destruct Hm. constructor; try done. by apply dict_set_ok. }
  case_decide; [done|by apply emit_ok].
Qed.

Lemma set_typing_get k u b m k' :
  dict_get (cm_conversations (set_typing k u b m)) k' = dict_get (cm_conversations m) k'.
Proof. by rewrite set_typing_conversations. Qed.

Lemma set_typing_active k u b m : cm_active (set_typing k u b m) = cm_active m.
Proof. unfold set_typing. by case_decide. Qed.

Lemma add_message_ok k x m : message_ok x → model_ok m → model_ok (add_message k x m).
Proof.
  intros Hx Hm. unfold add_message. destruct (conversation k m) as [m1 c] eqn:E.
  destruct (conversation_ok_get _ _ _ _ Hm E) as (Hm1 & [Hk Hms] & Hg & _).
  assert (model_ok (put_conversation k (add c x (bool_decide (Some k = cm_active m1))) m1)) as H2.
  { apply put_ok; [|intros Ha|done].
    - constructor; [done|]. cbn. by rewrite Forall_app, Forall_singleton.
    - rewrite Ha. cbn. rewrite bool_decide_true by done. by eapply active_read. }
  revert H2. generalize (add c x (bool_decide (Some k = cm_active m1))). intros c' H2.
  assert (∀ m', model_ok m' → model_ok (if decide (c_unread c' = c_unread c) then m'
     else _emit (UnreadChanged k (c_unread c')) m'))
    as Hlast by (intros; case_decide; auto using emit_ok).
  apply Hlast, emit_ok. destruct (m_mine x); [done|]. by apply set_typing_ok.
Qed.

Lemma load_history_ok k xs m :
  Forall message_ok xs → model_ok m → model_ok (load_history k xs m).
Proof.
  intros Hx Hm. unfold load_history. destruct (conversation k m) as [m1 c] eqn:E.
  destruct (conversation_ok_get _ _ _ _ Hm E) as (Hm1 & [Hk Hms] & Hg & _).
  apply emit_ok, put_ok; [by constructor| |done]. intros Ha. cbn. by eapply active_read.
Qed.

Lemma receipt_order_pos s : 0 < receipt_order s → s ∈ receipt_states.
Proof.
  unfold receipt_order, receipt_states. cbn [dict_get]. rewrite !elem_of_cons.
  destruct (decide (s = &"SENT")); [by auto|]. destruct (decide (s = &"DELIVERED")); [by auto|].
  destruct (decide (s = &"READ")); [by auto|]. cbn. lia.
Qed.

(** The loop of [set_receipt]: one message moves forward. *)
Lemma receipt_loop_spec i s l l' :
  receipt_loop i s l = Some l' →
  ∃ l1 x l2, l = l1 ++ x :: l2 ∧ l' = l1 ++ replace_state x s :: l2 ∧
             as_str (m_id x) = Some i ∧ receipt_order (m_state x) < receipt_order s ∧
             Forall (λ y, as_str (m_id y) ≠ Some i) l1.
Proof.
  revert l'. induction l as [|x l IH]; intros l'; [done|]. cbn [receipt_loop].
  case_decide as Hi; [case_decide as Ho; [done|]|].
  - intros [= <-]. exists [], x, l. split_and!; [done..|lia|constructor].
  - destruct (receipt_loop i s l) as [r|]; [|done]. intros [= <-].
    destruct (IH r eq_refl) as (l1 & y & l2 & -> & -> & ? & ? & ?).
    exists (x :: l1), y, l2. split_and!; [done..|by constructor].
Qed.

Lemma set_receipt_ok k i s m : model_ok m → model_ok (set_receipt k i s m).
Proof.
  intros Hm. unfold set_receipt. destruct (dict_get _ _) as [c|] eqn:E; [|done].
  destruct (receipt_loop i s _) as [xs|] eqn:El; [|done].
  destruct (mo_conversation m Hm k c E) as [Hk Hms].
  apply emit_ok, put_ok; [|intros Ha; cbn; by eapply active_read|done].
  apply receipt_loop_spec in El as (l1 & x & l2 & Hl & -> & _ & Ho & _).
  constructor; [done|]. cbn. rewrite Hl in Hms.
  apply Forall_app in Hms as [H1 [_ H2]%Forall_cons].
  apply Forall_app. split; [done|]. constructor; [|done].
  apply receipt_order_pos. cbn [replace_state m_state]. lia.
Qed.

Lemma select_ok k m : model_ok m → model_ok (select k m).
Proof.
  intros Hm. unfold select. destruct k as [k|].
  2: { apply emit_ok. destruct Hm. by constructor. }
  assert (∀ m1 c, conversation k (_emit (ConversationSelected (Some k)) (set_active (Some k) m))
          = (m1, c) → ∀ c', conversation_ok k c' → c_unread c' = 0 →
          model_ok (put_conversation k c' m1)) as Hput.
  { intros m1 c E c' Hc' Hu.
    assert (m1 = set_calls (cm_calls m1) (set_active (Some k) (conversation k m).1)) as ->.
    { revert E. unfold conversation. cbn. by destruct (dict_get _ _); intros [= <- <-]. }
    destruct (conversation k m) as [m0 c0] eqn:E0.
    destruct (conversation_ok_get _ _ _ _ Hm E0) as ([] & _).
    cbn [fst]. pose proof (put_ok k c' (set_active None m0)) as Hp.
    destruct Hp as []; [done|done|by constructor|]. constructor; try done.
    cbn [put_conversation set_conversations cm_active set_calls set_active cm_conversations].
    intros k' [= <-]. exists c'. by rewrite dict_get_set_eq. }
  destruct (conversation k _) as [m1 c] eqn:E. specialize (Hput m1 c eq_refl).
  assert (conversation_ok k c ∧ dict_get (cm_conversations m1) k = Some c) as [Hc Hg].
  { split; [|by eapply conversation_get]. revert E. unfold conversation.
    destruct (dict_get _ _) as [c0|] eqn:E0; intros [= <- <-]; [|by repeat constructor].
    by eapply (mo_conversation m). }
  unfold mark_read. case_decide as Hu.
  - specialize (Hput c Hc Hu). unfold put_conversation in Hput.
    rewrite (dict_set_id _ _ _ Hg) in Hput. by destruct m1.
  - apply emit_ok, Hput; [|done]. by destruct Hc.
Qed.

Lemma elem_of_setdefaults (fresh d : list (pystr * bool)) u :
  u ∈ dict_keys (foldl (λ d kv, dict_setdefault d kv.1 kv.2) d fresh) ↔
  u ∈ dict_keys d ∨ u ∈ dict_keys fresh.
Proof.
  revert d. induction fresh as [|[k b] fresh IH]; intros d; cbn [foldl].
  - unfold dict_keys at 3. set_solver.
  - rewrite IH. unfold dict_setdefault at 1. cbn [fst snd].
    replace (dict_keys ((k, b) :: fresh)) with (k :: dict_keys fresh) by done.
    rewrite elem_of_cons. destruct (dict_get d k) eqn:E; [|rewrite elem_of_dict_set_keys; tauto].
    assert (k ∈ dict_keys d) by (apply dict_get_is_Some; by rewrite E). naive_solver.
Qed.

Lemma setdefaults_ok (fresh d : list (pystr * bool)) :
  dict_ok d → dict_ok (foldl (λ d kv, dict_setdefault d kv.1 kv.2) d fresh).
Proof.
  revert d. induction fresh as [|[k b] fresh IH]; intros d Hd; cbn [foldl]; [done|].
  apply IH. unfold dict_setdefault. destruct (dict_get d _); auto with dict.
Qed.

Lemma replace_contacts_ok `{Runtime} j m m' :
  model_ok m → replace_contacts j m = Ok m' → model_ok m'.
Proof.
  intros Hm. unfold replace_contacts. destruct (py_iter j) as [es|]; [|done]. cbn [mbind res_bind].
  destruct (fresh_contacts es) as [d|] eqn:E; [|done]. cbn [mbind res_bind].
  apply fresh_contacts_ok in E. destruct (dict_eqb _ _); intros [= <-]; [done|].
  apply emit_ok. destruct Hm. constructor;
    cbn [set_roster set_contacts cm_roster cm_contacts cm_conversations cm_rooms cm_typing cm_active];
    try done; [by apply setdefaults_ok|].
  intros u Hu. apply elem_of_setdefaults. by right.
Qed.

Lemma set_presence_ok u b m : model_ok m → model_ok (set_presence u b m).
Proof.
  intros Hm. unfold set_presence. set (m1 := if dict_has (cm_contacts m) u then _ else m).
  assert (model_ok m1 ∧ cm_roster m1 = cm_roster m) as [Hm1 Hr].
  { unfold m1. destruct (dict_has (cm_contacts m) u) eqn:E; [|done]. split; [|done].
    apply dict_has_true in E. destruct Hm. constructor; try done.
    - by apply dict_set_ok.
    - intros u'. cbn [set_contacts cm_contacts cm_roster]. rewrite elem_of_dict_set_keys.
      intros [->|?]; auto. }
  case_decide; [done|]. apply emit_ok, roster_ok_of; [|
    |done].
  - apply dict_set_ok, mo_roster, Hm1.
  - intros u' Hu'. rewrite elem_of_dict_set_keys. right. by apply mo_known.
Qed.

Lemma online_keys (users : list pystr) d u :
  u ∈ dict_keys d → u ∈ dict_keys (foldl (λ d name, dict_set d name true) d users).
Proof.
  revert d. induction users as [|x users IH]; intros d Hu; [done|]. cbn [foldl]. apply IH.
  rewrite elem_of_dict_set_keys. by right.
Qed.

Lemma online_ok (users : list pystr) d :
  dict_ok d → dict_ok (foldl (λ d name, dict_set d name true) d users).
Proof. revert d. induction users; intros d Hd; [done|]. cbn [foldl]. auto with dict. Qed.

Lemma replace_roster_ok us m : model_ok m → model_ok (replace_roster us m).
Proof.
  intros Hm. unfold replace_roster.
  set (d := foldl (λ d name, dict_set d name true) (cm_roster m) us).
  apply emit_ok. assert (∀ f : pystr * bool → bool,
    dict_keys ((λ kv, (kv.1, f kv)) <$> d) = dict_keys d) as Hk.
  { intros f. unfold dict_keys. rewrite <-list_fmap_compose. by apply list_fmap_ext. }
  apply roster_ok_of; [| |done].
  - unfold dict_ok. rewrite Hk. apply online_ok, mo_roster, Hm.
  - intros u Hu. rewrite Hk. apply online_keys. by apply mo_known.
Qed.

Lemma set_room_members_ok r us m : model_ok m → model_ok (set_room_members r us m).
Proof.
  intros Hm. unfold set_room_members. case_decide; [done|].
  assert (conversation r (set_rooms (dict_set (cm_rooms m) r (sorted us)) m)
    = (set_rooms (dict_set (cm_rooms m) r (sorted us)) (conversation r m).1, (conversation r m).2))
    as ->.
  { unfold conversation. cbn. by destruct (dict_get (cm_conversations m) r). }
  destruct (conversation r m) as [m1 c] eqn:E.
  destruct (conversation_ok_get _ _ _ _ Hm E) as (Hm1 & _ & Hg & _ & Hrooms & _). cbn [fst].
  apply emit_ok. destruct Hm1. constructor;
    cbn [set_rooms cm_roster cm_contacts cm_conversations cm_rooms cm_typing cm_active]; try done.
  - rewrite <-Hrooms. by apply dict_set_ok.
  - intros r' us'. rewrite dict_get_set. case_decide as Hr; [|rewrite <-Hrooms; auto].
    intros [= <-]. subst. split; [apply sorted_sorted|by rewrite Hg].
Qed.

Lemma run_op_ok `{Runtime} m o : op_ok o → model_ok m → model_ok (run_op m o).
Proof.
  intros Ho Hm. destruct o; cbn [run_op op_ok] in *.
  - apply emit_ok. destruct Hm. by constructor.
  - unfold set_connection_state. case_decide; [done|]. apply emit_ok. destruct Hm. by constructor.
  - by apply replace_roster_ok.
  - destruct (replace_contacts _ m) eqn:E; [by eapply replace_contacts_ok|done].
  - by apply set_presence_ok.
  - destruct (conversation key m) as [m1 c] eqn:E. by eapply conversation_ok_get.
  - by apply add_message_ok.
  - by apply load_history_ok.
  - by apply set_receipt_ok.
  - by apply select_ok.
  - by apply set_typing_ok.
  - by apply set_room_members_ok.
  - by apply emit_ok.
  - by apply listeners_ok.
  - by apply listeners_ok.
Qed.

(** C21. The model is well typed after any operations on a new one: its dicts have
    one entry per key, every conversation is filed under its own key and holds
    only messages whose state is SENT, DELIVERED or READ (whatever states the
    receipts claimed), every room has a sorted member list and a chat, every
    contact is on the roster, and the conversation on screen exists and has
    nothing unread. *)
Theorem model_well_typed `{Runtime} (os : list op) (Hos : Forall op_ok os) :
  model_ok (run_ops new_model os).
Proof.
  unfold run_ops. assert (model_ok new_model) as Hm by exact new_model_ok. revert Hm.
  generalize new_model. induction Hos; intros m Hm; [done|]. cbn [foldl]. auto using run_op_ok.
Qed.

(** ** Messages already in a conversation *)

Definition messages_of (m : ChatModel) (key : pystr) : list Message :=
  default [] (c_messages <$> dict_get (cm_conversations m) key).

(** The same message, with a receipt state that is no earlier. *)
Definition forward (x y : Message) : Prop :=
  replace_state y (m_state x) = x ∧ receipt_order (m_state x) ≤ receipt_order (m_state y).

Definition later (l l' : list Message) : Prop :=
  ∀ i x, l !! i = Some x → ∃ y, l' !! i = Some y ∧ forward x y.

#[export] Instance forward_preorder : PreOrder forward.
Proof.
  split.
  - intros [? ? ? ? ? ?]. split; [done|lia].
  - intros [] [] [] [H1 ?] [H2 ?]. split; [|lia]. unfold replace_state in *. by simplify_eq/=.
Qed.

#[export] Instance later_preorder : PreOrder later.
Proof.
  split.
  - intros l i x Hx. by exists x.
  - intros l1 l2 l3 H1 H2 i x Hx. destruct (H1 i x Hx) as (y & Hy & ?).
    destruct (H2 i y Hy) as (z & Hz & ?). exists z. split; [done|by etrans].
Qed.

Lemma later_app l l' : later l (l ++ l').
Proof. intros i x Hx. exists x. split; [by apply lookup_app_l_Some|done]. Qed.

Lemma later_receipt i s l l' : receipt_loop i s l = Some l' → later l l'.
Proof.
  intros (l1 & x & l2 & -> & -> & _ & Ho & _)%receipt_loop_spec j y Hy.
  destruct (decide (j = length l1)) as [->|Hj].
  - rewrite list_lookup_middle in Hy by done. injection Hy as <-.
    exists (replace_state x s). rewrite list_lookup_middle by done. split; [done|].
    destruct x as [? ? ? ? ? st]. split; [done|]. cbn [replace_state m_state] in *. lia.
  - exists y. split; [|done]. revert Hy. destruct (decide (j < length l1)).
    + by rewrite !lookup_app_l by done.
    + rewrite !lookup_app_r by lia. destruct (j - length l1) eqn:E; [lia|done].
Qed.

Lemma messages_put k c m k' :
  messages_of (put_conversation k c m) k' =
  if decide (k' = k) then c_messages c else messages_of m k'.
Proof.
  unfold messages_of, put_conversation. cbn [cm_conversations set_conversations].
  rewrite dict_get_set. by case_decide.
Qed.

Lemma messages_emit e m k : messages_of (_emit e m) k = messages_of m k.
Proof. done. Qed.

Lemma messages_set_typing k u b m k' : messages_of (set_typing k u b m) k' = messages_of m k'.
Proof. unfold messages_of. by rewrite set_typing_conversations. Qed.

Lemma messages_conversation k m m' c k' :
  conversation k m = (m', c) →
  messages_of m' k' = messages_of m k' ∧ c_messages c = messages_of m k.
Proof.
  unfold conversation, messages_of. destruct (dict_get (cm_conversations m) k) eqn:E;
    intros [= <- <-]; [done|]. cbn [cm_conversations set_conversations].
  split; [|done]. rewrite dict_get_set. case_decide; [subst; by rewrite E|done].
Qed.

(** What [add_message] does to the messages: one more at the end. *)
Lemma messages_add_message k x m k' :
  messages_of (add_message k x m) k' =
  if decide (k' = k) then messages_of m k ++ [x] else messages_of m k'.
Proof.
  unfold add_message. destruct (conversation k m) as [m1 c] eqn:E.
  destruct (messages_conversation _ _ _ _ k' E) as [Hk Hc].
  generalize (bool_decide (Some k = cm_active m1)). intros b.
  assert (∀ m', messages_of (if decide (c_unread (add c x b) = c_unread c) then m'
    else _emit (UnreadChanged k (c_unread (add c x b))) m') k' = messages_of m' k') as ->
    by (intros m'; by destruct (decide _)).
  rewrite messages_emit. destruct (m_mine x); rewrite ?messages_set_typing, messages_put;
    (case_decide; [cbn [add c_messages]; by rewrite Hc|done]).
Qed.

Lemma messages_select k m k' : messages_of (select k m) k' = messages_of m k'.
Proof.
  unfold select. destruct k as [k|]; [|done].
  destruct (conversation k _) as [m1 c] eqn:E.
  destruct (messages_conversation _ _ _ _ k' E) as [Hk Hc].
  unfold mark_read. case_decide; [done|]. rewrite messages_emit, messages_put.
  case_decide; [subst; cbn [c_messages]; by rewrite Hc|done].
Qed.

Lemma run_op_later `{Runtime} m o k :
  (∀ xs, o ≠ History k xs) → later (messages_of m k) (messages_of (run_op m o) k).
Proof.
  intros Hno. destruct o; cbn [run_op]; try done.
  - unfold set_connection_state. by case_decide.
  - unfold replace_contacts. destruct (py_iter contacts); [|done]. cbn [mbind res_bind].
    destruct (fresh_contacts a); [|done]. cbn [mbind res_bind]. by destruct (dict_eqb _ _).
  - unfold set_presence. destruct (dict_has _ _); by case_decide.
  - destruct (conversation key m) as [m1 c] eqn:E.
    cbn [fst]. by destruct (messages_conversation _ _ _ _ k E) as [-> _].
  - rewrite messages_add_message. case_decide; [subst; apply later_app|done].
  - unfold load_history. destruct (conversation key m) as [m1 c] eqn:E.
    destruct (messages_conversation _ _ _ _ k E) as [Hk _].
    rewrite messages_emit, messages_put. case_decide; [subst; by destruct (Hno messages)|].
    by rewrite Hk.
  - unfold set_receipt. destruct (dict_get _ _) as [c|] eqn:E; [|done].
    destruct (receipt_loop _ _ _) eqn:El; [|done]. rewrite messages_emit, messages_put.
    case_decide; [|done]. subst. unfold messages_of. rewrite E. by eapply later_receipt.
  - by rewrite messages_select.
  - by rewrite messages_set_typing.
  - unfold set_room_members. case_decide; [done|].
    destruct (conversation room _) as [m1 c] eqn:E.
    destruct (messages_conversation _ _ _ _ k E) as [Hk _]. by rewrite messages_emit, Hk.
Qed.

(** C28. A message in a conversation stays where it is and as it is, and its receipt
    only moves forward from SENT through DELIVERED to READ, whatever receipts
    arrive in whatever order, for as long as no history replaces that
    conversation. *)
Theorem receipts_forward `{Runtime} (m : ChatModel) (os : list op) (key : pystr)
    (Hos : Forall (λ o, ∀ xs, o ≠ History key xs) os) (i : nat) (x : Message)
    (Hx : messages_of m key !! i = Some x) :
  ∃ y, messages_of (run_ops m os) key !! i = Some y ∧
    m_id y = m_id x ∧ m_sender y = m_sender x ∧ m_body y = m_body x ∧ m_ts y = m_ts x ∧
    m_mine y = m_mine x ∧ receipt_order (m_state x) ≤ receipt_order (m_state y).
Proof.
  assert (later (messages_of m key) (messages_of (run_ops m os) key)) as Hl.
  { clear Hx. revert m. induction Hos as [|o os Ho _ IH]; intros m; [done|].
    etrans; [by apply (run_op_later m o)|apply IH]. }
  destruct (Hl i x Hx) as (y & Hy & [He Ho]). exists y. rewrite <-He. by destruct y.
Qed.

Lemma receipt_states_ok id sender body ts mine :
  message_ok (new_message id sender body ts mine).
Proof. unfold message_ok, receipt_states. apply elem_of_cons. by left. Qed.

Definition receipts : list op :=
  [Receipt (&"bob") (&"1") (&"READ"); Receipt (&"bob") (&"1") (&"DELIVERED");
   Receipt (&"bob") (&"1") (&"nonsense")].

Definition said : Message := new_message (JStr (&"1")) (&"alice") (JStr (&"hi")) 5 true.

Lemma model_well_typed_witness :
  model_ok (@run_ops plain_runtime new_model (Add (&"bob") said :: receipts)) ∧
  m_state <$> messages_of (@run_ops plain_runtime new_model (Add (&"bob") said :: receipts)) (&"bob")
  = [&"READ"].
Proof.
  split; [|vm_compute; reflexivity]. apply (@model_well_typed plain_runtime).
  constructor; [exact (receipt_states_ok _ _ _ _ _)|]. repeat constructor.
Defined.

Lemma receipts_forward_witness :
  ∃ y, messages_of (@run_ops plain_runtime (add_message (&"bob") said new_model) receipts)
         (&"bob") !! 0 = Some y ∧ m_body y = JStr (&"hi").
Proof.
  assert (Forall (λ o, ∀ xs, o ≠ History (&"bob") xs) receipts) as Hs
    by (repeat constructor; discriminate).
  destruct (@receipts_forward plain_runtime (add_message (&"bob") said new_model) receipts (&"bob")
              Hs 0 said ltac:(vm_compute; reflexivity)) as (y & Hy & _ & _ & Hb & _).
  exists y. split; [exact Hy|exact Hb].
Defined.
