(* ===== verification/Base64.v ===== *)
(** * Base64

    [b64] and [unb64] of [im/crypto/identity.py]: [base64.b64encode], and
    [base64.b64decode] as CPython's [binascii] does it without [validate]:
    characters outside the alphabet are skipped, and decoding stops at the
    padding that completes a group. *)

From S2P Require Import Prelude PyStr Json.

(** [identity.py] calls [.encode] on its argument, which need not be a string
    when it comes from a frame. *)
Definition ascii_encode (j : json) : res bytes :=
  match j with
  | JStr s => if bool_decide (Forall (λ c, c < 128)%N s) then Ok s else Raise UnicodeEncodeError
  | _ => Raise AttributeError
  end.

Definition b64_char (n : N) : N :=
  (if n <? 26 then 65 + n
   else if n <? 52 then 71 + n
   else if n <? 62 then n - 4
   else if n =? 62 then 43 else 47)%N.

Definition b64_val (c : N) : option N :=
  (if (65 <=? c) && (c <=? 90) then Some (c - 65)
   else if (97 <=? c) && (c <=? 122) then Some (c - 71)
   else if (48 <=? c) && (c <=? 57) then Some (c + 4)
   else if c =? 43 then Some 62
   else if c =? 47 then Some 63
   else None)%N.

(** [base64.b64encode(raw).decode("ascii")]. *)
Fixpoint b64 (raw : bytes) : pystr :=
  match raw with
  | [] => []
  | [a] => [b64_char (a / 4); b64_char (a mod 4 * 16); 61; 61]
  | [a; b] => [b64_char (a / 4); b64_char (a mod 4 * 16 + b / 16); b64_char (b mod 16 * 4); 61]
  | a :: b :: c :: raw' =>
    b64_char (a / 4) :: b64_char (a mod 4 * 16 + b / 16) ::
    b64_char (b mod 16 * 4 + c / 64) :: b64_char (c mod 64) :: b64 raw'
  end%N.

(** The loop of [binascii.a2b_base64]: [quad] characters of the current group
    have been read, [left] holds the bits not yet written. *)
Fixpoint a2b (quad pads : nat) (left : N) (s : bytes) : res bytes :=
  match s with
  | [] => if decide (quad = 0) then Ok [] else Raise ValueError
  | c :: s' =>
    if (c =? 61)%N then
      if decide (2 ≤ quad) then
        if decide (4 ≤ quad + S pads) then Ok [] else a2b quad (S pads) left s'
      else a2b quad pads left s'
    else match b64_val c with
         | None => a2b quad pads left s'
         | Some v =>
           match quad with
           | 0 => a2b 1 0 v s'
           | 1 => cons (left * 4 + v / 16)%N <$> a2b 2 0 (v mod 16) s'
           | 2 => cons (left * 16 + v / 4)%N <$> a2b 3 0 (v mod 4) s'
           | _ => cons (left * 64 + v)%N <$> a2b 0 0 0 s'
           end
         end
  end.

Definition unb64 (text : json) : res bytes := s ← ascii_encode text; a2b 0 0 0 s.

(** ** The round trip *)

Definition byte_list (raw : bytes) : Prop := Forall (λ b, b < 256)%N raw.

Lemma below_64 (P : N → bool) :
  forallb P (N.of_nat <$> seq 0 64) = true → ∀ n, (n < 64)%N → P n = true.
Proof.
  rewrite forallb_forall. intros HP n Hn. apply HP, list_elem_of_In, list_elem_of_fmap.
  exists (N.to_nat n). split; [lia|]. apply elem_of_seq. lia.
Qed.

Lemma b64_val_char n : (n < 64)%N → b64_val (b64_char n) = Some n.
Proof.
  intros Hn. apply (bool_decide_eq_true_1 (b64_val (b64_char n) = Some n)).
  revert n Hn. apply below_64. vm_compute. reflexivity.
Qed.

Lemma b64_char_range n : (n < 64)%N → (b64_char n <? 128)%N && negb (b64_char n =? 61)%N = true.
Proof. revert n. apply below_64. vm_compute. reflexivity. Qed.

(** One character of the alphabet. *)
Lemma a2b_char quad pads left v s :
  (v < 64)%N →
  a2b quad pads left (b64_char v :: s) =
  match quad with
  | 0 => a2b 1 0 v s
  | 1 => cons (left * 4 + v / 16)%N <$> a2b 2 0 (v mod 16) s
  | 2 => cons (left * 16 + v / 4)%N <$> a2b 3 0 (v mod 4) s
  | _ => cons (left * 64 + v)%N <$> a2b 0 0 0 s
  end.
Proof.
  intros Hv. pose proof (b64_char_range v Hv) as [_ Hp]%andb_true_iff.
  apply negb_true_iff in Hp. cbn [a2b]. by rewrite Hp, b64_val_char.
Qed.

(** A byte as its high and its low part. *)
Lemma byte_split (d q b : N) :
  (0 < d → d * q = 256 → b < 256 → b / d < q ∧ b mod d < d ∧ b = d * (b / d) + b mod d)%N.
Proof.
  intros. split_and!; [apply N.Div0.div_lt_upper_bound; lia | apply N.mod_lt; lia |
    apply N.div_mod'].
Qed.

(** Two digits in base [d], taken apart again. *)
Lemma digit_div (d x y : N) : (y < d → (x * d + y) / d = x)%N.
Proof. intros. symmetry. apply (N.div_unique _ d x y); [done|]. lia. Qed.

Lemma digit_mod (d x y : N) : (y < d → (x * d + y) mod d = y)%N.
Proof. intros. symmetry. apply (N.mod_unique _ d x y); [done|]. lia. Qed.

Lemma rejoin (d a : N) : (a / d * d + a mod d = a)%N.
Proof. rewrite N.mul_comm. symmetry. apply N.div_mod'. Qed.

Lemma list_ind3 {A} (P : list A → Prop) :
  P [] → (∀ a, P [a]) → (∀ a b, P [a; b]) →
  (∀ a b c l, P l → P (a :: b :: c :: l)) → ∀ l, P l.
Proof.
  intros H0 H1 H2 H3. fix go 1. intros [|a [|b [|c l]]]; [done..|]. by apply H3, go.
Qed.

Lemma a2b_b64 raw : byte_list raw → a2b 0 0 0 (b64 raw) = Ok raw.
Proof.
  unfold byte_list.
  assert (∀ a, a < 256 → a / 4 < 64 ∧ a mod 4 < 4 ∧ a = 4 * (a / 4) + a mod 4)%N as H4
    by (intros; by apply byte_split).
  assert (∀ a, a < 256 → a / 16 < 16 ∧ a mod 16 < 16 ∧ a = 16 * (a / 16) + a mod 16)%N as H16
    by (intros; by apply byte_split).
  assert (∀ a, a < 256 → a / 64 < 4 ∧ a mod 64 < 64 ∧ a = 64 * (a / 64) + a mod 64)%N as H64
    by (intros; by apply byte_split).
  induction raw as [|a|a b|a b c raw IH] using list_ind3; intros Hr;
    rewrite ?Forall_cons in Hr; cbn [b64].
  - done.
  - destruct Hr as [Ha _], (H4 a Ha) as (? & ? & Ea). rewrite !a2b_char by lia.
    rewrite N.div_mul, rejoin by done. done.
  - destruct Hr as (Ha & Hb & _), (H4 a Ha) as (? & ? & Ea), (H16 b Hb) as (? & ? & Eb).
    rewrite !a2b_char by lia. by rewrite digit_div, digit_mod, N.div_mul, !rejoin by done.
  - destruct Hr as (Ha & Hb & Hc & Hr), (H4 a Ha) as (? & ? & Ea),
      (H16 b Hb) as (? & ? & Eb), (H64 c Hc) as (? & ? & Ec).
    rewrite !a2b_char by lia. by rewrite !digit_div, !digit_mod, IH, !rejoin by done.
Qed.

Lemma b64_ascii raw : byte_list raw → Forall (λ c, c < 128)%N (b64 raw).
Proof.
  assert (∀ n, n < 64 → b64_char n < 128)%N as Hc.
  { intros n Hn. pose proof (b64_char_range n Hn) as [Hl _]%andb_true_iff.
    by apply N.ltb_lt. }
  unfold byte_list. induction raw as [|a|a b|a b c raw IH] using list_ind3; intros Hr;
    rewrite ?Forall_cons in Hr; cbn [b64]; [done|..].
  - destruct Hr as [Ha _], (byte_split 4 64 a) as (? & ? & _); [done..|].
    repeat constructor; apply Hc; lia.
  - destruct Hr as (Ha & Hb & _), (byte_split 4 64 a) as (? & ? & _), (byte_split 16 16 b)
      as (? & ? & _); [done..|]. repeat constructor; apply Hc; lia.
  - destruct Hr as (Ha & Hb & Hc' & Hr), (byte_split 4 64 a) as (? & ? & _),
      (byte_split 16 16 b) as (? & ? & _), (byte_split 64 4 c) as (? & ? & _); [done..|].
    repeat (constructor; [apply Hc; lia|]). by apply IH.
Qed.

Lemma unb64_b64 raw : byte_list raw → unb64 (JStr (b64 raw)) = Ok raw.
Proof.
  intros Hr. unfold unb64. cbn [ascii_encode]. rewrite bool_decide_true by by apply b64_ascii.
  cbn [mbind res_bind]. by apply a2b_b64.
Qed.

Example b64_ex : b64 (&"light work.") = &"bGlnaHQgd29yay4=". Proof. reflexivity. Qed.
Example unb64_ex : unb64 (JStr (&"bGln-aHQ gd29yay4=...")) = Ok (&"light work.").
Proof. reflexivity. Qed.
