(* ===== verification/Files.v ===== *)
(** * Files and directories

    The disk as the code uses it: files by path, the directories there are, and
    which files only their owner may read.  A file can only be written into a
    directory that exists.  Paths are in the normal form that [pathlib] gives them,
    and are paths the system takes. *)

From S2P Require Import Prelude PyStr.

Record files := mkFiles {
  fs_files : gmap pystr bytes;
  fs_dirs : gset pystr;      (* besides the current directory and the root *)
  fs_private : gset pystr;   (* what only its owner may read: mode 0600 *)
}.

Definition set_file path content fs := mkFiles (<[path := content]> (fs_files fs)) (fs_dirs fs) (fs_private fs).
Definition set_dir path fs := mkFiles (fs_files fs) ({[path]} ∪ fs_dirs fs) (fs_private fs).
Definition set_private path fs := mkFiles (fs_files fs) (fs_dirs fs) ({[path]} ∪ fs_private fs).

Definition is_dir (fs : files) (path : pystr) : Prop := path = &"." ∨ path = &"/" ∨ path ∈ fs_dirs fs.
Definition is_file (fs : files) (path : pystr) : Prop := is_Some (fs_files fs !! path).

(** [Path(path).exists()]. *)
Definition exists_ (fs : files) (path : pystr) : Prop := is_file fs path ∨ is_dir fs path.

#[export] Instance is_dir_dec fs path : Decision (is_dir fs path).
Proof. unfold is_dir. apply _. Defined.
#[export] Instance is_file_dec fs path : Decision (is_file fs path).
Proof. unfold is_file. apply _. Defined.
#[export] Instance exists_dec fs path : Decision (exists_ fs path).
Proof. unfold exists_. apply _. Defined.

(** [Path(path).parent], of a path that is already in normal form. *)
Definition parent (path : pystr) : pystr :=
  match reverse (split 47 path) with
  | _ :: ((_ :: _) as dirs) =>
    match join [47%N] (reverse dirs) with [] => &"/" | dir => dir end
  | _ => &"."
  end.

(** [mkdir(parents=True, exist_ok=True)]. *)
Fixpoint mkdir_from (fuel : nat) (path : pystr) : M files unit :=
  match fuel with
  | O => raise Unmodelled
  | S fuel =>
    fs ← get;
    if decide (is_dir fs path) then mret tt
    else if decide (is_file fs path) then raise OSError
    else mkdir_from fuel (parent path);; modify (set_dir path)
  end.

Definition mkdir (path : pystr) : M files unit := mkdir_from (S (S (length path))) path.

Definition write_bytes (path : pystr) (content : bytes) : M files unit :=
  fs ← get;
  if decide (is_dir fs (parent path) ∧ ¬ is_dir fs path) then modify (set_file path content)
  else raise OSError.

Definition read_bytes (fs : files) (path : pystr) : res bytes :=
  match fs_files fs !! path with Some b => Ok b | None => Raise OSError end.

Definition bare_disk : files := mkFiles ∅ ∅ ∅.

(** ** Facts *)

Lemma join_cons (sep x : pystr) l : l ≠ [] → join sep (x :: l) = x ++ sep ++ join sep l.
Proof. by destruct l. Qed.

Lemma split_by_join f c s : (∀ d, f d = true ↔ d = c) → join [c] (split_by f s) = s.
Proof.
  intros Hf. induction s as [|d s IH]; [done|]. cbn [split_by].
  destruct (split_by_cons f s) as (w & ws & E). destruct (f d) eqn:Ed.
  - apply Hf in Ed as ->. rewrite join_cons by (by rewrite E). by rewrite IH.
  - rewrite E in *. destruct ws as [|w2 ws]; cbn in *; by rewrite IH.
Qed.

Lemma join_snoc_length sep l x : l ≠ [] → length (join sep (l ++ [x])) = length (join sep l) + length sep + length x.
Proof.
  induction l as [|y l IH]; [done|]. intros _. destruct l as [|z l].
  - cbn [app join]. rewrite !length_app. lia.
  - change ((y :: z :: l) ++ [x]) with (y :: (z :: l) ++ [x]).
    rewrite !join_cons by done. rewrite !length_app, IH by done. lia.
Qed.

(** Going up ends at the current directory or at the root. *)
Lemma parent_shorter path :
  parent path = &"." ∨ parent path = &"/" ∨ length (parent path) < length path.
Proof.
  unfold parent. destruct (reverse (split 47 path)) as [|x [|y l]] eqn:E; [by left..|].
  apply (f_equal reverse) in E. rewrite reverse_involutive, reverse_cons in E.
  destruct (join [47%N] (reverse (y :: l))) as [|c dir] eqn:Ej; [by right; left|]. right. right.
  assert (path = join [47%N] (split 47 path)) as ->.
  { symmetry. apply split_by_join. intros d. apply N.eqb_eq. }
  rewrite E, join_snoc_length, Ej; [cbn; lia|]. rewrite reverse_cons. by destruct (reverse l).
Qed.

Lemma mkdir_from_ends fuel path fs :
  length path + 1 < fuel → (mkdir_from fuel path fs).2 ≠ Raise Unmodelled.
Proof.
  revert path fs. induction fuel as [|fuel IH]; intros path fs Hf; [lia|].
  cbn [mkdir_from]. unfold mbind, M_bind, get. case_decide as Hd; [done|]. case_decide; [done|].
  destruct (parent_shorter path) as [Hp|[Hp|Hp]].
  - destruct fuel; [lia|]. cbn [mkdir_from]. unfold mbind, M_bind, get.
    rewrite Hp. by rewrite decide_True by by left.
  - destruct fuel; [lia|]. cbn [mkdir_from]. unfold mbind, M_bind, get.
    rewrite Hp. by rewrite decide_True by by right; left.
  - specialize (IH (parent path) fs). destruct (mkdir_from fuel (parent path) fs) as [fs' [[]|e]]; [done|].
    cbn in *. apply IH. lia.
Qed.

(** [mkdir] always has enough fuel. *)
Lemma mkdir_ends path fs : (mkdir path fs).2 ≠ Raise Unmodelled.
Proof. apply mkdir_from_ends. lia. Qed.

(** Making directories leaves files alone, keeps directories, and makes the one asked for. *)
Lemma mkdir_from_run fuel path fs fs' :
  mkdir_from fuel path fs = (fs', Ok tt) →
  is_dir fs' path ∧ fs_files fs' = fs_files fs ∧ fs_private fs' = fs_private fs ∧
  ∀ p, is_dir fs p → is_dir fs' p.
Proof.
  revert path fs fs'. induction fuel as [|fuel IH]; intros path fs fs'; [done|].
  cbn [mkdir_from]. unfold mbind, M_bind, get. case_decide as Hd; [by intros [= <-]|].
  case_decide; [done|].
  destruct (mkdir_from fuel (parent path) fs) as [fs1 [[]|e]] eqn:E; [|done].
  intros [= <-]. destruct (IH _ _ _ E) as (_ & Hf & Hp & Hk). unfold is_dir in *. cbn.
  split_and!; [set_solver|done..|]. intros p Hpd. specialize (Hk p Hpd). set_solver.
Qed.

Lemma mkdir_run path fs fs' :
  mkdir path fs = (fs', Ok tt) →
  is_dir fs' path ∧ fs_files fs' = fs_files fs ∧ fs_private fs' = fs_private fs ∧
  ∀ p, is_dir fs p → is_dir fs' p.
Proof. apply mkdir_from_run. Qed.

Lemma write_run path content fs fs' :
  write_bytes path content fs = (fs', Ok tt) → fs' = set_file path content fs.
Proof.
  unfold write_bytes. intros (fs0 & _ & [= <- <-] & Hrun)%bind_Ok. revert Hrun.
  case_decide; [by intros [= <-]|done].
Qed.
