(* ===== verification/Envelope.v ===== *)
(** * Identities and sealed bodies

    [im/crypto/identity.py] and [im/crypto/envelope.py].  X25519, HKDF and
    AES-GCM are the [cryptography] library's, so they are parameters
    ([Crypto]); what the code relies on is stated in [CryptoLaws].  The disk is
    that of [Files]. *)

From S2P Require Import Prelude PyStr Json Utf8 Base64 Files.

(** ** The [cryptography] library

    A private key is its 32 raw bytes. [None] is an exception of the library:
    [ValueError] from an exchange, [InvalidTag] or [ValueError] from a
    decryption. *)
Class Crypto := {
  cr_generate : nat → bytes;               (* X25519PrivateKey.generate *)
  cr_urandom : nat → bytes;                (* os.urandom(12) *)
  cr_public : bytes → bytes;               (* public_key().public_bytes(Raw) *)
  cr_exchange : bytes → bytes → option bytes;   (* private, raw public *)
  cr_hkdf : bytes → bytes → bytes;         (* secret, info *)
  cr_encrypt : bytes → bytes → bytes → bytes → bytes;   (* key, nonce, data, associated *)
  cr_decrypt : bytes → bytes → bytes → bytes → option bytes;
}.

(** The documented behaviour of those primitives: an exchange agrees from both
    sides, decryption undoes encryption under the same nonce and associated
    data, and everything is made of bytes. *)
Class CryptoLaws `{Crypto} := {
  law_exchange a b : cr_exchange a (cr_public b) = cr_exchange b (cr_public a);
  law_agree a b : is_Some (cr_exchange a (cr_public b));
  law_decrypt k n p ad : byte_list p → cr_decrypt k n (cr_encrypt k n p ad) ad = Some p;
  law_public_bytes a : byte_list (cr_public a);
  law_urandom_bytes i : byte_list (cr_urandom i);
  law_urandom_length i : length (cr_urandom i) = 12;
  law_encrypt_bytes k n p ad : byte_list p → byte_list (cr_encrypt k n p ad);
}.

(** ** Identity *)

Module Identity.
Section Identity.
Context `{Crypto}.

Record t := mk { private : bytes }.

Definition generate (draw : nat) : t := mk (cr_generate draw).

Definition public_bytes (i : t) : bytes := cr_public (private i).

Definition public_b64 (i : t) : pystr := b64 (public_bytes i).

Definition exchange (i : t) (peer_public_b64 : pystr) : res bytes :=
  peer ← unb64 (JStr peer_public_b64);
  match cr_exchange (private i) peer with
  | Some secret => Ok secret
  | None => Raise ValueError
  end.

(** [chmod] says whether the system lets the mode be changed. *)
Definition save (i : t) (chmod : bool) (path : pystr) : M files unit :=
  mkdir (parent path);;
  write_bytes path (private i);;
  if chmod then modify (set_private path) else mret tt.

Definition load (path : pystr) (fs : files) : res t :=
  raw ← read_bytes fs path;
  if decide (length raw = 32) then Ok (mk raw) else Raise ValueError.

Definition load_or_create (draw : nat) (chmod : bool) (path : pystr) : M files t :=
  fs ← get;
  if decide (exists_ fs path) then lift_res (load path fs)
  else
    let identity := generate draw in
    save identity chmod path;;
    mret identity.

(** What [save] does to the disk, when it goes through. *)
Lemma save_run i chmod path fs fs' :
  save i chmod path fs = (fs', Ok tt) →
  fs_files fs' = <[path := private i]> (fs_files fs) ∧
  (path ∈ fs_private fs' ↔ chmod = true ∨ path ∈ fs_private fs).
Proof.
  unfold save. intros (fs1 & [] & (_ & Hf & Hp & _)%mkdir_run & Hrun)%bind_Ok.
  apply bind_Ok in Hrun as (fs2 & [] & ->%write_run & Hrun).
  destruct chmod; injection Hrun as <-; cbn; rewrite Hf, Hp; (split; [done|]); set_solver.
Qed.

(** A key of 32 bytes can be read back, wherever its file is kept. *)
Lemma load_kept i path fs :
  length (private i) = 32 → fs_files fs !! path = Some (private i) → load path fs = Ok i.
Proof.
  intros Hl Hk. unfold load, read_bytes. rewrite Hk. cbn. rewrite decide_True by done. by destruct i.
Qed.

(** A key that was read is the content of its file. *)
Lemma load_run path fs i :
  load path fs = Ok i → fs_files fs !! path = Some (private i) ∧ length (private i) = 32.
Proof.
  unfold load, read_bytes. destruct (fs_files fs !! path) as [raw|]; [|done]. cbn.
  case_decide; [|done]. by intros [= <-].
Qed.
End Identity.
End Identity.

(** ** Envelope *)

Lemma enc_char_bytes c b : enc_char c = Some b → byte_list b.
Proof.
  unfold enc_char, byte_list. destruct (N.ltb_spec c 128); [intros [= <-]; repeat constructor; lia|].
  destruct (N.ltb_spec c 2048).
  { six c q r. intros [= <-]. repeat constructor; lia. }
  destruct (N.ltb_spec c 65536).
  { destruct (is_surrogate c); [done|]. six c q r. six q q2 r2. intros [= <-].
    repeat constructor; lia. }
  destruct (N.ltb_spec c 1114112); [|done].
  six c q r. six q q2 r2. six q2 q3 r3. intros [= <-]. repeat constructor; lia.
Qed.

Lemma utf8_encode_bytes s b : utf8_encode s = Some b → byte_list b.
Proof.
  revert b. induction s as [|c s IH]; intros b; [intros [= <-]; constructor|].
  cbn [utf8_encode]. destruct (enc_char c) as [b1|] eqn:E1; [|done]. cbn [mbind option_bind].
  destruct (utf8_encode s) as [b2|]; [|done]. intros [= <-].
  apply Forall_app. split; [by eapply enc_char_bytes|by apply IH].
Qed.

Definition INFO : bytes := &"semaphore/v1/message".

Definition NONCE_BYTES : nat := 12.

Section Envelope.
Context `{Crypto}.

Definition derive_key (shared_secret : bytes) : bytes := cr_hkdf shared_secret INFO.

Definition key_for (identity : Identity.t) (peer_public_b64 : pystr) : res bytes :=
  derive_key <$> Identity.exchange identity peer_public_b64.

(** [text.encode("utf-8")]. *)
Definition encode_utf8 (s : pystr) : res bytes :=
  match utf8_encode s with Some b => Ok b | None => Raise UnicodeEncodeError end.

(** [draw] is the number of the [os.urandom] call. *)
Definition seal (key : bytes) (plaintext associated : pystr) (draw : nat)
    : res (pystr * pystr) :=
  let nonce := cr_urandom draw in
  data ← encode_utf8 plaintext;
  ad ← encode_utf8 associated;
  Ok (b64 (cr_encrypt key nonce data ad), b64 nonce).

(** [except (InvalidTag, ValueError, TypeError)]; the Unicode errors are
    [ValueError]s. *)
Definition decryption_failed {A} (r : res A) : res A :=
  match r with
  | Raise (ValueError | TypeError | UnicodeEncodeError) => Raise DecryptionFailed
  | _ => r
  end.

(** The ciphertext and the nonce come out of a frame, so they may be anything;
    the final [decode] is outside the [try]. *)
Definition open_ (key : bytes) (ciphertext_b64 nonce_b64 : json) (associated : pystr)
    : res pystr :=
  plaintext ← decryption_failed (
    nonce ← unb64 nonce_b64;
    ciphertext ← unb64 ciphertext_b64;
    ad ← encode_utf8 associated;
    match cr_decrypt key nonce ciphertext ad with
    | Some p => Ok p
    | None => Raise ValueError
    end);
  match utf8_decode plaintext with
  | Some text => Ok text
  | None => Raise ValueError
  end.

Context `{!CryptoLaws}.

(** The two ends of a conversation derive one key. *)
Lemma key_for_agrees a b :
  key_for a (Identity.public_b64 b) = key_for b (Identity.public_b64 a) ∧
  ∃ k, key_for a (Identity.public_b64 b) = Ok k.
Proof.
  unfold key_for, Identity.exchange, Identity.public_b64, Identity.public_bytes.
  rewrite !unb64_b64 by apply law_public_bytes. cbn [mbind res_bind].
  rewrite (law_exchange (Identity.private b)). split; [done|].
  destruct (law_agree (Identity.private a) (Identity.private b)) as [s ->].
  by eexists.
Qed.

(** What was sealed opens under the same key and the same sender. *)
Lemma open_seal key text sender draw c n :
  seal key text sender draw = Ok (c, n) →
  open_ key (JStr c) (JStr n) sender = Ok text.
Proof.
  unfold seal, open_, encode_utf8.
  destruct (utf8_encode text) as [data|] eqn:Et; [|done]. cbn [mbind res_bind].
  destruct (utf8_encode sender) as [ad|] eqn:Es; [|done]. cbn [mbind res_bind].
  intros [= <- <-].
  assert (byte_list (cr_encrypt key (cr_urandom draw) data ad)) as Hb
    by (apply law_encrypt_bytes; by eapply utf8_encode_bytes).
  rewrite (unb64_b64 _ (law_urandom_bytes draw)), (unb64_b64 _ Hb). cbn [mbind res_bind].
  rewrite law_decrypt by by eapply utf8_encode_bytes. cbn [mbind res_bind decryption_failed].
  by rewrite (utf8_decode_encode _ _ Et).
Qed.

(** Sealing fails only for text that UTF-8 cannot carry. *)
Lemma seal_total key text sender draw :
  is_Some (utf8_encode text) → is_Some (utf8_encode sender) →
  ∃ c n, seal key text sender draw = Ok (c, n).
Proof. intros [x Hx] [y Hy]. unfold seal, encode_utf8. rewrite Hx, Hy. by repeat eexists. Qed.
End Envelope.

(** ** A concrete cipher on which the examples of the development run

    A public key is its private key, the exchange adds the halves, and a
    ciphertext carries one byte of checksum over the key, the nonce and the
    associated data. *)
Definition checksum (l : bytes) : N := foldr (λ x acc, (x + 3 * acc) mod 256)%N 7%N l.

Definition toy_crypto : Crypto := {|
  cr_generate n := replicate 32 (N.of_nat n mod 256)%N;
  cr_urandom n := [N.of_nat n mod 256; 1; 2; 3; 4; 5; 6; 7; 8; 9; 10; 11]%N;
  cr_public a := (λ x, x mod 256)%N <$> a;
  cr_exchange a p := Some (zip_with (λ x y, (x + y) mod 256)%N a p);
  cr_hkdf s info := s ++ info;
  cr_encrypt k n p ad := checksum (k ++ n ++ ad) :: p;
  cr_decrypt k n c ad :=
    match c with
    | t :: p => if decide (t = checksum (k ++ n ++ ad)) then Some p else None
    | [] => None
    end;
|}.

Lemma byte_mod x : (x mod 256 < 256)%N.
Proof. by apply N.mod_lt. Qed.

Lemma toy_laws : @CryptoLaws toy_crypto.
Proof.
  split; cbn.
  - intros a b. f_equal. revert b. induction a as [|x a IH]; intros [|y b]; cbn; [done..|].
    rewrite IH, !N.Div0.add_mod_idemp_r. by rewrite N.add_comm.
  - by eexists.
  - intros k n p ad _. by rewrite decide_True.
  - intros a. unfold byte_list. apply Forall_fmap, Forall_true. intros x. apply byte_mod.
  - intros i. repeat constructor. apply byte_mod.
  - done.
  - intros k n p ad Hp. constructor; [|done].
    generalize (k ++ n ++ ad). intros [|x l]; [done|]. cbn. apply byte_mod.
Qed.
