(* ===== verification/Keyring.v ===== *)
(** * The key ring

    [im/crypto/keyring.py]: everyone's public keys, the message keys derived
    from them, and sealing and opening with them.  [kr_draws] counts the calls
    of [os.urandom]. *)

From S2P Require Import Prelude PyStr PyDict Json Utf8 Base64 Envelope.

Record Keyring := mkRing {
  kr_identity : Identity.t;
  kr_me : pystr;
  kr_pubkeys : list (pystr * pystr);
  kr_derived : list (pystr * bytes);
  kr_draws : nat;
}.

Definition new_keyring (identity : Identity.t) (me : pystr) : Keyring :=
  mkRing identity me [] [] 0.

Definition set_pubkeys x r := mkRing (kr_identity r) (kr_me r) x (kr_derived r) (kr_draws r).
Definition set_derived x r := mkRing (kr_identity r) (kr_me r) (kr_pubkeys r) x (kr_draws r).
Definition set_me x r := mkRing (kr_identity r) x (kr_pubkeys r) (kr_derived r) (kr_draws r).
Definition set_draws x r := mkRing (kr_identity r) (kr_me r) (kr_pubkeys r) (kr_derived r) x.

Section Keyring.
Context `{Crypto}.

Definition public_b64 (r : Keyring) : pystr := Identity.public_b64 (kr_identity r).

Definition remember (user pubkey : pystr) (r : Keyring) : Keyring :=
  if decide (dict_get (kr_pubkeys r) user = Some pubkey) then r
  else set_derived (dict_del (kr_derived r) user)
         (set_pubkeys (dict_set (kr_pubkeys r) user pubkey) r).

Definition knows (r : Keyring) (user : pystr) : bool := dict_has (kr_pubkeys r) user.

Definition forget (user : pystr) (r : Keyring) : Keyring :=
  set_derived (dict_del (kr_derived r) user) (set_pubkeys (dict_del (kr_pubkeys r) user) r).

Definition _self_key (r : Keyring) : Keyring :=
  set_pubkeys (dict_setdefault (kr_pubkeys r) (kr_me r) (public_b64 r)) r.

Definition _key (user : pystr) : M Keyring (option bytes) :=
  r ← get;
  let r := if decide (user ≠ [] ∧ user = kr_me r) then _self_key r else r in
  modify (λ _, r);;
  match dict_get (kr_derived r) user with
  | Some derived => mret (Some derived)
  | None =>
    match dict_get (kr_pubkeys r) user with
    | None => mret None
    | Some pubkey =>
      derived ← lift_res (key_for (kr_identity r) pubkey);
      modify (λ r, set_derived (dict_set (kr_derived r) user derived) r);;
      mret (Some derived)
    end
  end.

Definition encryptable (target : pystr) : bool := true.

Definition draw : M Keyring nat := λ r, (set_draws (S (kr_draws r)) r, Ok (kr_draws r)).

Definition seal (user plaintext sender : pystr) : M Keyring (option (pystr * pystr)) :=
  key ← _key user;
  match key with
  | None => mret None
  | Some k => n ← draw; sealed ← lift_res (Envelope.seal k plaintext sender n); mret (Some sealed)
  end.

(** [any(self._key(name) is None for name in everyone)]. *)
Fixpoint any_unknown (names : list pystr) : M Keyring bool :=
  match names with
  | [] => mret false
  | name :: names' =>
    key ← _key name;
    match key with None => mret true | Some _ => any_unknown names' end
  end.

(** The dict comprehension of [seal_for_members]; [list(None)] is a TypeError. *)
Fixpoint seal_each (names : list pystr) (plaintext sender : pystr)
    : M Keyring (list (pystr * (pystr * pystr))) :=
  match names with
  | [] => mret []
  | name :: names' =>
    sealed ← seal name plaintext sender;
    match sealed with
    | None => raise TypeError
    | Some s => rest ← seal_each names' plaintext sender; mret ((name, s) :: rest)
    end
  end.

Definition seal_for_members (members : list pystr) (plaintext sender : pystr)
    : M Keyring (option (list (pystr * (pystr * pystr)))) :=
  modify (λ r, _self_key (set_me sender r));;
  let everyone := sorted (remove_dups (sender :: members)) in
  missing ← any_unknown everyone;
  if (missing : bool) then mret None
  else envelopes ← seal_each everyone plaintext sender; mret (Some envelopes).

Definition missing_keys (r : Keyring) (members : list pystr) : list pystr :=
  sorted (filter (λ name, knows r name = false) (remove_dups members)).

Definition open (user : pystr) (ciphertext nonce : json) (sender : pystr) : M Keyring pystr :=
  key ← _key user;
  match key with
  | None => raise DecryptionFailed
  | Some k => lift_res (open_ k ciphertext nonce sender)
  end.

(** ** What the ring keeps *)

(** The cache holds only what [key_for] would compute again. *)
Record ring_ok (r : Keyring) : Prop := {
  ro_pubkeys : dict_ok (kr_pubkeys r);
  ro_derived : dict_ok (kr_derived r);
  ro_cache u k : dict_get (kr_derived r) u = Some k →
    ∃ p, dict_get (kr_pubkeys r) u = Some p ∧ key_for (kr_identity r) p = Ok k;
}.

(** The public key held for a name, our own included. *)
Definition pubkey_of (r : Keyring) (user : pystr) : option pystr :=
  match dict_get (kr_pubkeys r) user with
  | Some p => Some p
  | None => if decide (user ≠ [] ∧ user = kr_me r) then Some (public_b64 r) else None
  end.

(** The message key, computed from scratch. *)
Definition reference_key (r : Keyring) (user : pystr) : res (option bytes) :=
  match pubkey_of r user with
  | None => Ok None
  | Some p => Some <$> key_for (kr_identity r) p
  end.

Lemma new_keyring_ok identity me : ring_ok (new_keyring identity me).
Proof. constructor; [apply NoDup_nil_2..|done]. Qed.

Lemma remember_ok u p r : ring_ok r → ring_ok (remember u p r).
Proof.
  intros [Hp Hd Hc]. unfold remember. case_decide; [done|]. constructor; cbn.
  - by apply dict_set_ok.
  - by apply dict_del_ok.
  - intros u' k. rewrite dict_get_del, dict_get_set by done. case_decide; [done|apply Hc].
Qed.

Lemma forget_ok u r : ring_ok r → ring_ok (forget u r).
Proof.
  intros [Hp Hd Hc]. constructor; cbn; [by apply dict_del_ok..|].
  intros u' k. rewrite !dict_get_del by done. case_decide; [done|apply Hc].
Qed.

Lemma self_key_get r u :
  dict_get (kr_pubkeys (_self_key r)) u =
  match dict_get (kr_pubkeys r) u with
  | Some p => Some p
  | None => if decide (u = kr_me r) then Some (public_b64 r) else None
  end.
Proof.
  unfold _self_key, dict_setdefault. cbn [kr_pubkeys set_pubkeys].
  destruct (dict_get (kr_pubkeys r) (kr_me r)) eqn:E.
  - destruct (dict_get _ u) eqn:E'; [done|]. case_decide; congruence.
  - rewrite dict_get_set. case_decide as Hu; [by rewrite Hu, E|].
    by destruct (dict_get (kr_pubkeys r) u).
Qed.

Lemma self_key_ok r : ring_ok r → ring_ok (_self_key r).
Proof.
  intros [Hp Hd Hc]. constructor; [|done|].
  - unfold _self_key, dict_setdefault. cbn. destruct (dict_get _ _); auto with dict.
  - intros u k Hk. rewrite self_key_get. by destruct (Hc u k Hk) as (p & -> & ?); eauto.
Qed.

(** Two rings that answer every question alike. *)
Definition same_keys (r r' : Keyring) : Prop :=
  kr_identity r' = kr_identity r ∧ kr_me r' = kr_me r ∧
  ∀ u, pubkey_of r' u = pubkey_of r u.

Lemma same_keys_refl r : same_keys r r.
Proof. done. Qed.

Lemma same_keys_trans r1 r2 r3 : same_keys r1 r2 → same_keys r2 r3 → same_keys r1 r3.
Proof.
  intros (Hi & Hm & Hp) (Hi' & Hm' & Hp'). split_and!; [congruence..|].
  intros u. by rewrite Hp'.
Qed.

Lemma same_reference r r' u : same_keys r r' → reference_key r' u = reference_key r u.
Proof. intros (Hi & _ & Hp). unfold reference_key. by rewrite Hp, Hi. Qed.

Lemma self_key_same r : kr_me r ≠ [] → same_keys r (_self_key r).
Proof.
  intros Hme. split_and!; [done..|]. intros u. unfold pubkey_of. rewrite self_key_get.
  destruct (dict_get (kr_pubkeys r) u); [done|].
  change (kr_me (_self_key r)) with (kr_me r).
  change (public_b64 (_self_key r)) with (public_b64 r).
  repeat case_decide; naive_solver.
Qed.

Lemma get_pubkey_of r u p : dict_get (kr_pubkeys r) u = Some p → pubkey_of r u = Some p.
Proof. intros E. unfold pubkey_of. by rewrite E. Qed.

(** The cached lookup is the computation from scratch, and changes nothing that
    can be asked. *)
Lemma key_run u r :
  ring_ok r →
  ∃ r', _key u r = (r', reference_key r u) ∧ ring_ok r' ∧ same_keys r r' ∧
        kr_draws r' = kr_draws r.
Proof.
  intros Hr. set (r1 := if decide (u ≠ [] ∧ u = kr_me r) then _self_key r else r).
  assert (ring_ok r1 ∧ same_keys r r1 ∧ kr_draws r1 = kr_draws r ∧
          dict_get (kr_pubkeys r1) u = pubkey_of r u) as (Hr1 & Hs & Hd & Hu).
  { unfold r1. case_decide as Hme.
    - destruct Hme as [Hn ->]. split_and!; [by apply self_key_ok|by apply self_key_same|done|].
      rewrite self_key_get. unfold pubkey_of. rewrite !decide_True by done. done.
    - split_and!; [done..|]. unfold pubkey_of. rewrite decide_False by done.
      by destruct (dict_get _ _). }
  unfold _key, mbind, M_bind, get, modify. cbv zeta. fold r1. unfold reference_key.
  destruct (dict_get (kr_derived r1) u) as [k|] eqn:Ek.
  - exists r1. destruct (ro_cache r1 Hr1 u k Ek) as (p & Hp & Hk).
    rewrite Hu in Hp. destruct Hs as (Hi & Hm & Hs). rewrite Hp, <-Hi, Hk. by split_and!.
  - rewrite Hu. destruct (pubkey_of r u) as [p|] eqn:Ep; [|by exists r1].
    unfold lift_res. pose proof Hs as (Hi & _ & _). rewrite Hi.
    destruct (key_for (kr_identity r) p) as [k|e] eqn:Ek'; [|by exists r1].
    eexists. split; [reflexivity|]. split_and!; [|by destruct Hs|done].
    destruct Hr1 as [H1 H2 H3]. constructor; cbn; [done|by apply dict_set_ok|].
    intros u' k'. rewrite dict_get_set. case_decide; [|apply H3].
    intros [= <-]. subst u'. exists p. by rewrite Hu, Hi.
Qed.

(** Whatever a sequence of operations did, the ring answers as a ring with the
    same public keys and no cache. *)
Lemma seal_run u text sender r :
  ring_ok r →
  ∃ r', seal u text sender r =
    (r', k ← reference_key r u;
         match k with
         | None => Ok None
         | Some k => Some <$> Envelope.seal k text sender (kr_draws r)
         end) ∧ ring_ok r' ∧ same_keys r r' ∧ kr_draws r ≤ kr_draws r' ≤ S (kr_draws r).
Proof.
  intros Hr. destruct (key_run u r Hr) as (r1 & E & Hr1 & Hs & Hd).
  unfold seal, mbind, M_bind at 1. rewrite E.
  destruct (reference_key r u) as [[k|]|e]; cbn [res_bind].
  - unfold mbind, M_bind, draw, lift_res, mret, M_ret. cbn. rewrite Hd.
    destruct (Envelope.seal k text sender (kr_draws r)) eqn:Es;
      (eexists; split; [reflexivity|]); (split; [by destruct Hr1|]);
      (split; [by destruct Hs|cbn; lia]).
  - exists r1. split; [done|]. split_and!; [done..|lia|lia].
  - exists r1. split; [done|]. split_and!; [done..|lia|lia].
Qed.

(** Every name is known and its key computable. *)
Definition sealable (r : Keyring) (name : pystr) : Prop := ∃ k, reference_key r name = Ok (Some k).

Lemma any_unknown_run names r :
  ring_ok r → Forall (sealable r) names →
  ∃ r', any_unknown names r = (r', Ok false) ∧ ring_ok r' ∧ same_keys r r'.
Proof.
  revert r. induction names as [|n names IH]; intros r Hr Hn; [by exists r|].
  apply Forall_cons in Hn as [[k Hk] Hn]. destruct (key_run n r Hr) as (r1 & E & Hr1 & Hs & _).
  cbn [any_unknown]. unfold mbind, M_bind. rewrite E, Hk.
  destruct (IH r1 Hr1) as (r2 & E2 & Hr2 & Hs2).
  - eapply Forall_impl; [done|]. intros x [k' Hk']. exists k'. by rewrite (same_reference r r1).
  - exists r2. split_and!; [done..|by eapply same_keys_trans].
Qed.

(** One name without a key, and nothing is sealed. *)
Lemma any_unknown_missing names r n :
  ring_ok r → n ∈ names → reference_key r n = Ok None →
  Forall (λ n, ∃ k, reference_key r n = Ok k) names →
  ∃ r', any_unknown names r = (r', Ok true) ∧ ring_ok r' ∧ same_keys r r'.
Proof.
  revert r. induction names as [|x names IH]; intros r Hr Hin Hn Hall; [set_solver|].
  apply Forall_cons in Hall as [[k Hk] Hall].
  destruct (key_run x r Hr) as (r1 & E & Hr1 & Hs & _).
  cbn [any_unknown]. unfold mbind, M_bind. rewrite E, Hk.
  destruct k as [k|]; [|by exists r1].
  destruct (IH r1 Hr1) as (r2 & E2 & Hr2 & Hs2).
  - apply elem_of_cons in Hin as [->|?]; [congruence|done].
  - by rewrite (same_reference r r1).
  - eapply Forall_impl; [done|]. intros y [k' Hk']. exists k'. by rewrite (same_reference r r1).
  - exists r2. split_and!; [done..|by eapply same_keys_trans].
Qed.

(** Every entry is the text sealed under the key of its name. *)
Lemma seal_each_run names text sender r :
  ring_ok r → Forall (sealable r) names →
  is_Some (utf8_encode text) → is_Some (utf8_encode sender) →
  ∃ r' envelopes, seal_each names text sender r = (r', Ok envelopes) ∧
    envelopes.*1 = names ∧ ring_ok r' ∧ same_keys r r' ∧
    Forall (λ e, ∃ k d, reference_key r e.1 = Ok (Some k) ∧
                        Envelope.seal k text sender d = Ok e.2) envelopes.
Proof.
  intros Hr Hn Ht Hs. revert r Hr Hn. induction names as [|x names IH]; intros r Hr Hn.
  { exists r, []. split_and!; [done..|constructor]. }
  apply Forall_cons in Hn as [[k Hk] Hn].
  destruct (seal_run x text sender r Hr) as (r1 & E & Hr1 & Hs1 & _).
  destruct (seal_total k text sender (kr_draws r) Ht Hs) as (c & n & Hc).
  rewrite Hk in E. cbn [mbind res_bind] in E. rewrite Hc in E.
  destruct (IH r1 Hr1) as (r2 & es & E2 & Hes & Hr2 & Hs2 & Hall).
  { eapply Forall_impl; [done|]. intros y [k' Hk']. exists k'. by rewrite (same_reference r r1). }
  exists r2, ((x, (c, n)) :: es). cbn [seal_each]. unfold mbind, M_bind. rewrite E. cbn [fmap res_fmap].
  rewrite E2. split_and!; [done|by rewrite fmap_cons, Hes|done|by eapply same_keys_trans|].
  constructor; [by exists k, (kr_draws r)|].
  eapply Forall_impl; [done|]. intros e (k' & d & Hk' & ?). exists k', d.
  by rewrite <-(same_reference r r1).
Qed.

(** A ring that belongs to [me] and holds the true public key of each name. *)
Definition holds (ident : pystr → Identity.t) (me : pystr) (names : list pystr) (r : Keyring)
    : Prop :=
  ring_ok r ∧ kr_identity r = ident me ∧
  ∀ n, n ∈ names → pubkey_of r n = Some (Identity.public_b64 (ident n)).

Context `{!CryptoLaws}.

Lemma holds_key ident me names r n :
  holds ident me names r → n ∈ names →
  ∃ k, key_for (ident n) (Identity.public_b64 (ident me)) = Ok k ∧
       reference_key r n = Ok (Some k).
Proof.
  intros (_ & Hi & Hp) Hn. unfold reference_key. rewrite (Hp n Hn), Hi.
  destruct (key_for_agrees (ident me) (ident n)) as [Hagree [k Hk]].
  exists k. rewrite <-Hagree, Hk. done.
Qed.

(** A message sealed from [a] to [b] opens from [b]'s ring under [a]'s name. *)
Lemma opens ident a b r text k d c n :
  holds ident b [a] r → key_for (ident b) (Identity.public_b64 (ident a)) = Ok k →
  Envelope.seal k text a d = Ok (c, n) →
  ∃ r', open a (JStr c) (JStr n) a r = (r', Ok text).
Proof.
  intros Hr Hk Hc. destruct (holds_key ident b [a] r a Hr) as (k' & Hk' & Href); [by left|].
  destruct (key_for_agrees (ident a) (ident b)) as [Hagree _].
  assert (k' = k) as -> by congruence.
  destruct Hr as (Hok & _ & _). destruct (key_run a r Hok) as (r1 & E & _).
  exists r1. unfold open, mbind, M_bind. rewrite E, Href. unfold lift_res.
  by rewrite (open_seal _ _ _ _ _ _ Hc).
Qed.

(** Sealing for a room whose members are all known: one envelope per member and one
    for the sender, each under the key its reader shares with the sender. *)
Lemma seal_for_members_run ident sender members text r :
  sender ≠ [] → is_Some (utf8_encode text) → is_Some (utf8_encode sender) →
  holds ident sender (sender :: members) (set_me sender r) →
  ∃ r' envelopes,
    seal_for_members members text sender r = (r', Ok (Some envelopes)) ∧
    envelopes.*1 = sorted (remove_dups (sender :: members)) ∧
    Forall (λ e, ∃ k d, key_for (ident e.1) (Identity.public_b64 (ident sender)) = Ok k ∧
                        Envelope.seal k text sender d = Ok e.2) envelopes.
Proof.
  intros Hsender Htext Hname Hr.
  pose proof (self_key_same (set_me sender r) Hsender) as Hs.
  assert (holds ident sender (sender :: members) (_self_key (set_me sender r))) as Hown.
  { destruct Hr as (Hok & Hi & Hp). split_and!; [by apply self_key_ok|done|].
    intros n Hn. destruct Hs as (_ & _ & ->). by apply Hp. }
  set (r0 := _self_key (set_me sender r)) in *.
  set (everyone := sorted (remove_dups (sender :: members))).
  assert (∀ n, n ∈ everyone → n ∈ sender :: members) as Hin.
  { intros n. unfold everyone. by rewrite elem_of_sorted, elem_of_remove_dups. }
  assert (Forall (sealable r0) everyone) as Hall.
  { apply Forall_forall. intros n Hn. destruct (holds_key _ _ _ _ n Hown (Hin n Hn)) as (k & _ & ?).
    by exists k. }
  destruct (any_unknown_run everyone r0) as (r1 & E1 & Hr1 & Hs1); [apply Hown|done|].
  destruct (seal_each_run everyone text sender r1) as (r2 & es & E2 & Hes & _ & _ & Hen);
    [done| |done..|].
  { eapply Forall_impl; [done|]. intros y [k' Hk']. exists k'. by rewrite (same_reference r0 r1). }
  exists r2, es. unfold seal_for_members, mbind, M_bind, modify. fold r0 everyone.
  rewrite E1, E2. split_and!; [done..|].
  rewrite Forall_forall in Hen. apply Forall_forall. intros [m cn] Hm.
  destruct (Hen _ Hm) as (k & d & Hk & Hc). cbn [fst snd] in *. exists k, d. split; [|done].
  assert (m ∈ everyone) as Hme.
  { rewrite <-Hes. apply list_elem_of_fmap. by exists (m, cn). }
  destruct (holds_key _ _ _ _ m Hown (Hin m Hme)) as (k' & Hk' & Href).
  rewrite (same_reference r0 r1) in Hk by done. congruence.
Qed.

(** A room message can be read by everyone it is for.  If the sender's ring
    holds the true public keys of the members, sealing succeeds with exactly
    one envelope per member and one for the sender (in sorted order), and each
    opens to the text, under the sender's name, from any ring of its member
    that holds the sender's true key; the sender's own copy opens from the
    sender's ring, so it can be read back from history. *)
Theorem room_message_readable (ident : pystr → Identity.t) (sender : pystr)
    (members : list pystr) (text : pystr) (r : Keyring)
    (Hsender : sender ≠ []) (Htext : is_Some (utf8_encode text))
    (Hname : is_Some (utf8_encode sender))
    (Hr : holds ident sender (sender :: members) (set_me sender r)) :
  ∃ r' envelopes,
    seal_for_members members text sender r = (r', Ok (Some envelopes)) ∧
    envelopes.*1 = sorted (remove_dups (sender :: members)) ∧
    ∀ m c n, (m, (c, n)) ∈ envelopes → ∀ reader, holds ident m [sender] reader →
      ∃ reader', open sender (JStr c) (JStr n) sender reader = (reader', Ok text).
Proof.
  destruct (seal_for_members_run ident sender members text r Hsender Htext Hname Hr)
    as (r2 & es & E & Hes & Hen).
  exists r2, es. split_and!; [done..|]. intros m c n Hm reader Hreader.
  rewrite Forall_forall in Hen. destruct (Hen _ Hm) as (k & d & Hk & Hc). by eapply opens.
Qed.
End Keyring.

(** ** Three people with their own key pairs, over the concrete cipher *)

#[export] Instance toy_crypto_instance : Crypto := toy_crypto.

Definition person (name : pystr) : Identity.t :=
  Identity.mk (replicate 32 (N.of_nat (length name) mod 256)%N).

Definition ring_of (me : pystr) (known : list pystr) : Keyring :=
  foldr (λ n r, remember n (Identity.public_b64 (person n)) r) (new_keyring (person me) me) known.

Lemma ring_of_ok me known : ring_ok (ring_of me known).
Proof. induction known; [apply new_keyring_ok|]. by apply remember_ok. Qed.

Lemma ring_of_holds me names :
  forallb (λ n, bool_decide (pubkey_of (ring_of me names) n
                             = Some (Identity.public_b64 (person n)))) names = true →
  kr_identity (ring_of me names) = person me →
  holds person me names (ring_of me names).
Proof.
  intros Hall Hi. split; [apply ring_of_ok|]. split; [done|]. intros n Hn.
  rewrite forallb_forall in Hall.
  apply (bool_decide_eq_true_1 (pubkey_of (ring_of me names) n = _)).
  apply Hall. by apply list_elem_of_In.
Qed.

Lemma room_message_readable_witness :
  ∃ r' envelopes,
    seal_for_members [&"bob"; &"carol"] (&"hello") (&"alice")
      (ring_of (&"alice") [&"alice"; &"bob"; &"carol"]) = (r', Ok (Some envelopes)) ∧
    envelopes.*1 = [&"alice"; &"bob"; &"carol"] ∧
    ∀ c n, (&"bob", (c, n)) ∈ envelopes →
      ∃ reader', open (&"alice") (JStr c) (JStr n) (&"alice") (ring_of (&"bob") [&"alice"])
                 = (reader', Ok (&"hello")).
Proof.
  assert (holds person (&"alice") (&"alice" :: [&"bob"; &"carol"])
            (set_me (&"alice") (ring_of (&"alice") [&"alice"; &"bob"; &"carol"]))) as Hr.
  { exact (ring_of_holds (&"alice") [&"alice"; &"bob"; &"carol"]
             ltac:(vm_compute; reflexivity) ltac:(vm_compute; reflexivity)). }
  destruct (@room_message_readable toy_crypto toy_laws person (&"alice") [&"bob"; &"carol"]
    (&"hello") (ring_of (&"alice") [&"alice"; &"bob"; &"carol"]) ltac:(discriminate)
    ltac:(eexists; vm_compute; reflexivity) ltac:(eexists; vm_compute; reflexivity) Hr)
    as (r' & es & E & Hes & Hopen).
  exists r', es. split; [exact E|]. split; [rewrite Hes; vm_compute; reflexivity|].
  intros c n Hin. apply (Hopen (&"bob") c n Hin).
  exact (ring_of_holds (&"bob") [&"alice"] ltac:(vm_compute; reflexivity)
           ltac:(vm_compute; reflexivity)).
Defined.
