(* ===== verification/Tls.v ===== *)
(** * TLS and the development certificate

    [im/crypto/tls.py].  RSA keys, X.509 certificates and their PEM texts belong
    to the [cryptography] library, and [ssl] reads them back, so they are
    parameters ([X509]); what the code relies on is stated in [X509Laws]. *)

From S2P Require Import Prelude PyStr Base64 Files Envelope.

(** ** Certificates *)

Record certificate := mkCertificate {
  ct_subject : pystr;            (* the common name *)
  ct_issuer : pystr;
  ct_public : bytes;
  ct_serial : Z;
  ct_not_before : Z;             (* seconds since 1970 *)
  ct_not_after : Z;
  ct_names : list pystr;         (* the DNS names it is for *)
  ct_signer : bytes;             (* the public key that verifies its signature *)
}.

Class X509 := {
  xc_generate : nat → bytes;                     (* rsa.generate_private_key *)
  xc_public : bytes → bytes;                     (* public_key() *)
  xc_serial : nat → Z;                           (* random_serial_number *)
  xc_cert_pem : certificate → bytes;
  xc_key_pem : bytes → bytes;
  xc_read_cert : bytes → option certificate;     (* what ssl makes of a PEM file *)
  xc_read_key : bytes → option bytes;
}.

(** PEM can be read back. *)
Class X509Laws `{X509} := {
  law_cert c : xc_read_cert (xc_cert_pem c) = Some c;
  law_key k : xc_read_key (xc_key_pem k) = Some k;
}.

Definition DEV_DAYS : Z := 365.

(** ** Contexts *)

Inductive side := Client | Server.
Inductive version := TLSv1_2.

Record context := mkContext {
  cx_side : side;
  cx_minimum : version;
  cx_chain : option (certificate * bytes);   (* what it presents, with the private key *)
  cx_required : bool;                        (* a certificate is demanded and verified *)
  cx_check_hostname : bool;
  cx_system : bool;                          (* the system's authorities are trusted *)
  cx_trusted : list certificate;             (* and these *)
}.

Section Tls.
Context `{X509}.

Definition self_signed (draw : nat) (now : Z) (common_name : pystr) : certificate :=
  let key := xc_generate draw in
  mkCertificate common_name common_name (xc_public key) (xc_serial draw)
    (now - 5 * 60) (now + DEV_DAYS * 86400) [common_name] (xc_public key).

(** [chmod] says whether the system lets the mode be changed. *)
Definition generate_self_signed (draw : nat) (now : Z) (chmod : bool)
    (cert_path key_path common_name : pystr) : M files (pystr * pystr) :=
  fs ← get;
  if decide (exists_ fs cert_path ∧ exists_ fs key_path) then mret (cert_path, key_path)
  else
    let key := xc_generate draw in
    let cert := self_signed draw now common_name in
    mkdir (parent cert_path);;
    write_bytes cert_path (xc_cert_pem cert);;
    write_bytes key_path (xc_key_pem key);;
    (if chmod then modify (set_private key_path) else mret tt);;
    mret (cert_path, key_path).

(** [load_cert_chain]: the key must be the certificate's. *)
Definition load_cert_chain (cert_path key_path : pystr) (fs : files) : res (certificate * bytes) :=
  c ← read_bytes fs cert_path;
  k ← read_bytes fs key_path;
  match xc_read_cert c, xc_read_key k with
  | Some cert, Some key => if decide (xc_public key = ct_public cert) then Ok (cert, key) else Raise OSError
  | _, _ => Raise OSError
  end.

Definition load_verify_locations (cert_path : pystr) (fs : files) : res certificate :=
  c ← read_bytes fs cert_path;
  match xc_read_cert c with Some cert => Ok cert | None => Raise OSError end.

Definition server_context (cert_path key_path : pystr) (fs : files) : res context :=
  chain ← load_cert_chain cert_path key_path fs;
  Ok (mkContext Server TLSv1_2 (Some chain) false false false []).

(** [create_default_context(SERVER_AUTH)] demands a certificate, checks the name and
    trusts the system's authorities. *)
Definition client_context (cert_path : option pystr) (fs : files) : res context :=
  trusted ← match cert_path with
            | Some path => cert ← load_verify_locations path fs; Ok [cert]
            | None => Ok []
            end;
  Ok (mkContext Client TLSv1_2 None true true true trusted).

(** ** Facts *)

(** The two files, after a generation that went through. *)
Lemma generated draw now chmod cert_path key_path name fs fs' x :
  generate_self_signed draw now chmod cert_path key_path name fs = (fs', Ok x) →
  x = (cert_path, key_path) ∧
  (exists_ fs cert_path ∧ exists_ fs key_path ∧ fs' = fs ∨
   fs_files fs' = <[key_path := xc_key_pem (xc_generate draw)]>
                    (<[cert_path := xc_cert_pem (self_signed draw now name)]> (fs_files fs)) ∧
   (key_path ∈ fs_private fs' ↔ chmod = true ∨ key_path ∈ fs_private fs)).
Proof.
  unfold generate_self_signed. intros (fs0 & _ & [= <- <-] & Hrun)%bind_Ok.
  revert Hrun. case_decide as He; [intros [= <- <-]; split; [done|]; left; tauto|]. cbv zeta.
  intros (fs1 & [] & (_ & Hf1 & Hp1 & _)%mkdir_run & Hrun)%bind_Ok.
  apply bind_Ok in Hrun as (fs2 & [] & H2%write_run & Hrun).
  apply bind_Ok in Hrun as (fs3 & [] & H3%write_run & Hrun).
  apply bind_Ok in Hrun as (fs4 & [] & H4 & [= <- <-]). split; [done|]. right.
  subst fs2 fs3. destruct chmod; injection H4 as <-; cbn; rewrite Hf1, Hp1; (split; [done|]);
    [set_solver|]. split; [by right|]. by intros [?|].
Qed.

Context `{!X509Laws}.

(** C16. The two ends of a development set-up fit together.  If the certificate is
    made now, then both contexts load: the server presents a certificate whose
    key it holds; the client demands a certificate, checks the host name, and
    trusts, besides the system's authorities, exactly that one, which is signed
    with its own key, is for the name it was made for and valid from five
    minutes ago for a year; and making it again changes nothing. *)
Theorem development_certificate (draw : nat) (now : Z) (chmod : bool)
    (cert_path key_path name : pystr) (fs fs' : files) (x : pystr * pystr)
    (Hpaths : cert_path ≠ key_path) (Hnew : ¬ (exists_ fs cert_path ∧ exists_ fs key_path))
    (Hrun : generate_self_signed draw now chmod cert_path key_path name fs = (fs', Ok x)) :
  ∃ cert key ours theirs,
    server_context cert_path key_path fs' = Ok ours ∧
    client_context (Some cert_path) fs' = Ok theirs ∧
    cx_chain ours = Some (cert, key) ∧ xc_public key = ct_public cert ∧
    cx_required theirs = true ∧ cx_check_hostname theirs = true ∧ cx_trusted theirs = [cert] ∧
    ct_signer cert = ct_public cert ∧ ct_issuer cert = ct_subject cert ∧ ct_names cert = [name] ∧
    ct_not_before cert = (now - 300)%Z ∧ ct_not_after cert = (now + 31536000)%Z ∧
    ∀ draw' now' chmod' name',
      generate_self_signed draw' now' chmod' cert_path key_path name' fs' = (fs', Ok x).
Proof.
  destruct (generated _ _ _ _ _ _ _ _ _ Hrun) as (-> & [(? & ? & _)|(Hf & _)]); [tauto|].
  set (cert := self_signed draw now name) in *. set (key := xc_generate draw) in *.
  assert (read_bytes fs' cert_path = Ok (xc_cert_pem cert)) as Hc.
  { unfold read_bytes. by rewrite Hf, lookup_insert_ne, lookup_insert_eq by done. }
  assert (read_bytes fs' key_path = Ok (xc_key_pem key)) as Hk.
  { unfold read_bytes. by rewrite Hf, lookup_insert_eq. }
  exists cert, key, (mkContext Server TLSv1_2 (Some (cert, key)) false false false []),
    (mkContext Client TLSv1_2 None true true true [cert]).
  split_and!; try done.
  - unfold server_context, load_cert_chain. rewrite Hc, Hk. cbn [mbind res_bind].
    by rewrite law_cert, law_key, decide_True.
  - unfold client_context, load_verify_locations. rewrite Hc. cbn [mbind res_bind]. by rewrite law_cert.
  - intros. unfold generate_self_signed, mbind, M_bind, get. rewrite decide_True; [done|].
    unfold exists_, is_file. split; left; rewrite Hf.
    + rewrite lookup_insert_ne, lookup_insert_eq by done. by eexists.
    + rewrite lookup_insert_eq. by eexists.
Qed.

(** Only the directory of the certificate is made: with a key that goes into a
    directory that is not there, a certificate is written, then the program
    stops; and so it does every time it is started again. *)
Lemma key_directory_is_not_made draw now chmod cert_path key_path name fs :
  parent cert_path = &"." → ¬ is_dir fs cert_path →
  ¬ is_dir fs (parent key_path) → ¬ exists_ fs key_path →
  ∃ fs', generate_self_signed draw now chmod cert_path key_path name fs = (fs', Raise OSError) ∧
    is_file fs' cert_path ∧ fs_dirs fs' = fs_dirs fs ∧ ¬ exists_ fs' key_path.
Proof.
  intros Hp Hd Hk Hn. set (fs' := set_file cert_path (xc_cert_pem (self_signed draw now name)) fs).
  assert (is_dir fs (&".")) as Hdot by by left.
  exists fs'. split_and!.
  - unfold generate_self_signed, mbind, M_bind, get. rewrite decide_False by tauto. cbv zeta.
    rewrite Hp. assert (mkdir (&".") fs = (fs, Ok tt)) as ->.
    { unfold mkdir. cbn [mkdir_from length]. unfold mbind, M_bind, get. by rewrite decide_True. }
    unfold write_bytes at 1, mbind, M_bind, get. rewrite Hp, decide_True by done.
    unfold modify at 1. fold fs'. unfold write_bytes, mbind, M_bind, get.
    rewrite decide_False; [done|]. intros [? _]. by apply Hk.
  - unfold is_file. cbn. rewrite lookup_insert_eq. by eexists.
  - done.
  - intros [Hf|Hf]; apply Hn; [left|by right]. revert Hf. unfold is_file. cbn.
    rewrite lookup_insert_ne; [done|]. intros ->. by rewrite Hp in Hk.
Qed.
End Tls.

(** ** A concrete library *)

(** A certificate as one number. *)
Definition cert_code (c : certificate) : positive :=
  encode (ct_subject c, ct_issuer c, ct_public c, ct_serial c, ct_not_before c, ct_not_after c,
          ct_names c, ct_signer c).

Definition cert_of (p : positive) : option certificate :=
  '(s, i, k, n, b, a, d, g) ← decode p; Some (mkCertificate s i k n b a d g).

#[export] Instance toy_x509 : X509 := {|
  xc_generate draw := [N.of_nat draw];
  xc_public key := 1%N :: key;
  xc_serial draw := Z.of_nat draw;
  xc_cert_pem c := [Npos (cert_code c)];
  xc_key_pem key := 2%N :: key;
  xc_read_cert text := match text with [Npos p] => cert_of p | _ => None end;
  xc_read_key text := match text with 2%N :: key => Some key | _ => None end;
|}.

#[export] Instance toy_x509_laws : X509Laws.
Proof.
  split; [|done]. intros []. cbn. unfold cert_of, cert_code. by rewrite decode_encode.
Qed.

Lemma development_certificate_witness :
  ∃ cert ours theirs,
    let fs := (generate_self_signed 7 1756684800 true (&"dev.crt") (&"dev.key") (&"localhost") bare_disk).1 in
    server_context (&"dev.crt") (&"dev.key") fs = Ok ours ∧
    client_context (Some (&"dev.crt")) fs = Ok theirs ∧
    fst <$> cx_chain ours = Some cert ∧ cx_trusted theirs = [cert] ∧ ct_names cert = [&"localhost"].
Proof.
  destruct (development_certificate 7 1756684800 true (&"dev.crt") (&"dev.key") (&"localhost")
    bare_disk (generate_self_signed 7 1756684800 true (&"dev.crt") (&"dev.key") (&"localhost") bare_disk).1
    (&"dev.crt", &"dev.key")) as (cert & key & ours & theirs & H1 & H2 & H3 & _ & _ & _ & H4 & _ & _ & H5 & _).
  - discriminate.
  - intros [H _]. revert H. apply (bool_decide_eq_false_1 (exists_ _ _)). vm_compute; reflexivity.
  - vm_compute; reflexivity.
  - exists cert, ours, theirs. cbv zeta. rewrite H3. by split_and!.
Defined.
