(* ===== verification/RoomDialog.v ===== *)
(** * The room dialog

    [im/client/view/tk/room_dialog.py].  The dialog is modal: from the moment it
    is built until it is closed, what happens to it is a sequence of actions of
    the user, and [ask_room] is the answer they lead to.  Positions on the screen
    are pixels; the widgets are reduced to what they hold and what they show. *)

From S2P Require Import Prelude PyStr PyDict.

Definition VISIBLE_ROWS : nat := 7.
Definition MAX_NAME : nat := 31.

Definition is_hash (c : N) : bool := (c =? 35)%N.

(** ["A room name is at most 31 characters."] and the like; [None] if it will do. *)
Definition name_problem (name : pystr) : option pystr :=
  if decide (name = []) then Some (&"A room needs a name.")
  else if existsb isspace name then
    Some (&"A room name cannot contain spaces. Try study-group.")
  else if decide (MAX_NAME < length (lstrip_by is_hash name)) then
    Some ((&"A room name is at most ") ++ dec_of_N (N.of_nat MAX_NAME) ++ &" characters.")
  else if decide (lstrip_by is_hash name = []) then
    Some (&"A room needs a name after the #.")
  else None.

(** What stands where the members are chosen: a row with a tick and a presence
    dot for each, scrolling when there are many, or a sentence. *)
Inductive member_list :=
| Rows (dots : list (pystr * bool)) (scrolls : bool)
| Sentence (text : pystr).

Record dialog := mkDialog {
  d_result : option (pystr * list pystr);
  d_already_in : list pystr;
  d_fixed_room : option pystr;
  d_checks : list (pystr * bool);
  d_list : member_list;
  d_name : pystr;        (* the room name as it stands in its field *)
  d_typed : pystr;       (* the field for further user names *)
  d_complaint : pystr;
  d_alert : bool;        (* the name field has the border of an error *)
  d_open : bool;
}.

Definition set_result r open d := mkDialog r (d_already_in d) (d_fixed_room d) (d_checks d)
  (d_list d) (d_name d) (d_typed d) (d_complaint d) (d_alert d) open.
Definition set_checks x d := mkDialog (d_result d) (d_already_in d) (d_fixed_room d) x
  (d_list d) (d_name d) (d_typed d) (d_complaint d) (d_alert d) (d_open d).
Definition set_name x d := mkDialog (d_result d) (d_already_in d) (d_fixed_room d) (d_checks d)
  (d_list d) x (d_typed d) (d_complaint d) (d_alert d) (d_open d).
Definition set_typed x d := mkDialog (d_result d) (d_already_in d) (d_fixed_room d) (d_checks d)
  (d_list d) (d_name d) x (d_complaint d) (d_alert d) (d_open d).
Definition set_complaint x d := mkDialog (d_result d) (d_already_in d) (d_fixed_room d) (d_checks d)
  (d_list d) (d_name d) (d_typed d) x true (d_open d).

(** ** Building *)

Definition _member_list (online : pystr → bool) (contacts : list pystr) : member_list :=
  Rows ((λ name, (name, online name)) <$> contacts)
    (bool_decide (VISIBLE_ROWS < length contacts)).

(** [self._checks[name] = var], for every row. *)
Definition _rows (contacts : list pystr) : list (pystr * bool) :=
  foldl (λ d name, dict_set d name false) [] contacts.

(** [RoomDialog(master, contacts, room=room, online=online, already_in=already_in)]. *)
Definition new_dialog (contacts : list pystr) (room : option pystr) (online : pystr → bool)
    (already_in : list pystr) : dialog :=
  let selectable := filter (λ name, name ∉ already_in) contacts in
  mkDialog None already_in room (_rows selectable)
    (if decide (selectable = [])
     then Sentence (if decide (already_in = [])
                    then &"Nobody else has been seen online yet.
You can still make the room and add people later."
                    else &"Everyone you know is already in this room.")
     else _member_list online selectable)
    (lstrip_by is_hash (default [] room)) [] [] false true.

(** The label of the button that accepts. *)
Definition accept_label (d : dialog) : pystr :=
  if d_fixed_room d is Some _ then &"Add" else &"Create".

(** Where the window goes: [width], [height] of the dialog, [px48] pixels for a
    taskbar, then the parent's corner and size and the size of the screen. *)
Definition _centre_on (width height px48 root_x root_y parent_w parent_h screen_w screen_h : Z)
    : Z * Z :=
  let x := (root_x + (parent_w - width) / 2)%Z in
  let y := (root_y + (parent_h - height) / 3)%Z in
  let limit_x := (screen_w - width)%Z in
  let limit_y := (screen_h - height - px48)%Z in
  (Z.max 0 (Z.min x limit_x), Z.max 0 (Z.min y limit_y)).

(** ** Answers *)

(** One turn of the loop over the typed names. *)
Definition pick (already_in picked : list pystr) (name : pystr) : list pystr :=
  let name := strip name in
  if decide (name ≠ [] ∧ name ∉ picked ∧ name ∉ already_in) then picked ++ [name] else picked.

Definition selected (d : dialog) : list pystr :=
  foldl (pick (d_already_in d)) (dict_keys (filter (λ kv : pystr * bool, kv.2 = true) (d_checks d)))
    (split 44 (replace_char 59 44 (d_typed d))).

Definition _accept (d : dialog) : dialog :=
  let name := strip (d_name d) in
  match name_problem name with
  | Some problem => set_complaint problem d
  | None => set_result (Some (name, selected d)) false d
  end.

Definition _cancel (d : dialog) : dialog := set_result None false d.

(** [var.set(not var.get())]. *)
Definition toggle (name : pystr) (d : dialog) : dialog :=
  match dict_get (d_checks d) name with
  | Some b => set_checks (dict_set (d_checks d) name (negb b)) d
  | None => d
  end.

(** ** Actions of the user

    A press of the mouse button on the tick or the name is an event of the
    check button.  Its own binding, from [_row], toggles the variable; then the
    binding every check button has does, because nothing stops the event. *)
Inductive action :=
| EditedName (text : pystr)
| EditedTyped (text : pystr)
| PressedRow (name : pystr)        (* on the row, outside the check button *)
| PressedCheck (name : pystr)      (* on the tick or the name *)
| PressedSpace (name : pystr)      (* the space bar, on the check button *)
| Accepted                         (* Return, or the button *)
| Cancelled.                       (* Escape, the button, or closing the window *)

Definition step (d : dialog) (a : action) : dialog :=
  if d_open d then
    match a with
    | EditedName text => if d_fixed_room d is Some _ then d else set_name text d    (* read-only *)
    | EditedTyped text => set_typed text d
    | PressedRow name => toggle name d
    | PressedCheck name => toggle name (toggle name d)
    | PressedSpace name => toggle name d
    | Accepted => _accept d
    | Cancelled => _cancel d
    end
  else d.

(** [wait_window] until the dialog is gone. *)
Definition ask_room (contacts : list pystr) (room : option pystr) (online : pystr → bool)
    (already_in : list pystr) (actions : list action) : option (pystr * list pystr) :=
  d_result (foldl step (new_dialog contacts room online already_in) actions).

(** [TkView._hashed]: what the window makes of the name. *)
Definition _hashed (room : pystr) : pystr :=
  let room := strip room in if startswith room (&"#") then room else (&"#") ++ room.

(** ** What an answer is worth *)

Lemma pick_elem ai picked name x :
  x ∈ pick ai picked name → x ∈ picked ∨ (x = strip name ∧ x ≠ [] ∧ x ∉ ai).
Proof.
  unfold pick. case_decide as Hd; [|by left].
  intros [| ->%list_elem_of_singleton]%elem_of_app; [by left|]. right. naive_solver.
Qed.

Lemma pick_NoDup ai picked name : NoDup picked → NoDup (pick ai picked name).
Proof.
  intros Hp. unfold pick. case_decide as Hd; [|done]. apply NoDup_app. split_and!; [done| |apply NoDup_singleton].
  intros x Hx ->%list_elem_of_singleton. naive_solver.
Qed.

Lemma pick_keeps ai picked name x : x ∈ picked → x ∈ pick ai picked name.
Proof. unfold pick. case_decide; [|done]. set_solver. Qed.

Lemma picks_spec ai picked names :
  NoDup picked →
  NoDup (foldl (pick ai) picked names) ∧
  ∀ x, x ∈ foldl (pick ai) picked names ↔
       x ∈ picked ∨ (x ≠ [] ∧ x ∉ ai ∧ ∃ name, name ∈ names ∧ x = strip name).
Proof.
  revert picked. induction names as [|name names IH]; intros picked Hp; cbn [foldl].
  { split; [done|]. intros x. split; [by left|]. by intros [|(_ & _ & ? & []%not_elem_of_nil & _)]. }
  destruct (IH (pick ai picked name) (pick_NoDup _ _ _ Hp)) as [Hn Hx]. split; [done|].
  intros x. rewrite Hx. split.
  - intros [ [|(-> & Ha & Hb)]%pick_elem|(Ha & Hb & y & Hy & ->)]; [by left|..]; right;
      (split_and!; [done..|]); eexists; (split; [|done]); [by left|by right].
  - intros [Hin|(Ha & Hb & y & [->|Hy]%elem_of_cons & ->)].
    + left. by apply pick_keeps.
    + left. unfold pick. case_decide as Hd; [set_solver|].
      destruct (decide (strip name ∈ picked)); [done|naive_solver].
    + right. eauto 10.
Qed.

(** The rows are contacts, never a name already in the room, and there is one
    variable per row. *)
Record dialog_ok (contacts : list pystr) (d : dialog) : Prop := {
  do_known : ∀ name, name ∈ dict_keys (d_checks d) → name ∈ contacts;
  do_checks : dict_ok (d_checks d);
  do_apart : ∀ name, name ∈ dict_keys (d_checks d) → name ∉ d_already_in d;
}.

Lemma rows_spec (names : list pystr) (d : list (pystr * bool)) :
  dict_ok d →
  dict_ok (foldl (λ d name, dict_set d name false) d names) ∧
  ∀ x, x ∈ dict_keys (foldl (λ d name, dict_set d name false) d names) ↔
       x ∈ dict_keys d ∨ x ∈ names.
Proof.
  revert d. induction names as [|n names IH]; intros d Hd; cbn [foldl].
  { split; [done|]. set_solver. }
  destruct (IH (dict_set d n false)) as [Hok Hx]; [by apply dict_set_ok|]. split; [done|].
  intros x. rewrite Hx, elem_of_dict_set_keys. set_solver.
Qed.

Lemma new_dialog_ok contacts room online already_in :
  dialog_ok contacts (new_dialog contacts room online already_in).
Proof.
  destruct (rows_spec (filter (λ name, name ∉ already_in) contacts) []) as [Hok Hx]; [by constructor|].
  constructor; cbn; [|done|]; intros name; unfold _rows; rewrite Hx;
    intros [ []%not_elem_of_nil|[? ?]%list_elem_of_filter]; done.
Qed.

Lemma toggle_ok cs name d : dialog_ok cs d → dialog_ok cs (toggle name d).
Proof.
  intros Hd. unfold toggle. destruct (dict_get (d_checks d) name) as [b|] eqn:E; [|done].
  assert (name ∈ dict_keys (d_checks d)) by (apply dict_get_is_Some; by rewrite E).
  destruct Hd as [Hk Hc Ha].
  constructor; cbn [d_checks set_checks d_already_in]; [|by apply dict_set_ok|];
    intros n; rewrite elem_of_dict_set_keys; intros [->|]; auto.
Qed.

Lemma step_ok cs d a : dialog_ok cs d → dialog_ok cs (step d a).
Proof.
  intros Hd. unfold step. destruct (d_open d); [|done].
  destruct a; try case_match; try done; try (by apply toggle_ok); try (by destruct Hd; constructor).
  - by do 2 apply toggle_ok.
  - unfold _accept. case_match; by destruct Hd; constructor.
Qed.

(** A dialog, or what it was when it was accepted. *)
Definition answer_of (cs : list pystr) (d : dialog) (r : pystr * list pystr) : Prop :=
  ∃ d0, dialog_ok cs d0 ∧ d_already_in d0 = d_already_in d ∧
        r = (strip (d_name d0), selected d0) ∧ name_problem (strip (d_name d0)) = None.

Lemma toggle_same name d : d_already_in (toggle name d) = d_already_in d ∧
  d_result (toggle name d) = d_result d ∧ d_open (toggle name d) = d_open d ∧
  d_name (toggle name d) = d_name d ∧ d_typed (toggle name d) = d_typed d.
Proof. unfold toggle. by case_match. Qed.

Lemma step_already_in d a : d_already_in (step d a) = d_already_in d.
Proof.
  unfold step. destruct (d_open d); [|done].
  destruct a; try case_match; try done; try apply toggle_same.
  - by rewrite (proj1 (toggle_same name _)), (proj1 (toggle_same name _)).
  - unfold _accept. by case_match.
Qed.

Lemma run_answer cs actions d :
  dialog_ok cs d → (∀ r, d_result d = Some r → answer_of cs d r) →
  ∀ r, d_result (foldl step d actions) = Some r → answer_of cs d r.
Proof.
  revert d. induction actions as [|a actions IH]; intros d Hok Hr r; [by apply Hr|].
  cbn [foldl]. intros Hrun.
  assert (answer_of cs (step d a) r → answer_of cs d r) as Hback.
  { intros (d0 & ? & Ha & ? & ?). exists d0. rewrite step_already_in in Ha. done. }
  apply Hback. apply IH; [by apply step_ok| |done]. clear r Hrun Hback IH. intros r.
  unfold answer_of. rewrite step_already_in. unfold step. destruct (d_open d) eqn:Ho; [|by apply Hr].
  assert (∀ name, d_result (toggle name d) = d_result d) as Ht by (intros; apply toggle_same).
  destruct a as [t|t|n|n|n| |]; try (by rewrite Ht; apply Hr); try by apply Hr.
  - case_match; apply Hr.
  - destruct (toggle_same n (toggle n d)) as (_ & -> & _). rewrite Ht. apply Hr.
  - unfold _accept. case_match eqn:E; [apply Hr|]. intros [= <-]. by exists d.
  - done.
Qed.

Lemma selected_spec cs d : dialog_ok cs d →
  NoDup (selected d) ∧
  ∀ x, x ∈ selected d ↔
    dict_get (d_checks d) x = Some true ∨
    (x ≠ [] ∧ x ∉ d_already_in d ∧
     ∃ w, w ∈ split 44 (replace_char 59 44 (d_typed d)) ∧ x = strip w).
Proof.
  intros [_ Hc _].
  destruct (picks_spec (d_already_in d)
    (dict_keys (filter (λ kv : pystr * bool, kv.2 = true) (d_checks d)))
    (split 44 (replace_char 59 44 (d_typed d)))) as [Hn Hx].
  { eapply sublist_NoDup; [exact Hc|]. apply fmap_sublist, sublist_filter. }
  split; [exact Hn|]. intros x. unfold selected. rewrite Hx.
  assert (x ∈ dict_keys (filter (λ kv : pystr * bool, kv.2 = true) (d_checks d)) ↔
          dict_get (d_checks d) x = Some true) as ->; [|done].
  unfold dict_keys. rewrite list_elem_of_fmap. split.
  - intros ([k b] & -> & [Hb Hin]%list_elem_of_filter). cbn in *. subst b. by apply dict_In_get.
  - intros Hg. exists (x, true). split; [done|]. apply list_elem_of_filter. split; [done|].
    by apply dict_get_In.
Qed.

(** C35. Whatever the user does with the dialog, an answer is a name without
    problems and a list of members without duplicates, none of them empty or
    already in the room. *)
Theorem dialog_answer contacts room online already_in actions name members
    (Hcontacts : [] ∉ contacts)
    (Hanswer : ask_room contacts room online already_in actions = Some (name, members)) :
  name_problem name = None ∧ NoDup members ∧
  ∀ x, x ∈ members → x ≠ [] ∧ x ∉ already_in.
Proof.
  unfold ask_room in Hanswer.
  apply (run_answer contacts) in Hanswer as (d0 & Hok & Ha & [= -> ->] & Hp);
    [|apply new_dialog_ok|done].
  destruct (selected_spec contacts d0 Hok) as [Hn Hx]. split_and!; [done..|]. cbn in Ha.
  intros x [Hg|(He & Hin & _)]%Hx; [|by rewrite Ha in Hin].
  assert (x ∈ dict_keys (d_checks d0)) as Hk by (apply dict_get_is_Some; by rewrite Hg).
  split; [intros ->; by apply Hcontacts, (do_known _ _ Hok)|].
  rewrite <-Ha. by apply (do_apart _ _ Hok).
Qed.

(** A press of the mouse on a tick or on a name ticks nothing: both bindings run. *)
Theorem press_on_a_name_is_undone contacts room online already_in actions name :
  let d := foldl step (new_dialog contacts room online already_in) actions in
  step d (PressedCheck name) = d.
Proof.
  cbv zeta. generalize (foldl step (new_dialog contacts room online already_in) actions).
  intros [result already fixed checks rows text typed complaint alert open].
  unfold step. cbn [d_open]. destruct open; [|done]. unfold toggle. cbn [d_checks].
  destruct (dict_get checks name) as [b|] eqn:E; cbn [d_checks]; [|by rewrite E].
  cbn [d_checks set_checks]. rewrite dict_get_set_eq, negb_involutive, dict_set_twice.
  by rewrite dict_set_id.
Qed.

(** carol is already in; alice ticks bob, and types two names. *)
Lemma dialog_answer_witness :
  let actions := [PressedRow (&"bob"); EditedTyped (&"dave; bob, carol"); EditedName (&" team "); Accepted] in
  ask_room [&"bob"; &"carol"] None (λ _, true) [&"carol"] actions = Some (&"team", [&"bob"; &"dave"]) ∧
  name_problem (&"team") = None ∧ NoDup [&"bob"; &"dave"] ∧
  ∀ x, x ∈ [&"bob"; &"dave"] → x ≠ [] ∧ x ∉ [&"carol"].
Proof.
  split; [vm_compute; reflexivity|].
  apply (dialog_answer [&"bob"; &"carol"] None (λ _, true) [&"carol"]
    [PressedRow (&"bob"); EditedTyped (&"dave; bob, carol"); EditedName (&" team "); Accepted]);
    [|vm_compute; reflexivity].
  intros [E|[E|[]%not_elem_of_nil]%elem_of_cons]%elem_of_cons; discriminate E.
Defined.
