(* ===== verification/Uplink.v ===== *)
(** * What the controller asks of a connection

    The frames that the sending methods of [im/client/net/connection.py] build,
    and the interface through which the controller uses whatever connection it
    is given: a [ServerConnection], a [Session] in front of one, or a test's
    fake.  [id] and [ts] are the [new_id()] and [now_ms()] of the frame. *)

From S2P Require Import Prelude PyStr PyDict Json Frames.

(** ** The frames *)

Section requests.
Variables (id : pystr) (ts : Z).

(** [Frame(type=t, to=to, data=data)]. *)
Definition request (t : MessageType) (to : json) (data : list (pystr * json)) : Frame :=
  data_frame t to data id ts.

(** [{member: [ciphertext, nonce]}]. *)
Definition envelopes_json (envelopes : list (pystr * (pystr * pystr))) : json :=
  JObj ((λ e, (e.1, JList [JStr e.2.1; JStr e.2.2])) <$> envelopes).

Definition message (to body : pystr) (nonce : option pystr)
    (envelopes : option (list (pystr * (pystr * pystr)))) : Frame :=
  let data := match envelopes with
              | Some ((_ :: _) as e) => [(&"env", envelopes_json e)]
              | _ => []
              end in
  mkFrame MSG JNull (JStr to) (JStr body)
    (match nonce with Some n => JStr n | None => JNull end) data (JStr id) ts
    (JInt PROTOCOL_VERSION).

Definition ping : Frame := request PING JNull [].

Definition typing (to : pystr) (on : bool) : Frame :=
  request TYPING (JStr to) [(&"on", JBool on)].

Definition receipt (to : pystr) (ref : json) (state : pystr) : Frame :=
  request RECEIPT (JStr to) [(&"ref", ref); (&"state", JStr state)].

Definition get_key (user : pystr) : Frame := request GET_KEY JNull [(&"user", JStr user)].

Definition history (room : pystr) (before : option Z) (limit : Z) : Frame :=
  request HISTORY (JStr room)
    ([(&"room", JStr room); (&"limit", JInt limit)] ++
     match before with Some b => [(&"before", JInt b)] | None => [] end).

Definition names_json (names : list pystr) : json := JList (JStr <$> names).

Definition create_room (room : pystr) (members : list pystr) : Frame :=
  request CREATE_ROOM JNull
    ((&"room", JStr room) ::
     match members with [] => [] | _ => [(&"members", names_json members)] end).

Definition add_contact (user : pystr) : Frame :=
  request ADD_CONTACT JNull [(&"user", JStr user)].

Definition remove_contact (user : pystr) : Frame :=
  request REMOVE_CONTACT JNull [(&"user", JStr user)].

Definition invite (room : pystr) (members : list pystr) : Frame :=
  request INVITE JNull [(&"room", JStr room); (&"members", names_json members)].

Definition join_room (room : pystr) : Frame := request JOIN JNull [(&"room", JStr room)].

Definition leave_room (room : pystr) : Frame := request LEAVE JNull [(&"room", JStr room)].

Definition register_request (username pass_hash : pystr) (pubkey : option pystr) : Frame :=
  request REGISTER JNull
    ([(&"user", JStr username); (&"pass_hash", JStr pass_hash)] ++
     match pubkey with Some k => [(&"pubkey", JStr k)] | None => [] end).

Definition login_request (username pass_hash : pystr) : Frame :=
  request LOGIN JNull [(&"user", JStr username); (&"pass_hash", JStr pass_hash)].
End requests.

(** ** The interface *)

(** [up_send] queues one frame; [up_log] is every frame queued so far, in
    order.  How many frames fit, and when the link drops, is the
    implementation's business. *)
Class Uplink (C : Type) := {
  up_send : Frame → M C unit;
  up_log : C → list Frame;
}.

(** A frame is queued, or [NotConnected] is raised and nothing is. *)
Class UplinkLaws (C : Type) `{Uplink C} := {
  up_send_spec f (c : C) : ∃ c',
    (up_send f c = (c', Ok tt) ∧ up_log c' = up_log c ++ [f]) ∨
    (up_send f c = (c', Raise NotConnected) ∧ up_log c' = up_log c);
}.

(** The fake of the tests: it is up or down, and remembers what it was asked. *)
Record fake := mkFake { fk_up : bool; fk_log : list Frame }.

#[export] Instance fake_uplink : Uplink fake := {
  up_send f c := if fk_up c then (mkFake true (fk_log c ++ [f]), Ok tt)
                 else (c, Raise NotConnected);
  up_log := fk_log;
}.

#[export] Instance fake_laws : UplinkLaws fake.
Proof.
  split. intros f [[|] log]; cbn.
  - eexists. by left.
  - eexists. by right.
Qed.

(** A request is a frame that can travel, whatever the names in it. *)
Lemma request_ok `{Runtime} id ts t to data :
  id ≠ [] → dict_ok data → Forall (λ kv, reserved kv.1 = false) data →
  frame_ok (request id ts t to data).
Proof.
  intros Hid Hd Hr. split_and!; [done| |done|done]. cbn. by apply bool_decide_eq_true.
Qed.
