(* ===== verification/RoomNames.v ===== *)
(** * The dialog and the server on the names of rooms

    The room dialog repeats the server's rule, so that a bad name is refused
    while the dialog is still open.  The two rules agree on every name that starts
    with at most one hash sign. *)

From S2P Require Import Prelude PyStr PyDict Json Frames Registries Wp Router RouterSpec.
From S2P Require Import RouterRuns RoomDelivery Uplink Scenario.
From S2P Require Import RoomDialog.

Lemma existsb_isspace s : existsb isspace s = false ↔ Forall (λ c, isspace c = false) s.
Proof.
  induction s as [|x s IH]; cbn; [by split|].
  by rewrite orb_false_iff, IH, Forall_cons.
Qed.

Section Names.
Context `{Runtime} {R : Type} `{RoomStore R}.

(** The server hands back exactly the names that are valid. *)
Lemma room_name_iff (w : world R) s f room :
  jget (f_data f) (&"room") = JStr room →
  valid_room room ↔ (_room_name s f w).2 = Ok (Some room).
Proof.
  intros Hj. split; [by intros Hv; erewrite room_name_run|].
  unfold _room_name. rewrite Hj.
  destruct (bool_decide (room = [])); [done|].
  destruct (is_room room) eqn:Hr; [|done]. cbn [negb].
  destruct (bool_decide _) eqn:Hl; [done|]. cbn [orb].
  destruct (existsb isspace room) eqn:Hs; [done|]. intros _.
  apply bool_decide_eq_false in Hl. split_and!; [done|lia|lia|]. by apply existsb_isspace.
Qed.
End Names.

Lemma strip_clean s : Forall (λ c, isspace c = false) s → strip s = s.
Proof.
  intros Hs. unfold strip.
  assert (lstrip_by isspace s = s) as ->.
  { destruct Hs as [|c s Hc _]; [done|]. cbn. by rewrite Hc. }
  apply rstrip_by_id. intros c Hc. rewrite Forall_forall in Hs.
  apply Hs. by apply last_Some_elem_of.
Qed.

Lemma lstrip_hash_other s : startswith s (&"#") = false → lstrip_by is_hash s = s.
Proof.
  destruct s as [|c s]; [done|]. change (&"#") with [35%N]. cbn [startswith lstrip_by].
  unfold is_hash. by destruct (c =? 35)%N.
Qed.

(** The two rules as one condition on the name. *)
Lemma name_problem_None name :
  name_problem name = None ↔
  Forall (λ c, isspace c = false) name ∧ 1 ≤ length (lstrip_by is_hash name) ≤ MAX_NAME.
Proof.
  unfold name_problem. destruct (decide (name = [])) as [->|Hne].
  { split; [done|]. intros [_ Hl]. cbn in Hl. lia. }
  destruct (existsb isspace name) eqn:Hs.
  { split; [done|]. intros [Hc _]. apply existsb_isspace in Hc. congruence. }
  apply existsb_isspace in Hs.
  destruct (decide (MAX_NAME < _)) as [Hl|Hl]; [split; [done|]; intros [_ ?]; lia|].
  destruct (decide (lstrip_by is_hash name = [])) as [E|E].
  { split; [done|]. rewrite E. intros [_ ?]. cbn in *. lia. }
  split; [|done]. intros _. split; [done|].
  destruct (lstrip_by is_hash name); cbn in *; [done|lia].
Qed.

Lemma hashed_valid name :
  strip name = name → startswith name (&"##") = false →
  valid_room (_hashed name) ↔ name_problem name = None.
Proof.
  intros Hstrip Hhash. rewrite name_problem_None. unfold _hashed, valid_room. rewrite Hstrip.
  change ROOM_PREFIX with (&"#"). unfold is_room, MAX_NAME. change ROOM_PREFIX with (&"#").
  destruct (startswith name (&"#")) eqn:Hs.
  - destruct name as [|c r]; [done|]. change (&"#") with [35%N] in Hs.
    change (&"##") with [35%N; 35%N] in Hhash. cbn [startswith] in Hs, Hhash.
    apply andb_true_iff in Hs as [->%N.eqb_eq _].
    assert (lstrip_by is_hash (35%N :: r) = r) as ->.
    { change (lstrip_by is_hash (35%N :: r)) with (lstrip_by is_hash r).
      apply lstrip_hash_other. exact Hhash. }
    rewrite !Forall_cons. cbn [length].
    split; [intros (_ & ? & _ & ?)|intros ([_ ?] & ?)]; split_and!; try done; lia.
  - rewrite (lstrip_hash_other name Hs). change ((&"#") ++ name) with (35%N :: name).
    rewrite Forall_cons. cbn [length]. change (startswith (35%N :: name) (&"#")) with true.
    split; [intros (_ & ? & _ & ?)|intros (? & ?)]; split_and!; try done; lia.
Qed.

Section Rule.
Context `{Runtime} {R : Type} `{RoomStore R}.

(** C34. The dialog asks of a name what the server asks.  For any text that the
    name field can hold (stripped, as the dialog strips it) and that does not start
    with two hash signs, the dialog finds no problem exactly when the server,
    given the name with its hash sign, takes it. *)
Theorem dialog_rule_is_the_servers (w : world R) s f name
    (Hstrip : strip name = name) (Hhash : startswith name (&"##") = false)
    (Hroom : jget (f_data f) (&"room") = JStr (_hashed name)) :
  name_problem name = None ↔ (_room_name s f w).2 = Ok (Some (_hashed name)).
Proof. rewrite <-hashed_valid by done. by apply room_name_iff. Qed.

(** With two hash signs the limits differ: the dialog counts what follows all of
    them, the server all but one. *)
Lemma double_hash_refused (w : world R) s f name
    (Hname : name = (&"##") ++ replicate 31 120%N)
    (Hroom : jget (f_data f) (&"room") = JStr (_hashed name)) :
  name_problem name = None ∧ (_room_name s f w).2 = Ok None.
Proof.
  subst name. split; [by vm_compute|]. unfold _room_name. rewrite Hroom. reflexivity.
Qed.
End Rule.

(** The dialog and the server on one good name. *)
Lemma dialog_rule_is_the_servers_witness :
  let f := data_frame CREATE_ROOM JNull [(&"room", JStr (&"#study-group"))] (&"1") 0 in
  name_problem (&"study-group") = None ∧ (_room_name 1 f stage).2 = Ok (Some (&"#study-group")).
Proof.
  intros f. split; [reflexivity|].
  apply (dialog_rule_is_the_servers stage 1 f (&"study-group")); reflexivity.
Defined.
