(* ===== verification/Controller.v ===== *)
(** * ChatController

    [im/client/controller/chat.py], method by method.  The controller owns the
    model (through which views see it), the key ring if bodies are encrypted,
    and the connection, which is any [Uplink].  A frame comes off the wire, so
    its fields are JSON values; a frame whose sender is neither absent nor a
    string is not followed ([Unmodelled]): the server always writes the name of
    the account that sent it. *)

From S2P Require Import Prelude PyStr PyDict Json PyInt Frames.
From S2P Require Import Conversation ChatModel Base64 Envelope Keyring Uplink.

Definition ROOM_PREFIX : pystr := &"#".

Definition is_room_key (key : pystr) : bool := startswith key ROOM_PREFIX.

Definition UNREADABLE : pystr := &"[could not decrypt this message]".

Record controller (C : Type) := mkController {
  ct_connection : C;
  ct_model : ChatModel;
  ct_keyring : option Keyring;
  ct_held : list (pystr * list pystr);
  ct_awaiting : list (pystr * list Frame);
  ct_pending_user : option pystr;
  ct_pending_room : option (pystr * list pystr);
  ct_tick : nat;
}.
Arguments mkController {_} _ _ _ _ _ _ _ _.
Arguments ct_connection {_} _.
Arguments ct_model {_} _.
Arguments ct_keyring {_} _.
Arguments ct_held {_} _.
Arguments ct_awaiting {_} _.
Arguments ct_pending_user {_} _.
Arguments ct_pending_room {_} _.
Arguments ct_tick {_} _.

Section Controller.
Context `{Runtime} `{Crypto} {C : Type} `{Uplink C}.
Implicit Type c : controller C.

Definition new_controller (connection : C) (keyring : option Keyring) : controller C :=
  mkController connection new_model keyring [] [] None None 0.

(** ** Assignments to one attribute *)

Definition with_connection (x : C) c := mkController x (ct_model c) (ct_keyring c) (ct_held c)
  (ct_awaiting c) (ct_pending_user c) (ct_pending_room c) (ct_tick c).
Definition with_model x c := mkController (ct_connection c) x (ct_keyring c) (ct_held c)
  (ct_awaiting c) (ct_pending_user c) (ct_pending_room c) (ct_tick c).
Definition with_keyring x c := mkController (ct_connection c) (ct_model c) x (ct_held c)
  (ct_awaiting c) (ct_pending_user c) (ct_pending_room c) (ct_tick c).
Definition with_held x c := mkController (ct_connection c) (ct_model c) (ct_keyring c) x
  (ct_awaiting c) (ct_pending_user c) (ct_pending_room c) (ct_tick c).
Definition with_awaiting x c := mkController (ct_connection c) (ct_model c) (ct_keyring c)
  (ct_held c) x (ct_pending_user c) (ct_pending_room c) (ct_tick c).
Definition with_pending_user x c := mkController (ct_connection c) (ct_model c) (ct_keyring c)
  (ct_held c) (ct_awaiting c) x (ct_pending_room c) (ct_tick c).
Definition with_pending_room x c := mkController (ct_connection c) (ct_model c) (ct_keyring c)
  (ct_held c) (ct_awaiting c) (ct_pending_user c) x (ct_tick c).
Definition with_tick x c := mkController (ct_connection c) (ct_model c) (ct_keyring c)
  (ct_held c) (ct_awaiting c) (ct_pending_user c) (ct_pending_room c) x.

Abbreviation Mc := (M (controller C)).

(** ** Primitives *)

Definition tick : Mc nat := λ c, (with_tick (S (ct_tick c)) c, Ok (ct_tick c)).

(** A method of [self.connection]: build the frame and queue it. *)
Definition ask (build : pystr → Z → Frame) : Mc Frame :=
  n ← tick;
  let f := build (rt_uuid n) (rt_now n) in
  c ← get;
  let '(conn, r) := up_send f (ct_connection c) in
  modify (with_connection conn);;
  lift_res r;;
  mret f.

Definition on_model (f : ChatModel → ChatModel) : Mc unit :=
  modify (λ c, with_model (f (ct_model c)) c).

Definition on_model_res (f : ChatModel → res ChatModel) : Mc unit :=
  c ← get; m ← lift_res (f (ct_model c)); modify (with_model m).

(** A method of [self.keyring]; calling one on [None] is an AttributeError. *)
Definition on_keyring {A} (op : M Keyring A) : Mc A := λ c,
  match ct_keyring c with
  | None => (c, Raise AttributeError)
  | Some k => let '(k', r) := op k in (with_keyring (Some k') c, r)
  end.

(** [try: m except Exception: log]. *)
Definition attempt {A} (m : Mc A) : Mc unit := λ c, ((m c).1, Ok tt).

(** ** Gestures *)

Definition _hold (target text : pystr) (fetch : option (list pystr)) : Mc unit :=
  c ← get;
  let first := negb (dict_has (ct_held c) target) in
  let waiting := default [] (dict_get (ct_held c) target) in
  modify (with_held (dict_set (ct_held c) target (waiting ++ [text])));;
  if (first : bool) then
    forM (match fetch with Some l => l | None => [target] end)
      (λ user, ask (λ id ts, get_key id ts user);; mret tt)
  else mret tt.

Definition _send_to_room (room text me : pystr) : Mc (option Frame) :=
  c ← get;
  let members := room_members (ct_model c) room in
  missing ← on_keyring (λ k, (k, Ok (missing_keys k (filter (λ name, name ≠ me) members))));
  match missing with
  | _ :: _ => _hold room text (Some missing);; mret None
  | [] =>
    envelopes ← on_keyring (seal_for_members members text me);
    match envelopes with
    | None => _hold room text (Some members);; mret None
    | Some e => f ← ask (λ id ts, message id ts room [] None (Some e)); mret (Some f)
    end
  end.

(** [self.model.username or "me"]. *)
Definition my_name (m : ChatModel) : pystr :=
  match cm_username m with Some ((_ :: _) as u) => u | _ => &"me" end.

Definition send (text : pystr) : Mc (option Message) :=
  c ← get;
  match cm_active (ct_model c) with
  | None => mret None
  | Some target =>
    if decide (strip text = []) then mret None
    else
      let me := my_name (ct_model c) in
      frame ← match ct_keyring c with
              | None => f ← ask (λ id ts, message id ts target text None None); mret (Some f)
              | Some _ =>
                if is_room_key target then _send_to_room target text me
                else
                  sealed ← on_keyring (seal target text me);
                  match sealed with
                  | None => _hold target text None;; mret None
                  | Some (ciphertext, nonce) =>
                    f ← ask (λ id ts, message id ts target ciphertext (Some nonce) None);
                    mret (Some f)
                  end
              end;
      match frame with
      | None => mret None
      | Some f =>
        let m := new_message (f_id f) me (JStr text) (f_ts f) true in
        on_model (add_message target m);;
        mret (Some m)
      end
  end.

(** [try: m finally: self.model.active = previous]. *)
Definition restoring (previous : option pystr) (m : Mc unit) : Mc unit := λ c,
  let '(c', r) := m c in (with_model (set_active previous (ct_model c')) c', r).

Definition with_active (user : pystr) (m : Mc unit) : Mc unit :=
  c ← get;
  let previous := cm_active (ct_model c) in
  on_model (set_active (Some user));;
  restoring previous m.

Definition _release (user : pystr) : Mc unit :=
  c ← get;
  let waiting := default [] (dict_get (ct_held c) user) in
  modify (with_held (dict_del (ct_held c) user));;
  match waiting with
  | [] => mret tt
  | _ => with_active user (forM waiting (λ text, send text;; mret tt))
  end.

Definition select (key : pystr) : Mc unit :=
  c ← get;
  let '(m, conv) := conversation key (ct_model c) in
  modify (with_model m);;
  let unread := if decide (c_unread conv = 0) then []
                else filter (λ x, m_mine x = false) (c_messages conv) in
  on_model (ChatModel.select (Some key));;
  if is_room_key key then mret tt
  else forM unread (λ x,
         attempt (ask (λ id ts, receipt id ts (m_sender x) (m_id x) (&"READ")))).

Definition ping : Mc unit := ask Uplink.ping;; mret tt.

Definition typing (on : bool) : Mc unit :=
  c ← get;
  match cm_active (ct_model c) with
  | None => mret tt
  | Some target => ask (λ id ts, Uplink.typing id ts target on);; mret tt
  end.

Definition request_history (key : option pystr) (limit : Z) : Mc bool :=
  c ← get;
  match (match key with Some ((_ :: _) as k) => Some k | _ => cm_active (ct_model c) end) with
  | None => mret false
  | Some target => ask (λ id ts, history id ts target None limit);; mret true
  end.

Definition create_room (room : pystr) (members : list pystr) : Mc unit :=
  ask (λ id ts, Uplink.create_room id ts room members);; mret tt.

Definition invite (room : pystr) (members : list pystr) : Mc unit :=
  ask (λ id ts, Uplink.invite id ts room members);; mret tt.

Definition add_contact (user : pystr) : Mc unit :=
  ask (λ id ts, Uplink.add_contact id ts user);; mret tt.

Definition remove_contact (user : pystr) : Mc unit :=
  ask (λ id ts, Uplink.remove_contact id ts user);; mret tt.

Definition join (room : pystr) : Mc unit := ask (λ id ts, join_room id ts room);; mret tt.

Definition leave (room : pystr) : Mc unit := ask (λ id ts, leave_room id ts room);; mret tt.

Definition open_room (room : pystr) (members : list pystr) : Mc unit :=
  c ← get;
  modify (with_pending_room (Some (room, members)));;
  if dict_has (cm_rooms (ct_model c)) room then
    join room;;
    (if decide (members = []) then mret tt else invite room members)
  else create_room room members.

Definition open_conversation (user : pystr) : Mc unit :=
  let user := strip user in
  if decide (user = []) then mret tt
  else if is_room_key user then open_room user []
  else
    c ← get;
    let m := ct_model c in
    if decide (Some user = cm_username m) then
      on_model (raise_error (&"BAD_CONTACT") (&"you cannot message yourself"))
    else if dict_has (cm_contacts m) user || dict_has (cm_roster m) user then select user
    else
      modify (with_pending_user (Some user));;
      add_contact user.

(** ** Fields of a frame *)

(** [value or default], for a default that is a list. *)
Definition or_empty (j : json) : json := if truthy j then j else JList [].

(** [target = frame.to or ""], and the test [target.startswith("#")] that
    follows it everywhere. *)
Definition target_of (frame : Frame) : res pystr :=
  if truthy (f_to frame) then
    match f_to frame with JStr s => Ok s | _ => Raise AttributeError end
  else Ok [].

(** [frame.sender], when it is truthy. *)
Definition sender_of (frame : Frame) : res (option pystr) :=
  if truthy (f_sender frame) then
    match f_sender frame with JStr s => Ok (Some s) | _ => Raise Unmodelled end
  else Ok None.

(** [frame.data.get(key)]. *)
Definition field (frame : Frame) (key : pystr) : json := jget (f_data frame) key.

(** ** Frames *)

(** [except DecryptionFailed: return "[could not decrypt this message]"]. *)
Definition or_unreadable (m : Mc pystr) : Mc json := λ c,
  match m c with
  | (c', Raise DecryptionFailed) => (c', Ok (JStr UNREADABLE))
  | (c', Raise e) => (c', Raise e)
  | (c', Ok s) => (c', Ok (JStr s))
  end.

(** The body of a frame may be anything when it is not encrypted. *)
Definition _plaintext (frame : Frame) (peer : pystr) : Mc json :=
  let body := if truthy (f_body frame) then f_body frame else JStr [] in
  c ← get;
  if bool_decide (ct_keyring c = None) || negb (truthy (f_nonce frame)) then mret body
  else
    sender ← lift_res (sender_of frame);
    or_unreadable (on_keyring (open peer body (f_nonce frame) (default [] sender))).

Definition _file (frame : Frame) (key : pystr) : Mc unit :=
  sender ← lift_res (sender_of frame);
  match sender with
  | Some s => if is_room_key key then mret tt
              else attempt (ask (λ id ts, receipt id ts s (f_id frame) (&"DELIVERED")))
  | None => mret tt
  end;;
  body ← _plaintext frame (default key sender);
  ts ← (if decide (f_ts frame = 0%Z) then n ← tick; mret (rt_now n) else mret (f_ts frame));
  on_model (add_message key
    (new_message (f_id frame) (default (&"?") sender) body ts false)).

Definition _incoming_message (frame : Frame) : Mc unit :=
  target ← lift_res (target_of frame);
  sender ← lift_res (sender_of frame);
  let key := if is_room_key target then target else default target sender in
  if decide (key = []) then mret tt
  else
    let peer := default key sender in
    c ← get;
    let unknown := match ct_keyring c with
                   | None => false
                   | Some k => truthy (f_nonce frame) &&
                               bool_decide (Some peer ≠ cm_username (ct_model c)) &&
                               negb (knows k peer)
                   end in
    if (unknown : bool) then
      let first := negb (dict_has (ct_awaiting c) peer) in
      let queued := default [] (dict_get (ct_awaiting c) peer) in
      modify (with_awaiting (dict_set (ct_awaiting c) peer (queued ++ [frame])));;
      if (first : bool) then ask (λ id ts, get_key id ts peer);; mret tt else mret tt
    else _file frame key.

Definition _receipt (frame : Frame) : Mc unit :=
  let ref := field frame (&"ref") in
  let state := field frame (&"state") in
  let who := f_sender frame in
  if truthy ref && truthy state && truthy who
  then on_model (set_receipt (py_str who) (py_str ref) (py_str state))
  else mret tt.

Definition _deliver_awaiting (user : pystr) : Mc unit :=
  c ← get;
  let waiting := default [] (dict_get (ct_awaiting c) user) in
  modify (with_awaiting (dict_del (ct_awaiting c) user));;
  forM waiting (λ frame,
    target ← lift_res (target_of frame);
    _file frame (if is_room_key target then target else user)).

(** One turn of the loop over the rooms that are waiting. *)
Definition release_if_complete (room : pystr) : Mc unit :=
  c ← get;
  let others := filter (λ name, Some name ≠ cm_username (ct_model c))
                  (room_members (ct_model c) room) in
  missing ← on_keyring (λ k, (k, Ok (missing_keys k others)));
  if decide (missing = []) then _release room else mret tt.

Definition _key (frame : Frame) : Mc unit :=
  let user := field frame (&"user") in
  let pubkey := field frame (&"pubkey") in
  c ← get;
  if negb (truthy user) || negb (truthy pubkey) || bool_decide (ct_keyring c = None)
  then mret tt
  else
    on_keyring (λ k, (remember (py_str user) (py_str pubkey) k, Ok tt));;
    _release (py_str user);;
    _deliver_awaiting (py_str user);;
    c ← get;
    forM (filter (λ key, is_room_key key = true) (dict_keys (ct_held c))) release_if_complete.

Definition _presence (frame : Frame) : Mc unit :=
  let user := field frame (&"user") in
  if truthy user then
    on_model (set_presence (py_str user)
      (bool_decide (as_str (field frame (&"state")) = Some (&"ONLINE"))))
  else mret tt.

Definition _typing (frame : Frame) : Mc unit :=
  sender ← lift_res (sender_of frame);
  match sender with
  | None => mret tt
  | Some s =>
    target ← lift_res (target_of frame);
    on_model (set_typing (if is_room_key target then target else s) s
                (truthy (field frame (&"on"))))
  end.

Definition _stored_plaintext (row : list (pystr * json)) (key me : pystr) : Mc json :=
  let body := if truthy (jget row (&"body")) then py_str (jget row (&"body")) else [] in
  let nonce := jget row (&"n") in
  c ← get;
  if bool_decide (ct_keyring c = None) || negb (truthy nonce) then mret (JStr body)
  else
    let author := if truthy (jget row (&"from")) then py_str (jget row (&"from")) else [] in
    let peer := if decide (author ≠ me) then author
                else if is_room_key key then me else key in
    or_unreadable (on_keyring (open peer (JStr body) (JStr (py_str nonce)) author)).

(** [data.get(key, default)]: the default only when the key is absent. *)
Definition get_or (d : list (pystr * json)) (key default_ : pystr) : json :=
  default (JStr default_) (dict_get d key).

(** [row.get("from") == me], where [me] may be [None]. *)
Definition is_mine (from : json) (me : option pystr) : bool :=
  match me, from with
  | Some u, JStr s => bool_decide (s = u)
  | None, JNull => true
  | _, _ => false
  end.

(** One element of the list comprehension; a row that is not a dict has no
    [get]. *)
Definition row_message (key : pystr) (row : json) : Mc Message :=
  match row with
  | JObj d =>
    c ← get;
    let me := cm_username (ct_model c) in
    body ← _stored_plaintext d key (default [] me);
    stamp ← (if truthy (jget d (&"ts")) then lift_res (py_int (jget d (&"ts")))
             else n ← tick; mret (rt_now n));
    mret (new_message (JStr (py_str (get_or d (&"id") []))) (py_str (get_or d (&"from") (&"?")))
            body stamp (is_mine (jget d (&"from")) me))
  | _ => raise AttributeError
  end.

Fixpoint mapM_rows (key : pystr) (rows : list json) : Mc (list Message) :=
  match rows with
  | [] => mret []
  | row :: rows' => x ← row_message key row; xs ← mapM_rows key rows'; mret (x :: xs)
  end.

(** [frame.data.get("room") or frame.to]. *)
Definition room_of (frame : Frame) : json :=
  if truthy (field frame (&"room")) then field frame (&"room") else f_to frame.

Definition _history_result (frame : Frame) : Mc unit :=
  let key := room_of frame in
  if negb (truthy key) then mret tt
  else
    rows ← lift_res (py_iter (or_empty (field frame (&"messages"))));
    messages ← mapM_rows (py_str key) rows;
    on_model (load_history (py_str key) messages).

Definition _room_state (frame : Frame) : Mc unit :=
  let room := room_of frame in
  if negb (truthy room) then mret tt
  else
    let room := py_str room in
    members ← lift_res (py_iter (or_empty (field frame (&"members"))));
    on_model (set_room_members room (py_str <$> members));;
    c ← get;
    match ct_pending_room c, cm_username (ct_model c) with
    | Some (wanted, _), Some me =>
      if decide (wanted = room ∧ me ∈ room_members (ct_model c) room) then
        modify (with_pending_room None);;
        select room
      else mret tt
    | _, _ => mret tt
    end.

Definition _open_pending_user : Mc unit :=
  c ← get;
  match ct_pending_user c with
  | Some user => if dict_has (cm_contacts (ct_model c)) user then
                   modify (with_pending_user None);;
                   select user
                 else mret tt
  | None => mret tt
  end.

Definition _on_error (code : pystr) : Mc unit :=
  c ← get;
  if decide (code = &"NO_SUCH_USER") then modify (with_pending_user None)
  else match ct_pending_room c with
       | Some (room, members) =>
         if decide (code = &"ROOM_EXISTS") then
           join room;;
           (if decide (members = []) then mret tt else invite room members)
         else if decide (code = &"NO_SUCH_ROOM" ∨ code = &"BAD_ROOM")
              then modify (with_pending_room None) else mret tt
       | None => mret tt
       end.

Definition _logged_in (frame : Frame) : Mc unit :=
  let username := field frame (&"user") in
  (if truthy username then on_model (set_identity (py_str username)) else mret tt);;
  roster ← lift_res (py_iter (or_empty (field frame (&"roster"))));
  on_model (replace_roster (py_str <$> roster));;
  on_model_res (replace_contacts (or_empty (field frame (&"contacts")))).

Definition on_frame (frame : Frame) : Mc unit :=
  match f_type frame with
  | MSG => _incoming_message frame
  | PRESENCE => _presence frame
  | TYPING => _typing frame
  | RECEIPT => _receipt frame
  | KEY => _key frame
  | HISTORY_RESULT => _history_result frame
  | CONTACTS =>
    on_model_res (replace_contacts (or_empty (field frame (&"contacts"))));;
    _open_pending_user
  | ROOM_STATE => _room_state frame
  | LOGIN_OK => _logged_in frame
  | ERROR =>
    let code := py_str (get_or (f_data frame) (&"code") (&"ERROR")) in
    _on_error code;;
    on_model (raise_error code (py_str (get_or (f_data frame) (&"message") [])))
  | _ => mret tt
  end.

Definition on_state (state : pystr) : Mc unit := on_model (set_connection_state state).

(** ** Everything that reaches a controller

    Gestures of the user and frames off the queue, one after the other on the
    thread of the view.  The view reports an exception and carries on. *)
Inductive input :=
| Typed (text : pystr)
| Selected (key : pystr)
| Opened (user : pystr)
| OpenedRoom (room : pystr) (members : list pystr)
| CreatedRoom (room : pystr) (members : list pystr)
| Invited (room : pystr) (members : list pystr)
| AddedContact (user : pystr)
| RemovedContact (user : pystr)
| Joined (room : pystr)
| Left (room : pystr)
| Composing (on : bool)
| AskedHistory (key : option pystr) (limit : Z)
| Pinged
| Arrived (frame : Frame)
| StateIs (state : pystr).

Definition run_input c (i : input) : controller C :=
  match i with
  | Typed text => (send text c).1
  | Selected key => (select key c).1
  | Opened user => (open_conversation user c).1
  | OpenedRoom room members => (open_room room members c).1
  | CreatedRoom room members => (create_room room members c).1
  | Invited room members => (invite room members c).1
  | AddedContact user => (add_contact user c).1
  | RemovedContact user => (remove_contact user c).1
  | Joined room => (join room c).1
  | Left room => (leave room c).1
  | Composing on => (typing on c).1
  | AskedHistory key limit => (request_history key limit c).1
  | Pinged => (ping c).1
  | Arrived frame => (on_frame frame c).1
  | StateIs state => (on_state state c).1
  end.

Definition run_inputs c (ins : list input) : controller C := foldl run_input c ins.
End Controller.
