(* ===== verification/ControllerSafety.v ===== *)
(** * Nothing leaves in the clear

    Whatever the user does and whatever frames arrive, a controller that has a
    key ring only ever adds to what it has sent, and every message among the
    additions is sealed. *)

From S2P Require Import Prelude PyStr PyDict Json PyInt Utf8 Frames.
From S2P Require Import Conversation ChatModel Base64 Envelope Keyring Uplink Controller Wp.

Create HintDb guarded.

Section Safety.
Context `{Runtime} `{Crypto} {C : Type} `{UplinkLaws C}.

(** Some text under some key: what [seal] returns. *)
Definition is_sealed (e : pystr * pystr) : Prop :=
  ∃ key text sender draw, Envelope.seal key text sender draw = Ok e.

(** A message that carries its text sealed: a body and its nonce for one person,
    or no body at all and one envelope per member of a room. *)
Definition sealed (f : Frame) : Prop :=
  (∃ c n, is_sealed (c, n) ∧ f_body f = JStr c ∧ f_nonce f = JStr n ∧ f_data f = []) ∨
  (∃ envelopes, f_body f = JStr [] ∧ f_nonce f = JNull ∧
                f_data f = [(&"env", envelopes_json envelopes)] ∧
                Forall (λ e, is_sealed e.2) envelopes).

Definition private (f : Frame) : Prop := f_type f = MSG → sealed f.

(** The controller has a key ring and has, since [base], sent only frames that
    give nothing away. *)
Definition guarded (base : list Frame) (c : controller C) : Prop :=
  is_Some (ct_keyring c) ∧
  ∃ new, up_log (ct_connection c) = base ++ new ∧ Forall private new.

Section base.
Variable base : list Frame.
Abbreviation I := (guarded base).

(** A frame that may be sent is sent, or nothing is. *)
Lemma ask_guarded build c :
  (∀ id ts, private (build id ts)) → I c → wp (ask build) (λ _, I) I c.
Proof.
  intros Hb ([k Hk] & new & Hnew & Hall). unfold ask, tick.
  unfold wp, mbind, M_bind, get, modify, lift_res, mret, M_ret. cbn.
  destruct (up_send_spec (build (rt_uuid (ct_tick c)) (rt_now (ct_tick c))) (ct_connection c))
    as [conn [[-> Hl]|[-> Hl]]]; (split; [by exists k|]); cbn; rewrite Hl, Hnew.
  - eexists (new ++ [_]). rewrite app_assoc. split; [done|]. apply Forall_app.
    split; [done|]. by constructor.
  - by exists new.
Qed.

Lemma modify_guarded f c :
  (ct_keyring (f c) = ct_keyring c) → ct_connection (f c) = ct_connection c →
  I c → wp (modify f) (λ _, I) I c.
Proof. intros Hk Hc (? & new & ? & ?). unfold wp, modify. split; [by rewrite Hk|]. rewrite Hc. eauto. Qed.

Lemma on_keyring_guarded {A} (op : M Keyring A) (Q : A → controller C → Prop) c :
  I c → (∀ k k' a, op k = (k', Ok a) → ∀ c', I c' → Q a c') →
  wp (on_keyring op) Q I c.
Proof.
  intros ([k Hk] & Hn) HQ. unfold wp, on_keyring. rewrite Hk.
  destruct (op k) as [k' [a|e]] eqn:E; [eapply HQ; [exact E|]|];
    (split; [by eexists|exact Hn]).
Qed.

Lemma attempt_guarded {A} (m : M (controller C) A) c :
  wp m (λ _, I) I c → wp (attempt m) (λ _, I) I c.
Proof. unfold wp, attempt. by destruct (m c) as [c' [a|e]]. Qed.

Lemma restoring_guarded previous (m : M (controller C) unit) c :
  wp m (λ _, I) I c → wp (restoring previous m) (λ _, I) I c.
Proof. unfold wp, restoring. destruct (m c) as [c' [a|e]]; intros [? ?]; by split. Qed.

Lemma or_unreadable_guarded (m : M (controller C) pystr) c :
  wp m (λ _, I) I c → wp (or_unreadable m) (λ _, I) I c.
Proof. unfold wp, or_unreadable. by destruct (m c) as [c' [a|[]]]. Qed.

Lemma tick_guarded c : I c → wp tick (λ _, I) I c.
Proof. by intros [? ?]. Qed.

(** Requests other than messages give nothing away. *)
Lemma not_msg_private f : f_type f ≠ MSG → private f.
Proof. by intros ? ?. Qed.

(** One step of a handler under the invariant. *)
Ltac guard_call L :=
  eapply wp_mono; [apply L| |done]; [..|intros ? ? ?; cbv beta].

Ltac guard_step :=
  lazymatch goal with
  | |- guarded _ _ => done
  | |- wp (ask _) _ _ _ => guard_call ask_guarded;
      [intros ? ?; try (by apply not_msg_private)|done|]
  | |- wp (modify _) _ _ _ => guard_call modify_guarded; [done..|]
  | |- wp (on_model _) _ _ _ => unfold on_model
  | |- wp (on_keyring _) _ _ _ => apply on_keyring_guarded; [done|]; intros ? ? ? ? ? ?; cbv beta
  | |- wp (attempt _) _ _ _ => guard_call attempt_guarded
  | |- wp (or_unreadable _) _ _ _ => guard_call or_unreadable_guarded
  | |- wp (restoring _ _) _ _ _ => guard_call restoring_guarded
  | |- wp tick _ _ _ => guard_call tick_guarded; [done|]
  | |- wp (forM _ _) _ _ _ =>
      eapply (wp_forM I); [done|intros ? ? ? ?; cbv beta|intros ? ?; cbv beta]
  | _ => first [wp_core | eapply wp_mono; [solve [eauto 2 with guarded]| |done]; intros ? ? ?; cbv beta]
  end.

Ltac walk := repeat guard_step.

Lemma hold_guarded target text fetch c : I c → wp (_hold target text fetch) (λ _, I) I c.
Proof. intros. unfold _hold. walk. Qed.

(** What [seal] and [seal_for_members] hand over is sealed. *)
Lemma keyring_seal_sealed user text sender k k' e :
  Keyring.seal user text sender k = (k', Ok (Some e)) → is_sealed e.
Proof.
  unfold Keyring.seal, mbind, M_bind, draw, lift_res, mret, M_ret.
  destruct (Keyring._key user k) as [k1 [[key|]|]]; [|done..]. cbn.
  destruct (Envelope.seal key text sender (kr_draws k1)) eqn:E; [|done].
  intros [= _ <-]. by exists key, text, sender, (kr_draws k1).
Qed.

Lemma seal_each_sealed names text sender k k' es :
  seal_each names text sender k = (k', Ok es) → Forall (λ e, is_sealed e.2) es.
Proof.
  revert k k' es. induction names as [|n names IH]; intros k k' es; cbn [seal_each].
  { intros [= _ <-]. constructor. }
  unfold mbind, M_bind. destruct (Keyring.seal n text sender k) as [k1 [[e|]|]] eqn:E; [|done..].
  destruct (seal_each names text sender k1) as [k2 [es'|]] eqn:E2; [|done].
  intros [= _ <-]. constructor; [by eapply keyring_seal_sealed|by eapply IH].
Qed.

Lemma seal_for_members_sealed members text sender k k' es :
  seal_for_members members text sender k = (k', Ok (Some es)) →
  Forall (λ e, is_sealed e.2) es ∧ es ≠ [].
Proof.
  unfold seal_for_members, mbind, M_bind, modify.
  destruct (any_unknown _ _) as [k1 [[|]|]]; [done| |done].
  destruct (seal_each _ _ _ k1) as [k2 [es'|]] eqn:E; [|done]. intros [= _ <-].
  split; [by eapply seal_each_sealed|]. intros ->.
  assert (is_Some (sorted (remove_dups (sender :: members)) !! 0)) as [n Hn].
  { apply lookup_lt_is_Some. rewrite (Permutation_length (sorted_perm _)).
    assert (sender ∈ remove_dups (sender :: members)) as Hin
      by (apply elem_of_remove_dups; by left).
    destruct (remove_dups _); [by apply not_elem_of_nil in Hin|cbn; lia]. }
  destruct (sorted _) as [|x names] eqn:Es; [done|]. revert E. cbn [seal_each].
  unfold mbind, M_bind. destruct (Keyring.seal x text sender k1) as [? [[?|]|]]; [|done..].
  destruct (seal_each names text sender _) as [? [?|]]; done.
Qed.

#[local] Hint Resolve hold_guarded : guarded.

Lemma send_to_room_guarded room text me c :
  I c → wp (_send_to_room room text me) (λ _, I) I c.
Proof.
  intros. unfold _send_to_room. walk.
  match goal with E : seal_for_members _ _ _ _ = _ |- _ =>
    apply seal_for_members_sealed in E as [Hs Hne] end.
  intros _. right. eexists. split_and!; [done..| |exact Hs]. by destruct l.
Qed.

#[local] Hint Resolve send_to_room_guarded : guarded.

Lemma send_guarded text c : I c → wp (send text) (λ _, I) I c.
Proof.
  intros Hc. unfold send. apply wp_bind, wp_get.
  destruct (cm_active (ct_model c)) as [target|]; [|done].
  destruct (decide _); [done|]. cbv zeta. destruct Hc as [[k Hk] Hn]. rewrite Hk.
  assert (I c) as Hc by (split; [by exists k|done]). clear Hn. apply wp_bind.
  eapply (wp_mono _ (λ _, I)); [|intros [f|] c' Hc'; walk|done].
  destruct (is_room_key target); [walk|]. apply wp_bind, on_keyring_guarded; [done|].
  intros k0 k1 [[ct nonce]|] Ek c1 Hc1; cbv beta; [|walk]. walk.
  intros _. left. exists ct, nonce. split_and!; [by eapply keyring_seal_sealed|done..].
Qed.

#[local] Hint Resolve send_guarded : guarded.

Lemma release_guarded user c : I c → wp (_release user) (λ _, I) I c.
Proof. intros. unfold _release, with_active. walk. Qed.

Lemma select_guarded key c : I c → wp (select key) (λ _, I) I c.
Proof. intros. unfold select. walk. Qed.

Lemma file_guarded frame key c : I c → wp (_file frame key) (λ _, I) I c.
Proof. intros. unfold _file, _plaintext. walk. Qed.

#[local] Hint Resolve release_guarded select_guarded file_guarded : guarded.

Lemma incoming_guarded frame c : I c → wp (_incoming_message frame) (λ _, I) I c.
Proof. intros. unfold _incoming_message. walk. Qed.

Lemma key_guarded frame c : I c → wp (_key frame) (λ _, I) I c.
Proof. intros. unfold _key, _deliver_awaiting, release_if_complete. walk. Qed.

(** What [_key] does once the messages for that person are out. *)
Lemma key_tail_guarded user c :
  I c → wp (_deliver_awaiting user;; c ← get;
            forM (filter (λ key, is_room_key key = true) (dict_keys (ct_held c)))
              release_if_complete) (λ _, I) I c.
Proof. intros. unfold _deliver_awaiting, release_if_complete. walk. Qed.

Lemma rows_guarded key rows c : I c → wp (mapM_rows key rows) (λ _, I) I c.
Proof.
  revert c. induction rows as [|row rows IH]; intros c Hc; cbn [mapM_rows]; [walk|].
  unfold row_message, _stored_plaintext. walk.
Qed.

Lemma join_guarded room c : I c → wp (join room) (λ _, I) I c.
Proof. intros. unfold join. walk. Qed.

Lemma invite_guarded room members c : I c → wp (invite room members) (λ _, I) I c.
Proof. intros. unfold invite. walk. Qed.

Lemma open_room_guarded room members c : I c → wp (open_room room members) (λ _, I) I c.
Proof. intros. unfold open_room, join, invite, create_room. walk. Qed.

#[local] Hint Resolve incoming_guarded key_guarded rows_guarded join_guarded invite_guarded
  open_room_guarded : guarded.

Lemma on_frame_guarded frame c : I c → wp (on_frame frame) (λ _, I) I c.
Proof.
  intros. unfold on_frame. destruct (f_type frame);
    unfold _presence, _typing, _receipt, _history_result, _room_state, _open_pending_user,
      _logged_in, _on_error, on_model_res; walk.
Qed.

Lemma wp_state {A} (m : M (controller C) A) c : wp m (λ _, I) I c → I (m c).1.
Proof. unfold wp. by destruct (m c) as [c' [a|e]]. Qed.

Lemma run_input_guarded i c : I c → I (run_input c i).
Proof.
  intros Hc. destruct i; cbn [run_input]; apply wp_state;
    first [by apply send_guarded | by apply select_guarded | by apply on_frame_guarded
          | by apply open_room_guarded | by apply join_guarded | by apply invite_guarded
          | idtac].
  - unfold open_conversation, add_contact. walk.
  - unfold create_room. walk.
  - unfold add_contact. walk.
  - unfold remove_contact. walk.
  - unfold leave. walk.
  - unfold typing. walk.
  - unfold request_history. walk.
  - unfold ping. walk.
  - unfold on_state. walk.
Qed.

Lemma run_inputs_guarded ins c : I c → I (run_inputs c ins).
Proof.
  revert c. induction ins as [|i ins IH]; intros c Hc; [done|]. by apply IH, run_input_guarded.
Qed.
End base.

(** C7. With encryption on, nothing leaves in the clear.  Whatever the user types,
    opens, selects or asks for, and whatever frames the server sends (keys
    arriving late, rooms, errors, malformed frames included), every message the
    client has put on the wire carries its text only sealed: a ciphertext and
    its nonce, or one envelope per member of a room and an empty body.  Nothing
    that was sent is ever taken back. *)
Theorem plaintext_never_sent (connection : C) (ring : Keyring) (ins : list input) :
  let c := run_inputs (new_controller connection (Some ring)) ins in
  ∃ sent, up_log (ct_connection c) = up_log connection ++ sent ∧
          ∀ f, f ∈ sent → f_type f = MSG → sealed f.
Proof.
  intros c. destruct (run_inputs_guarded (up_log connection) ins
    (new_controller connection (Some ring))) as (_ & sent & Hs & Hall).
  { split; [by eexists|]. exists []. by rewrite app_nil_r. }
  exists sent. split; [exact Hs|]. rewrite Forall_forall in Hall. exact Hall.
Qed.
End Safety.

(** A day of typing: to somebody unknown, the key, a room, and what went out. *)
Definition key_frame (user pubkey : pystr) : Frame :=
  data_frame KEY JNull [(&"user", JStr user); (&"pubkey", JStr pubkey)] (&"k") 7.

Definition evening : list input :=
  [Arrived (data_frame LOGIN_OK JNull [(&"user", JStr (&"alice"))] (&"l") 1);
   Selected (&"bob"); Typed (&"are you there?"); Typed (&"hello?");
   Arrived (key_frame (&"bob") (Identity.public_b64 (person (&"bob"))));
   Typed (&"never mind")].

Definition alice_ring : Keyring := new_keyring (person (&"alice")) (&"alice").

Abbreviation after_evening := (@run_inputs plain_runtime toy_crypto fake fake_uplink
  (new_controller (mkFake true []) (Some alice_ring)) evening).

Lemma plaintext_never_sent_witness :
  f_type <$> fk_log (ct_connection after_evening) = [GET_KEY; MSG; MSG; MSG] ∧
  ∃ sent, up_log (ct_connection after_evening) = up_log (mkFake true []) ++ sent ∧
          ∀ f, f ∈ sent → f_type f = MSG → @sealed toy_crypto f.
Proof.
  split; [vm_compute; reflexivity|].
  exact (@plaintext_never_sent plain_runtime toy_crypto fake fake_uplink fake_laws
           (mkFake true []) alice_ring evening).
Defined.
