(* ===== verification/ControllerLive.v ===== *)
(** * Held messages go out

    A text typed before the key of its reader is known is held, and goes out
    sealed as soon as the key arrives, provided the link takes frames. *)

From S2P Require Import Prelude PyStr PyDict Json PyInt Utf8 Frames.
From S2P Require Import Conversation ChatModel ChatModelFacts ChatModelTypes.
From S2P Require Import Base64 Envelope Keyring Uplink Controller Wp ControllerSafety.

(** ** What [add_message] leaves alone *)

Lemma set_typing_username k u b m : cm_username (set_typing k u b m) = cm_username m.
Proof. unfold set_typing. by case_decide. Qed.

Lemma add_message_frame k x m :
  cm_username (add_message k x m) = cm_username m ∧
  cm_active (add_message k x m) = cm_active m ∧
  cm_rooms (add_message k x m) = cm_rooms m.
Proof.
  assert (∀ m', cm_username (set_typing k (m_sender x) false m') = cm_username m' ∧
    cm_active (set_typing k (m_sender x) false m') = cm_active m' ∧
    cm_rooms (set_typing k (m_sender x) false m') = cm_rooms m') as Ht.
  { intros m'. unfold set_typing. by case_decide. }
  unfold add_message, conversation. destruct (dict_get (cm_conversations m) k) as [c|];
    cbn; destruct (m_mine x);
    repeat match goal with |- context [if ?d then _ else _] =>
      match type of d with sumbool _ _ => destruct d end end;
    cbn; rewrite ?(proj1 (Ht _)), ?(proj1 (proj2 (Ht _))), ?(proj2 (proj2 (Ht _))); done.
Qed.

(** ** A message from somebody is shown *)

Section Shown.
Context `{Runtime} `{Crypto} {C : Type} `{Uplink C}.
Implicit Type c : controller C.

Lemma ask_model build c :
  ct_model (ask build c).1 = ct_model c ∧ ct_keyring (ask build c).1 = ct_keyring c ∧
  ct_held (ask build c).1 = ct_held c ∧ ct_tick (ask build c).1 = S (ct_tick c).
Proof.
  unfold ask, tick, mbind, M_bind, get, modify, lift_res, mret, M_ret.
  cbn [ct_connection with_tick ct_tick].
  by destruct (up_send _ _) as [conn [[]|]].
Qed.

(** The header of a message from [user] to [me]. *)
Record addressed (frame : Frame) (user me : pystr) : Prop := {
  ad_type : f_type frame = MSG;
  ad_from : f_sender frame = JStr user;
  ad_user : user ≠ [] ∧ is_room_key user = false;
  ad_to : f_to frame = JStr me;
  ad_me : me ≠ [] ∧ is_room_key me = false;
  ad_ts : f_ts frame ≠ 0%Z;
}.

(** The key of the sender is there, if it is needed. *)
Definition opens_now (frame : Frame) (user : pystr) c : bool :=
  match ct_keyring c with
  | None => true
  | Some k => negb (truthy (f_nonce frame)) || knows k user
  end.

(** Such a message goes straight into the conversation with its sender, with the
    body that [_plaintext] finds. *)
Lemma direct_shown c frame user me body c2 :
  addressed frame user me → opens_now frame user c = true →
  _plaintext frame user
    (ask (λ id ts, receipt id ts user (f_id frame) (&"DELIVERED")) c).1 = (c2, Ok body) →
  ct_model c2 = ct_model c →
  on_frame frame c =
    (with_model (add_message user (new_message (f_id frame) user body (f_ts frame) false)
                   (ct_model c)) c2, Ok tt).
Proof.
  intros [Htype Hfrom [Hu Hroom] Hto [Hn Hme] Hts] Hopen Hp Hm.
  assert (∀ s : pystr, truthy (JStr s) = true ↔ s ≠ []) as Hstr
    by (intros; cbn; by rewrite bool_decide_eq_true).
  unfold on_frame. rewrite Htype. unfold _incoming_message, target_of, sender_of.
  rewrite Hto, Hfrom. rewrite (proj2 (Hstr _) Hn), (proj2 (Hstr _) Hu).
  unfold mbind at 1, M_bind at 1, lift_res at 1. unfold mbind at 1, M_bind at 1, lift_res at 1.
  cbv zeta. rewrite Hme. cbn [default from_option id]. rewrite decide_False by done.
  rewrite get_run.
  assert (match ct_keyring c with
          | None => false
          | Some k => truthy (f_nonce frame) &&
                      bool_decide (Some user ≠ cm_username (ct_model c)) && negb (knows k user)
          end = false) as ->.
  { unfold opens_now in Hopen. destruct (ct_keyring c) as [k|]; [|done].
    destruct (truthy (f_nonce frame)); [|done]. cbn in Hopen. by rewrite Hopen, andb_false_r. }
  unfold _file, sender_of. rewrite Hfrom, (proj2 (Hstr _) Hu).
  unfold mbind at 1, M_bind at 1, lift_res at 1. rewrite Hroom.
  unfold mbind at 1, M_bind at 1, attempt. unfold mbind at 1, M_bind at 1.
  change (default user (Some user)) with user. rewrite Hp, decide_False by done.
  unfold mbind at 1, M_bind at 1, mret at 1, M_ret at 1. unfold on_model, modify. by rewrite Hm.
Qed.

(** A message to a room, from [user]. *)
Record to_room (frame : Frame) (user room : pystr) : Prop := {
  tr_type : f_type frame = MSG;
  tr_from : f_sender frame = JStr user;
  tr_user : user ≠ [];
  tr_to : f_to frame = JStr room;
  tr_room : is_room_key room = true;
  tr_ts : f_ts frame ≠ 0%Z;
}.

(** It goes into the conversation of the room, and nothing is sent. *)
Lemma room_shown c frame user room body c2 :
  to_room frame user room → opens_now frame user c = true →
  _plaintext frame user c = (c2, Ok body) → ct_model c2 = ct_model c →
  on_frame frame c =
    (with_model (add_message room (new_message (f_id frame) user body (f_ts frame) false)
                   (ct_model c)) c2, Ok tt).
Proof.
  intros [Htype Hfrom Hu Hto Hroom Hts] Hopen Hp Hm.
  assert (∀ s : pystr, truthy (JStr s) = true ↔ s ≠ []) as Hstr
    by (intros; cbn; by rewrite bool_decide_eq_true).
  assert (room ≠ []) as Hn by (by intros ->).
  unfold on_frame. rewrite Htype. unfold _incoming_message, target_of, sender_of.
  rewrite Hto, Hfrom. rewrite (proj2 (Hstr _) Hn), (proj2 (Hstr _) Hu).
  unfold mbind at 1, M_bind at 1, lift_res at 1. unfold mbind at 1, M_bind at 1, lift_res at 1.
  cbv zeta. rewrite Hroom. cbn [default from_option id]. rewrite decide_False by done.
  rewrite get_run.
  assert (match ct_keyring c with
          | None => false
          | Some k => truthy (f_nonce frame) &&
                      bool_decide (Some user ≠ cm_username (ct_model c)) && negb (knows k user)
          end = false) as ->.
  { unfold opens_now in Hopen. destruct (ct_keyring c) as [k|]; [|done].
    destruct (truthy (f_nonce frame)); [|done]. cbn in Hopen. by rewrite Hopen, andb_false_r. }
  unfold _file, sender_of. rewrite Hfrom, (proj2 (Hstr _) Hu).
  unfold mbind at 1, M_bind at 1, lift_res at 1. rewrite Hroom.
  unfold mbind at 1, M_bind at 1, mret at 1, M_ret at 1. unfold mbind at 1, M_bind at 1.
  change (default room (Some user)) with user. rewrite Hp, decide_False by done.
  unfold mbind at 1, M_bind at 1, mret at 1, M_ret at 1. unfold on_model, modify. by rewrite Hm.
Qed.
End Shown.

Section Live.
Context `{Runtime} `{Crypto} {C : Type} `{Uplink C}.

(** A link that takes every frame it is given, and stays so. *)
Variable live : C → Prop.
Hypothesis live_send : ∀ f conn, live conn →
  ∃ conn', up_send f conn = (conn', Ok tt) ∧ live conn' ∧ up_log conn' = up_log conn ++ [f].

(** The frame that carries [text] from [me] to [user], sealed under [k]. *)
Definition carries (k : bytes) (me user text : pystr) (f : Frame) : Prop :=
  ∃ n d ct nonce, Envelope.seal k text me d = Ok (ct, nonce) ∧
    f = message (rt_uuid n) (rt_now n) user ct (Some nonce) None.

Definition sendable (text : pystr) : Prop := strip text ≠ [] ∧ is_Some (utf8_encode text).

Lemma ask_live build (c : controller C) :
  live (ct_connection c) →
  ∃ conn', ask build c = (with_connection conn' (with_tick (S (ct_tick c)) c),
                          Ok (build (rt_uuid (ct_tick c)) (rt_now (ct_tick c)))) ∧
    live conn' ∧ up_log conn' = up_log (ct_connection c)
                                ++ [build (rt_uuid (ct_tick c)) (rt_now (ct_tick c))].
Proof.
  intros Hl. destruct (live_send (build (rt_uuid (ct_tick c)) (rt_now (ct_tick c))) _ Hl)
    as (conn' & E & Hl' & Hlog). exists conn'. split; [|done].
  unfold ask, tick, mbind, M_bind, get, modify, lift_res, mret, M_ret.
  cbn [ct_connection with_tick ct_tick]. by rewrite E.
Qed.

(** The state in which [text] can be sent to [user] at once. *)
Record ready (k : bytes) (me user : pystr) (c : controller C) : Prop := {
  rd_active : cm_active (ct_model c) = Some user;
  rd_me : my_name (ct_model c) = me;
  rd_ring : ∃ r, ct_keyring c = Some r ∧ ring_ok r ∧ reference_key r user = Ok (Some k);
  rd_live : live (ct_connection c);
}.

Lemma send_ready k me user text c :
  ready k me user c → is_room_key user = false → sendable text → is_Some (utf8_encode me) →
  ∃ c' m f, send text c = (c', Ok (Some m)) ∧ ready k me user c' ∧
    up_log (ct_connection c') = up_log (ct_connection c) ++ [f] ∧ carries k me user text f ∧
    ct_held c' = ct_held c ∧ ct_awaiting c' = ct_awaiting c ∧
    messages_of (ct_model c') user = messages_of (ct_model c) user ++ [m] ∧
    m = new_message (f_id f) me (JStr text) (f_ts f) true.
Proof.
  intros [Ha Hme (r & Hr & Hok & Hk) Hl] Hroom [Hs Ht] Hm.
  destruct (seal_run user text me r Hok) as (r1 & Es & Hok1 & Hsame & _).
  destruct (seal_total k text me (kr_draws r) Ht Hm) as (ct & nonce & Ec).
  rewrite Hk in Es. cbn [mbind res_bind] in Es. rewrite Ec in Es. cbn [fmap res_fmap] in Es.
  set (c1 := with_keyring (Some r1) c).
  destruct (ask_live (λ id ts, message id ts user ct (Some nonce) None) c1 Hl)
    as (conn' & Ea & Hl' & Hlog).
  set (f := message _ _ user ct (Some nonce) None) in *.
  eexists _, _, f. split.
  { unfold send. unfold mbind at 1, M_bind at 1, get. rewrite Ha, decide_False, Hr, Hroom by done.
    cbv zeta. rewrite Hme. unfold mbind, M_bind, on_keyring. rewrite Hr, Es. cbn [fst snd].
    fold c1. rewrite Ea. reflexivity. }
  destruct (add_message_frame user (new_message (f_id f) me (JStr text) (f_ts f) true) (ct_model c))
    as (Hu & Hact & _).
  split_and!.
  - split; [exact (eq_trans Hact Ha)| | |exact Hl'].
    + unfold my_name in *. etrans; [|exact Hme].
      exact (f_equal (λ u, match u with Some ((_ :: _) as x) => x | _ => &"me" end) Hu).
    + exists r1. split_and!; [done..|]. by rewrite (same_reference r r1).
  - exact Hlog.
  - by exists (ct_tick c1), (kr_draws r), ct, nonce.
  - done.
  - done.
  - etrans; [apply messages_add_message|]. by rewrite decide_True.
  - done.
Qed.

Lemma send_all k me user texts c :
  ready k me user c → is_room_key user = false → Forall sendable texts → is_Some (utf8_encode me) →
  ∃ c' frames, forM texts (λ text, send text;; mret tt) c = (c', Ok tt) ∧ ready k me user c' ∧
    up_log (ct_connection c') = up_log (ct_connection c) ++ frames ∧
    Forall2 (carries k me user) texts frames ∧
    ct_held c' = ct_held c ∧ ct_awaiting c' = ct_awaiting c ∧
    ∃ own, messages_of (ct_model c') user = messages_of (ct_model c) user ++ own ∧
           m_body <$> own = JStr <$> texts.
Proof.
  intros Hc Hroom Ht Hme. revert c Hc. induction Ht as [|text texts Ht _ IH]; intros c Hc.
  { exists c, []. split_and!; [done..|by rewrite app_nil_r|constructor|done|done|].
    exists []. by rewrite app_nil_r. }
  destruct (send_ready k me user text c Hc Hroom Ht Hme)
    as (c1 & m & f & E & Hc1 & Hl & Hf & Hh & Haw & Hm & Hb).
  destruct (IH c1 Hc1) as (c2 & fs & E2 & Hc2 & Hl2 & Hfs & Hh2 & Haw2 & own & Hm2 & Hb2).
  exists c2, (f :: fs). cbn [forM]. unfold mbind, M_bind. rewrite E. cbn.
  split_and!; [exact E2|done|by rewrite Hl2, Hl, <-app_assoc|by constructor|congruence|congruence|].
  exists (m :: own). split; [by rewrite Hm2, Hm, <-app_assoc|]. by rewrite Hb, fmap_cons, Hb2.
Qed.

(** [_release] sends what was held, in order, and forgets it. *)
Lemma release_run k me user texts c :
  ready k me user (with_model (set_active (Some user) (ct_model c)) c) →
  dict_get (ct_held c) user = Some texts →
  is_room_key user = false → Forall sendable texts → is_Some (utf8_encode me) →
  ∃ c' frames, _release user c = (c', Ok tt) ∧ is_Some (ct_keyring c') ∧
    up_log (ct_connection c') = up_log (ct_connection c) ++ frames ∧
    Forall2 (carries k me user) texts frames ∧
    ct_held c' = dict_del (ct_held c) user ∧ cm_active (ct_model c') = cm_active (ct_model c) ∧
    ∃ own, messages_of (ct_model c') user = messages_of (ct_model c) user ++ own ∧
           m_body <$> own = JStr <$> texts.
Proof.
  intros Hc Hheld Hroom Ht Hme. set (c0 := with_held (dict_del (ct_held c) user) c).
  assert (ready k me user (with_model (set_active (Some user) (ct_model c)) c0)) as Hc0
    by (destruct Hc; by split).
  destruct (send_all k me user texts _ Hc0 Hroom Ht Hme)
    as (c1 & fs & E & [_ _ (r & Hr & _) _] & Hl & Hfs & Hh & _ & own & Hm & Hb).
  destruct texts as [|t0 ts].
  - exists c0, []. inversion Hfs; subst. unfold _release, mbind, M_bind, get, modify.
    rewrite Hheld. split_and!; [done| |by rewrite app_nil_r|constructor|done|done|].
    + destruct Hc as [_ _ (r0 & Hr0 & _) _]. by exists r0.
    + exists []. by rewrite app_nil_r.
  - eexists (with_model (set_active (cm_active (ct_model c)) (ct_model c1)) c1), fs. split.
    { unfold _release. rewrite get_run. cbv zeta. rewrite modify_run, Hheld.
      cbn [default from_option id]. unfold with_active, on_model.
      rewrite get_run. cbv zeta. rewrite modify_run. unfold restoring. fold c0.
      change (ct_model c0) with (ct_model c). by rewrite E. }
    split_and!; [by exists r|exact Hl|exact Hfs|exact Hh|done|]. exists own. by split.
Qed.

Context `{!UplinkLaws C}.

(** C14. A message that had to wait for a key is sent when the key arrives.  If texts
    are held for somebody and the server's KEY frame brings a usable public key,
    then, the link taking frames, handling that frame puts every held text on
    the wire, in the order they were typed, each as one message to that person,
    sealed under the key the two share; whatever else the frame sets off comes
    after them. *)
Theorem held_messages_released (c : controller C) (r : Keyring) (frame : Frame)
    (user pubkey : pystr) (k : bytes) (texts : list pystr)
    (Hring : ct_keyring c = Some r) (Hok : ring_ok r)
    (Htype : f_type frame = KEY) (Huser : field frame (&"user") = JStr user)
    (Hpub : field frame (&"pubkey") = JStr pubkey) (Hnames : user ≠ [] ∧ pubkey ≠ [])
    (Hroom : is_room_key user = false) (Hkey : key_for (kr_identity r) pubkey = Ok k)
    (Hheld : dict_get (ct_held c) user = Some texts) (Htexts : Forall sendable texts)
    (Hme : is_Some (utf8_encode (my_name (ct_model c)))) (Hlive : live (ct_connection c)) :
  ∃ frames rest,
    up_log (ct_connection (on_frame frame c).1) = up_log (ct_connection c) ++ frames ++ rest ∧
    Forall2 (carries k (my_name (ct_model c)) user) texts frames.
Proof.
  set (r1 := remember user pubkey r). set (c1 := with_keyring (Some r1) c).
  assert (ready k (my_name (ct_model c)) user
            (with_model (set_active (Some user) (ct_model c1)) c1)) as Hready.
  { split; [done|done| |done]. exists r1. split_and!; [done|by apply remember_ok|].
    unfold reference_key. rewrite (get_pubkey_of r1 user pubkey).
    - unfold r1, remember. case_decide; cbn [kr_identity set_derived set_pubkeys];
        rewrite Hkey; done.
    - unfold r1, remember. case_decide; [done|]. cbn. apply dict_get_set_eq. }
  destruct (release_run k _ user texts c1 Hready Hheld Hroom Htexts Hme)
    as (c2 & frames & E & Hsome & Hlog & Hall & _).
  pose proof (key_tail_guarded (up_log (ct_connection c2)) user c2) as Htail.
  destruct (wp_state _ _ _ (Htail (conj Hsome (ex_intro _ [] (conj (eq_sym (app_nil_r _))
    (Forall_nil_2 _)))))) as (_ & rest & Hrest & _).
  exists frames, rest. split; [|done]. unfold on_frame. rewrite Htype. unfold _key.
  rewrite get_run, Huser, Hpub. cbv zeta.
  assert (truthy (JStr user) = true ∧ truthy (JStr pubkey) = true) as [-> ->]
    by (cbn; by rewrite !bool_decide_eq_true).
  rewrite bool_decide_false by by rewrite Hring.
  cbn [negb orb]. unfold mbind at 1, M_bind at 1. unfold on_keyring. rewrite Hring.
  cbn [py_str]. fold r1 c1. unfold mbind at 1, M_bind at 1. rewrite E.
  etrans; [exact Hrest|]. rewrite Hlog. by rewrite <-app_assoc.
Qed.
End Live.

(** The fake link, while it is up. *)
Lemma fake_live f conn : fk_up conn = true →
  ∃ conn', up_send f conn = (conn', Ok tt) ∧ fk_up conn' = true ∧
           up_log conn' = up_log conn ++ [f].
Proof. destruct conn as [[|] log]; [|done]. intros _. by eexists. Qed.

Abbreviation before_key := (@run_inputs plain_runtime toy_crypto fake fake_uplink
  (new_controller (mkFake true []) (Some alice_ring)) (take 4 evening)).

Lemma held_messages_released_witness :
  ∃ frames rest,
    up_log (ct_connection (@on_frame plain_runtime toy_crypto fake fake_uplink
      (key_frame (&"bob") (Identity.public_b64 (person (&"bob")))) before_key).1) =
    up_log (ct_connection before_key) ++ frames ++ rest ∧ length frames = 2.
Proof.
  assert (Forall sendable [&"are you there?"; &"hello?"]) as Ht.
  { repeat constructor; try discriminate; eexists; vm_compute; reflexivity. }
  destruct (@held_messages_released plain_runtime toy_crypto fake fake_uplink
    (λ c, fk_up c = true) fake_live fake_laws before_key alice_ring
    (key_frame (&"bob") (Identity.public_b64 (person (&"bob")))) (&"bob")
    (Identity.public_b64 (person (&"bob"))) (replicate 32 8%N ++ INFO)
    [&"are you there?"; &"hello?"]) as (frames & rest & E & Hall);
    [vm_compute; reflexivity|exact (new_keyring_ok _ _)|reflexivity|reflexivity|reflexivity
    |split; vm_compute; discriminate|vm_compute; reflexivity|vm_compute; reflexivity
    |vm_compute; reflexivity|exact Ht|eexists; vm_compute; reflexivity|vm_compute; reflexivity|].
  exists frames, rest. split; [exact E|]. symmetry. exact (Forall2_length _ _ _ Hall).
Defined.
