(* ===== verification/ClientFindings.v ===== *)
(** * What the controller does that its documents do not say

    Two behaviours found while modelling [im/client/controller/chat.py]. *)

From S2P Require Import Prelude PyStr PyDict Json PyInt Utf8 Frames.
From S2P Require Import Conversation ChatModel ChatModelFacts ChatModelTypes.
From S2P Require Import Base64 Envelope Keyring Uplink Controller Wp ControllerSafety ControllerLive.

Section Findings.
Context `{Runtime} `{Crypto} {C : Type} `{UplinkLaws C}.

(** A message without a nonce is shown as it stands, encryption or not: a
    server that drops the nonce can put any text under any name into an
    encrypted conversation, and nothing tells the reader. *)
Theorem plaintext_is_believed (c : controller C) (frame : Frame) (user text : pystr)
    (Htype : f_type frame = MSG) (Hfrom : f_sender frame = JStr user) (Huser : user ≠ [])
    (Hroom : is_room_key user = false) (Hto : f_to frame = JStr (my_name (ct_model c)))
    (Hme : is_room_key (my_name (ct_model c)) = false)
    (Hbody : f_body frame = JStr text) (Hnonce : f_nonce frame = JNull)
    (Hts : f_ts frame ≠ 0%Z) :
  messages_of (ct_model (on_frame frame c).1) user =
  messages_of (ct_model c) user ++
    [new_message (f_id frame) user (JStr text) (f_ts frame) false].
Proof.
  set (me := my_name (ct_model c)) in *.
  assert (me ≠ []) as Hn by (unfold me, my_name; by repeat case_match).
  destruct (ask_model (λ id ts, receipt id ts user (f_id frame) (&"DELIVERED")) c)
    as (Hmod & _). set (c1 := (ask _ c).1) in *.
  rewrite (direct_shown c frame user me (JStr text) c1); [|by split| | |done].
  - cbn [fst ct_model with_model]. by rewrite messages_add_message, decide_True.
  - unfold opens_now. rewrite Hnonce. by destruct (ct_keyring c).
  - fold c1. unfold _plaintext. rewrite Hbody, Hnonce, get_run. cbn [truthy negb].
    rewrite orb_true_r. destruct text; [done|]. reflexivity.
Qed.
End Findings.

(** ** A lost request *)

Section Lost.
Context `{Runtime} `{Crypto}.
Implicit Type c : controller fake.

(** Typing one text to somebody whose key is unknown. *)
Lemma send_unknown c (r : Keyring) (user text : pystr) :
  cm_active (ct_model c) = Some user → is_room_key user = false → ct_keyring c = Some r →
  ring_ok r → reference_key r user = Ok None → strip text ≠ [] →
  ∃ r1, ring_ok r1 ∧ reference_key r1 user = Ok None ∧
    send text c = (_hold user text None;; mret None) (with_keyring (Some r1) c).
Proof.
  intros Ha Hroom Hr Ho Hu Ht.
  destruct (seal_run user text (my_name (ct_model c)) r Ho) as (r1 & E & Ho1 & Hs & _).
  rewrite Hu in E. cbn [mbind res_bind] in E. exists r1. split_and!; [done| |].
  - by rewrite (same_reference r r1).
  - unfold send. rewrite get_run, Ha, decide_False by done. cbv zeta. rewrite Hr, Hroom.
    unfold mbind, M_bind, on_keyring. rewrite Hr, E. cbn [fst snd].
    by destruct (_hold user text None _) as [? [[]|]].
Qed.

(** The state of the controller that the finding is about. *)
Definition silent_on (user : pystr) (log : list Frame) (held : list pystr) c : Prop :=
  cm_active (ct_model c) = Some user ∧ fk_log (ct_connection c) = log ∧
  dict_get (ct_held c) user = Some held ∧
  ∃ r, ct_keyring c = Some r ∧ ring_ok r ∧ reference_key r user = Ok None.

(** Behind a text that is already held, a text is held and nothing is asked. *)
Lemma send_silent c user log held text :
  is_room_key user = false → silent_on user log held c → strip text ≠ [] →
  silent_on user log (held ++ [text]) (send text c).1.
Proof.
  intros Hroom (Ha & Hlog & Hheld & r & Hr & Ho & Hu) Ht.
  destruct (send_unknown c r user text Ha Hroom Hr Ho Hu Ht) as (r1 & Ho1 & Hu1 & ->).
  unfold _hold. unfold mbind at 1, M_bind at 1. rewrite get_run. cbv zeta.
  cbn [ct_held with_keyring]. rewrite modify_run, Hheld. unfold dict_has.
  rewrite Hheld, bool_decide_true by done.
  split_and!; [done|done|apply dict_get_set_eq|by exists r1].
Qed.

Lemma typed_silent more c user log held :
  is_room_key user = false → silent_on user log held c → Forall (λ t, strip t ≠ []) more →
  silent_on user log (held ++ more) (run_inputs c (Typed <$> more)).
Proof.
  intros Hroom Hs Hm. revert c held Hs.
  induction Hm as [|t more Ht _ IH]; intros c held Hs; [by rewrite app_nil_r|].
  cbn [fmap list_fmap run_inputs foldl run_input].
  replace (held ++ t :: more) with ((held ++ [t]) ++ more) by by rewrite <-app_assoc.
  apply IH. by apply send_silent.
Qed.

(** A key is asked for once and never again.  If the link is down when the first
    message to somebody is typed, the text is held but the request for the key
    is lost with a [NotConnected]; from then on, with the link up, whatever is
    typed to that person is held behind it and nothing is asked for or sent. *)
Theorem lost_key_request (c : controller fake) (r : Keyring)
    (user first : pystr) (more : list pystr) (log : list Frame)
    (Hactive : cm_active (ct_model c) = Some user) (Hroom : is_room_key user = false)
    (Hring : ct_keyring c = Some r) (Hok : ring_ok r)
    (Hunknown : reference_key r user = Ok None)
    (Hheld : dict_get (ct_held c) user = None) (Hdown : fk_up (ct_connection c) = false)
    (Htexts : Forall (λ t, strip t ≠ []) (first :: more)) :
  (send first c).2 = Raise NotConnected ∧
  let c' := run_inputs (with_connection (mkFake true log) (send first c).1) (Typed <$> more) in
  fk_log (ct_connection c') = log ∧ dict_get (ct_held c') user = Some (first :: more).
Proof.
  apply Forall_cons in Htexts as [Hf Hm].
  destruct (send_unknown c r user first Hactive Hroom Hring Hok Hunknown Hf) as (r1 & Ho1 & Hu1 & ->).
  destruct c as [[up lg] mo kr he aw pu pr ti]. cbn in Hdown, Hheld, Hactive. subst up.
  assert ((_hold user first None;; mret None) (with_keyring (Some r1)
            (mkController (mkFake false lg) mo kr he aw pu pr ti))
          = (mkController (mkFake false lg) mo (Some r1) (dict_set he user [first]) aw pu pr (S ti),
             Raise (A:=option Message) NotConnected)) as ->.
  { unfold _hold. unfold mbind at 1, M_bind at 1. rewrite get_run. cbv zeta.
    cbn [ct_held with_keyring]. rewrite modify_run, Hheld. unfold dict_has.
    rewrite Hheld, bool_decide_false by by intros [? ?]. done. }
  split; [done|]. cbv zeta.
  destruct (typed_silent more (mkController (mkFake true log) mo (Some r1)
    (dict_set he user [first]) aw pu pr (S ti)) user log [first] Hroom) as (_ & Hl & Hh & _);
    [|done|by split].
  split_and!; [done|done|apply dict_get_set_eq|by exists r1].
Qed.
End Lost.

(** In the middle of an encrypted conversation with bob, a frame without a nonce. *)
Definition forged : Frame :=
  mkFrame MSG (JStr (&"bob")) (JStr (&"alice")) (JStr (&"send money")) JNull [] (JStr (&"x")) 5 JNull.

Lemma plaintext_is_believed_witness :
  ct_keyring after_evening ≠ None ∧
  messages_of (ct_model (@on_frame plain_runtime toy_crypto fake fake_uplink forged
                           after_evening).1) (&"bob") =
  messages_of (ct_model after_evening) (&"bob") ++
    [new_message (JStr (&"x")) (&"bob") (JStr (&"send money")) 5 false].
Proof.
  split; [vm_compute; discriminate|].
  apply (@plaintext_is_believed plain_runtime toy_crypto fake fake_uplink after_evening forged
           (&"bob") (&"send money")); vm_compute; (reflexivity || discriminate).
Defined.

(** alice has chosen bob, and the link is down. *)
Abbreviation offline := (@run_inputs plain_runtime toy_crypto fake fake_uplink
  (new_controller (mkFake false []) (Some alice_ring)) (take 2 evening)).

Lemma lost_key_request_witness :
  (@send plain_runtime toy_crypto fake fake_uplink (&"hello") offline).2 = Raise NotConnected ∧
  fk_log (ct_connection (@run_inputs plain_runtime toy_crypto fake fake_uplink
    (with_connection (mkFake true [])
       (@send plain_runtime toy_crypto fake fake_uplink (&"hello") offline).1)
    (Typed <$> [&"anybody?"; &"bob!"]))) = [].
Proof.
  assert (Forall (λ t : pystr, strip t ≠ []) [&"hello"; &"anybody?"; &"bob!"]) as Ht
    by (repeat constructor; vm_compute; discriminate).
  destruct (@lost_key_request plain_runtime toy_crypto offline alice_ring (&"bob") (&"hello")
    [&"anybody?"; &"bob!"] []) as [H1 [H2 _]];
    [vm_compute; reflexivity|vm_compute; reflexivity|vm_compute; reflexivity
    |exact (new_keyring_ok _ _)|vm_compute; reflexivity..|exact Ht|].
  split; [exact H1|exact H2].
Defined.
