(* ===== verification/Calendar.v ===== *)
(** * Local time

    What the window uses of [datetime]: [fromtimestamp] of a number of
    milliseconds, the date and the minute it falls on, and their text.  The time
    zone is the operating system's, so [localtime] is a parameter, and so is the
    day on which the window is looked at. *)

From S2P Require Import Prelude PyStr.

Class Clock := {
  ck_local : Z → res Z;   (* localtime: seconds of the epoch to local seconds *)
  ck_today : Z;           (* date.today(), in days since 1 January 1970 *)
}.

(** An offset from UTC is less than a day, and the C library converts every
    instant from 1970 until the year 9999. *)
Class ClockLaws `{Clock} := {
  law_offset s l : ck_local s = Ok l → (Z.abs (l - s) < 86400)%Z;
  law_local s : (0 ≤ s ≤ 253402300799)%Z → ∃ l, ck_local s = Ok l;
}.

(** The first second of the year 1 and the last one of the year 9999. *)
Definition MIN_SECOND : Z := -62135596800.
Definition MAX_SECOND : Z := 253402300799.

(** [datetime.fromtimestamp(ts / 1000)], as local seconds.  A double holds no
    more than [2 ** 1024]; within the range of a date it is exact enough for the
    second. *)
Definition fromtimestamp `{Clock} (ts : Z) : res Z :=
  if (1000 * 2 ^ 1024 <=? Z.abs ts)%Z then Raise OverflowError
  else
    s ← ck_local (ts / 1000);
    if ((s <? MIN_SECOND) || (MAX_SECOND <? s))%Z then Raise ValueError else Ok s.

(** The year, month and day of a number of days since 1 January 1970, with eras
    of 400 years that start in March. *)
Definition civil (days : Z) : Z * Z * Z :=
  let z := (days + 719468)%Z in
  let era := (z / 146097)%Z in
  let doe := (z mod 146097)%Z in
  let yoe := ((doe - doe / 1460 + doe / 36524 - doe / 146096) / 365)%Z in
  let doy := (doe - (365 * yoe + yoe / 4 - yoe / 100))%Z in
  let mp := ((5 * doy + 2) / 153)%Z in
  let d := (doy - (153 * mp + 2) / 5 + 1)%Z in
  let m := (if mp <? 10 then mp + 3 else mp - 9)%Z in
  ((yoe + era * 400 + if m <=? 2 then 1 else 0)%Z, m, d).

Definition MONTHS : list pystr :=
  [&"January"; &"February"; &"March"; &"April"; &"May"; &"June"; &"July"; &"August";
   &"September"; &"October"; &"November"; &"December"].

Definition pad2 (z : Z) : pystr := if (z <? 10)%Z then 48%N :: dec_of_Z z else dec_of_Z z.

(** [strftime("%d %B %Y")]. *)
Definition long_date (days : Z) : pystr :=
  let '(y, m, d) := civil days in
  pad2 d ++ &" " ++ nth (Z.to_nat (m - 1)) MONTHS [] ++ &" " ++ dec_of_Z y.

(** [strftime("%H:%M")]. *)
Definition hour_minute (seconds : Z) : pystr :=
  let s := (seconds mod 86400)%Z in pad2 (s / 3600) ++ &":" ++ pad2 (s mod 3600 / 60).

(** An instant no date can hold. *)
Lemma fromtimestamp_out_of_range `{ClockLaws} (ts : Z) :
  (1000 * (MAX_SECOND + 86400) ≤ ts)%Z → ∃ e, fromtimestamp ts = Raise e.
Proof.
  intros Hts. unfold fromtimestamp. destruct (_ <=? _)%Z; [by eexists|].
  destruct (ck_local _) as [l|e] eqn:E; [|by eexists]. cbn [mbind res_bind].
  apply law_offset in E.
  assert (MAX_SECOND + 86400 ≤ ts / 1000)%Z by (apply Z.div_le_lower_bound; lia).
  assert ((MAX_SECOND <? l)%Z = true) as -> by (apply Z.ltb_lt; lia).
  rewrite orb_true_r. by eexists.
Qed.

(** Any time from 2 January 1970 until the end of 9999, less a day. *)
Lemma fromtimestamp_in_range `{ClockLaws} (ts : Z) :
  (0 ≤ ts ≤ 1000 * (MAX_SECOND - 86400))%Z → ∃ s, fromtimestamp ts = Ok s.
Proof.
  intros Hts. unfold fromtimestamp.
  assert (1000 * 2 ^ 1024 <=? Z.abs ts = false)%Z as ->.
  { apply Z.leb_gt. rewrite Z.abs_eq by lia.
    apply (Z.le_lt_trans _ (1000 * (MAX_SECOND - 86400))); [lia|].
    vm_compute. reflexivity. }
  assert (0 ≤ ts / 1000 ≤ MAX_SECOND - 86400)%Z as Hs.
  { split; [apply Z.div_pos; lia|]. apply Z.div_le_upper_bound; lia. }
  destruct (law_local (ts / 1000)) as [l El]; [unfold MAX_SECOND in *; lia|].
  rewrite El. cbn [mbind res_bind]. apply law_offset in El.
  assert ((l <? MIN_SECOND)%Z = false) as -> by (apply Z.ltb_ge; unfold MIN_SECOND; lia).
  assert ((MAX_SECOND <? l)%Z = false) as -> by (apply Z.ltb_ge; lia).
  by eexists.
Qed.

(** Greenwich, on 1 March 2024. *)
Definition utc : Clock := {| ck_local s := Ok s; ck_today := 19783 |}.

Lemma utc_laws : @ClockLaws utc.
Proof. split; [intros s l [= <-]; lia|]. intros s _. by exists s. Qed.

Example long_date_ex : long_date 19783 = &"01 March 2024". Proof. reflexivity. Qed.
Example leap_day_ex : long_date 19782 = &"29 February 2024". Proof. reflexivity. Qed.
Example epoch_ex : long_date 0 = &"01 January 1970". Proof. reflexivity. Qed.
Example hour_minute_ex : hour_minute 1709251505 = &"00:05". Proof. reflexivity. Qed.
