(* ===== verification/Theme.v ===== *)
(** * Palette, type scale and shapes

    [im/client/view/tk/theme.py], and the canvas it draws on.  A canvas is its
    size and the list of its items, in the order they were created; drawing is
    code in the monad over a canvas, since a name that cannot be encoded makes it
    raise half way.  Coordinates are rationals: the source computes them in
    doubles, from integers and from halves. *)

From S2P Require Import Prelude PyStr Utf8 Conversation.
From Stdlib Require Import QArith Qround Qabs Lqa.

(** ** The display *)

(** What the operating system answers: whether this is Windows, whether each of
    the two calls that declare awareness works, and [GetDpiForSystem()]. *)
Class Display := {
  dp_windows : bool;
  dp_per_monitor : bool;
  dp_aware : bool;
  dp_dpi : option Z;
}.

Definition Qmax (a b : Q) : Q := if Qle_bool a b then b else a.
Definition Qmin (a b : Q) : Q := if Qle_bool a b then a else b.

(** The value of [SCALE] once the module is imported. *)
Definition enable_crisp_rendering `{Display} : Q :=
  if negb dp_windows then 1%Q
  else if negb dp_per_monitor && negb dp_aware then 1%Q
  else match dp_dpi with
       | Some dpi => Qmax 1 (inject_Z dpi / 96)
       | None => 1%Q
       end.

(** [round]: to the nearest integer, a half to the even one. *)
Definition round_half_even (q : Q) : Z :=
  let n := Qnum q in
  let d := Zpos (Qden q) in
  let f := (n / d)%Z in
  let r := (2 * (n mod d))%Z in
  if (r <? d)%Z then f
  else if (d <? r)%Z then (f + 1)%Z
  else if Z.even f then f else (f + 1)%Z.

Definition px `{Display} (value : Q) : Z := round_half_even (value * enable_crisp_rendering).

(** The pixels of a whole number of units. *)
Definition pxz `{Display} (z : Z) : Z := px (inject_Z z).

(** ** Palette and type *)

Definition ORANGE : pystr := &"#FF8347".
Definition ORANGE_DEEP : pystr := &"#FF8A00".
Definition PEACH : pystr := &"#FFE5B4".
Definition CREAM : pystr := &"#FFF7E6".
Definition BROWN : pystr := &"#5C3D1E".
Definition WHITE : pystr := &"#FFFFFF".
Definition PAGE : pystr := &"#FFFCF5".
Definition SELECTED : pystr := &"#FFE8C8".
Definition HOVER : pystr := &"#FFF3DF".
Definition MUTED : pystr := &"#A08B6E".
Definition HAIRLINE : pystr := &"#F2E4CE".
Definition ONLINE : pystr := &"#4CAF50".
Definition OFFLINE : pystr := &"#C9BBA5".

Definition AVATAR_COLOURS : list pystr :=
  [&"#FF8347"; &"#F7A072"; &"#E8A87C"; &"#C38D9E"; &"#7FB685"; &"#6C9BCF"; &"#B79ced"].

(** A negative size is in pixels, a positive one in points. *)
Record font_t := mkFont { fo_family : pystr; fo_size : Z; fo_bold : bool }.

Definition FONT : pystr := &"Segoe UI".

Definition font `{Display} (size : Z) (bold : bool) : font_t := mkFont FONT (- pxz size) bold.

Definition H1 `{Display} : font_t := font 20 true.
Definition H2 `{Display} : font_t := font 13 true.
Definition BODY `{Display} : font_t := font 11 false.
Definition BODY_BOLD `{Display} : font_t := font 11 true.
Definition SMALL `{Display} : font_t := font 10 false.
Definition TINY `{Display} : font_t := font 9 false.
Definition BADGE `{Display} : font_t := font 9 true.

(** [AVATAR_COLOURS[sum(name.encode()) % len(AVATAR_COLOURS)]]. *)
Definition avatar_colour (name : pystr) : res pystr :=
  match utf8_encode name with
  | None => Raise UnicodeEncodeError
  | Some b => Ok (nth (N.to_nat (foldr N.add 0%N b mod 7)) AVATAR_COLOURS [])
  end.

Definition initials `{Casing} (name : pystr) : pystr :=
  let cleaned := strip (lstrip_by (λ c, (c =? 35)%N) name) in
  if decide (cleaned = []) then &"?"
  else match words cleaned with
       | (a :: _) :: (b :: _) :: _ => to_upper [a; b]
       | _ => to_upper (take 2 cleaned)
       end.

(** ** Canvas *)

Inductive item :=
| Polygon (points : list (Q * Q)) (fill : pystr)
| Smooth (points : list (Q * Q)) (fill : pystr)      (* smooth=True, splinesteps=24 *)
| Oval (x1 y1 x2 y2 : Q) (fill outline : pystr)
| Line (x1 y1 x2 y2 : Q) (fill : pystr)
| Image (x y : Z) (width height : Z)
| Text (x y : Q) (text anchor fill : pystr) (font : font_t).

Record canvas := mkCanvas { cv_width : Z; cv_height : Z; cv_items : list item }.

Definition set_items (l : list item) (c : canvas) : canvas :=
  mkCanvas (cv_width c) (cv_height c) l.

Abbreviation Draw := (M canvas).

Definition create (i : item) : Draw unit := modify (λ c, set_items (cv_items c ++ [i]) c).

(** [self.delete("all")]. *)
Definition delete_all : Draw unit := modify (set_items []).

(** A canvas before it is laid out reports a width of one pixel. *)
Definition new_canvas (height : Z) : canvas := mkCanvas 1 height [].

(** Every text on the canvas, in the order it was drawn. *)
Definition texts_of (l : list item) : list pystr :=
  omap (λ i, match i with Text _ _ t _ _ _ => Some t | _ => None end) l.

(** ** Shapes *)

Section Shapes.
Local Open Scope Q_scope.

Definition rounded_points (x1 y1 x2 y2 radius : Q) : list (Q * Q) :=
  let radius := Qmin (Qmin radius (Qabs (x2 - x1) / 2)) (Qabs (y2 - y1) / 2) in
  [(x1 + radius, y1); (x2 - radius, y1); (x2, y1); (x2, y1 + radius); (x2, y2 - radius);
   (x2, y2); (x2 - radius, y2); (x1 + radius, y2); (x1, y2); (x1, y2 - radius);
   (x1, y1 + radius); (x1, y1)].

Definition rounded_rect (x1 y1 x2 y2 radius : Q) (fill : pystr) : Draw unit :=
  create (Smooth (rounded_points x1 y1 x2 y2 radius) fill).

Definition circle (x y r : Q) (fill : pystr) : Draw unit :=
  create (Oval (x - r) (y - r) (x + r) (y + r) fill []).

(** [int(x)]: towards zero. *)
Definition py_trunc (x : Q) : Z := if Qle_bool 0 x then Qfloor x else Qceiling x.

Definition draw_avatar `{Casing} (x y : Q) (name : pystr) (radius : Q) (status : option pystr)
    : Draw unit :=
  colour ← lift_res (avatar_colour name);
  create (Oval (x - radius) (y - radius) (x + radius) (y + radius) colour []);;
  create (Text x y (initials name) (&"center") WHITE
            (mkFont FONT (py_trunc (radius * (72 # 100))) true));;
  match status with
  | None => mret tt
  | Some s =>
    let dot := radius * (34 # 100) in
    create (Oval (x + radius - dot * (14 # 10)) (y + radius - dot * (14 # 10))
                 (x + radius + dot * (6 # 10)) (y + radius + dot * (6 # 10)) s WHITE)
  end.
End Shapes.

(** ** Facts *)

Lemma scale_ge_1 `{Display} : (1 <= enable_crisp_rendering)%Q.
Proof.
  unfold enable_crisp_rendering. destruct (negb dp_windows); [apply Qle_refl|].
  destruct (_ && _); [apply Qle_refl|]. destruct dp_dpi as [dpi|]; [|apply Qle_refl].
  unfold Qmax. destruct (Qle_bool 1 _) eqn:E; [by apply Qle_bool_iff|apply Qle_refl].
Qed.

(** Rounding never passes an integer. *)
Lemma round_ge (z : Z) (q : Q) : (inject_Z z <= q)%Q → (z ≤ round_half_even q)%Z.
Proof.
  unfold Qle, round_half_even. cbn. rewrite Z.mul_1_r. intros Hz.
  assert (z ≤ Qnum q / Zpos (Qden q))%Z by (apply Z.div_le_lower_bound; lia).
  repeat case_match; lia.
Qed.

Lemma round_le (z : Z) (q : Q) : (q <= inject_Z z)%Q → (round_half_even q ≤ z)%Z.
Proof.
  unfold Qle, round_half_even. cbn. rewrite Z.mul_1_r. intros Hz.
  set (d := Zpos (Qden q)) in *. set (n := Qnum q) in *.
  assert (0 < d)%Z by lia.
  pose proof (Z.div_mod n d ltac:(lia)) as Hdm. pose proof (Z.mod_pos_bound n d ltac:(lia)) as Hm.
  assert (n / d ≤ z)%Z as Hf by (apply Z.div_le_upper_bound; lia).
  assert (n / d = z → n mod d = 0)%Z as Heq by (intros E; rewrite E in Hdm; nia).
  destruct (decide (n / d = z)%Z) as [E|E].
  - rewrite (Heq E). change (2 * 0)%Z with 0%Z.
    assert ((0 <? d)%Z = true) as -> by (by apply Z.ltb_lt). lia.
  - repeat case_match; lia.
Qed.

(** A length on a real display is at least what it is at 96 DPI. *)
Lemma px_ge `{Display} (z : Z) (q : Q) : (0 <= inject_Z z)%Q → (inject_Z z <= q)%Q → (z ≤ px q)%Z.
Proof.
  intros Hz Hq. apply round_ge. pose proof scale_ge_1 as Hs.
  revert Hs Hz Hq. generalize enable_crisp_rendering (inject_Z z). intros. nra.
Qed.

Lemma pxz_ge `{Display} (z : Z) : (0 ≤ z)%Z → (z ≤ pxz z)%Z.
Proof. intros Hz. apply px_ge; [|apply Qle_refl]. by rewrite <-(Zle_Qle 0). Qed.

(** The colour of a name is one of the seven. *)
Lemma avatar_colour_in name c : avatar_colour name = Ok c → c ∈ AVATAR_COLOURS.
Proof.
  unfold avatar_colour. destruct (utf8_encode name) as [b|]; [|done]. intros [= <-].
  assert (foldr N.add 0%N b mod 7 < 7)%N as Hlt by (by apply N.mod_lt).
  revert Hlt. generalize (foldr N.add 0%N b mod 7)%N. intros k Hk.
  apply list_elem_of_In, (nth_In AVATAR_COLOURS []). change (length AVATAR_COLOURS) with 7%nat. lia.
Qed.

Lemma Qmin_spec (a b c : Q) : (c <= a)%Q → (c <= b)%Q →
  (c <= Qmin a b)%Q ∧ (Qmin a b <= a)%Q ∧ (Qmin a b <= b)%Q.
Proof.
  intros Ha Hb. unfold Qmin. destruct (Qle_bool a b) eqn:E.
  - apply Qle_bool_iff in E. auto using Qle_refl.
  - assert (b <= a)%Q; [|auto using Qle_refl]. apply Qlt_le_weak, Qnot_le_lt.
    intros Hle. apply Qle_bool_iff in Hle. congruence.
Qed.

(** No corner leaves the box, whatever the radius asked for. *)
Lemma rounded_points_inside (x1 y1 x2 y2 radius : Q) p :
  (x1 <= x2)%Q → (y1 <= y2)%Q → (0 <= radius)%Q →
  p ∈ rounded_points x1 y1 x2 y2 radius →
  (x1 <= p.1)%Q ∧ (p.1 <= x2)%Q ∧ (y1 <= p.2)%Q ∧ (p.2 <= y2)%Q.
Proof.
  intros Hx Hy Hr. unfold rounded_points, Qdiv. change (/ 2)%Q with (1 # 2)%Q.
  assert (Qabs (x2 - x1) == x2 - x1)%Q as Ex by (apply Qabs_pos; lra).
  assert (Qabs (y2 - y1) == y2 - y1)%Q as Ey by (apply Qabs_pos; lra).
  destruct (Qmin_spec radius (Qabs (x2 - x1) * (1 # 2))%Q 0) as (H0 & _ & H1'); [done|lra|].
  destruct (Qmin_spec (Qmin radius (Qabs (x2 - x1) * (1 # 2))%Q) (Qabs (y2 - y1) * (1 # 2))%Q 0)
    as (H0' & H2' & H3'); [done|lra|].
  revert H0' H2' H3'. generalize (Qmin (Qmin radius (Qabs (x2 - x1) * (1 # 2))%Q) (Qabs (y2 - y1) * (1 # 2))%Q).
  intros r H0' H2' H3' Hp. rewrite list_elem_of_In in Hp.
  repeat destruct Hp as [<-|Hp]; try done; cbn [fst snd]; split_and!; lra.
Qed.
