(* ===== verification/Backdrop.v ===== *)
(** * The soft background

    [im/client/view/tk/backdrop.py]: the bitmap behind the messages, computed
    pixel by pixel, and the cache of bitmaps.  A pixel is its three channels; a
    [bytearray] raises when a channel is not a byte, and so does the model.
    Doubles are rationals, and [math.sqrt] is rounded down to a multiple of
    [2 ** -52]. *)

From S2P Require Import Prelude PyStr PyDict Conversation Theme.
From Stdlib Require Import QArith Qround Lqa.

Definition QUANTUM : Z := 40.
Definition STRENGTH : Q := 30 # 100.
Definition DOT_SPACING : Z := 26.
Definition DOT_STRENGTH : Q := 55 # 100.

Definition pixel : Type := Z * Z * Z.

(** [int(text, 16)] of two hexadecimal digits. *)
Definition hex_digit (c : N) : res Z :=
  if ((48 <=? c) && (c <=? 57))%N then Ok (Z.of_N c - 48)%Z
  else if ((65 <=? c) && (c <=? 70))%N then Ok (Z.of_N c - 55)%Z
  else if ((97 <=? c) && (c <=? 102))%N then Ok (Z.of_N c - 87)%Z
  else Raise ValueError.

Definition hex_byte (s : pystr) : res Z :=
  match s with
  | [a; b] => x ← hex_digit a; y ← hex_digit b; Ok (16 * x + y)%Z
  | _ => Raise ValueError
  end.

Definition _rgb (colour : pystr) : res pixel :=
  r ← hex_byte (slice 1 3 colour);
  g ← hex_byte (slice 3 5 colour);
  b ← hex_byte (slice 5 7 colour);
  Ok (r, g, b).

(** A blob: its centre, its radius and its colour. *)
Record spot := mkSpot { sp_cx : Q; sp_cy : Q; sp_radius : Q; sp_colour : pixel }.

Section Render.
Local Open Scope Q_scope.

Definition _blobs (width height : Z) : res (list spot) :=
  let w := inject_Z width in
  let h := inject_Z height in
  let m := inject_Z (Z.max width height) in
  orange ← _rgb ORANGE;
  peach ← _rgb PEACH;
  deep ← _rgb ORANGE_DEEP;
  Ok [mkSpot (w * (8 # 100)) (h * (12 # 100)) (m * (55 # 100)) orange;
      mkSpot (w * (95 # 100)) (h * (30 # 100)) (m * (45 # 100)) peach;
      mkSpot (w * (55 # 100)) (h * (102 # 100)) (m * (60 # 100)) deep].

Definition q_sqrt (x : Q) : Q :=
  Z.sqrt (Qnum x * 4 ^ 52 / Zpos (Qden x)) # Pos.pow 2 52.

(** The columns a blob can touch: [left], [right]. *)
Definition columns (width : Z) (s : spot) : Z * Z :=
  (Z.max 0 (py_trunc (sp_cx s - sp_radius s)),
   Z.min width (py_trunc (sp_cx s + sp_radius s) + 1)).

Definition prepare (width : Z) (spots : list spot) : list spot :=
  filter (λ s, (columns width s).1 < (columns width s).2)%Z spots.

(** [row[i] = value]. *)
Definition put_byte (value : Z) : res Z :=
  if ((0 <=? value) && (value <=? 255))%Z then Ok value else Raise ValueError.

Definition put_pixel (p : pixel) : res pixel :=
  let '(r, g, b) := p in
  r ← put_byte r; g ← put_byte g; b ← put_byte b; Ok (r, g, b).

(** [int(row[i] + (colour[k] - row[i]) * a)]. *)
Definition mix (a : Q) (colour value : Z) : Z :=
  py_trunc (inject_Z value + inject_Z (colour - value) * a).

Definition mix_pixel (a : Q) (colour p : pixel) : pixel :=
  let '(cr, cg, cb) := colour in
  let '(r, g, b) := p in
  (mix a cr r, mix a cg g, mix a cb b).

(** Squared falloff. *)
Definition falloff (d2 radius : Q) : Q :=
  (1 - q_sqrt d2 / radius) * (1 - q_sqrt d2 / radius) * STRENGTH.

(** A row with the index of each pixel. *)
Definition imapR {A} (f : Z → A → res A) (row : list A) : res (list A) :=
  mapR (λ ix : nat * A, f (Z.of_nat ix.1) ix.2) (zip (seq 0 (length row)) row).

(** What one blob does to row [y]. *)
Definition patch (width y : Z) (s : spot) (row : list pixel) : res (list pixel) :=
  let dy2 := (inject_Z y - sp_cy s) * (inject_Z y - sp_cy s) in
  let r2 := sp_radius s * sp_radius s in
  if negb (Qle_bool dy2 r2) then Ok row
  else
    let reach := q_sqrt (r2 - dy2) in
    let x0 := Z.max (columns width s).1 (py_trunc (sp_cx s - reach)) in
    let x1 := Z.min (columns width s).2 (py_trunc (sp_cx s + reach) + 1) in
    imapR (λ x p,
      let d2 := (inject_Z x - sp_cx s) * (inject_Z x - sp_cx s) + dy2 in
      if ((x0 <=? x) && (x <? x1))%Z && negb (Qle_bool r2 d2)
      then put_pixel (mix_pixel (falloff d2 (sp_radius s)) (sp_colour s) p)
      else Ok p) row.

(** The motif: every [DOT_SPACING] pixels of every [DOT_SPACING]th row. *)
Definition darken (k : Z) (value : Z) : Z :=
  py_trunc (inject_Z value - DOT_STRENGTH * inject_Z k).

Definition dots (y : Z) (row : list pixel) : res (list pixel) :=
  if (y mod DOT_SPACING =? 0)%Z then
    imapR (λ x p,
      if (x mod DOT_SPACING =? 0)%Z then
        let '(r, g, b) := p in put_pixel (darken 8 r, darken 10 g, darken 14 b)
      else Ok p) row
  else Ok row.

(** A channel of the gradient: [top + (bottom - top) * f]. *)
Definition gradient (top bottom y height : Z) : Q :=
  inject_Z top + inject_Z (bottom - top) * (inject_Z y / inject_Z (Z.max 1 (height - 1))).

Definition base_pixel (top bottom : pixel) (y height : Z) : pixel :=
  let '(tr, tg, tb) := top in
  let '(br, bg, bb) := bottom in
  (py_trunc (gradient tr br y height), py_trunc (gradient tg bg y height),
   py_trunc (gradient tb bb y height)).

(** The loop over the blobs. *)
Fixpoint patch_all (width y : Z) (spots : list spot) (row : list pixel) : res (list pixel) :=
  match spots with
  | [] => Ok row
  | s :: spots' => row ← patch width y s row; patch_all width y spots' row
  end.

Definition render_row (width height : Z) (top bottom : pixel) (spots : list spot) (y : Z)
    : res (list pixel) :=
  base ← put_pixel (base_pixel top bottom y height);
  row ← patch_all width y spots (replicate (Z.to_nat width) base);
  dots y row.

Definition pixel_bytes (p : pixel) : bytes :=
  let '(r, g, b) := p in [Z.to_N r; Z.to_N g; Z.to_N b].

(** The PPM that [tk.PhotoImage] is given. *)
Definition _render (width height : Z) : res bytes :=
  top ← _rgb PAGE;
  bottom ← _rgb CREAM;
  spots ← _blobs width height;
  rows ← mapR (λ y, render_row width height top bottom (prepare width spots) (Z.of_nat y))
           (seq 0 (Z.to_nat height));
  Ok ((&"P6") ++ [10%N] ++ dec_of_Z width ++ (&" ") ++ dec_of_Z height ++ [10%N] ++ (&"255") ++ [10%N]
      ++ concat ((λ row, concat (pixel_bytes <$> row)) <$> rows)).
End Render.

(** ** The cache

    An image is known by its size: [_render] is a function of it, and never
    raises.  The cache is a dict, so its keys are in the order they came. *)

Definition cache : Type := list (Z * Z).

Definition quantised (length : Z) : Z := Z.max QUANTUM ((length / QUANTUM + 1) * QUANTUM).

Definition backdrop (width height : Z) (c : cache) : cache * option (Z * Z) :=
  if ((width <? 40) || (height <? 40))%Z then (c, None)
  else
    let key := (quantised width, quantised height) in
    if decide (key ∈ c) then (c, Some key)
    else (if decide (6 < length c)%nat then [key] else c ++ [key], Some key).

(** ** The cache is bounded and its images cover the pane *)

Lemma quantised_covers z : (0 ≤ z)%Z → (z < quantised z ≤ z + QUANTUM)%Z.
Proof.
  intros Hz. unfold quantised, QUANTUM.
  pose proof (Z.div_mod z 40 ltac:(lia)). pose proof (Z.mod_pos_bound z 40 ltac:(lia)). lia.
Qed.

(** Whatever sizes the pane takes, the cache holds no size twice and never
    more than seven images, and the image that is shown reaches past the pane on
    both sides, by at most forty pixels. *)
Theorem cache_bounded (sizes : list (Z * Z)) :
  let run := foldl (λ c s, (backdrop s.1 s.2 c).1) in
  NoDup (run [] sizes) ∧ (length (run [] sizes) ≤ 7)%nat ∧
  ∀ w h, (40 ≤ w)%Z → (40 ≤ h)%Z →
    ∃ iw ih, (backdrop w h (run [] sizes)).2 = Some (iw, ih) ∧
             (w < iw ≤ w + QUANTUM)%Z ∧ (h < ih ≤ h + QUANTUM)%Z.
Proof.
  cbv zeta.
  assert (∀ c, NoDup c ∧ (length c ≤ 7)%nat →
    NoDup (foldl (λ c s, (backdrop s.1 s.2 c).1) c sizes) ∧
    (length (foldl (λ c s, (backdrop s.1 s.2 c).1) c sizes) ≤ 7)%nat) as Hgen.
  { induction sizes as [|[w h] sizes IH]; intros c Hc; [done|]. apply IH.
    cbn [fst snd]. unfold backdrop. destruct (_ || _); [done|]. destruct Hc as [Hn Hl].
    case_decide as Hin; [done|]. case_decide as H6; cbn [fst].
    - split; [apply NoDup_singleton|cbn; lia].
    - split; [|rewrite length_app; cbn; lia]. apply NoDup_app. split_and!; [done| |apply NoDup_singleton].
      intros x Hx ->%list_elem_of_singleton. done. }
  destruct (Hgen []) as [Hn Hl]; [split; [constructor|cbn; lia]|]. split_and!; [done..|].
  intros w h Hw Hh. exists (quantised w), (quantised h).
  split; [|split; apply quantised_covers; lia].
  unfold backdrop. rewrite (proj2 (Z.ltb_ge w 40)), (proj2 (Z.ltb_ge h 40)) by done.
  cbn [orb]. by case_decide.
Qed.

(** ** Every channel of every pixel is a byte *)

Section Range.
Local Open Scope Q_scope.

Lemma mapR_Ok {A B} (f : A → res B) (P : B → Prop) l :
  (∀ x, x ∈ l → ∃ y, f x = Ok y ∧ P y) →
  ∃ l', mapR f l = Ok l' ∧ length l' = length l ∧ Forall P l'.
Proof.
  induction l as [|x l IH]; intros Hf; [by exists []|]. cbn [mapR].
  destruct (Hf x) as (y & -> & Hy); [by left|].
  destruct IH as (l' & -> & Hl & HP); [intros z Hz; apply Hf; by right|].
  exists (y :: l'). cbn. split_and!; [done|by f_equal|by constructor].
Qed.

Lemma imapR_Ok {A} (f : Z → A → res A) (P Q : A → Prop) row :
  Forall P row → (∀ x p, P p → ∃ q, f x p = Ok q ∧ Q q) →
  ∃ row', imapR f row = Ok row' ∧ length row' = length row ∧ Forall Q row'.
Proof.
  intros Hrow Hf. unfold imapR.
  destruct (mapR_Ok (λ ix : nat * A, f (Z.of_nat ix.1) ix.2) Q (zip (seq 0 (length row)) row))
    as (row' & -> & Hl & HQ); [|exists row'; split_and!; [done| |done]].
  - intros [i p] Hip%elem_of_zip_r. apply Hf. rewrite Forall_forall in Hrow. by apply Hrow.
  - rewrite Hl, length_zip, length_seq. lia.
Qed.

(** A channel between two bounds, and a pixel all of whose channels are. *)
Definition within (lo v : Z) : Prop := (lo ≤ v ≤ 255)%Z.
Definition pixel_in (lo : Z) (p : pixel) : Prop := within lo p.1.1 ∧ within lo p.1.2 ∧ within lo p.2.

Lemma trunc_range (lo hi : Z) (q : Q) :
  (0 ≤ lo)%Z → inject_Z lo <= q → q <= inject_Z hi → (lo ≤ py_trunc q ≤ hi)%Z.
Proof.
  intros Hlo Hq Hhi. unfold py_trunc.
  assert (Qle_bool 0 q = true) as ->.
  { apply Qle_bool_iff. eapply Qle_trans; [|exact Hq]. by rewrite (Zle_Qle 0) in Hlo. }
  split.
  - rewrite <-(Qfloor_Z lo). by apply Qfloor_resp_le.
  - rewrite <-(Qfloor_Z hi). by apply Qfloor_resp_le.
Qed.

Lemma mix_range a lo colour v :
  0 <= a → a <= 3 # 10 → (0 ≤ lo)%Z → within 0 colour → within lo v →
  within (7 * lo / 10) (mix a colour v).
Proof.
  intros H0 H3 Hlo [Hc0 Hc1] [Hv0 Hv1]. unfold within, mix.
  apply trunc_range; [apply Z.div_pos; lia|..].
  - apply (Qle_trans _ ((7 # 10) * inject_Z lo)).
    { unfold Qle. cbn. pose proof (Z.mul_div_le (7 * lo) 10 ltac:(lia)). lia. }
    rewrite Zle_Qle in Hv0, Hc0, Hlo. unfold Z.sub. rewrite inject_Z_plus, inject_Z_opp.
    change (inject_Z 0) with 0 in *. revert Hv0 Hc0 Hlo. generalize (inject_Z v) (inject_Z colour) (inject_Z lo).
    intros qv qc ql ? ? ?. nra.
  - rewrite Zle_Qle in Hv1, Hc1. unfold Z.sub. rewrite inject_Z_plus, inject_Z_opp.
    revert Hv1 Hc1. change (inject_Z 255) with (255 # 1).
    generalize (inject_Z v) (inject_Z colour). intros qv qc ? ?. nra.
Qed.

Lemma mix_pixel_range a lo colour p :
  0 <= a → a <= 3 # 10 → (0 ≤ lo)%Z → pixel_in 0 colour → pixel_in lo p →
  pixel_in (7 * lo / 10) (mix_pixel a colour p).
Proof.
  destruct colour as [[cr cg] cb], p as [[r g] b]. intros H0 H3 Hlo (? & ? & ?) (? & ? & ?).
  cbn in *. unfold pixel_in. cbn. split_and!; by apply mix_range.
Qed.

(** The approximate root is between zero and the root. *)
Lemma q_sqrt_le x r : 0 <= x → 0 < r → x < r * r → 0 <= q_sqrt x / r ∧ q_sqrt x / r <= 1.
Proof.
  intros Hx Hr Hxr.
  assert (0 <= q_sqrt x) as H0.
  { unfold Qle, q_sqrt. cbn [Qnum Qden]. pose proof (Z.sqrt_nonneg (Qnum x * 4 ^ 52 / Zpos (Qden x))). lia. }
  assert (q_sqrt x * q_sqrt x <= x) as Hs.
  { destruct x as [n d]. unfold Qle in Hx. cbn in Hx.
    unfold Qle, Qmult, q_sqrt. cbn [Qnum Qden].
    set (k := (n * 4 ^ 52 / Zpos d)%Z).
    assert (0 ≤ k)%Z as Hk by (apply Z.div_pos; lia).
    pose proof (proj1 (Z.sqrt_spec k Hk)) as Hsq.
    pose proof (Z.mul_div_le (n * 4 ^ 52) (Zpos d) ltac:(lia)) as Hd. fold k in Hd.
    change (Zpos (Pos.pow 2 52 * Pos.pow 2 52)) with (4 ^ 52)%Z. nia. }
  assert (q_sqrt x <= r) as Hle.
  { apply Qnot_lt_le. intros Hlt. revert Hs Hxr Hlt Hr. generalize (q_sqrt x). intros q ? ? ? ?. nra. }
  split; [apply Qle_shift_div_l; [done|lra]|apply Qle_shift_div_r; [done|lra]].
Qed.

Lemma falloff_range d2 r : 0 <= d2 → 0 < r → d2 < r * r →
  0 <= falloff d2 r ∧ falloff d2 r <= 3 # 10.
Proof.
  intros Hd Hr Hlt. destruct (q_sqrt_le d2 r Hd Hr Hlt) as [H0 H1'].
  unfold falloff, STRENGTH. revert H0 H1'. generalize (q_sqrt d2 / r). intros q ? ?. split; nra.
Qed.

Lemma put_byte_Ok v : (0 ≤ v ≤ 255)%Z → put_byte v = Ok v.
Proof.
  intros Hv. unfold put_byte. rewrite (proj2 (Z.leb_le 0 v)), (proj2 (Z.leb_le v 255)) by lia. done.
Qed.

Lemma put_pixel_Ok lo p : (0 ≤ lo)%Z → pixel_in lo p → put_pixel p = Ok p.
Proof.
  destruct p as [[r g] b]. intros Hlo ([] & [] & []). cbn in *.
  unfold put_pixel. rewrite !put_byte_Ok by lia. done.
Qed.

(** A blob whose colour is a colour. *)
Definition spot_ok (s : spot) : Prop := 0 < sp_radius s ∧ pixel_in 0 (sp_colour s).

Lemma patch_range width y s lo row :
  (0 ≤ lo)%Z → spot_ok s → Forall (pixel_in lo) row →
  ∃ row', patch width y s row = Ok row' ∧ length row' = length row ∧
          Forall (pixel_in (7 * lo / 10)) row'.
Proof.
  intros Hlo [Hr Hc] Hrow.
  assert (7 * lo / 10 ≤ lo)%Z as Hle by (apply Z.div_le_upper_bound; lia).
  assert (∀ p, pixel_in lo p → pixel_in (7 * lo / 10) p) as Hweak.
  { intros [[a b] c] ([] & [] & []). cbn in *. unfold pixel_in, within. cbn. lia. }
  unfold patch. destruct (negb _).
  { exists row. split_and!; [done..|]. eapply Forall_impl; eauto. }
  apply (imapR_Ok _ (pixel_in lo)); [done|]. intros x p Hp.
  set (d2 := (inject_Z x - sp_cx s) * (inject_Z x - sp_cx s)
             + (inject_Z y - sp_cy s) * (inject_Z y - sp_cy s)).
  destruct (_ && negb (Qle_bool (sp_radius s * sp_radius s) d2)) eqn:E; [|eauto].
  apply andb_true_iff in E as [_ E]. apply negb_true_iff in E.
  assert (d2 < sp_radius s * sp_radius s) as Hd.
  { apply Qnot_le_lt. intros Hd. apply Qle_bool_iff in Hd. congruence. }
  assert (0 <= d2) as Hd0.
  { unfold d2. generalize (inject_Z x - sp_cx s) (inject_Z y - sp_cy s). intros a b. nra. }
  destruct (falloff_range d2 _ Hd0 Hr Hd) as [Ha0 Ha3].
  pose proof (mix_pixel_range _ _ _ _ Ha0 Ha3 Hlo Hc Hp) as Hm.
  eexists. split; [apply (put_pixel_Ok (7 * lo / 10)); [apply Z.div_pos; lia|done]|done].
Qed.

Lemma darken_range k v lo : (14 ≤ lo)%Z → (0 ≤ k ≤ 14)%Z → within lo v → within 0 (darken k v).
Proof.
  intros Hlo Hk [Hv0 Hv1]. unfold within, darken, DOT_STRENGTH. apply trunc_range; [lia|..].
  all: destruct Hk as [Hk0 Hk1]; rewrite Zle_Qle in Hk0, Hk1;
    assert (inject_Z 14 <= inject_Z v) as Hv by (rewrite <-Zle_Qle; lia);
    rewrite Zle_Qle in Hv1; change (inject_Z 0) with (0 # 1) in *; change (inject_Z 14) with (14 # 1) in *;
    change (inject_Z 255) with (255 # 1) in *; lra.
Qed.

Lemma dots_range y lo row :
  (14 ≤ lo)%Z → Forall (pixel_in lo) row →
  ∃ row', dots y row = Ok row' ∧ length row' = length row ∧ Forall (pixel_in 0) row'.
Proof.
  intros Hlo Hrow. assert (∀ p, pixel_in lo p → pixel_in 0 p) as Hweak.
  { intros [[a b] c] ([] & [] & []). cbn in *. unfold pixel_in, within. cbn. lia. }
  unfold dots. destruct (_ =? _)%Z.
  2: { exists row. split_and!; [done..|]. eapply Forall_impl; eauto. }
  apply (imapR_Ok _ (pixel_in lo)); [done|]. intros x [[r g] b] Hp. destruct (_ =? _)%Z; [|eauto].
  assert (pixel_in 0 (darken 8 r, darken 10 g, darken 14 b)) as Hd.
  { destruct Hp as (? & ? & ?). unfold pixel_in. cbn.
    split_and!; (eapply darken_range; [exact Hlo|lia|done]). }
  eexists. split; [by apply (put_pixel_Ok 0)|done].
Qed.

Lemma gradient_range top bottom y height lo :
  (0 ≤ lo)%Z → within lo top → within lo bottom → (0 ≤ y < height)%Z →
  within lo (py_trunc (gradient top bottom y height)).
Proof.
  intros Hlo [Ht0 Ht1] [Hb0 Hb1] Hy. unfold gradient.
  assert (0 <= inject_Z y / inject_Z (Z.max 1 (height - 1)) ∧
          inject_Z y / inject_Z (Z.max 1 (height - 1)) <= 1) as [Hf0 Hf1].
  { assert (0 < inject_Z (Z.max 1 (height - 1))) by (rewrite <-(Zlt_Qlt 0); lia).
    split; [apply Qle_shift_div_l|apply Qle_shift_div_r]; try done.
    - rewrite Qmult_0_l. rewrite <-(Zle_Qle 0). lia.
    - rewrite Qmult_1_l, <-Zle_Qle. lia. }
  revert Hf0 Hf1. generalize (inject_Z y / inject_Z (Z.max 1 (height - 1))). intros f Hf0 Hf1.
  unfold within. apply trunc_range; [done|..];
    rewrite Zle_Qle in Ht0, Ht1, Hb0, Hb1; unfold Z.sub; rewrite inject_Z_plus, inject_Z_opp;
    revert Ht0 Ht1 Hb0 Hb1; generalize (inject_Z top) (inject_Z bottom) (inject_Z lo) (inject_Z 255);
    intros t b l h ? ? ? ?; nra.
Qed.
End Range.

Section Whole.
Local Open Scope Q_scope.

Lemma patch_all_range width y spots lo row :
  (0 ≤ lo)%Z → (length spots ≤ 3)%nat → Forall spot_ok spots → Forall (pixel_in lo) row →
  ∃ row', patch_all width y spots row = Ok row' ∧ length row' = length row ∧
          Forall (pixel_in (7 * (7 * (7 * lo / 10) / 10) / 10)) row'.
Proof.
  intros Hlo Hn Hs Hrow.
  assert (∀ spots lo row, (0 ≤ lo)%Z → Forall spot_ok spots → Forall (pixel_in lo) row →
    ∃ row', patch_all width y spots row = Ok row' ∧ length row' = length row ∧
      Forall (pixel_in (Nat.iter (length spots) (λ l, 7 * l / 10)%Z lo)) row') as Hgen.
  { clear. induction spots as [|s spots IH]; intros lo row Hlo Hs Hrow; [by exists row|].
    apply Forall_cons in Hs as [Hs1 Hs]. cbn [patch_all].
    destruct (patch_range width y s lo row Hlo Hs1 Hrow) as (row1 & -> & Hl1 & Hp1).
    destruct (IH (7 * lo / 10)%Z row1) as (row2 & E & Hl2 & Hp2); [apply Z.div_pos; lia|done|done|].
    exists row2. cbn [mbind res_bind]. split_and!; [done|congruence|].
    cbn [length]. by rewrite Nat.iter_succ_r. }
  destruct (Hgen spots lo row Hlo Hs Hrow) as (row' & E & Hl & Hp).
  exists row'. split_and!; [done..|]. eapply Forall_impl; [exact Hp|].
  assert (∀ l, 0 ≤ l → 0 ≤ 7 * l / 10 ≤ l)%Z as Hdec.
  { intros l Hl0. split; [apply Z.div_pos; lia|apply Z.div_le_upper_bound; lia]. }
  pose proof (Hdec lo Hlo). pose proof (Hdec (7 * lo / 10)%Z ltac:(lia)).
  pose proof (Hdec (7 * (7 * lo / 10) / 10)%Z ltac:(lia)).
  intros [[r g] b] ([] & [] & []). unfold pixel_in, within. cbn [fst snd] in *.
  destruct spots as [|? [|? [|? [|]]]]; cbn in *; lia.
Qed.

Lemma render_row_range width height spots y :
  (length spots ≤ 3)%nat → Forall spot_ok spots → (0 ≤ y < height)%Z →
  ∃ row, render_row width height (255, 252, 245)%Z (255, 247, 230)%Z spots y = Ok row ∧
         length row = Z.to_nat width ∧ Forall (pixel_in 0) row.
Proof.
  intros Hn Hs Hy. unfold render_row.
  set (base := base_pixel _ _ _ _).
  assert (pixel_in 230 base) as Hbase.
  { unfold base, base_pixel, pixel_in. cbn [fst snd].
    split_and!; apply gradient_range; (done || unfold within; lia). }
  rewrite (put_pixel_Ok 230 base) by done. cbn [mbind res_bind].
  destruct (patch_all_range width y spots 230 (replicate (Z.to_nat width) base))
    as (row & -> & Hl & Hp); [done..|by apply Forall_replicate|]. cbn [mbind res_bind].
  destruct (dots_range y _ row (ltac:(done) : (14 ≤ 7 * (7 * (7 * 230 / 10) / 10) / 10)%Z) Hp)
    as (row' & -> & Hl' & Hp').
  exists row'. split_and!; [done| |done]. by rewrite Hl', Hl, length_replicate.
Qed.

Lemma blobs_ok width height :
  (0 < width)%Z → (0 < height)%Z →
  ∃ spots, _blobs width height = Ok spots ∧ length spots = 3%nat ∧ Forall spot_ok spots.
Proof.
  intros Hw Hh. eexists. split; [reflexivity|]. split; [reflexivity|].
  assert (0 < inject_Z (Z.max width height)) as Hm by (rewrite <-(Zlt_Qlt 0); lia).
  revert Hm. generalize (inject_Z (Z.max width height)). intros m Hm.
  repeat apply Forall_cons_2; [..|constructor]; (split; [cbn [sp_radius]; lra|]);
    unfold pixel_in, within; cbn; lia.
Qed.

Lemma pixel_bytes_ok p : pixel_in 0 p →
  length (pixel_bytes p) = 3%nat ∧ Forall (λ c, c < 256)%N (pixel_bytes p).
Proof.
  destruct p as [[r g] b]. intros ([] & [] & []). cbn in *. split; [done|].
  repeat apply Forall_cons_2; [lia..|constructor].
Qed.

Lemma row_bytes_ok row : Forall (pixel_in 0) row →
  length (concat (pixel_bytes <$> row)) = (3 * length row)%nat ∧
  Forall (λ c, c < 256)%N (concat (pixel_bytes <$> row)).
Proof.
  induction 1 as [|p row Hp _ [IHl IHf]]; [by split|]. rewrite fmap_cons. cbn [concat].
  destruct (pixel_bytes_ok p Hp) as [Hl Hf]. rewrite length_app, Hl, IHl. cbn [length].
  split; [lia|by apply Forall_app].
Qed.

(** C30. The background can always be drawn: for a pane of any size no channel of
    any pixel ever leaves the range of a byte (the [bytearray] would raise), and
    what Tk is given is the header of a picture of that size with three bytes
    for every pixel. *)
Theorem render_is_a_picture (width height : Z) (Hw : (0 < width)%Z) (Hh : (0 < height)%Z) :
  ∃ body,
    _render width height =
      Ok ((&"P6") ++ [10%N] ++ dec_of_Z width ++ (&" ") ++ dec_of_Z height ++ [10%N]
          ++ (&"255") ++ [10%N] ++ body) ∧
    length body = Z.to_nat (3 * width * height) ∧ Forall (λ c, c < 256)%N body.
Proof.
  destruct (blobs_ok width height Hw Hh) as (spots & Es & Hn & Hs).
  unfold _render. change (_rgb PAGE) with (Ok (255, 252, 245)%Z). 
  change (_rgb CREAM) with (Ok (255, 247, 230)%Z). cbn [mbind res_bind]. rewrite Es.
  cbn [mbind res_bind].
  destruct (mapR_Ok (λ y, render_row width height (255, 252, 245)%Z (255, 247, 230)%Z
      (prepare width spots) (Z.of_nat y))
    (λ row, length row = Z.to_nat width ∧ Forall (pixel_in 0) row)
    (seq 0 (Z.to_nat height))) as (rows & -> & Hl & Hrows).
  { intros y [_ Hy]%elem_of_seq. unfold prepare.
    destruct (render_row_range width height (prepare width spots) (Z.of_nat y))
      as (row & E & ? & ?); [| |lia|by exists row].
    - rewrite <-Hn. apply length_filter.
    - apply Forall_forall. intros s [_ Hin]%list_elem_of_filter.
      rewrite Forall_forall in Hs. by apply Hs. }
  cbn [mbind res_bind]. eexists. split; [reflexivity|].
  assert (length (concat ((λ row, concat (pixel_bytes <$> row)) <$> rows))
            = (length rows * (3 * Z.to_nat width))%nat ∧
          Forall (λ c, c < 256)%N (concat ((λ row, concat (pixel_bytes <$> row)) <$> rows)))
    as [Hlen Hf].
  { clear Hl. induction Hrows as [|row rows [Hr Hp] _ [IHl IHf]]; [by split|].
    rewrite fmap_cons. cbn [concat length]. destruct (row_bytes_ok row Hp) as [Hrl Hrf].
    rewrite length_app, Hrl, IHl, Hr. split; [lia|by apply Forall_app]. }
  split; [|done]. rewrite Hlen, Hl, length_seq. rewrite !Z2Nat.inj_mul by lia.
  change (Z.to_nat 3) with 3%nat. lia.
Qed.
End Whole.

(** A small picture. *)
Lemma render_is_a_picture_witness :
  ∃ body, _render 2 1 = Ok ((&"P6
2 1
255
") ++ body) ∧ length body = 6%nat.
Proof.
  destruct (render_is_a_picture 2 1) as (body & E & Hl & _); [reflexivity..|].
  exists body. split; [exact E|exact Hl].
Defined.
