(* ===== verification/Widgets.v ===== *)
(** * Widgets

    [im/client/view/tk/widgets.py].  A widget is a canvas and the values it paints;
    [_draw] starts by deleting everything, so what is on the canvas is a function
    of the values and of the size.  Callbacks are the business of whoever made the
    widget: a click says whether the command runs.  How large a text comes out is
    the display's to say ([Metrics]). *)

From S2P Require Import Prelude PyStr PyDict Json Conversation Calendar Theme Backdrop.
From Stdlib Require Import QArith Qround.

(** Tk's [bbox] of a text at the origin: its right and bottom edge, when it is
    wrapped at a width, or at none; and the text Tk makes of an option that is not
    a string. *)
Class Metrics := {
  mt_extent : pystr → font_t → option Z → Z * Z;
  mt_other : json → pystr;
}.

Definition shown `{Metrics} (body : json) : pystr :=
  match body with JStr s => s | _ => mt_other body end.

(** A text has an extent, and a wrapped one keeps to the width. *)
Class MetricsLaws `{Metrics} := {
  law_extent t f w : (0 ≤ (mt_extent t f w).1)%Z ∧ (0 ≤ (mt_extent t f w).2)%Z;
  law_wrapped t f w : (0 ≤ w)%Z → ((mt_extent t f (Some w)).1 ≤ w)%Z;
}.

(** Half of a number of pixels. *)
Definition half (z : Z) : Q := inject_Z z / 2.

Abbreviation q := inject_Z.

(** ** PillButton *)

Module PillButton.
Section PillButton.
Context `{Display}.

Record t := mk {
  text : pystr;
  fill : pystr;
  text_colour : pystr;
  radius : Z;
  font : font_t;
  enabled : bool;
  cv : canvas;
}.

Definition set_cv x (b : t) : t := mk (text b) (fill b) (text_colour b) (radius b) (font b) (enabled b) x.

(** [PillButton(master, text, command, height=.., radius=.., font=..)], before it
    is laid out. *)
Definition new (text : pystr) (height radius : Z) (font : font_t) : t :=
  mk text ORANGE WHITE radius font true (new_canvas height).

Definition paint (b : t) : Draw unit :=
  delete_all;;
  c ← get;
  let w := cv_width c in
  let h := cv_height c in
  if (w <? 2)%Z then mret tt
  else
    let fill := if enabled b then fill b else OFFLINE in
    rounded_rect 1 1 (q (w - 1)) (q (h - 1)) (q (radius b)) fill;;
    create (Text (half w) (half h) (text b) (&"center") (text_colour b) (font b)).

Definition _draw : M t unit := λ b, let '(c, r) := paint b (cv b) in (set_cv c b, r).

(** Whether the command is called. *)
Definition _click (b : t) : bool := enabled b.

Definition set_enabled (on : bool) : M t unit :=
  modify (λ b, mk (text b) (fill b) (text_colour b) (radius b) (font b) on (cv b));;
  _draw.
End PillButton.
End PillButton.

(** ** NavItem *)

Module NavItem.
Section NavItem.
Context `{Display}.

Record t := mk {
  icon : pystr;
  label : pystr;
  selected : bool;
  badge : nat;
  cv : canvas;
}.

Definition HEIGHT : Z := pxz 42.

Definition new (icon label : pystr) : t := mk icon label false 0 (new_canvas HEIGHT).

Definition set_cv x (n : t) : t := mk (icon n) (label n) (selected n) (badge n) x.

Definition paint (n : t) (hover : bool) : Draw unit :=
  delete_all;;
  c ← get;
  let w := cv_width c in
  let h := cv_height c in
  if (w <? 2)%Z then mret tt
  else
    (if selected n then rounded_rect 4 3 (q (w - 4)) (q (h - 3)) 10 SELECTED
     else if hover then rounded_rect 4 3 (q (w - 4)) (q (h - 3)) 10 HOVER
     else mret tt);;
    let colour := if selected n then ORANGE_DEEP else BROWN in
    create (Text 24 (half h) (icon n) (&"center") colour (mkFont FONT 13 false));;
    create (Text 46 (half h) (label n) (&"w") colour (if selected n then BODY_BOLD else BODY));;
    if decide (badge n = 0)%nat then mret tt
    else
      circle (q (w - 24)) (half h) 9 ORANGE;;
      create (Text (q (w - 24)) (half h) (dec_of_N (N.of_nat (badge n))) (&"center") WHITE BADGE).

Definition _draw (hover : bool) : M t unit := λ n,
  let '(c, r) := paint n hover (cv n) in (set_cv c n, r).

Definition set_selected (on : bool) : M t unit :=
  modify (λ n, mk (icon n) (label n) on (badge n) (cv n));; _draw false.

Definition set_badge (count : nat) : M t unit :=
  modify (λ n, mk (icon n) (label n) (selected n) count (cv n));; _draw false.
End NavItem.
End NavItem.

(** ** ConversationRow *)

Module ConversationRow.
Section ConversationRow.
Context `{Display} `{Casing}.

Record t := mk {
  key : pystr;
  preview : pystr;
  time : pystr;
  unread : nat;
  status : option pystr;
  selected : bool;
  cv : canvas;
}.

Definition HEIGHT : Z := pxz 66.

Definition new (key : pystr) : t := mk key [] [] 0 None false (new_canvas HEIGHT).

Definition set_cv x (r : t) : t :=
  mk (key r) (preview r) (time r) (unread r) (status r) (selected r) x.

(** How many characters of the preview there is room for. *)
Definition room (w : Z) : Z := Z.max 6 (py_trunc (q (w - pxz 130) / q (px (64 # 10)))).

Definition shortened (w : Z) (preview : pystr) : pystr :=
  if (room w <? Z.of_nat (length preview))%Z
  then take (Z.to_nat (room w - 1)) preview ++ [8230%N]    (* an ellipsis *)
  else preview.

Definition badge_label (unread : nat) : pystr :=
  if decide (99 < unread)%nat then &"99+" else dec_of_N (N.of_nat unread).

Definition paint (r : t) (hover : bool) : Draw unit :=
  delete_all;;
  c ← get;
  let w := cv_width c in
  let h := cv_height c in
  if (w <? 2)%Z then mret tt
  else
    let pad := pxz 5 in
    (if selected r then
       rounded_rect (q pad) (q (pxz 3)) (q (w - pad)) (q (h - pxz 3)) (q (pxz 12)) SELECTED;;
       rounded_rect (q pad) (q (pxz 12)) (q (pad + pxz 4)) (q (h - pxz 12)) (q (pxz 2)) ORANGE_DEEP
     else if hover then
       rounded_rect (q pad) (q (pxz 3)) (q (w - pad)) (q (h - pxz 3)) (q (pxz 12)) HOVER
     else mret tt);;
    draw_avatar (q (pxz 32)) (half h) (key r) (q (pxz 19)) (status r);;
    let left := pxz 60 in
    create (Text (q left) (q (pxz 24)) (key r) (&"w") BROWN BODY_BOLD);;
    create (Text (q left) (q (pxz 44)) (shortened w (preview r)) (&"w") MUTED SMALL);;
    (if decide (time r = []) then mret tt
     else create (Text (q (w - pxz 16)) (q (pxz 22)) (time r) (&"e") MUTED TINY));;
    if decide (unread r = 0)%nat then mret tt
    else
      let label := badge_label (unread r) in
      let half := (pxz 9 + pxz 4 * (Z.of_nat (length label) - 1))%Z in
      let cx := (w - pxz 26)%Z in
      let cy := pxz 45 in
      rounded_rect (q (cx - half)) (q (cy - pxz 9)) (q (cx + half)) (q (cy + pxz 9)) (q (pxz 9)) ORANGE;;
      create (Text (q cx) (q cy) label (&"center") WHITE BADGE).

Definition _draw (hover : bool) : M t unit := λ r,
  let '(c, e) := paint r hover (cv r) in (set_cv c r, e).

Definition update_row (preview time_text : pystr) (unread : nat) (status : option pystr) : M t unit :=
  modify (λ r, mk (key r) preview time_text unread status (selected r) (cv r));;
  _draw false.

Definition set_selected (on : bool) : M t unit :=
  modify (λ r, mk (key r) (preview r) (time r) (unread r) (status r) on (cv r));;
  _draw false.
End ConversationRow.
End ConversationRow.

(** ** Transcript *)

Module Transcript.
Section Transcript.
Context `{Display} `{Casing} `{Clock} `{Metrics}.

Definition PAD_X : Z := pxz 18.
Definition GAP : Z := pxz 10.
Definition AVATAR : Z := pxz 13.
Definition TAIL : Z := pxz 7.

Record t := mk {
  messages : list Message;
  empty_text : pystr;
  notices : list pystr;
  image : option (Z * Z);        (* self._backdrop *)
  resize_after : bool;           (* a timer is pending *)
  scrollregion : Z * Z;
  known : cache;                 (* the cache of backdrop.py *)
  cv : canvas;
}.

Definition new : t := mk [] [] [] None false (0, 0)%Z [] (new_canvas 1).

Definition set_cv x (s : t) : t :=
  mk (messages s) (empty_text s) (notices s) (image s) (resize_after s) (scrollregion s) (known s) x.
Definition set_image x k (s : t) : t :=
  mk (messages s) (empty_text s) (notices s) x (resize_after s) (scrollregion s) k (cv s).
Definition set_resize_after x (s : t) : t :=
  mk (messages s) (empty_text s) (notices s) (image s) x (scrollregion s) (known s) (cv s).
Definition set_scrollregion x (s : t) : t :=
  mk (messages s) (empty_text s) (notices s) (image s) (resize_after s) x (known s) (cv s).

(** Drawing on the transcript's canvas. *)
Definition on_cv {A} (m : Draw A) : M t A := λ s, let '(c, r) := m (cv s) in (set_cv c s, r).

(** [self._backdrop = backdrop(width, height)]. *)
Definition take_backdrop (width height : Z) : M t unit :=
  modify (λ s, let '(k, x) := backdrop width height (known s) in set_image x k s).

Definition _draw_backdrop (width : Z) : M t unit :=
  s ← get;
  (if decide (image s = None) then take_backdrop width (cv_height (cv s)) else mret tt);;
  s ← get;
  match image s with
  | Some (w, h) => on_cv (create (Image 0 0 w h))
  | None => mret tt
  end.

(** Today, Yesterday, or the date; blank for a message with no time. *)
Definition _day (ts : Z) : res pystr :=
  if (ts =? 0)%Z then Ok []
  else
    s ← fromtimestamp ts;
    let when := (s / 86400)%Z in
    if (when =? ck_today)%Z then Ok (&"Today")
    else if (ck_today - when =? 1)%Z then Ok (&"Yesterday")
    else Ok (long_date when).

Definition _clock (ts : Z) : res pystr :=
  if (ts =? 0)%Z then Ok [] else s ← fromtimestamp ts; Ok (hour_minute s).

Definition _draw_day (day : pystr) (y width : Z) : Draw Z :=
  let centre := q (y + pxz 12) in
  create (Text (half width) centre day (&"c") MUTED TINY);;
  let tw := (mt_extent day TINY None).1 in
  let x1 := (half width - half tw)%Q in
  let x2 := (half width + half tw)%Q in
  let rule := q (pxz 40) in
  let pad := q (pxz 14) in
  create (Line (x1 - pad - rule) centre (x1 - pad) centre HAIRLINE);;
  create (Line (x2 + pad) centre (x2 + pad + rule) centre HAIRLINE);;
  mret (y + pxz 34)%Z.

Definition _draw_tail (left right bottom : Z) (fill : pystr) (mine : bool) : Draw unit :=
  let tail := TAIL in
  create (Polygon
    (if mine then [(q (right - tail * 2), q (bottom - tail)); (q (right + tail), q bottom);
                   (q (right - tail), q bottom)]
     else [(q (left + tail * 2), q (bottom - tail)); (q (left - tail), q bottom);
           (q (left + tail), q bottom)]) fill).

(** One tick sent, two delivered, two read; nothing for any other state. *)
Definition tick_of (message : Message) : pystr :=
  if m_mine message then
    default [] (dict_get [(&"SENT", [10003%N]); (&"DELIVERED", [10003%N; 10003%N]);
                          (&"READ", [10003%N; 10003%N])] (m_state message))
  else [].

Definition meta_of (stamp tick : pystr) : pystr := strip (stamp ++ &"  " ++ tick).

(** The size of a bubble: of its text, wrapped, and of the line under it. *)
Definition bubble_size (body meta : pystr) (max_bubble : Z) : Z * Z :=
  let '(text_w, text_h) := mt_extent body BODY (Some (max_bubble - pxz 28)%Z) in
  let meta_w := if decide (meta = []) then 0%Z else ((mt_extent meta TINY None).1 + pxz 10)%Z in
  (Z.max (text_w + pxz 28) (meta_w + pxz 24),
   (text_h + pxz 20 + if decide (meta = []) then 0 else pxz 12)%Z).

Definition _draw_bubble (message : Message) (y width max_bubble : Z) : Draw Z :=
  let mine := m_mine message in
  let fill := if mine then ORANGE else WHITE in
  let ink := if mine then WHITE else BROWN in
  stamp ← lift_res (_clock (m_ts message));
  let meta := meta_of stamp (tick_of message) in
  let body := shown (m_body message) in
  let '(bubble_w, bubble_h) := bubble_size body meta max_bubble in
  let left := if mine then (width - PAD_X - bubble_w)%Z else (PAD_X + pxz 34)%Z in
  let right := if mine then (width - PAD_X)%Z else (PAD_X + pxz 34 + bubble_w)%Z in
  (if mine then mret tt
   else draw_avatar (q (PAD_X + pxz 14)) (q (y + bubble_h - AVATAR)) (m_sender message)
          (q AVATAR) None);;
  rounded_rect (q left) (q y) (q right) (q (y + bubble_h)) (q (pxz 14)) fill;;
  _draw_tail left right (y + bubble_h) fill mine;;
  create (Text (q (left + pxz 14)) (q (y + pxz 10)) body (&"nw") ink BODY);;
  (if decide (meta = []) then mret tt
   else create (Text (q (right - pxz 12)) (q (y + bubble_h - pxz 7)) meta (&"se")
                  (if mine then WHITE else MUTED) TINY));;
  mret (y + bubble_h + GAP + pxz 6)%Z.

(** The loop over the messages. *)
Fixpoint draw_messages (l : list Message) (y : Z) (last_day : pystr) (width max_bubble : Z)
    : Draw Z :=
  match l with
  | [] => mret y
  | message :: l' =>
    day ← lift_res (_day (m_ts message));
    if decide (day ≠ [] ∧ day ≠ last_day) then
      y ← _draw_day day y width;
      y ← _draw_bubble message y width max_bubble;
      draw_messages l' y day width max_bubble
    else
      y ← _draw_bubble message y width max_bubble;
      draw_messages l' y last_day width max_bubble
  end.

(** The loop over the notices. *)
Fixpoint draw_notices (l : list pystr) (y width : Z) : Draw Z :=
  match l with
  | [] => mret y
  | text :: l' =>
    create (Text (half width) (q (y + pxz 10)) text (&"n") MUTED TINY);;
    draw_notices l' (y + pxz 28)%Z width
  end.

(** The scene around [(cx, cy)]: discs, a speech bubble and a paper plane. *)
Definition scene (text : pystr) (cx cy : Q) : Draw unit :=
  let at_ (dx dy : Z) : Q * Q := ((cx + q dx)%Q, (cy + q dy)%Q) in
  circle (cx + q (pxz 16)) (cy + q (pxz 10)) (q (pxz 52)) CREAM;;
  circle cx cy (q (pxz 46)) PEACH;;
  rounded_rect (cx - q (pxz 26)) (cy - q (pxz 18)) (cx + q (pxz 20)) (cy + q (pxz 10))
    (q (pxz 10)) WHITE;;
  create (Polygon [at_ (- pxz 18) (pxz 8); at_ (- pxz 18) (pxz 21); at_ (- pxz 6) (pxz 9)]%Z WHITE);;
  circle (cx - q (pxz 12)) (cy - q (pxz 4)) (q (pxz 3)) ORANGE;;
  circle cx (cy - q (pxz 4)) (q (pxz 3)) ORANGE;;
  circle (cx + q (pxz 12)) (cy - q (pxz 4)) (q (pxz 3)) ORANGE;;
  create (Polygon [at_ (pxz 26) (- pxz 28); at_ (pxz 56) (- pxz 14); at_ (pxz 31) (- pxz 7);
                   at_ (pxz 33) (- pxz 18)]%Z ORANGE_DEEP);;
  create (Text cx (cy + q (pxz 78)) text (&"center") BROWN H2);;
  create (Text cx (cy + q (pxz 104))
            (&"Say something -- it is encrypted before it leaves this machine.")
            (&"center") MUTED SMALL).

Definition _draw_empty (width : Z) : M t unit :=
  s ← get;
  let height := Z.max (cv_height (cv s)) (pxz 200) in
  on_cv (scene (if decide (empty_text s = []) then &"No messages yet" else empty_text s)
           (half width) (half height - q (pxz 30)));;
  modify (set_scrollregion (width, height)).

Definition redraw : M t unit :=
  on_cv delete_all;;
  s ← get;
  let width := cv_width (cv s) in
  if (width <? 40)%Z then mret tt
  else
    _draw_backdrop width;;
    s ← get;
    if decide (messages s = [] ∧ notices s = []) then _draw_empty width
    else
      let max_bubble := Z.max (pxz 160) (py_trunc (q width * (62 # 100))) in
      y ← on_cv (draw_messages (messages s) (pxz 16) [] width max_bubble);
      y ← on_cv (draw_notices (notices s) y width);
      modify (set_scrollregion (width, y + pxz 16)%Z).

Definition show (l : list Message) (empty : pystr) : M t unit :=
  modify (λ s, mk l empty [] (image s) (resize_after s) (scrollregion s) (known s) (cv s));;
  redraw.

Definition notice (text : pystr) : M t unit :=
  modify (λ s, mk (messages s) (empty_text s) (notices s ++ [text]) (image s) (resize_after s)
                 (scrollregion s) (known s) (cv s));;
  redraw.

(** Bound to [<Configure>]: the canvas has a new size.  [after_cancel] and [after]
    leave exactly one timer pending. *)
Definition _on_resize (width height : Z) : M t unit :=
  modify (λ s, set_cv (mkCanvas width height (cv_items (cv s))) s);;
  redraw;;
  modify (set_resize_after true).

(** The timer, 150 milliseconds after the last change of size. *)
Definition _refresh_backdrop : M t unit :=
  modify (set_resize_after false);;
  s ← get;
  take_backdrop (cv_width (cv s)) (cv_height (cv s));;
  redraw.

(** The units by which the mouse wheel scrolls. *)
Definition _scroll (delta : Z) : Z := Z.quot (- delta) 60.

Definition as_text (s : t) : pystr := join [10%N] (texts_of (cv_items (cv s))).
End Transcript.
End Transcript.

(** A display at 96 DPI, and a font in which every character is seven pixels wide,
    on which the examples run. *)
Definition plain_display : Display :=
  {| dp_windows := false; dp_per_monitor := false; dp_aware := false; dp_dpi := None |}.

Definition fixed_font : Metrics := {|
  mt_extent t _ w :=
    let n := (7 * Z.of_nat (length t))%Z in
    match w with
    | None => (n, 16%Z)
    | Some w => (Z.min n (Z.max 0 w), (16 * (1 + n / Z.max 1 w))%Z)
    end;
  mt_other _ := [];
|}.

Lemma fixed_font_laws : @MetricsLaws fixed_font.
Proof.
  split.
  - intros t f [w|]; cbn; [|lia]. split; [lia|].
    assert (0 ≤ 7 * Z.of_nat (length t) / Z.max 1 w)%Z by (apply Z.div_pos; lia). lia.
  - intros t f w Hw. cbn. lia.
Qed.
