(* ===== verification/WidgetsFacts.v ===== *)
(** * What the transcript shows

    The texts on the canvas are the conversation, message by message, and the
    bubbles are laid out one under the other. *)

From S2P Require Import Prelude Wp PyStr PyDict Utf8 Json Conversation Calendar Theme Backdrop Widgets.
From Stdlib Require Import QArith Qround Lqa.
Import Transcript.

(** ** Drawing as appending items *)

Definition paints {A} (m : Draw A) (l : list item) (a : A) : Prop :=
  ∀ c, m c = (set_items (cv_items c ++ l) c, Ok a).

Lemma paints_ret {A} (a : A) : paints (mret a) [] a.
Proof. intros c. rewrite app_nil_r. by destruct c. Qed.

Lemma paints_bind {A B} (m : Draw A) (k : A → Draw B) l1 l2 a b :
  paints m l1 a → paints (k a) l2 b → paints (m ≫= k) (l1 ++ l2) b.
Proof.
  intros Hm Hk c. unfold mbind, M_bind. rewrite Hm, Hk. cbn. by rewrite <-app_assoc.
Qed.

Lemma paints_create i : paints (create i) [i] tt.
Proof. by intros c. Qed.

Lemma paints_res {A} (r : res A) a : r = Ok a → paints (lift_res r) [] a.
Proof. intros -> c. rewrite app_nil_r. by destruct c. Qed.

Lemma paints_get {B} (k : canvas → Draw B) l b :
  (∀ c, paints (k c) l b) → paints (get ≫= k) l b.
Proof. intros Hk c. apply Hk. Qed.

Lemma texts_of_app l1 l2 : texts_of (l1 ++ l2) = texts_of l1 ++ texts_of l2.
Proof. apply omap_app. Qed.

(** The box of a rounded rectangle: left, top, right, bottom. *)
Definition box_of (i : item) : option (Q * Q * Q * Q) :=
  match i with
  | Smooth [_; _; (x2, y1); _; _; (_, y2); _; _; _; _; _; (x1, _)] _ => Some (x1, y1, x2, y2)
  | _ => None
  end.

Definition boxes_of (l : list item) : list (Q * Q * Q * Q) := omap box_of l.

Lemma boxes_of_app l1 l2 : boxes_of (l1 ++ l2) = boxes_of l1 ++ boxes_of l2.
Proof. apply omap_app. Qed.

(** A step of drawing: what it adds to the texts and to the boxes. *)
Definition adds {A} (m : Draw A) (a : A) (ts : list pystr) (bs : list (Q * Q * Q * Q)) : Prop :=
  ∃ l, paints m l a ∧ texts_of l = ts ∧ boxes_of l = bs.

Lemma adds_ret {A} (a : A) : adds (mret a) a [] [].
Proof. exists []. split; [apply paints_ret|done]. Qed.

Lemma adds_create i : adds (create i) tt (texts_of [i]) (boxes_of [i]).
Proof. exists [i]. split; [apply paints_create|done]. Qed.

Lemma adds_res {A} (r : res A) a : r = Ok a → adds (lift_res r) a [] [].
Proof. intros Hr. exists []. split; [by apply paints_res|done]. Qed.

Lemma adds_bind {A B} (m : Draw A) (k : A → Draw B) a b ts1 ts2 bs1 bs2 ts bs :
  adds m a ts1 bs1 → adds (k a) b ts2 bs2 → ts = ts1 ++ ts2 → bs = bs1 ++ bs2 →
  adds (m ≫= k) b ts bs.
Proof.
  intros (l1 & H1 & <- & <-) (l2 & H2 & <- & <-) -> ->. exists (l1 ++ l2).
  split; [by eapply paints_bind|]. by rewrite texts_of_app, boxes_of_app.
Qed.

(** ** What a message shows *)

Section Shows.
Context `{Display} `{Casing} `{Clock} `{Metrics}.

Definition clock_of (ts : Z) : pystr := match _clock ts with Ok s => s | Raise _ => [] end.
Definition day_of (ts : Z) : pystr := match _day ts with Ok s => s | Raise _ => [] end.

(** The line under the text. *)
Definition meta_line (message : Message) : pystr := meta_of (clock_of (m_ts message)) (tick_of message).

Definition bubble_texts (message : Message) : list pystr :=
  (if m_mine message then [] else [initials (m_sender message)]) ++
  shown (m_body message) :: (if decide (meta_line message = []) then [] else [meta_line message]).

(** The texts of a conversation: a divider when the day changes. *)
Fixpoint conversation_texts (l : list Message) (last_day : pystr) : list pystr :=
  match l with
  | [] => []
  | message :: l' =>
    let day := day_of (m_ts message) in
    if decide (day ≠ [] ∧ day ≠ last_day)
    then day :: bubble_texts message ++ conversation_texts l' day
    else bubble_texts message ++ conversation_texts l' last_day
  end.

(** A message that can be drawn: its time is a date, and the name of its sender
    can be encoded. *)
Definition drawable (message : Message) : Prop :=
  (m_ts message = 0%Z ∨ ∃ s, fromtimestamp (m_ts message) = Ok s) ∧
  (m_mine message = false → is_Some (utf8_encode (m_sender message))).

Lemma drawable_times message : drawable message →
  _clock (m_ts message) = Ok (clock_of (m_ts message)) ∧
  _day (m_ts message) = Ok (day_of (m_ts message)).
Proof.
  intros [Ht _]. unfold clock_of, day_of, _clock, _day.
  destruct Ht as [->|[s Hs]]; [done|]. destruct (_ =? 0)%Z; [done|].
  rewrite Hs. cbn [mbind res_bind]. split; [done|]. by repeat case_match.
Qed.

Lemma adds_draw_avatar x y name radius c :
  avatar_colour name = Ok c → adds (draw_avatar x y name radius None) tt [initials name] [].
Proof.
  intros Hc. unfold draw_avatar. eapply adds_bind; [by apply adds_res| |done..].
  eapply adds_bind; [apply adds_create| |done..].
  eapply adds_bind; [apply adds_create|apply adds_ret|done..].
Qed.

Lemma avatar_colour_total name : is_Some (utf8_encode name) → ∃ c, avatar_colour name = Ok c.
Proof. intros [b Hb]. unfold avatar_colour. rewrite Hb. by eexists. Qed.

Lemma adds_draw_day day y width :
  adds (_draw_day day y width) (y + pxz 34)%Z [day] [].
Proof.
  unfold _draw_day. eapply adds_bind; [apply adds_create| |done..].
  eapply adds_bind; [apply adds_create| |done..].
  eapply adds_bind; [apply adds_create|apply adds_ret|done..].
Qed.

Definition size_of (message : Message) (max_bubble : Z) : Z * Z :=
  bubble_size (shown (m_body message)) (meta_line message) max_bubble.

Lemma adds_draw_bubble message y width max_bubble :
  drawable message →
  let '(w, h) := size_of message max_bubble in
  let left := if m_mine message then (width - PAD_X - w)%Z else (PAD_X + pxz 34)%Z in
  let right := if m_mine message then (width - PAD_X)%Z else (PAD_X + pxz 34 + w)%Z in
  adds (_draw_bubble message y width max_bubble) (y + h + GAP + pxz 6)%Z
    (bubble_texts message) [(q left, q y, q right, q (y + h))].
Proof.
  intros Hd. destruct (drawable_times _ Hd) as [Hclock _]. destruct Hd as [_ Hname].
  unfold size_of. destruct (bubble_size _ _ _) as [w h] eqn:Esize. cbv zeta.
  unfold _draw_bubble. rewrite Hclock.
  eapply adds_bind; [by apply adds_res| |done..]. cbv zeta.
  fold (meta_line message). rewrite Esize. cbv zeta.
  eapply (adds_bind _ _ tt _ (if m_mine message then [] else [initials (m_sender message)]) _ []);
    [| |reflexivity|reflexivity].
  { destruct (m_mine message); [apply adds_ret|].
    destruct (avatar_colour_total (m_sender message)) as [c Hc]; [by apply Hname|].
    by eapply adds_draw_avatar. }
  eapply adds_bind; [apply adds_create| |reflexivity|reflexivity].
  eapply adds_bind; [apply adds_create| |reflexivity|reflexivity].
  eapply adds_bind; [apply adds_create| |reflexivity|reflexivity].
  eapply (adds_bind _ _ tt _ (if decide (meta_line message = []) then [] else [meta_line message]) _ []);
    [|apply adds_ret|by rewrite app_nil_r|reflexivity].
  destruct (decide _); [apply adds_ret|apply adds_create].
Qed.

(** Boxes one under the other, from [y] to [y'], at least 16 pixels apart. *)
Fixpoint stacked (y : Z) (bs : list (Q * Q * Q * Q)) (y' : Z) : Prop :=
  match bs with
  | [] => (y ≤ y')%Z
  | (_, top, _, bottom) :: bs' =>
    ∃ t b : Z, top = q t ∧ bottom = q b ∧ (y ≤ t < b)%Z ∧ stacked (b + 16) bs' y'
  end.

Lemma stacked_weaken y1 y2 bs y' : (y1 ≤ y2)%Z → stacked y2 bs y' → stacked y1 bs y'.
Proof.
  intros Hy. destruct bs as [|[[[x1 t] x2] b] bs]; cbn; [lia|].
  intros (t0 & b0 & ? & ? & ? & ?). exists t0, b0. split_and!; try done; lia.
Qed.

Lemma gap_ge : (16 ≤ GAP + pxz 6)%Z.
Proof.
  unfold GAP. pose proof (pxz_ge 10 ltac:(lia)). pose proof (pxz_ge 6 ltac:(lia)). lia.
Qed.

Context `{!MetricsLaws}.

Lemma size_pos message max_bubble : (0 < (size_of message max_bubble).2)%Z.
Proof.
  unfold size_of, bubble_size.
  pose proof (law_extent (shown (m_body message)) BODY (Some (max_bubble - pxz 28)%Z)) as [_ He].
  destruct (mt_extent _ _ _) as [tw th]. cbn [snd] in *.
  pose proof (pxz_ge 20 ltac:(lia)). pose proof (pxz_ge 12 ltac:(lia)).
  destruct (decide (meta_line message = [])); lia.
Qed.

Lemma adds_draw_messages l y last width max_bubble :
  Forall drawable l →
  ∃ y' bs, adds (draw_messages l y last width max_bubble) y' (conversation_texts l last) bs ∧
           stacked y bs y' ∧ length bs = length l.
Proof.
  intros Hl. revert y last. induction Hl as [|m l Hm _ IH]; intros y last.
  { exists y, []. split_and!; [apply adds_ret|cbn; lia|done]. }
  cbn [draw_messages conversation_texts].
  assert (∀ y0 last0, (y ≤ y0)%Z → ∃ y' bs,
    adds (y1 ← _draw_bubble m y0 width max_bubble; draw_messages l y1 last0 width max_bubble) y'
      (bubble_texts m ++ conversation_texts l last0) bs ∧
    stacked y bs y' ∧ length bs = S (length l)) as Hbubble.
  { intros y0 last0 Hy0. pose proof (adds_draw_bubble m y0 width max_bubble Hm) as Hb.
    pose proof (size_pos m max_bubble) as Hpos. destruct (size_of m max_bubble) as [w h].
    cbv zeta in Hb. cbn [snd] in Hpos.
    destruct (IH (y0 + h + GAP + pxz 6)%Z last0) as (y' & bs & Ha & Hs & Hlen).
    exists y'. eexists. split_and!.
    - eapply adds_bind; [exact Hb|exact Ha|done|reflexivity].
    - cbn [app stacked]. exists y0, (y0 + h)%Z. split_and!; [done..|lia|].
      eapply stacked_weaken; [|exact Hs]. pose proof gap_ge. lia.
    - cbn. by f_equal. }
  destruct (drawable_times m Hm) as [_ Hday]. rewrite Hday.
  case_decide as Hd.
  - destruct (Hbubble (y + pxz 34)%Z (day_of (m_ts m))) as (y' & bs & Ha & Hs & Hlen).
    { pose proof (pxz_ge 34 ltac:(lia)). lia. }
    exists y', bs. split_and!; [|done..].
    eapply adds_bind; [by apply adds_res| |done..]. rewrite decide_True by done.
    eapply adds_bind; [apply adds_draw_day|exact Ha|done..].
  - destruct (Hbubble y last) as (y' & bs & Ha & Hs & Hlen); [lia|].
    exists y', bs. split_and!; [|done..].
    eapply adds_bind; [by apply adds_res| |done..]. by rewrite decide_False.
Qed.

Lemma adds_draw_notices l y width : ∃ y', adds (draw_notices l y width) y' l [] ∧ (y ≤ y')%Z.
Proof.
  revert y. induction l as [|t l IH]; intros y.
  { exists y. split; [apply adds_ret|lia]. }
  destruct (IH (y + pxz 28)%Z) as (y' & Ha & Hy). exists y'. split.
  - eapply adds_bind; [apply adds_create|exact Ha|done..].
  - pose proof (pxz_ge 28 ltac:(lia)). lia.
Qed.

(** ** The whole transcript *)

(** The texts a transcript should show. *)
Definition visible_texts (s : t) : list pystr :=
  if (cv_width (cv s) <? 40)%Z then []
  else if decide (messages s = [] ∧ notices s = [])
  then [if decide (empty_text s = []) then &"No messages yet" else empty_text s;
        &"Say something -- it is encrypted before it leaves this machine."]
  else conversation_texts (messages s) [] ++ notices s.

(** The values of two transcripts are the same, and so is their size. *)
Definition same_values (s s' : t) : Prop :=
  messages s' = messages s ∧ empty_text s' = empty_text s ∧ notices s' = notices s ∧
  resize_after s' = resize_after s ∧
  cv_width (cv s') = cv_width (cv s) ∧ cv_height (cv s') = cv_height (cv s).

Lemma draw_backdrop_run s width :
  cv_items (cv s) = [] →
  ∃ s', _draw_backdrop width s = (s', Ok tt) ∧ same_values s s' ∧
        texts_of (cv_items (cv s')) = [] ∧ boxes_of (cv_items (cv s')) = [].
Proof.
  intros Hc. unfold _draw_backdrop, take_backdrop, mbind, M_bind, get, modify.
  case_decide; [destruct (backdrop _ _ _) as [k [[w h]|]]|destruct (image s) as [[w h]|] eqn:E; [|done]];
    cbn; rewrite ?E; (eexists; split; [reflexivity|]); cbn; by rewrite Hc.
Qed.

Lemma on_cv_adds {A} (m : Draw A) a ts bs s :
  adds m a ts bs →
  ∃ s', on_cv m s = (s', Ok a) ∧ same_values s s' ∧
        texts_of (cv_items (cv s')) = texts_of (cv_items (cv s)) ++ ts ∧
        boxes_of (cv_items (cv s')) = boxes_of (cv_items (cv s)) ++ bs.
Proof.
  intros (l & Hp & <- & <-). unfold on_cv. rewrite Hp. eexists. split; [reflexivity|].
  cbn. by rewrite texts_of_app, boxes_of_app.
Qed.

Lemma same_values_trans s1 s2 s3 : same_values s1 s2 → same_values s2 s3 → same_values s1 s3.
Proof. unfold same_values. intuition congruence. Qed.

Lemma adds_scene text cx cy : adds (scene text cx cy) tt
  [text; &"Say something -- it is encrypted before it leaves this machine."]
  (boxes_of [Smooth (rounded_points (cx - q (pxz 26)) (cy - q (pxz 18)) (cx + q (pxz 20))
                       (cy + q (pxz 10)) (q (pxz 10))) WHITE]).
Proof.
  unfold scene. cbv zeta.
  do 9 (eapply adds_bind; [apply adds_create| |reflexivity|reflexivity]). apply adds_create.
Qed.

Lemma draw_empty_run s width :
  ∃ s', _draw_empty width s = (s', Ok tt) ∧ same_values s s' ∧
        texts_of (cv_items (cv s')) = texts_of (cv_items (cv s)) ++
          [if decide (empty_text s = []) then &"No messages yet" else empty_text s;
           &"Say something -- it is encrypted before it leaves this machine."].
Proof.
  unfold _draw_empty, mbind at 1, M_bind at 1. unfold get.
  destruct (on_cv_adds _ _ _ _ s (adds_scene
    (if decide (empty_text s = []) then &"No messages yet" else empty_text s)
    (half width) (half (Z.max (cv_height (cv s)) (pxz 200)) - q (pxz 30)))) as (s1 & E & Hs & Ht & _).
  unfold mbind, M_bind. rewrite E. by eexists.
Qed.

(** The loops over the messages and the notices, from an empty canvas. *)
Lemma draw_conversation_run s max_bubble :
  Forall drawable (messages s) →
  texts_of (cv_items (cv s)) = [] → boxes_of (cv_items (cv s)) = [] →
  ∃ s' y y', (y ← on_cv (draw_messages (messages s) (pxz 16) [] (cv_width (cv s)) max_bubble);
          on_cv (draw_notices (notices s) y (cv_width (cv s)))) s = (s', Ok y') ∧
    same_values s s' ∧ texts_of (cv_items (cv s')) = conversation_texts (messages s) [] ++ notices s ∧
    stacked (pxz 16) (boxes_of (cv_items (cv s'))) y ∧
    length (boxes_of (cv_items (cv s'))) = length (messages s).
Proof.
  intros Hd Ht0 Hb0.
  destruct (adds_draw_messages (messages s) (pxz 16) [] (cv_width (cv s)) max_bubble Hd)
    as (y1 & bs & Hadd & Hstack & Hlen).
  destruct (on_cv_adds _ _ _ _ s Hadd) as (s2 & E2 & Hs2 & Ht2 & Hb2).
  destruct (adds_draw_notices (notices s) y1 (cv_width (cv s))) as (y2 & Hadd2 & _).
  destruct (on_cv_adds _ _ _ _ s2 Hadd2) as (s3 & E3 & Hs3 & Ht3 & Hb3).
  exists s3, y1, y2. unfold mbind, M_bind. rewrite E2. split; [exact E3|].
  split; [by apply (same_values_trans _ _ _ Hs2 Hs3)|].
  by rewrite Ht3, Ht2, Ht0, Hb3, Hb2, Hb0, app_nil_r.
Qed.

(** When every message can be drawn, drawing succeeds, and the texts on the canvas
    are those that should be there. *)
Lemma redraw_shows (s : t) (Hd : Forall drawable (messages s)) :
  ∃ s', redraw s = (s', Ok tt) ∧ same_values s s' ∧
        texts_of (cv_items (cv s')) = visible_texts s ∧
        ((40 ≤ cv_width (cv s))%Z → messages s ≠ [] →
         ∃ y', stacked (pxz 16) (boxes_of (cv_items (cv s'))) y' ∧
               length (boxes_of (cv_items (cv s'))) = length (messages s)).
Proof.
  unfold redraw, visible_texts. unfold mbind at 1, M_bind at 1.
  set (s0 := (on_cv delete_all s).1).
  assert (on_cv delete_all s = (s0, Ok tt)) as -> by done.
  assert (same_values s s0) as Hs0 by done.
  assert (cv_items (cv s0) = []) as Hc0 by done.
  unfold mbind at 1, M_bind at 1. unfold get at 1. cbv zeta.
  change (cv_width (cv s0)) with (cv_width (cv s)).
  destruct (cv_width (cv s) <? 40)%Z eqn:Hw.
  { apply Z.ltb_lt in Hw. exists s0. split_and!; try done. lia. }
  destruct (draw_backdrop_run s0 (cv_width (cv s)) Hc0) as (s1 & E1 & Hs1 & Ht1 & Hb1).
  unfold mbind at 1, M_bind at 1. rewrite E1. clear E1.
  apply (same_values_trans _ _ _ Hs0) in Hs1. clear s0 Hs0 Hc0.
  unfold mbind at 1, M_bind at 1. unfold get at 1.
  pose proof Hs1 as (Em & Ee & En & _ & Ew & _). rewrite Em, En.
  case_decide as Hempty.
  { destruct (draw_empty_run s1 (cv_width (cv s))) as (s2 & E2 & Hs2 & Ht2).
    rewrite E2. exists s2. rewrite Ht2, Ht1, Ee.
    split_and!; try done; [by eapply same_values_trans|]. intros _ Hm. by destruct Hempty. }
  cbv zeta. rewrite <-Em in Hd |- *. rewrite <-En, <-Ew.
  destruct (draw_conversation_run s1 (Z.max (pxz 160) (py_trunc (q (cv_width (cv s1)) * (62 # 100)))) Hd Ht1 Hb1)
    as (s2 & y & y' & E2 & Hs2 & Ht2 & Hst & Hlen).
  rewrite <-M_bind_assoc. unfold mbind at 1, M_bind at 1. rewrite E2.
  eexists. split; [reflexivity|]. cbn [cv set_scrollregion]. rewrite Ht2.
  split_and!; [exact (same_values_trans _ _ _ Hs1 Hs2)|done|intros _ _; by exists y].
Qed.

Lemma notices_run ns s : Forall drawable (messages s) →
  texts_of (cv_items (cv s)) = visible_texts s →
  ∃ s', forM ns notice s = (s', Ok tt) ∧ messages s' = messages s ∧ empty_text s' = empty_text s ∧
        notices s' = notices s ++ ns ∧ cv_width (cv s') = cv_width (cv s) ∧
        texts_of (cv_items (cv s')) = visible_texts s'.
Proof.
  revert s. induction ns as [|n ns IH]; intros s Hd Ht; [exists s; by rewrite app_nil_r|].
  cbn [forM]. unfold mbind, M_bind, notice at 1. rewrite modify_run.
  match goal with |- context [redraw ?x] =>
    destruct (redraw_shows x Hd) as (s1 & -> & (Em & Ee & En & _ & Ew & _) & Ht1 & _) end.
  destruct (IH s1) as (s2 & E2 & Em2 & Ee2 & En2 & Ew2 & Ht2); [by rewrite Em| |].
  { rewrite Ht1. unfold visible_texts. by rewrite Em, Ee, En, Ew. }
  exists s2. cbn in *. by rewrite E2, Em2, Em, Ee2, Ee, En2, En, Ew2, Ew, <-app_assoc.
Qed.

(** C25. What the transcript shows is what it was told to show.  Whatever was there
    before, once it is given messages that can be drawn and then any notices,
    the texts on the canvas are those messages in order, each with its sender's
    initials, its time and its ticks and a divider wherever the day changes, then
    the notices in order; a conversation with neither shows its own text, and a
    pane that is not laid out yet shows nothing. *)
Theorem transcript_shows (s : t) (l : list Message) (empty : pystr) (ns : list pystr)
    (Hd : Forall drawable l) :
  ∃ s', (show l empty;; forM ns notice) s = (s', Ok tt) ∧
    texts_of (cv_items (cv s')) =
      if (cv_width (cv s) <? 40)%Z then []
      else if decide (l = [] ∧ ns = [])
      then [if decide (empty = []) then &"No messages yet" else empty;
            &"Say something -- it is encrypted before it leaves this machine."]
      else conversation_texts l [] ++ ns.
Proof.
  unfold mbind, M_bind, show. rewrite modify_run.
  match goal with |- context [redraw ?x] =>
    destruct (redraw_shows x Hd) as (s1 & -> & (Em & Ee & En & _ & Ew & _) & Ht1 & _) end.
  destruct (notices_run ns s1) as (s2 & E2 & Em2 & Ee2 & En2 & Ew2 & Ht2); [by rewrite Em| |].
  { rewrite Ht1. unfold visible_texts. by rewrite Em, Ee, En, Ew. }
  exists s2. split; [exact E2|]. rewrite Ht2. unfold visible_texts.
  by rewrite Em2, Em, Ee2, Ee, En2, En, Ew2, Ew.
Qed.

(** Bubbles never overlap: they come one under the other, in the order of the
    messages, at least 16 pixels apart. *)
Lemma bubbles_stacked (s : t) : Forall drawable (messages s) → (40 ≤ cv_width (cv s))%Z → messages s ≠ [] →
  ∃ s' y', redraw s = (s', Ok tt) ∧ stacked (pxz 16) (boxes_of (cv_items (cv s'))) y' ∧
           length (boxes_of (cv_items (cv s'))) = length (messages s).
Proof.
  intros Hd Hw Hm. destruct (redraw_shows s Hd) as (s' & E & _ & _ & Hb).
  destruct (Hb Hw Hm) as (y' & Hst & Hl). by exists s', y'.
Qed.
End Shows.

(** bob, then alice herself, on two days, and a notice. *)
Definition two_days : list Message :=
  [new_message (JStr (&"1")) (&"bob") (JStr (&"good night")) 1709247600000 false;
   new_message (JStr (&"2")) (&"alice") (JStr (&"good morning")) 1709280000000 true].

Lemma transcript_shows_witness :
  ∃ s', (@show plain_display ascii_casing utc fixed_font two_days (&"Say hi to bob");;
         forM [&"bob is offline"] (@notice plain_display ascii_casing utc fixed_font))
          (set_cv (mkCanvas 600 400 []) new) = (s', Ok tt) ∧
    texts_of (cv_items (cv s')) =
      [&"Yesterday"; &"BO"; &"good night"; &"23:00";
       &"Today"; &"good morning"; (&"08:00  ") ++ [10003%N]; &"bob is offline"].
Proof.
  destruct (@transcript_shows plain_display ascii_casing utc fixed_font fixed_font_laws
    (set_cv (mkCanvas 600 400 []) new) two_days (&"Say hi to bob")
    [&"bob is offline"]) as (s' & E & Ht).
  { apply Forall_cons_2; [|apply Forall_cons_2; [|apply Forall_nil_2]]; split;
      first [right; eexists; vm_compute; reflexivity
            | intros _; eexists; vm_compute; reflexivity | discriminate]. }
  exists s'. split; [exact E|]. rewrite Ht. vm_compute. reflexivity.
Defined.
