(* ===== verification/TkView.v ===== *)
(** * The window: what it shows

    [im/client/view/tk/app.py], the part that paints the model: [_build],
    [_render] and what it calls.  The screen is the widgets and what is on them.
    The observer only reads the model, except that [_redraw] asks for the
    conversation on screen, which creates it if it is not there yet; so a method
    that reads the model is given it, and [_redraw] hands it back. *)

From S2P Require Import Prelude PyStr PyDict Json Conversation ChatModel.
From S2P Require Import Calendar Theme Backdrop Widgets.
From Stdlib Require Import QArith.

Record screen := mkScreen {
  sc_rows : list (pystr * (nat * ConversationRow.t));    (* with the row of the grid *)
  sc_empty_list : bool;                                  (* the hint is in the grid *)
  sc_unread_label : pystr;
  sc_nav : list (pystr * NavItem.t);
  sc_me : canvas;
  sc_header : canvas;
  sc_strip : canvas;
  sc_strip_text : pystr;
  sc_strip_colour : pystr;
  sc_strip_shown : bool;
  sc_transcript : Transcript.t;
  sc_entry_enabled : bool;
  sc_send : PillButton.t;
}.

(** ** Assignments to one attribute *)

Definition set_rows x s := mkScreen x (sc_empty_list s) (sc_unread_label s) (sc_nav s) (sc_me s)
  (sc_header s) (sc_strip s) (sc_strip_text s) (sc_strip_colour s) (sc_strip_shown s)
  (sc_transcript s) (sc_entry_enabled s) (sc_send s).
Definition set_empty_list x s := mkScreen (sc_rows s) x (sc_unread_label s) (sc_nav s) (sc_me s)
  (sc_header s) (sc_strip s) (sc_strip_text s) (sc_strip_colour s) (sc_strip_shown s)
  (sc_transcript s) (sc_entry_enabled s) (sc_send s).
Definition set_unread_label x s := mkScreen (sc_rows s) (sc_empty_list s) x (sc_nav s) (sc_me s)
  (sc_header s) (sc_strip s) (sc_strip_text s) (sc_strip_colour s) (sc_strip_shown s)
  (sc_transcript s) (sc_entry_enabled s) (sc_send s).
Definition set_nav x s := mkScreen (sc_rows s) (sc_empty_list s) (sc_unread_label s) x (sc_me s)
  (sc_header s) (sc_strip s) (sc_strip_text s) (sc_strip_colour s) (sc_strip_shown s)
  (sc_transcript s) (sc_entry_enabled s) (sc_send s).
Definition set_me x s := mkScreen (sc_rows s) (sc_empty_list s) (sc_unread_label s) (sc_nav s) x
  (sc_header s) (sc_strip s) (sc_strip_text s) (sc_strip_colour s) (sc_strip_shown s)
  (sc_transcript s) (sc_entry_enabled s) (sc_send s).
Definition set_header x s := mkScreen (sc_rows s) (sc_empty_list s) (sc_unread_label s) (sc_nav s)
  (sc_me s) x (sc_strip s) (sc_strip_text s) (sc_strip_colour s) (sc_strip_shown s)
  (sc_transcript s) (sc_entry_enabled s) (sc_send s).
Definition set_strip x s := mkScreen (sc_rows s) (sc_empty_list s) (sc_unread_label s) (sc_nav s)
  (sc_me s) (sc_header s) x (sc_strip_text s) (sc_strip_colour s) (sc_strip_shown s)
  (sc_transcript s) (sc_entry_enabled s) (sc_send s).
Definition set_strip_state text colour shown s := mkScreen (sc_rows s) (sc_empty_list s)
  (sc_unread_label s) (sc_nav s) (sc_me s) (sc_header s) (sc_strip s) text colour shown
  (sc_transcript s) (sc_entry_enabled s) (sc_send s).
Definition set_transcript x s := mkScreen (sc_rows s) (sc_empty_list s) (sc_unread_label s)
  (sc_nav s) (sc_me s) (sc_header s) (sc_strip s) (sc_strip_text s) (sc_strip_colour s)
  (sc_strip_shown s) x (sc_entry_enabled s) (sc_send s).
Definition set_entry_enabled x s := mkScreen (sc_rows s) (sc_empty_list s) (sc_unread_label s)
  (sc_nav s) (sc_me s) (sc_header s) (sc_strip s) (sc_strip_text s) (sc_strip_colour s)
  (sc_strip_shown s) (sc_transcript s) x (sc_send s).
Definition set_send x s := mkScreen (sc_rows s) (sc_empty_list s) (sc_unread_label s)
  (sc_nav s) (sc_me s) (sc_header s) (sc_strip s) (sc_strip_text s) (sc_strip_colour s)
  (sc_strip_shown s) (sc_transcript s) (sc_entry_enabled s) x.

(** Running the code of a widget on the attribute that holds it. *)
Definition part {W A} (sel : screen → W) (upd : W → screen → screen) (m : M W A) : M screen A :=
  λ s, let '(w, r) := m (sel s) in (upd w s, r).

Abbreviation on_me := (part sc_me set_me).
Abbreviation on_header := (part sc_header set_header).
Abbreviation on_strip := (part sc_strip set_strip).
Abbreviation on_transcript := (part sc_transcript set_transcript).
Abbreviation on_send := (part sc_send set_send).

Section Screen.
Context `{Runtime} `{Display} `{Casing} `{Clock} `{Metrics}.

Abbreviation Ms := (M screen).

Definition ELLIPSIS : pystr := [8230%N].

(** ** Building *)

Definition NAV : list (pystr * (pystr * pystr)) :=
  [(&"chats", ([128172%N], &"Chats")); (&"contacts", ([128101%N], &"Contacts"));
   (&"rooms", (&"#", &"Rooms")); (&"search", ([128269%N], &"Search"));
   (&"settings", ([9881%N], &"Settings"))].

(** [TkView(controller)]: the widgets as [_build] leaves them, none of them laid
    out.  The composer is disabled and the strip is not in the grid. *)
Definition _build : screen :=
  let nav := (λ kv : pystr * (pystr * pystr), (kv.1, NavItem.new kv.2.1 kv.2.2)) <$> NAV in
  let chats := (λ n : NavItem.t, NavItem.mk (NavItem.icon n) (NavItem.label n) true
                  (NavItem.badge n) (NavItem.cv n)) in
  let send := PillButton.new [10148%N] (pxz 42) (pxz 21) (font 13 false) in
  mkScreen [] true []
    ((λ kv : pystr * NavItem.t, if decide (kv.1 = &"chats") then (kv.1, chats kv.2) else kv) <$> nav)
    (new_canvas (pxz 58)) (new_canvas (pxz 64)) (new_canvas 0)
    [] ORANGE_DEEP false Transcript.new false
    (PillButton.mk (PillButton.text send) (PillButton.fill send) (PillButton.text_colour send)
       (PillButton.radius send) (PillButton.font send) false (PillButton.cv send)).

(** ** The rail, the header and the strip *)

(** [self.model.username or "..."], with one character for the dots. *)
Definition shown_name (m : ChatModel) : pystr :=
  match cm_username m with Some ((_ :: _) as u) => u | _ => ELLIPSIS end.

Definition _draw_logo : Draw unit :=
  delete_all;;
  c ← get;
  let h := half (cv_height c) in
  rounded_rect 4 (h - 17) 38 (h + 17) 11 ORANGE;;
  create (Text 21 (h - 1) [128172%N] (&"center") WHITE (mkFont FONT 13 false));;
  create (Text 50 h (&"Semaphore") (&"w") ORANGE_DEEP H1).

Definition paint_me (m : ChatModel) : Draw unit :=
  delete_all;;
  c ← get;
  let h := half (cv_height c) in
  if (cv_width c <? 2)%Z then mret tt
  else
    let name := shown_name m in
    draw_avatar 26 h name 17 (Some ONLINE);;
    create (Text 50 (h - 8) name (&"w") BROWN BODY_BOLD);;
    create (Text 50 (h + 9) (to_title (cm_connection_state m)) (&"w") MUTED TINY).

Definition _draw_me (m : ChatModel) : Ms unit := on_me (paint_me m).

(** The line under the name: its text and its colour. *)
Definition subtitle (m : ChatModel) (active : pystr) : pystr * pystr :=
  match typing_in m active with
  | [] =>
    if startswith active (&"#") then
      (dec_of_N (N.of_nat (length (room_members m active))) ++ &" members", MUTED)
    else if is_online m active then (&"Online", ONLINE) else (&"Offline", MUTED)
  | typing => (PyStr.join (&", ") typing ++ (&" is typing") ++ ELLIPSIS, ORANGE_DEEP)
  end.

Definition presence_colour (m : ChatModel) (key : pystr) : pystr :=
  if is_online m key then ONLINE else OFFLINE.

(** The presence dot of a person; a room has none. *)
Definition status_of (m : ChatModel) (key : pystr) : option pystr :=
  if startswith key (&"#") then None else Some (presence_colour m key).

Definition paint_header (m : ChatModel) : Draw unit :=
  delete_all;;
  c ← get;
  let w := cv_width c in
  let h := half (cv_height c) in
  if (w <? 2)%Z then mret tt
  else
    create (Line 0 (q (cv_height c - 1)) (q w) (q (cv_height c - 1)) HAIRLINE);;
    match cm_active m with
    | None =>
      create (Text (q (pxz 24)) h (&"Select a conversation") (&"w") MUTED BODY)
    | Some active =>
      draw_avatar (q (pxz 36)) h active (q (pxz 19)) (status_of m active);;
      create (Text (q (pxz 66)) (h - q (pxz 9)) active (&"w") BROWN H2);;
      let '(text, colour) := subtitle m active in
      create (Text (q (pxz 66)) (h + q (pxz 10)) text (&"w") colour TINY);;
      if startswith active (&"#")
      then create (Text (q (w - pxz 24)) h [128100%N; 43%N] (&"center") ORANGE_DEEP (font 12 false))
      else mret tt
    end.

Definition _draw_header (m : ChatModel) : Ms unit := on_header (paint_header m).

Definition STRIP : list (pystr * (pystr * pystr)) :=
  [(&"CONNECTING", ((&"Connecting") ++ ELLIPSIS, &"#C9A227"));
   (&"AUTHENTICATING", ((&"Signing in") ++ ELLIPSIS, &"#C9A227"));
   (&"RETRYING", ((&"Reconnecting") ++ ELLIPSIS ++ (&" messages you send now will wait"), &"#C9622D"));
   (&"CLOSED", (&"Disconnected. Nothing will be sent or received.", &"#B4452B"));
   (&"DISCONNECTED", (&"Not connected.", &"#B4452B"))].

Definition paint_strip (text : pystr) : Draw unit :=
  delete_all;;
  c ← get;
  if ((cv_width c <? 2)%Z || bool_decide (text = []))%bool then mret tt
  else create (Text (half (cv_width c)) (half (cv_height c)) text (&"center") WHITE SMALL).

Definition _draw_strip : Ms unit := s ← get; on_strip (paint_strip (sc_strip_text s)).

Definition _show_state (state : pystr) : Ms unit :=
  match dict_get STRIP (to_upper state) with
  | None => modify (λ s, set_strip_state [] (sc_strip_colour s) false s)
  | Some (text, colour) =>
    modify (set_strip_state text colour true);;
    modify (λ s, set_strip (mkCanvas (cv_width (sc_strip s)) (pxz 26) (cv_items (sc_strip s))) s);;
    _draw_strip
  end.

Definition _set_composer (enabled : bool) : Ms unit :=
  modify (set_entry_enabled enabled);;
  on_send (PillButton.set_enabled enabled).

(** ** The conversation list *)

Definition preview_of (last : option Message) : pystr :=
  match last with
  | None => []
  | Some x => (if m_mine x then &"You: " else []) ++ py_str (m_body x)
  end.

(** [self._rows[key]], which is there. *)
Definition on_row (key : pystr) (m : M ConversationRow.t unit) : Ms unit := λ s,
  match dict_get (sc_rows s) key with
  | Some (i, row) => let '(row, r) := m row in (set_rows (dict_set (sc_rows s) key (i, row)) s, r)
  | None => (s, Ok tt)
  end.

(** The row is found or made, and put on line [index] of the grid. *)
Definition grid_row (index : nat) (key : pystr) : Ms unit :=
  modify (λ s,
    let row := match dict_get (sc_rows s) key with
               | Some (_, row) => row
               | None => ConversationRow.new key
               end in
    set_rows (dict_set (sc_rows s) key (index, row)) s).

(** The body of the loop over the keys. *)
Definition refresh_row (m : ChatModel) (index : nat) (key : pystr) : Ms unit :=
  grid_row index key;;
  let c := (conversation key m).2 in
  let last := last_message c in
  time ← lift_res (match last with Some x => Transcript._clock (m_ts x) | None => Ok [] end);
  on_row key (ConversationRow.update_row (preview_of last) time (c_unread c) (status_of m key));;
  on_row key (ConversationRow.set_selected (bool_decide (Some key = cm_active m))).

Fixpoint refresh_rows (m : ChatModel) (index : nat) (ks : list pystr) : Ms unit :=
  match ks with
  | [] => mret tt
  | key :: ks' => refresh_row m index key;; refresh_rows m (S index) ks'
  end.

(** [self.nav["chats"].set_badge(total)]. *)
Definition set_chats_badge (total : nat) : Ms unit := λ s,
  match dict_get (sc_nav s) (&"chats") with
  | Some item => let '(item, r) := NavItem.set_badge total item in
                 (set_nav (dict_set (sc_nav s) (&"chats") item) s, r)
  | None => (s, Ok tt)
  end.

Definition _refresh_list (m : ChatModel) : Ms unit :=
  let ks := keys m in
  modify (λ s, set_rows (filter (λ kr : pystr * (nat * ConversationRow.t), kr.1 ∈ ks) (sc_rows s)) s);;
  modify (set_empty_list (bool_decide (ks = [])));;
  refresh_rows m 0 ks;;
  let total := unread_total m in
  modify (set_unread_label (if decide (total = 0)%nat then []
                            else dec_of_N (N.of_nat total) ++ &" unread"));;
  set_chats_badge total.

(** ** The observer *)

Definition _redraw (m : ChatModel) : Ms ChatModel :=
  _draw_header m;;
  match cm_active m with
  | None => on_transcript (Transcript.show [] (&"No messages yet"));; mret m
  | Some active =>
    let '(m, c) := conversation active m in
    on_transcript (Transcript.show (c_messages c) ((&"Say hi to ") ++ active));;
    mret m
  end.

Definition _render (m : ChatModel) (event : Event) : Ms unit :=
  match event with
  | MessageAdded k _ =>
    m ← (if decide (Some k = cm_active m) then _redraw m else mret m);
    _refresh_list m
  | ReceiptChanged k _ _ =>
    if decide (Some k = cm_active m) then _redraw m;; mret tt else mret tt
  | ConversationSelected _ | HistoryLoaded _ _ => m ← _redraw m; _refresh_list m
  | UnreadChanged _ _ | RoomMembersChanged _ _ | RosterReplaced _ | ContactsChanged _ => _refresh_list m
  | PresenceChanged user online =>
    _refresh_list m;;
    _draw_header m;;
    on_transcript (Transcript.notice (user ++ &" is " ++ if online then &"online" else &"offline"))
  | TypingChanged _ _ => _draw_header m
  | ConnectionStateChanged state =>
    _set_composer (bool_decide (state = &"ONLINE"));;
    _show_state state;;
    _draw_me m
  | ErrorRaised code message => on_transcript (Transcript.notice (code ++ &": " ++ message))
  | IdentityEstablished _ => mret tt
  end.

(** The calls of the observer, one after the other. *)
Definition replay (events : list (ChatModel * Event)) : M screen unit :=
  forM events (λ me, _render me.1 me.2).

(** What [run] does before the main loop. *)
Definition first_paint (m : ChatModel) : Ms unit := _refresh_list m;; _redraw m;; mret tt.

(** [_append(message)], for a caller that pushes one message. *)
Definition _append (m : ChatModel) (message : Message) : Ms ChatModel := _redraw m.

(** ** For the tests *)

Definition rendered_text (s : screen) : pystr := Transcript.as_text (sc_transcript s).

Definition conversation_keys (m : ChatModel) : list pystr := keys m.

(** ** Callbacks of the layout *)

(** [<Configure>] of the header, the rail and the strip. *)
Definition header_resized (m : ChatModel) (w h : Z) : Ms unit :=
  modify (λ s, set_header (mkCanvas w h (cv_items (sc_header s))) s);; _draw_header m.
Definition me_resized (m : ChatModel) (w h : Z) : Ms unit :=
  modify (λ s, set_me (mkCanvas w h (cv_items (sc_me s))) s);; _draw_me m.
Definition strip_resized (w h : Z) : Ms unit :=
  modify (λ s, set_strip (mkCanvas w h (cv_items (sc_strip s))) s);; _draw_strip.
End Screen.
