(* ===== verification/TkFacts.v ===== *)
(** * The window shows the model

    The screen after any operations of the model, when the observer has run on
    every event: the conversation list, the transcript, the composer and the strip
    are what the model says.  What an event repaints is worked out once
    ([replay_shows]); an operation is then a list of events, each with the model
    at the time. *)

From S2P Require Import Prelude Wp PyStr PyDict Utf8 Json Conversation ChatModel ChatModelFacts.
From S2P Require Import Calendar Theme Backdrop Widgets WidgetsFacts TkView.
From Stdlib Require Import QArith.

Section Facts.
Context `{Runtime} `{Display} `{Casing} `{Clock} `{Metrics} `{!MetricsLaws}.

(** ** What there is to show *)

Definition encodable (s : pystr) : Prop := is_Some (utf8_encode s).

(** Preview, time, unread count, presence dot, and whether it is selected. *)
Definition row_data (m : ChatModel) (key : pystr)
    : pystr * pystr * nat * option pystr * bool :=
  let c := (conversation key m).2 in
  (preview_of (last_message c),
   match last_message c with Some x => clock_of (m_ts x) | None => [] end,
   c_unread c, status_of m key, bool_decide (Some key = cm_active m)).

(** The list: its rows, and the number of unread messages. *)
Definition list_view (m : ChatModel) :=
  ((λ key, (key, row_data m key)) <$> keys m, unread_total m).

(** The transcript: whose it is, and the messages. *)
Definition chat_view (m : ChatModel) : option pystr * list Message :=
  (cm_active m,
   match cm_active m with Some a => c_messages (conversation a m).2 | None => [] end).

Definition row_values (r : ConversationRow.t) : pystr * pystr * nat * option pystr * bool :=
  (ConversationRow.preview r, ConversationRow.time r, ConversationRow.unread r,
   ConversationRow.status r, ConversationRow.selected r).

Record list_shows (s : screen) (m : ChatModel) : Prop := {
  ls_rows i key : keys m !! i = Some key →
    ∃ r, dict_get (sc_rows s) key = Some (i, r) ∧ ConversationRow.key r = key ∧
         row_values r = row_data m key;
  ls_only key : key ∈ dict_keys (sc_rows s) → key ∈ keys m;
  ls_hint : sc_empty_list s = bool_decide (keys m = []);
  ls_unread : sc_unread_label s =
    if decide (unread_total m = 0)%nat then []
    else dec_of_N (N.of_nat (unread_total m)) ++ &" unread";
  ls_badge : ∃ n, dict_get (sc_nav s) (&"chats") = Some n ∧ NavItem.badge n = unread_total m;
}.

Definition chat_shows (s : screen) (m : ChatModel) : Prop :=
  Transcript.messages (sc_transcript s) = (chat_view m).2 ∧
  Transcript.empty_text (sc_transcript s) =
    (match cm_active m with Some a => (&"Say hi to ") ++ a | None => &"No messages yet" end) ∧
  texts_of (cv_items (Transcript.cv (sc_transcript s))) = visible_texts (sc_transcript s).

(** The composer is enabled in exactly one state, and the strip says what
    [STRIP] has for the state. *)
Definition state_shows (s : screen) (m : ChatModel) : Prop :=
  let online := bool_decide (cm_connection_state m = &"ONLINE") in
  sc_entry_enabled s = online ∧ PillButton.enabled (sc_send s) = online ∧
  (if sc_strip_shown s then Some (sc_strip_text s, sc_strip_colour s) else None) =
  dict_get STRIP (to_upper (cm_connection_state m)).

(** Everything in the model can be drawn. *)
Record model_drawable (m : ChatModel) : Prop := {
  md_conversations k c : dict_get (cm_conversations m) k = Some c →
    encodable k ∧ Forall drawable (c_messages c);
  md_active k : cm_active m = Some k → encodable k;
  md_username u : cm_username m = Some u → encodable u;
}.

(** What holds of any screen. *)
Record screen_ready (s : screen) : Prop := {
  rd_rows : dict_ok (sc_rows s);
  rd_keys key i r : dict_get (sc_rows s) key = Some (i, r) → ConversationRow.key r = key;
  rd_chats : is_Some (dict_get (sc_nav s) (&"chats"));
  rd_transcript : Forall drawable (Transcript.messages (sc_transcript s));
}.

(** ** Drawing that cannot fail *)

Definition fine {S} (m : M S unit) : Prop := ∀ s, ∃ s', m s = (s', Ok tt).

Lemma fine_ret {S} : fine (S := S) (mret tt).
Proof. intros s. by exists s. Qed.
Lemma fine_modify {S} (f : S → S) : fine (modify f).
Proof. intros s. by exists (f s). Qed.
Lemma fine_bind {S} (m : M S unit) (k : unit → M S unit) : fine m → fine (k tt) → fine (m ≫= k).
Proof.
  intros Hm Hk s. unfold mbind, M_bind. destruct (Hm s) as [s1 ->]. apply Hk.
Qed.
Lemma fine_get {S} (k : S → M S unit) : (∀ s, fine (k s)) → fine (get ≫= k).
Proof. intros Hk s. apply Hk. Qed.
Lemma fine_if {S} (b : bool) (m1 m2 : M S unit) : fine m1 → fine m2 → fine (if b then m1 else m2).
Proof. by destruct b. Qed.
Lemma fine_avatar x y name radius st : encodable name → fine (draw_avatar x y name radius st).
Proof.
  intros [c Hc]%avatar_colour_total s. unfold draw_avatar. rewrite Hc.
  by destruct st; eexists.
Qed.

Lemma fine_create i : fine (create i).
Proof. apply fine_modify. Qed.
Lemma fine_delete : fine delete_all.
Proof. apply fine_modify. Qed.
Lemma fine_rect x1 y1 x2 y2 r fill : fine (rounded_rect x1 y1 x2 y2 r fill).
Proof. apply fine_modify. Qed.
Lemma fine_circle x y r fill : fine (circle x y r fill).
Proof. apply fine_modify. Qed.

Ltac fine := repeat lazymatch goal with
  | |- fine (mret _) => apply fine_ret
  | |- fine (create _) => apply fine_create
  | |- fine delete_all => apply fine_delete
  | |- fine (rounded_rect _ _ _ _ _ _) => apply fine_rect
  | |- fine (circle _ _ _ _) => apply fine_circle
  | |- fine (draw_avatar _ _ _ _ _) => apply fine_avatar; assumption
  | |- fine (get ≫= _) => apply fine_get; intros
  | |- fine (_ ≫= _) => apply fine_bind
  | |- fine (let _ := _ in _) => cbv zeta
  | |- fine (match ?x with _ => _ end) => destruct x
  end.

Lemma row_paint_fine r hover : encodable (ConversationRow.key r) → fine (ConversationRow.paint r hover).
Proof. intros. unfold ConversationRow.paint. fine. Qed.

Lemma nav_paint_fine n hover : fine (NavItem.paint n hover).
Proof. unfold NavItem.paint. fine. Qed.

Lemma pill_paint_fine b : fine (PillButton.paint b).
Proof. unfold PillButton.paint. fine. Qed.

Lemma active_header_fine m : (∀ a, cm_active m = Some a → encodable a) → fine (paint_header m).
Proof.
  intros Hm. unfold paint_header. destruct (cm_active m) as [a|] eqn:E; [|fine].
  pose proof (Hm a eq_refl). fine.
Qed.

Lemma header_paint_fine m : model_drawable m → fine (paint_header m).
Proof. intros Hm. apply active_header_fine, md_active, Hm. Qed.

Lemma me_paint_fine m : model_drawable m → fine (paint_me m).
Proof.
  intros Hm. assert (encodable (shown_name m)).
  { unfold shown_name. destruct (cm_username m) as [[|c u]|] eqn:E; [by eexists| |by eexists].
    by apply (md_username m Hm). }
  unfold paint_me. fine.
Qed.

Lemma strip_paint_fine text : fine (paint_strip text).
Proof. unfold paint_strip. fine. Qed.

(** ** One row *)

Lemma row_draw_run r : encodable (ConversationRow.key r) →
  ∃ c, ConversationRow._draw false r = (ConversationRow.set_cv c r, Ok tt).
Proof.
  intros He. destruct (row_paint_fine r false He (ConversationRow.cv r)) as [c Hc].
  exists c. unfold ConversationRow._draw. by rewrite Hc.
Qed.

Lemma update_row_run r p t u st : encodable (ConversationRow.key r) →
  ∃ r', ConversationRow.update_row p t u st r = (r', Ok tt) ∧
        ConversationRow.key r' = ConversationRow.key r ∧
        row_values r' = (p, t, u, st, ConversationRow.selected r).
Proof.
  intros He. unfold ConversationRow.update_row. rewrite modify_run.
  destruct (row_draw_run (ConversationRow.mk (ConversationRow.key r) p t u st
    (ConversationRow.selected r) (ConversationRow.cv r)) He) as [c ->]. by eexists.
Qed.

Lemma select_row_run r on : encodable (ConversationRow.key r) →
  ∃ r', ConversationRow.set_selected on r = (r', Ok tt) ∧
        ConversationRow.key r' = ConversationRow.key r ∧
        row_values r' = ((row_values r).1, on).
Proof.
  intros He. unfold ConversationRow.set_selected. rewrite modify_run.
  destruct (row_draw_run (ConversationRow.mk (ConversationRow.key r) (ConversationRow.preview r)
    (ConversationRow.time r) (ConversationRow.unread r) (ConversationRow.status r) on
    (ConversationRow.cv r)) He) as [c ->]. by eexists.
Qed.

Lemma conversation_2 (m : ChatModel) k c :
  dict_get (cm_conversations m) k = Some c → conversation k m = (m, c).
Proof. unfold conversation. by intros ->. Qed.

Lemma last_drawable c x : Forall drawable (c_messages c) → last_message c = Some x → drawable x.
Proof.
  intros Hf Hx. rewrite Forall_forall in Hf. by apply Hf, last_Some_elem_of.
Qed.

Lemma refresh_row_run m i k s :
  model_drawable m → screen_ready s → k ∈ dict_keys (cm_conversations m) →
  ∃ rows, refresh_row m i k s = (set_rows rows s, Ok tt) ∧ screen_ready (set_rows rows s) ∧
    (∃ r, dict_get rows k = Some (i, r) ∧ ConversationRow.key r = k ∧ row_values r = row_data m k) ∧
    (∀ k', k' ≠ k → dict_get rows k' = dict_get (sc_rows s) k') ∧
    (∀ k', k' ∈ dict_keys rows ↔ k' = k ∨ k' ∈ dict_keys (sc_rows s)).
Proof.
  intros Hm Hs [c Hc]%dict_get_is_Some. destruct (md_conversations m Hm k c Hc) as [He Hd].
  unfold refresh_row, grid_row. rewrite modify_run. cbv zeta.
  set (r0 := match dict_get (sc_rows s) k with Some (_, row) => row | None => _ end).
  assert (ConversationRow.key r0 = k) as Hk0.
  { unfold r0. destruct (dict_get (sc_rows s) k) as [[j r]|] eqn:E; [|done]. by eapply rd_keys. }
  rewrite (conversation_2 m k c Hc). cbn [snd].
  assert ((match last_message c with Some x => Transcript._clock (m_ts x) | None => Ok [] end)
    = Ok (match last_message c with Some x => clock_of (m_ts x) | None => [] end)) as ->.
  { destruct (last_message c) as [x|] eqn:Hl; [|done].
    by destruct (drawable_times x (last_drawable c x Hd Hl)) as [-> _]. }
  unfold lift_res, mbind at 1, M_bind at 1. cbn [sc_rows set_rows].
  unfold mbind, M_bind, on_row at 1. cbn [sc_rows set_rows]. rewrite dict_get_set_eq.
  rewrite <-Hk0 in He.
  destruct (update_row_run r0 (preview_of (last_message c))
    (match last_message c with Some x => clock_of (m_ts x) | None => [] end) (c_unread c)
    (status_of m k) He) as (r1 & -> & Hk1 & Hv1).
  unfold on_row. cbn [sc_rows set_rows]. rewrite dict_get_set_eq. rewrite <-Hk1 in He.
  destruct (select_row_run r1 (bool_decide (Some k = cm_active m)) He) as (r2 & -> & Hk2 & Hv2).
  rewrite !dict_set_twice. eexists. split; [reflexivity|].
  split_and!.
  - destruct Hs. constructor; try done; cbn [sc_rows set_rows].
    + by apply dict_set_ok.
    + intros k' j r. rewrite dict_get_set. destruct (decide (k' = k)) as [->|]; [|by apply rd_keys0].
      intros [= <- <-]. congruence.
  - exists r2. rewrite dict_get_set_eq. split_and!; [done|congruence|].
    rewrite Hv2, Hv1. unfold row_data. by rewrite (conversation_2 m k c Hc).
  - intros k' Hk'. by rewrite dict_get_set_ne.
  - intros k'. apply elem_of_dict_set_keys.
Qed.

Lemma refresh_rows_run m ks i s :
  model_drawable m → screen_ready s → NoDup ks →
  (∀ k, k ∈ ks → k ∈ dict_keys (cm_conversations m)) →
  ∃ rows, refresh_rows m i ks s = (set_rows rows s, Ok tt) ∧ screen_ready (set_rows rows s) ∧
    (∀ j k, ks !! j = Some k → ∃ r, dict_get rows k = Some ((i + j)%nat, r) ∧
       ConversationRow.key r = k ∧ row_values r = row_data m k) ∧
    (∀ k, k ∉ ks → dict_get rows k = dict_get (sc_rows s) k) ∧
    (∀ k, k ∈ dict_keys rows ↔ k ∈ ks ∨ k ∈ dict_keys (sc_rows s)).
Proof.
  intros Hm. revert i s. induction ks as [|k ks IH]; intros i s Hs Hnd Hin.
  { exists (sc_rows s). assert (set_rows (sc_rows s) s = s) as -> by by destruct s.
    split_and!; try done. set_solver. }
  apply NoDup_cons in Hnd as [Hk Hnd]. cbn [refresh_rows].
  destruct (refresh_row_run m i k s Hm Hs) as (rows & E & Hr & (r & Hg & Hkey & Hv) & Hother & Hkeys);
    [apply Hin; by left|].
  unfold mbind, M_bind. rewrite E.
  destruct (IH (S i) (set_rows rows s) Hr Hnd) as (rows' & E' & Hr' & Hg' & Hother' & Hkeys').
  { intros k' Hk'. apply Hin. by right. }
  exists rows'. cbn [sc_rows set_rows] in *. split_and!; [done|done|..].
  - intros [|j] k'; cbn [lookup list_lookup].
    + intros [= <-]. exists r. rewrite Nat.add_0_r, Hother' by done. done.
    + intros Hj. destruct (Hg' j k' Hj) as (r' & ? & ?). exists r'.
      by rewrite Nat.add_succ_r.
  - intros k' Hk'. apply not_elem_of_cons in Hk' as [??]. by rewrite Hother', Hother by done.
  - intros k'. rewrite Hkeys', Hkeys. set_solver.
Qed.

Lemma elem_of_keys m k : k ∈ keys m ↔ k ∈ dict_keys (cm_conversations m).
Proof. unfold keys, sorted_on. by rewrite sorted_by_perm. Qed.

Lemma NoDup_keys m : dict_ok (cm_conversations m) → NoDup (keys m).
Proof. unfold keys, sorted_on. by rewrite sorted_by_perm. Qed.

(** Two screens that differ in the list at most. *)
Definition same_but_list (s s' : screen) : Prop :=
  sc_me s' = sc_me s ∧ sc_header s' = sc_header s ∧ sc_strip s' = sc_strip s ∧
  sc_strip_text s' = sc_strip_text s ∧ sc_strip_colour s' = sc_strip_colour s ∧
  sc_strip_shown s' = sc_strip_shown s ∧ sc_transcript s' = sc_transcript s ∧
  sc_entry_enabled s' = sc_entry_enabled s ∧ sc_send s' = sc_send s.

Lemma badge_run total s : is_Some (dict_get (sc_nav s) (&"chats")) →
  ∃ nav n, set_chats_badge total s = (set_nav nav s, Ok tt) ∧
           dict_get nav (&"chats") = Some n ∧ NavItem.badge n = total.
Proof.
  intros [n Hn]. unfold set_chats_badge. rewrite Hn.
  unfold NavItem.set_badge. rewrite modify_run. unfold NavItem._draw.
  destruct (nav_paint_fine (NavItem.mk (NavItem.icon n) (NavItem.label n) (NavItem.selected n) total
    (NavItem.cv n)) false (NavItem.cv n)) as [c Hc].
  cbn [NavItem.cv]. rewrite Hc. eexists _, _. split; [reflexivity|]. by rewrite dict_get_set_eq.
Qed.

(** Refreshing the list brings it in step with the model it reads. *)
Lemma refresh_list_run m s :
  model_drawable m → dict_ok (cm_conversations m) → screen_ready s →
  ∃ s', _refresh_list m s = (s', Ok tt) ∧ screen_ready s' ∧ list_shows s' m ∧ same_but_list s s'.
Proof.
  intros Hm Hok Hs. unfold _refresh_list. cbv zeta. rewrite !modify_run.
  set (s1 := set_empty_list _ (set_rows _ s)).
  assert (screen_ready s1) as Hs1.
  { destruct Hs. constructor; try done; cbn.
    - eapply sublist_NoDup; [done|]. apply fmap_sublist, sublist_filter.
    - intros key i r Hg%dict_get_In. apply list_elem_of_filter in Hg as [_ Hg].
      eapply rd_keys0, dict_In_get; done. }
  destruct (refresh_rows_run m (keys m) 0 s1 Hm Hs1 (NoDup_keys m Hok))
    as (rows & E & Hr & Hg & _ & Hkeys).
  { intros k. apply elem_of_keys. }
  unfold mbind at 1, M_bind at 1. rewrite E. rewrite modify_run.
  set (s2 := set_unread_label _ (set_rows rows s1)).
  destruct (badge_run (unread_total m) s2) as (nav & n & -> & Hn & Hb).
  { exact (rd_chats _ Hs). }
  eexists. split; [reflexivity|]. split_and!.
  - by destruct Hr; constructor.
  - constructor; cbn; [|..|done|done|by exists n].
    + intros i key Hi. destruct (Hg i key Hi) as (r & ? & ?). by exists r.
    + intros key Hk. apply Hkeys in Hk as [|Hk]; [done|]. unfold s1 in Hk. cbn in Hk.
      apply list_elem_of_fmap in Hk as (kr & -> & [Hin _]%list_elem_of_filter). done.
  - done.
Qed.

(** ** What each event repaints *)

Definition list_part (s : screen) := (sc_rows s, sc_empty_list s, sc_unread_label s, sc_nav s).
Definition state_part (s : screen) :=
  (sc_entry_enabled s, sc_send s, sc_strip_shown s, sc_strip_text s, sc_strip_colour s).

(** The transcript still shows the same messages; there may be another notice. *)
Definition chat_kept (s s' : screen) : Prop :=
  Transcript.messages (sc_transcript s') = Transcript.messages (sc_transcript s) ∧
  Transcript.empty_text (sc_transcript s') = Transcript.empty_text (sc_transcript s) ∧
  (texts_of (cv_items (Transcript.cv (sc_transcript s))) = visible_texts (sc_transcript s) →
   texts_of (cv_items (Transcript.cv (sc_transcript s'))) = visible_texts (sc_transcript s')).

Lemma chat_kept_refl s s' : sc_transcript s' = sc_transcript s → chat_kept s s'.
Proof. unfold chat_kept. by intros ->. Qed.

Lemma list_shows_part s s' m : list_part s' = list_part s → list_shows s m → list_shows s' m.
Proof.
  intros [= E1 E2 E3 E4] []. constructor; by rewrite ?E1, ?E2, ?E3, ?E4.
Qed.

Lemma state_shows_part s s' m : state_part s' = state_part s → state_shows s m → state_shows s' m.
Proof. intros [= E1 E2 E3 E4 E5]. unfold state_shows. by rewrite E1, E2, E3, E4, E5. Qed.

Lemma chat_shows_kept s s' m : chat_kept s s' → chat_shows s m → chat_shows s' m.
Proof. intros (E1 & E2 & Ht) (H1' & H2' & H3'). unfold chat_shows. rewrite E1, E2. auto. Qed.

(** [m] with the conversation on screen in it. *)
Definition settled (m : ChatModel) : ChatModel :=
  match cm_active m with Some a => (conversation a m).1 | None => m end.

Lemma conversation_messages m k : model_drawable m → Forall drawable (c_messages (conversation k m).2).
Proof.
  intros Hm. unfold conversation. destruct (dict_get _ _) as [c|] eqn:E; [|constructor].
  by apply (md_conversations m Hm k c).
Qed.

Lemma conversation_drawable m k : encodable k → model_drawable m → model_drawable (conversation k m).1.
Proof.
  intros He Hm. unfold conversation. destruct (dict_get _ _) as [c|] eqn:E; [done|].
  destruct Hm. constructor; cbn; [|done..]. intros k' c'. rewrite dict_get_set.
  destruct (decide (k' = k)) as [->|]; [|apply md_conversations0].
  intros [= <-]. split; [done|constructor].
Qed.

Lemma conversation_dict_ok m k : dict_ok (cm_conversations m) → dict_ok (cm_conversations (conversation k m).1).
Proof.
  intros Hm. unfold conversation. destruct (dict_get _ _); [done|]. cbn. by apply dict_set_ok.
Qed.

Lemma settled_ok m : model_drawable m → dict_ok (cm_conversations m) →
  model_drawable (settled m) ∧ dict_ok (cm_conversations (settled m)).
Proof.
  intros Hm Hok. unfold settled. destruct (cm_active m) as [a|] eqn:E; [|done].
  split; [|by apply conversation_dict_ok]. apply conversation_drawable; [|done].
  by apply (md_active m Hm).
Qed.

(** Showing other messages, or another notice. *)
Lemma show_run l e s : screen_ready s → Forall drawable l →
  ∃ tr, on_transcript (Transcript.show l e) s = (set_transcript tr s, Ok tt) ∧
        Transcript.messages tr = l ∧ Transcript.empty_text tr = e ∧ Transcript.notices tr = [] ∧
        texts_of (cv_items (Transcript.cv tr)) = visible_texts tr.
Proof.
  intros Hs Hl. unfold part, Transcript.show. rewrite modify_run.
  match goal with |- context [Transcript.redraw ?t] =>
    destruct (redraw_shows t Hl) as (tr & -> & (E1 & E2 & E3 & _ & E5 & _) & Ht & _) end.
  exists tr. cbn in *. split_and!; try done.
  rewrite Ht. unfold visible_texts. by rewrite E1, E2, E3, E5.
Qed.

Lemma notice_run text s : screen_ready s →
  ∃ tr, on_transcript (Transcript.notice text) s = (set_transcript tr s, Ok tt) ∧
        Transcript.messages tr = Transcript.messages (sc_transcript s) ∧
        Transcript.empty_text tr = Transcript.empty_text (sc_transcript s) ∧
        Transcript.notices tr = Transcript.notices (sc_transcript s) ++ [text] ∧
        texts_of (cv_items (Transcript.cv tr)) = visible_texts tr.
Proof.
  intros Hs. unfold part, Transcript.notice. rewrite modify_run.
  match goal with |- context [Transcript.redraw ?t] =>
    destruct (redraw_shows t (rd_transcript s Hs)) as (tr & -> & (E1 & E2 & E3 & _ & E5 & _) & Ht & _) end.
  exists tr. cbn in *. split_and!; try done.
  rewrite Ht. unfold visible_texts. by rewrite E1, E2, E3, E5.
Qed.

Lemma draw_header_run m s : model_drawable m →
  ∃ c, _draw_header m s = (set_header c s, Ok tt).
Proof.
  intros Hm. unfold _draw_header, part. destruct (header_paint_fine m Hm (sc_header s)) as [c ->].
  by eexists.
Qed.

Lemma ready_part s s' :
  sc_rows s' = sc_rows s → sc_nav s' = sc_nav s →
  Forall drawable (Transcript.messages (sc_transcript s')) → screen_ready s → screen_ready s'.
Proof. intros E1 E2 Hd []. constructor; by rewrite ?E1, ?E2. Qed.

Lemma redraw_run m s : model_drawable m → screen_ready s →
  ∃ s', _redraw m s = (s', Ok (settled m)) ∧ screen_ready s' ∧ chat_shows s' m ∧
        list_part s' = list_part s ∧ state_part s' = state_part s.
Proof.
  intros Hm Hs. unfold _redraw, settled. destruct (draw_header_run m s Hm) as [c Hc].
  unfold mbind at 1, M_bind at 1. rewrite Hc.
  assert (screen_ready (set_header c s)) as Hs1.
  { apply (ready_part s); try done. exact (rd_transcript s Hs). }
  unfold chat_shows, chat_view. destruct (cm_active m) as [a|] eqn:Ea.
  - destruct (conversation a m) as [m1 cv] eqn:Ec.
    assert (Forall drawable (c_messages cv)) as Hd.
    { pose proof (conversation_messages m a Hm) as Hd. by rewrite Ec in Hd. }
    destruct (show_run (c_messages cv) ((&"Say hi to ") ++ a) _ Hs1 Hd) as (tr & E & H1' & H2' & H3' & H4').
    unfold mbind, M_bind. rewrite E. eexists. split; [reflexivity|].
    split_and!; try done. apply (ready_part s); try done. cbn. by rewrite H1'.
  - destruct (show_run [] (&"No messages yet") _ Hs1) as (tr & E & H1' & H2' & H3' & H4'); [constructor|].
    unfold mbind, M_bind. rewrite E. eexists. split; [reflexivity|].
    split_and!; try done. apply (ready_part s); try done. cbn. by rewrite H1'.
Qed.

Definition refreshes (e : Event) : bool :=
  match e with
  | MessageAdded _ _ | ConversationSelected _ | HistoryLoaded _ _ | UnreadChanged _ _
  | RoomMembersChanged _ _ | RosterReplaced _ | ContactsChanged _ | PresenceChanged _ _ => true
  | _ => false
  end.

Definition redraws (m : ChatModel) (e : Event) : bool :=
  match e with
  | MessageAdded k _ | ReceiptChanged k _ _ => bool_decide (Some k = cm_active m)
  | ConversationSelected _ | HistoryLoaded _ _ => true
  | _ => false
  end.

Definition tells_state (e : Event) : bool :=
  match e with ConnectionStateChanged _ => true | _ => false end.

(** The model that the list is refreshed from. *)
Definition refreshed_from (m : ChatModel) (e : Event) : ChatModel :=
  if redraws m e then settled m else m.

Definition event_agrees (m : ChatModel) (e : Event) : Prop :=
  match e with ConnectionStateChanged state => cm_connection_state m = state | _ => True end.

(** What is known after an event has been rendered. *)
Definition rendered (m : ChatModel) (e : Event) (s s' : screen) : Prop :=
  screen_ready s' ∧
  (if refreshes e then list_shows s' (refreshed_from m e) else list_part s' = list_part s) ∧
  (if redraws m e then chat_shows s' m else chat_kept s s') ∧
  (if tells_state e then state_shows s' m else state_part s' = state_part s).

Lemma render_refresh m s e :
  model_drawable m → dict_ok (cm_conversations m) → screen_ready s →
  refreshes e = true → redraws m e = false → tells_state e = false →
  ∃ s', _refresh_list m s = (s', Ok tt) ∧ rendered m e s s' ∧ same_but_list s s'.
Proof.
  intros Hm Hok Hs He Hr Ht. destruct (refresh_list_run m s Hm Hok Hs) as (s' & E & Hs' & Hl & Hsame).
  exists s'. split_and!; try done. unfold rendered, refreshed_from. rewrite He, Hr, Ht.
  destruct Hsame as (_ & _ & _ & E1 & E2 & E3 & E4 & E5 & E6).
  split_and!; [done..|by apply chat_kept_refl|]. unfold state_part. congruence.
Qed.

Lemma render_redraw m s e :
  model_drawable m → dict_ok (cm_conversations m) → screen_ready s →
  refreshes e = true → redraws m e = true → tells_state e = false →
  ∃ s', (m' ← _redraw m; _refresh_list m') s = (s', Ok tt) ∧ rendered m e s s'.
Proof.
  intros Hm Hok Hs He Hr Ht. destruct (redraw_run m s Hm Hs) as (s1 & E1 & Hs1 & Hc & Hl & Hst).
  destruct (settled_ok m Hm Hok) as [Hm' Hok'].
  destruct (refresh_list_run (settled m) s1 Hm' Hok' Hs1) as (s2 & E2 & Hs2 & Hl2 & Hsame).
  exists s2. unfold mbind, M_bind. rewrite E1, E2. split; [done|].
  unfold rendered, refreshed_from. rewrite He, Hr, Ht.
  destruct Hsame as (_ & _ & _ & F1 & F2 & F3 & F4 & F5 & F6).
  split_and!; [done..| |].
  - eapply chat_shows_kept; [by apply chat_kept_refl|done].
  - rewrite <-Hst. unfold state_part. congruence.
Qed.

Lemma render_notice m s e text :
  screen_ready s → refreshes e = false → redraws m e = false → tells_state e = false →
  ∃ s', on_transcript (Transcript.notice text) s = (s', Ok tt) ∧ rendered m e s s'.
Proof.
  intros Hs He Hr Ht. destruct (notice_run text s Hs) as (tr & -> & E1 & E2 & E3 & E4).
  eexists. split; [reflexivity|]. unfold rendered. rewrite He, Hr, Ht. split_and!; try done.
  apply (ready_part s); try done. cbn. rewrite E1. exact (rd_transcript s Hs).
Qed.

Lemma show_state_run state s : ∃ s', _show_state state s = (s', Ok tt) ∧
  sc_rows s' = sc_rows s ∧ sc_empty_list s' = sc_empty_list s ∧
  sc_unread_label s' = sc_unread_label s ∧ sc_nav s' = sc_nav s ∧
  sc_transcript s' = sc_transcript s ∧ sc_entry_enabled s' = sc_entry_enabled s ∧
  sc_send s' = sc_send s ∧
  (if sc_strip_shown s' then Some (sc_strip_text s', sc_strip_colour s') else None) =
  dict_get STRIP (to_upper state).
Proof.
  unfold _show_state. destruct (dict_get STRIP (to_upper state)) as [[text colour]|].
  - rewrite !modify_run. unfold _draw_strip, mbind, M_bind, get, part.
    match goal with |- context [paint_strip ?t ?c] =>
      destruct (strip_paint_fine t c) as [c' ->] end.
    by eexists.
  - by eexists.
Qed.

Lemma render_state m s state :
  model_drawable m → screen_ready s → cm_connection_state m = state →
  ∃ s', _render m (ConnectionStateChanged state) s = (s', Ok tt) ∧
        rendered m (ConnectionStateChanged state) s s'.
Proof.
  intros Hm Hs Hst. cbn [_render]. unfold _set_composer. rewrite M_bind_assoc, modify_run.
  unfold part, PillButton.set_enabled, PillButton._draw.
  unfold mbind at 1, M_bind at 1. rewrite modify_run.
  match goal with |- context [PillButton.paint ?b ?c] =>
    destruct (pill_paint_fine b c) as [c1 ->] end.
  match goal with |- context [_show_state state ≫= _] => unfold mbind at 1, M_bind at 1 end.
  match goal with |- context [_show_state state ?s0] =>
    destruct (show_state_run state s0) as (s2 & -> & E1 & E2 & E3 & E4 & E5 & E6 & E7 & E8) end.
  unfold _draw_me, part. destruct (me_paint_fine m Hm (sc_me s2)) as [c2 ->].
  eexists. split; [reflexivity|]. unfold rendered. cbn [refreshes redraws tells_state].
  split_and!.
  - apply (ready_part s); cbn; [by rewrite E1|by rewrite E4|rewrite E5; apply (rd_transcript s Hs)|done].
  - unfold list_part. cbn. by rewrite E1, E2, E3, E4.
  - apply chat_kept_refl. cbn. by rewrite E5.
  - unfold state_shows. cbn. rewrite E6, E7, E8, Hst. done.
Qed.

Lemma render_presence m s user online :
  model_drawable m → dict_ok (cm_conversations m) → screen_ready s →
  ∃ s', _render m (PresenceChanged user online) s = (s', Ok tt) ∧
        rendered m (PresenceChanged user online) s s'.
Proof.
  intros Hm Hok Hs. cbn [_render].
  destruct (render_refresh m s (PresenceChanged user online) Hm Hok Hs) as (s1 & E1 & Hr & Hsame);
    [done..|]. unfold mbind at 1, M_bind at 1. rewrite E1.
  destruct (draw_header_run m s1 Hm) as [c Hc]. unfold mbind at 1, M_bind at 1. rewrite Hc.
  destruct Hr as (Hs1 & Hl & Hk & Hst). cbn [refreshes redraws tells_state refreshed_from] in *.
  destruct (notice_run (user ++ &" is " ++ if online then &"online" else &"offline")
    (set_header c s1)) as (tr & -> & F1 & F2 & F3 & F4).
  { apply (ready_part s1); try done. exact (rd_transcript s1 Hs1). }
  eexists. split; [reflexivity|]. unfold rendered. cbn [refreshes redraws tells_state].
  destruct Hk as (G1 & G2 & _). cbn in F1, F2. split_and!.
  - apply (ready_part s1); try done. cbn. rewrite F1. exact (rd_transcript s1 Hs1).
  - by apply (list_shows_part s1).
  - unfold chat_kept. cbn. rewrite F1, F2. done.
  - exact Hst.
Qed.

Lemma render_run m e s :
  model_drawable m → dict_ok (cm_conversations m) → screen_ready s → event_agrees m e →
  ∃ s', _render m e s = (s', Ok tt) ∧ rendered m e s s'.
Proof.
  intros Hm Hok Hs He.
  assert (∀ e, refreshes e = true → redraws m e = false → tells_state e = false →
    ∃ s', _refresh_list m s = (s', Ok tt) ∧ rendered m e s s') as Hrefresh.
  { intros e' ? ? ?. destruct (render_refresh m s e') as (s' & ? & ? & _); [done..|eauto]. }
  destruct e as [u|us|u b|k x|k n|k i st|k n|k us|r us|k|st|c t|us];
    try (by apply Hrefresh).
  - exists s. split; [done|]. by split_and!; [|done|apply chat_kept_refl|done].
  - by apply render_presence.
  - cbn [_render]. case_decide as Hk.
    + apply render_redraw; try done. by apply bool_decide_eq_true_2.
    + destruct (Hrefresh (MessageAdded k x)) as (s' & ? & ?);
        [done|by apply bool_decide_eq_false_2|done|]. by exists s'.
  - cbn [_render]. case_decide as Hk.
    + destruct (redraw_run m s Hm Hs) as (s1 & E1 & Hs1 & Hc & Hl & Hst).
      exists s1. unfold mbind, M_bind. rewrite E1. split; [done|].
      unfold rendered. cbn [refreshes redraws tells_state]. by rewrite bool_decide_eq_true_2.
    + exists s. split; [done|]. unfold rendered. cbn [refreshes redraws tells_state].
      rewrite bool_decide_eq_false_2 by done. by split_and!; [|done|apply chat_kept_refl|done].
  - by apply render_redraw.
  - destruct (draw_header_run m s Hm) as [c Hc]. eexists. split; [exact Hc|].
    split_and!; [|done|by apply chat_kept_refl|done].
    apply (ready_part s); try done. exact (rd_transcript s Hs).
  - by apply render_redraw.
  - by apply render_state.
  - by apply render_notice.
Qed.

(** ** A list of events, each with the model at the time *)

Definition last_refresh (m : ChatModel) (events : list (ChatModel * Event)) : ChatModel :=
  foldl (λ acc me, if refreshes me.2 then refreshed_from me.1 me.2 else acc) m events.
Definition last_redraw (m : ChatModel) (events : list (ChatModel * Event)) : ChatModel :=
  foldl (λ acc me, if redraws me.1 me.2 then me.1 else acc) m events.
Definition last_state (m : ChatModel) (events : list (ChatModel * Event)) : ChatModel :=
  foldl (λ acc me, if tells_state me.2 then me.1 else acc) m events.

Definition event_ok (me : ChatModel * Event) : Prop :=
  model_drawable me.1 ∧ dict_ok (cm_conversations me.1) ∧ event_agrees me.1 me.2.

Lemma replay_shows events m1 m2 m3 s :
  Forall event_ok events → screen_ready s → list_shows s m1 → chat_shows s m2 → state_shows s m3 →
  ∃ s', replay events s = (s', Ok tt) ∧ screen_ready s' ∧
        list_shows s' (last_refresh m1 events) ∧ chat_shows s' (last_redraw m2 events) ∧
        state_shows s' (last_state m3 events).
Proof.
  revert m1 m2 m3 s. induction events as [|[m e] events IH]; intros m1 m2 m3 s Hok Hs Hl Hc Hst.
  { by exists s. }
  apply Forall_cons in Hok as [(Hm & Hd & Ha) Hok].
  destruct (render_run m e s Hm Hd Hs Ha) as (s1 & E & Hs1 & Hl1 & Hc1 & Hst1).
  unfold replay. cbn [forM fst snd]. unfold mbind at 1, M_bind at 1. rewrite E.
  unfold last_refresh, last_redraw, last_state. cbn [foldl fst snd]. apply IH; [done..| | |].
  - destruct (refreshes e); [done|by eapply list_shows_part].
  - destruct (redraws m e); [done|by eapply chat_shows_kept].
  - destruct (tells_state e); [done|by eapply state_shows_part].
Qed.
End Facts.
