(* ===== verification/TkInStep.v ===== *)
(** * The window is never behind

    Every operation of the model, with the events it emits, put through
    [TkFacts.replay_shows]: after any operations the list, the transcript, the
    composer and the strip are what the model says. *)

From S2P Require Import Prelude Wp PyStr PyDict Utf8 Json Conversation ChatModel ChatModelFacts.
From S2P Require Import ChatModelTypes Events.
From S2P Require Import Calendar Theme Backdrop Widgets WidgetsFacts TkView TkFacts.

Section InStep.
Context `{Runtime} `{Display} `{Casing} `{Clock} `{Metrics} `{!MetricsLaws}.

(** ** What the views depend on *)

Definition core (m : ChatModel) :=
  (cm_username m, cm_connection_state m, cm_roster m, cm_conversations m, cm_active m).

(** What the list and the transcript depend on. *)
Definition looks (m : ChatModel) := (cm_roster m, cm_conversations m, cm_active m).

Lemma core_looks m m' : core m = core m' → looks m = looks m'.
Proof. unfold core, looks. congruence. Qed.

Lemma row_data_looks m m' k : looks m = looks m' → row_data m k = row_data m' k.
Proof.
  intros [= Er Ec Ea]. unfold row_data. rewrite !conversation_snd, Ec, Ea.
  unfold status_of, presence_colour, is_online. by rewrite Er.
Qed.

Lemma list_view_looks m m' : looks m = looks m' → list_view m = list_view m'.
Proof.
  intros Hc. unfold list_view. assert (keys m = keys m') as ->.
  { injection Hc as _ Ec _. unfold keys. by rewrite Ec. }
  f_equal.
  - apply list_fmap_ext. intros _ k _. by rewrite (row_data_looks m m' k Hc).
  - injection Hc as _ Ec _. unfold unread_total. by rewrite Ec.
Qed.

Lemma chat_view_looks m m' : looks m = looks m' → chat_view m = chat_view m'.
Proof.
  intros [= Er Ec Ea]. unfold chat_view. rewrite Ea. f_equal.
  destruct (cm_active m'); [|done]. by rewrite !conversation_snd, Ec.
Qed.

(** A screen that shows a list shows any model with the same list. *)
Lemma list_shows_view s m m' : list_view m = list_view m' → list_shows s m → list_shows s m'.
Proof.
  unfold list_view. intros [= El Eu] [Hrows Honly Hhint Hlabel Hbadge].
  assert (keys m = keys m') as Ek.
  { apply (f_equal (fmap fst)) in El. rewrite <-!list_fmap_compose in El. cbn in El.
    change (fst ∘ (λ key : pystr, (key, row_data m key))) with (λ k : pystr, k) in El.
    change (fst ∘ (λ key : pystr, (key, row_data m' key))) with (λ k : pystr, k) in El.
    by rewrite !list_fmap_id in El. }
  constructor; rewrite <-?Ek, <-?Eu; try done.
  intros i key Hi. destruct (Hrows i key Hi) as (r & Hg & Hk & Hv). exists r.
  split_and!; [done..|]. rewrite Hv.
  apply (f_equal (λ l, l !! i)) in El. rewrite !list_lookup_fmap, <-Ek, Hi in El.
  exact (f_equal (λ o : option (pystr * _), match o with Some p => p.2 | None => row_data m key end) El).
Qed.

Lemma chat_shows_view s m m' : chat_view m = chat_view m' → chat_shows s m → chat_shows s m'.
Proof.
  intros E. unfold chat_shows. rewrite E. unfold chat_view in E. injection E as -> _. done.
Qed.

Lemma state_shows_view s m m' :
  cm_connection_state m = cm_connection_state m' → state_shows s m → state_shows s m'.
Proof. unfold state_shows. by intros ->. Qed.

(** ** The invariant of the model *)

Record model_inv (m : ChatModel) : Prop := {
  mi_drawable : model_drawable m;
  mi_ok : dict_ok (cm_conversations m);
  mi_active a : cm_active m = Some a → is_Some (dict_get (cm_conversations m) a);
}.

Lemma model_inv_core m m' : core m = core m' → model_inv m → model_inv m'.
Proof.
  intros [= Eu Es Er Ec Ea] [[] ? ?]. constructor; [constructor|..];
    rewrite <-?Ec, <-?Ea, <-?Eu; done.
Qed.

Lemma settled_core m : model_inv m → core (settled m) = core m.
Proof.
  intros Hm. unfold settled. destruct (cm_active m) as [a|] eqn:E; [|done].
  destruct (mi_active m Hm a E) as [c Hc]. by rewrite (conversation_2 m a c Hc).
Qed.

(** The views are in step after the events. *)
Definition step_ok (l : nat) (m m' : ChatModel) : Prop :=
  model_inv m' ∧ ∃ events, tells l m m' events ∧ Forall event_ok events ∧
    list_view (last_refresh m events) = list_view m' ∧
    chat_view (last_redraw m events) = chat_view m' ∧
    cm_connection_state (last_state m events) = cm_connection_state m'.

Lemma last_refresh_view events m v :
  (∀ me, me ∈ events → refreshes me.2 = true → list_view (refreshed_from me.1 me.2) = v) →
  list_view m = v ∨ existsb (λ me, refreshes me.2) events = true →
  list_view (last_refresh m events) = v.
Proof.
  revert m. induction events as [|[m0 e] events IH]; intros m Hin Hm.
  { destruct Hm; done. }
  unfold last_refresh. cbn [foldl fst snd]. apply IH.
  { intros me Hme. apply Hin. by right. }
  cbn in Hm. destruct (refreshes e) eqn:E.
  - left. apply (Hin (m0, e)); [by left|done].
  - destruct Hm; auto.
Qed.

Lemma last_redraw_view events m v :
  (∀ me, me ∈ events → redraws me.1 me.2 = true → chat_view me.1 = v) →
  chat_view m = v ∨ existsb (λ me, redraws me.1 me.2) events = true →
  chat_view (last_redraw m events) = v.
Proof.
  revert m. induction events as [|[m0 e] events IH]; intros m Hin Hm.
  { destruct Hm; done. }
  unfold last_redraw. cbn [foldl fst snd]. apply IH.
  { intros me Hme. apply Hin. by right. }
  cbn in Hm. destruct (redraws m0 e) eqn:E.
  - left. apply (Hin (m0, e)); [by left|done].
  - destruct Hm; auto.
Qed.

Lemma last_state_view events m v :
  (∀ me, me ∈ events → cm_connection_state me.1 = v) →
  cm_connection_state m = v ∨ existsb (λ me, tells_state me.2) events = true →
  cm_connection_state (last_state m events) = v.
Proof.
  revert m. induction events as [|[m0 e] events IH]; intros m Hin Hm.
  { destruct Hm; done. }
  unfold last_state. cbn [foldl fst snd]. apply IH.
  { intros me Hme. apply Hin. by right. }
  cbn in Hm. destruct (tells_state e) eqn:E.
  - left. apply (Hin (m0, e)). by left.
  - destruct Hm; auto.
Qed.

(** The common case: every event is emitted once the views have changed. *)
Lemma step_late l m m' events :
  model_inv m' → tells l m m' events →
  (∀ me, me ∈ events → core me.1 = core m' ∧ event_agrees me.1 me.2) →
  list_view m = list_view m' ∨ existsb (λ me, refreshes me.2) events = true →
  chat_view m = chat_view m' ∨ existsb (λ me, redraws me.1 me.2) events = true →
  cm_connection_state m = cm_connection_state m' ∨ existsb (λ me, tells_state me.2) events = true →
  step_ok l m m'.
Proof.
  intros Hm Ht Hev Hl Hc Hs. split; [done|]. exists events.
  assert (∀ me, me ∈ events → model_inv me.1) as Hinv.
  { intros me Hme. destruct (Hev me Hme) as [Hcore _]. by apply (model_inv_core m'). }
  split_and!; [done|..].
  - apply Forall_forall. intros me Hme. destruct (Hinv me Hme). split_and!; [done..|by apply Hev].
  - apply last_refresh_view; [|done]. intros me Hme _. apply list_view_looks, core_looks.
    destruct (Hev me Hme) as [Hcore _]. unfold refreshed_from.
    destruct (redraws me.1 me.2); [rewrite settled_core by auto|]; done.
  - apply last_redraw_view; [|done]. intros me Hme _. apply chat_view_looks, core_looks. by apply Hev.
  - apply last_state_view; [|done]. intros me Hme. destruct (Hev me Hme) as [[= ? E] _]. done.
Qed.

(** ** The operations *)

(** The arguments can be drawn.  [Open] is left out, because it adds a conversation
    without telling anybody: the window only asks for one to select it, which is
    [Picks]. *)
Definition op_ok (l : nat) (o : op) : Prop :=
  match o with
  | Identity u => encodable u
  | Open _ => False
  | Add k x => encodable k ∧ drawable x
  | History k xs => encodable k ∧ Forall drawable xs
  | Select (Some k) => encodable k
  | Members r _ => encodable r
  | Subscribe l' | Unsubscribe l' => l' ≠ l
  | _ => True
  end.

Lemma put_inv k c m :
  model_inv m → encodable k → Forall drawable (c_messages c) → model_inv (put_conversation k c m).
Proof.
  intros [Hd Hok Ha] He Hc. destruct Hd as [Hconv Hact Huser]. constructor; [constructor|..]; cbn; try done.
  - intros k' c'. rewrite dict_get_set. destruct (decide (k' = k)) as [->|]; [|apply Hconv].
    by intros [= <-].
  - by apply dict_set_ok.
  - intros a Hact'. rewrite dict_get_set. destruct (decide (a = k)); [by eexists|auto].
Qed.

Lemma conversation_inv k m : encodable k → model_inv m → model_inv (conversation k m).1.
Proof.
  intros He Hm. unfold conversation. destruct (dict_get _ _); [done|].
  by apply (put_inv k (new_conversation k)).
Qed.

Lemma emit_inv e m : model_inv m → model_inv (_emit e m).
Proof. by apply model_inv_core. Qed.

Lemma set_typing_inv k u b m : model_inv m → model_inv (set_typing k u b m).
Proof. apply model_inv_core. unfold set_typing. by case_decide. Qed.

Lemma nothing_told l m m' :
  model_inv m' → cm_listeners m' = cm_listeners m → cm_calls m' = cm_calls m →
  looks m = looks m' → cm_connection_state m = cm_connection_state m' → step_ok l m m'.
Proof.
  intros Hm Hl Hc Hlook Hs. apply (step_late l m m' []).
  - done.
  - by apply tells_silent.
  - intros me []%not_elem_of_nil.
  - left. by apply list_view_looks.
  - left. by apply chat_view_looks.
  - by left.
Qed.

Lemma one_event l m m' e :
  model_inv m' → cm_listeners m' = cm_listeners m → cm_calls m' = cm_calls m →
  event_agrees m' e →
  list_view m = list_view m' ∨ refreshes e = true →
  chat_view m = chat_view m' ∨ redraws m' e = true →
  cm_connection_state m = cm_connection_state m' ∨ tells_state e = true →
  step_ok l m (_emit e m').
Proof.
  intros Hm Hl Hc Ha H1' H2' H3'. apply (step_late l m _ [(visible m', e)]).
  - by apply emit_inv.
  - by apply tells_change.
  - intros me ->%list_elem_of_singleton. split; [done|]. by destruct e.
  - cbn. rewrite orb_false_r. destruct H1' as [->|]; [left|by right]. by apply list_view_looks.
  - cbn. rewrite orb_false_r. destruct H2' as [->|]; [left; by apply chat_view_looks|right].
    by destruct e.
  - cbn. by rewrite orb_false_r.
Qed.

Lemma identity_ok l u m : encodable u → model_inv m → step_ok l m (set_identity u m).
Proof.
  intros He Hm. apply one_event; try done; [|by left; apply list_view_looks|by left; apply chat_view_looks|by left].
  destruct Hm as [[] ? ?]. constructor; [constructor|..]; cbn; try done. by intros ? [= <-].
Qed.

Lemma state_ok l st m : model_inv m → step_ok l m (set_connection_state st m).
Proof.
  intros Hm. unfold set_connection_state. case_decide; [by apply nothing_told|].
  apply one_event; try done; [by destruct Hm as [[] ? ?]; constructor|..];
    [left; by apply list_view_looks|left; by apply chat_view_looks|by right].
Qed.

Lemma chat_view_roster m m' :
  cm_conversations m = cm_conversations m' → cm_active m = cm_active m' → chat_view m = chat_view m'.
Proof.
  intros Ec Ea. unfold chat_view. rewrite Ea. f_equal. destruct (cm_active m'); [|done].
  by rewrite !conversation_snd, Ec.
Qed.

(** A change to the roster and the contacts, told by an event that refreshes. *)
Lemma roster_ok l m m' e :
  model_inv m → core m = core (set_roster (cm_roster m) m') →
  cm_listeners m' = cm_listeners m → cm_calls m' = cm_calls m →
  event_agrees m' e → refreshes e = true → step_ok l m (_emit e m').
Proof.
  intros Hm [= Eu Es Ec Ea] Hl Hc He Hr. apply one_event; try done; [|by right|..].
  - destruct Hm as [[] ? ?]. constructor; [constructor|..]; rewrite <-?Ec, <-?Ea, <-?Eu; done.
  - left. by apply chat_view_roster.
  - left. done.
Qed.

Lemma contacts_ok l j m m' : model_inv m → replace_contacts j m = Ok m' → step_ok l m m'.
Proof.
  intros Hm. unfold replace_contacts. destruct (py_iter j) as [es|]; [|done]. cbn [mbind res_bind].
  destruct (fresh_contacts es) as [d|]; [|done]. cbn [mbind res_bind].
  destruct (dict_eqb _ _); intros [= <-]; [by apply nothing_told|]. by apply roster_ok.
Qed.

Lemma presence_ok l u b m : model_inv m → step_ok l m (set_presence u b m).
Proof.
  intros Hm. unfold set_presence.
  destruct (dict_has (cm_contacts m) u); (case_decide; [apply nothing_told|apply roster_ok]); try done.
  by apply (model_inv_core m).
Qed.

(** Events that are emitted once the views are as in [c]. *)
Definition tells_late (l : nat) (m m' : ChatModel) (c : ChatModel) : Prop :=
  core m' = core c ∧ ∃ events, tells l m m' events ∧
    ∀ me, me ∈ events → core me.1 = core c ∧ event_agrees me.1 me.2.

Lemma late_silent l m m' :
  cm_listeners m' = cm_listeners m → cm_calls m' = cm_calls m → tells_late l m m' m'.
Proof.
  intros Hl Hc. split; [done|]. exists []. split; [by apply tells_silent|]. by intros me []%not_elem_of_nil.
Qed.

Lemma late_emit l m m' e c :
  tells_late l m m' c → (∀ st, e ≠ ConnectionStateChanged st) → tells_late l m (_emit e m') c.
Proof.
  intros (Hc & ev & Ht & Hev) He. split; [done|]. exists (ev ++ [(visible m', e)]).
  split; [eapply tells_trans; [exact Ht|apply tells_emit]|].
  intros me [| ->%list_elem_of_singleton]%elem_of_app; [auto|]. split; [done|]. by destruct e; try naive_solver.
Qed.

Lemma late_typing l m m' k u b c :
  tells_late l m m' c → tells_late l m (set_typing k u b m') c.
Proof.
  intros (Hc & ev & Ht & Hev).
  set (who := if b then {[u]} ∪ default ∅ (dict_get (cm_typing m') k)
              else default ∅ (dict_get (cm_typing m') k) ∖ {[u]}).
  assert (tells_late l m (set_typists (dict_set (cm_typing m') k who) m') c) as Hs.
  { split; [done|]. exists ev. split; [|done].
    rewrite <-(app_nil_r ev). eapply tells_trans; [exact Ht|by apply tells_silent]. }
  unfold set_typing. fold who. case_decide; [done|]. by apply late_emit.
Qed.

(** A conversation that is not on screen changes. *)
Lemma chat_view_put k c m m1 :
  cm_active m1 = cm_active m → Some k ≠ cm_active m →
  (∀ a, a ≠ k → dict_get (cm_conversations m1) a = dict_get (cm_conversations m) a) →
  chat_view m = chat_view (put_conversation k c m1).
Proof.
  intros Ea Hk Eo. unfold chat_view. cbn [put_conversation set_conversations cm_active]. rewrite Ea.
  f_equal. destruct (cm_active m) as [a|]; [|done]. rewrite !conversation_snd.
  cbn [put_conversation set_conversations cm_conversations].
  by rewrite dict_get_set_ne, Eo by congruence.
Qed.

(** A new message. *)
Lemma add_in_step l k x m : encodable k → drawable x → model_inv m → step_ok l m (add_message k x m).
Proof.
  intros He Hx Hm. unfold add_message.
  pose proof (conversation_inv k m He Hm) as Hm1.
  pose proof (conversation_messages m k (mi_drawable m Hm)) as Hd.
  destruct (conversation_rest k m) as (El & Ec & Ea & _ & Es & Eo).
  destruct (conversation k m) as [m1 c] eqn:Econv. cbn [fst snd] in *.
  set (c' := add c x _).
  assert (model_inv (put_conversation k c' m1)) as Hm2.
  { apply put_inv; [done..|]. unfold c', add. cbn [c_messages]. apply Forall_app. split; [done|].
    by constructor. }
  set (m2 := put_conversation k c' m1) in *.
  set (m3 := if m_mine x then m2 else set_typing k (m_sender x) false m2).
  assert (tells_late l m m3 m2) as (E32 & ev & Ht & Hev).
  { assert (tells_late l m m2 m2) by by apply late_silent.
    unfold m3. destruct (m_mine x); [done|by apply late_typing]. }
  set (m4 := _emit (MessageAdded k x) m3).
  set (m5 := if decide (c_unread c' = c_unread c) then m4 else _emit (UnreadChanged k (c_unread c')) m4).
  assert (tells_late l m4 m5 m2) as (E52 & ev1 & Ht1 & Hev1).
  { assert (tells_late l m4 m4 m2).
    { split; [done|]. exists []. split; [by apply tells_silent|]. by intros me []%not_elem_of_nil. }
    unfold m5. case_decide; [done|by apply late_emit]. }
  apply (step_late l m m5 (ev ++ [(visible m3, MessageAdded k x)] ++ ev1)).
  - by apply (model_inv_core m2).
  - eapply tells_trans; [exact Ht|]. eapply tells_trans; [apply tells_emit|exact Ht1].
  - intros me. rewrite E52.
    intros [Hin|[ ->%list_elem_of_singleton|Hin]%elem_of_app]%elem_of_app; [auto|by split|auto].
  - right. rewrite existsb_app. cbn. apply orb_true_r.
  - destruct (decide (Some k = cm_active m)) as [Hk|Hk].
    + right. rewrite existsb_app. cbn. apply orb_true_iff. right. apply orb_true_iff. left.
      apply bool_decide_eq_true_2. injection E32 as _ _ _ _ E. cbn. rewrite E. unfold m2. cbn. congruence.
    + left. transitivity (chat_view m2); [by apply chat_view_put|].
      apply chat_view_looks, core_looks. by rewrite E52.
  - left. injection E52 as _ E _ _ _. rewrite E. unfold m2. cbn. congruence.
Qed.

Lemma history_ok l k xs m :
  encodable k → Forall drawable xs → model_inv m → step_ok l m (load_history k xs m).
Proof.
  intros He Hx Hm. unfold load_history. pose proof (conversation_inv k m He Hm) as Hm1.
  destruct (conversation_rest k m) as (El & Ec & Ea & _ & Es & _).
  destruct (conversation k m) as [m1 c]. cbn [fst snd] in *.
  apply one_event; try done; [by apply put_inv|by right|by right|by left].
Qed.

Lemma unread_total_put k c c' m :
  dict_get (cm_conversations m) k = Some c → c_unread c' = c_unread c →
  unread_total (put_conversation k c' m) = unread_total m.
Proof.
  unfold unread_total. cbn [put_conversation set_conversations cm_conversations].
  generalize (cm_conversations m). intros d Hg Hu.
  induction d as [|[k0 c0] d IH]; [done|]. cbn [dict_get dict_set] in *.
  destruct (decide (k = k0)) as [->|]; cbn; [injection Hg as ->; by rewrite Hu|].
  by rewrite IH.
Qed.

(** A conversation whose row stays as it is. *)
Lemma list_view_put k c c' m :
  dict_get (cm_conversations m) k = Some c → c_unread c' = c_unread c →
  (m_body <$> last_message c') = (m_body <$> last_message c) →
  (m_mine <$> last_message c') = (m_mine <$> last_message c) →
  (m_ts <$> last_message c') = (m_ts <$> last_message c) →
  list_view (put_conversation k c' m) = list_view m.
Proof.
  intros Hg Hu Hb Hmine Ht. unfold list_view. rewrite (unread_total_put k c c' m) by done. f_equal.
  assert (keys (put_conversation k c' m) = keys m) as ->.
  { unfold keys. cbn [put_conversation set_conversations cm_conversations].
    by rewrite dict_set_keys by (apply dict_get_is_Some; by rewrite Hg). }
  apply list_fmap_ext. intros _ k' _. f_equal. unfold row_data. rewrite !conversation_snd. cbv zeta.
  cbn [put_conversation set_conversations cm_conversations cm_active].
  rewrite dict_get_set. destruct (decide (k' = k)) as [->|]; [|done].
  rewrite Hg. cbn [from_option id]. rewrite Hu.
  destruct (last_message c') as [x'|], (last_message c) as [x|]; try done.
  injection Hb as Hb. injection Hmine as Hmine. injection Ht as Ht.
  unfold preview_of. by rewrite Hb, Hmine, Ht.
Qed.

Lemma receipt_ok l k i st m : model_inv m → step_ok l m (set_receipt k i st m).
Proof.
  intros Hm. unfold set_receipt.
  destruct (dict_get (cm_conversations m) k) as [c|] eqn:Hg; [|by apply nothing_told].
  destruct (receipt_loop i st (c_messages c)) as [xs|] eqn:Hr; [|by apply nothing_told].
  destruct (md_conversations m (mi_drawable m Hm) k c Hg) as [He Hd].
  apply receipt_loop_spec in Hr as (l1 & x & l2 & El & -> & _).
  assert (drawable x) as Hx.
  { rewrite Forall_forall in Hd. apply Hd. rewrite El. apply elem_of_app. right. by left. }
  apply one_event; try done.
  - apply put_inv; [done..|]. cbn [c_messages]. rewrite El in Hd.
    apply Forall_app in Hd as [Hd1 [_ Hd2]%Forall_cons]. apply Forall_app. split; [done|].
    by constructor.
  - left. symmetry. assert (∀ {A} (f : Message → A), f (replace_state x st) = f x →
      f <$> last (l1 ++ replace_state x st :: l2) = f <$> last (c_messages c)) as Hlast.
    { intros A f Hf. rewrite El. destruct l2 as [|y l2 _] using rev_ind.
      - rewrite !last_snoc. cbn. by rewrite Hf.
      - rewrite !app_comm_cons, !app_assoc, !last_snoc. done. }
    apply (list_view_put k c); [done|done|..]; apply Hlast; done.
  - cbn [redraws]. destruct (decide (Some k = cm_active m)) as [Hk|Hk].
    + right. by apply bool_decide_eq_true_2.
    + left. by apply chat_view_put.
  - by left.
Qed.

Lemma typing_ok l k u b m : model_inv m → step_ok l m (set_typing k u b m).
Proof.
  intros Hm. unfold set_typing. case_decide; [by apply nothing_told; [apply (model_inv_core m)|..]|].
  apply one_event; try done; [by apply (model_inv_core m)|..];
    [left; by apply list_view_looks|left; by apply chat_view_looks|by left].
Qed.

(** What [conversation] returns is what it leaves in the dict. *)
Lemma conversation_get_self k m :
  dict_get (cm_conversations (conversation k m).1) k =
  Some (default (new_conversation k) (dict_get (cm_conversations m) k)).
Proof.
  unfold conversation. destruct (dict_get (cm_conversations m) k) as [c|] eqn:E; [done|].
  cbn. by rewrite dict_get_set_eq.
Qed.

Lemma members_ok l r us m : encodable r → model_inv m → step_ok l m (set_room_members r us m).
Proof.
  intros He Hm. unfold set_room_members. case_decide; [by apply nothing_told|].
  set (m0 := set_rooms _ m).
  assert (model_inv m0) as Hm0 by by apply (model_inv_core m).
  pose proof (conversation_inv r m0 He Hm0) as Hm1.
  destruct (conversation_rest r m0) as (El & Ec & Ea & _ & Es & Eo).
  assert (chat_view m = chat_view (conversation r m0).1) as Hchat.
  { unfold chat_view. rewrite Ea. change (cm_active m0) with (cm_active m). f_equal.
    destruct (cm_active m) as [a|]; [|done]. f_equal. rewrite !conversation_snd.
    change (cm_conversations m) with (cm_conversations m0).
    destruct (decide (a = r)) as [->|]; [|by rewrite Eo].
    by rewrite conversation_get_self. }
  destruct (conversation r m0) as [m1 c]. cbn [fst] in *.
  apply one_event; try done; [by right|by left|by left].
Qed.

Lemma error_ok l c t m : model_inv m → step_ok l m (raise_error c t m).
Proof. intros Hm. apply one_event; try done; by left. Qed.

Lemma conversation_emit e k m :
  conversation k (_emit e m) =
  (set_calls (cm_calls (_emit e m)) (conversation k m).1, (conversation k m).2).
Proof. unfold conversation. cbn. by destruct (dict_get (cm_conversations m) k). Qed.

Lemma active_drawable k m :
  (∀ a, k = Some a → encodable a) → model_inv m → model_drawable (set_active k m).
Proof. intros He [[Hc _ Hu] _ _]. constructor; cbn; [done|apply He|done]. Qed.

(** Looking the selected conversation up makes it, and shows nothing new. *)
Lemma looked_up cs k m :
  encodable k → model_inv m →
  let m1 := set_active (Some k) m in
  let m2 := set_calls cs (conversation k m1).1 in
  model_inv m2 ∧ list_view (settled (visible m1)) = list_view m2 ∧
  chat_view (visible m1) = chat_view m2.
Proof.
  intros He Hm m1 m2.
  assert (model_drawable m1) as Hd1 by (apply active_drawable; [by intros ? [= ->]|done]).
  assert (dict_ok (cm_conversations m1)) as Hok1 by apply (mi_ok m Hm).
  destruct (conversation_rest k m1) as (_ & _ & Ea & _ & _ & _). split_and!.
  - constructor.
    + pose proof (conversation_drawable m1 k He Hd1) as []. by constructor.
    + by apply (conversation_dict_ok m1 k).
    + intros a. unfold m2. cbn [cm_active set_calls]. rewrite Ea. intros [= <-].
      cbn [cm_conversations set_calls]. by rewrite conversation_get_self.
  - apply list_view_looks. unfold settled, m2. cbn. unfold conversation. cbn.
    by destruct (dict_get (cm_conversations m) k).
  - unfold chat_view. cbn [cm_active visible set_calls m2]. rewrite Ea.
    change (cm_active m1) with (Some k). cbn beta iota. rewrite !conversation_snd.
    cbn [m2 set_calls cm_conversations]. by rewrite conversation_get_self.
Qed.

(** Selecting; [m] may follow on [m0] in silence, as it does in [Picks]. *)
Lemma select_in_step l k m0 m :
  (∀ a, k = Some a → encodable a) → model_inv m → tells l m0 m [] → 
  cm_connection_state m0 = cm_connection_state m → step_ok l m0 (select k m).
Proof.
  intros He Hm Ht0 Hst. unfold select. set (m1 := set_active k m).
  assert (model_drawable m1) as Hd1 by by apply active_drawable.
  assert (dict_ok (cm_conversations m1)) as Hok1 by apply (mi_ok m Hm).
  assert (tells l m0 (_emit (ConversationSelected k) m1) [(visible m1, ConversationSelected k)]) as Ht1.
  { apply (tells_trans l m0 m _ [] _ Ht0). by apply tells_change. }
  assert (event_ok (visible m1, ConversationSelected k)) as Hev1.
  { split_and!; [|done|done]. destruct Hd1. by constructor. }
  destruct k as [k|].
  2: { split; [by constructor; [destruct Hd1; by constructor|apply Hok1|]|]. eexists.
       split_and!; [exact Ht1|by constructor|by apply list_view_looks|by apply chat_view_looks|exact Hst]. }
  destruct (conversation_rest k m1) as (El & Ec & Ea & _ & Es & _).
  rewrite conversation_emit. set (m2 := set_calls _ _).
  destruct (looked_up (cm_calls (_emit (ConversationSelected (Some k)) m1)) k m) as (Hm2 & Hl & Hc);
    [by apply He|done|]. fold m1 m2 in Hm2, Hl, Hc.
  assert (tells l m0 m2 [(visible m1, ConversationSelected (Some k))]) as Ht2.
  { intros Hs. destruct (Ht1 Hs) as [T1 T2]. split; [|exact T2].
    unfold subscribed, m2. cbn [cm_listeners set_calls]. by rewrite El. }
  unfold mark_read. case_decide as Hu.
  { split; [done|]. eexists. split_and!; [exact Ht2|by constructor|exact Hl|exact Hc|].
    exact (eq_trans Hst (eq_sym Es)). }
  set (c' := mkConversation _ _ 0).
  assert (model_inv (put_conversation k c' m2)) as Hm3.
  { apply put_inv; [done|by apply He|]. unfold c'. cbn [c_messages].
    by apply conversation_messages. }
  split; [by apply emit_inv|].
  exists [(visible m1, ConversationSelected (Some k)); (visible (put_conversation k c' m2), UnreadChanged k 0)].
  split_and!.
  - eapply (tells_trans l m0 m2 _ [_] [_]); [exact Ht2|by apply tells_change].
  - constructor; [done|]. constructor; [|constructor].
    destruct Hm3 as [[] ? ?]. by split_and!.
  - by apply list_view_looks.
  - etransitivity; [exact Hc|]. unfold chat_view, m2, c'.
    cbn [put_conversation set_conversations cm_active set_calls _emit visible]. rewrite Ea. f_equal.
    change (cm_active m1) with (Some k). cbn beta iota. rewrite !conversation_snd.
    cbn [_emit put_conversation set_conversations cm_conversations set_calls].
    rewrite dict_get_set_eq, conversation_get_self. done.
  - exact (eq_trans Hst (eq_sym Es)).
Qed.

(** ** The window beside the model *)

(** An operation of the model, or a click on a row: the controller looks the
    conversation up, which tells nobody, and then selects it. *)
Inductive step := Does (o : op) | Picks (key : pystr).

Definition run_step (m : ChatModel) (a : step) : ChatModel :=
  match a with
  | Does o => run_op m o
  | Picks key => select (Some key) (conversation key m).1
  end.

Definition step_args_ok (l : nat) (a : step) : Prop :=
  match a with Does o => op_ok l o | Picks key => encodable key end.

(** One step, and the observer [l] on every event of it. *)
Definition watch (l : nat) (a : step) : M (ChatModel * screen) unit := λ w,
  let m := run_step w.1 a in
  let '(s, r) := replay (drop (length (heard_with l w.1)) (heard_with l m)) w.2 in
  ((m, s), r).

Definition watch_all (l : nat) (steps : list step) : M (ChatModel * screen) unit :=
  forM steps (watch l).

(** The window when the main loop starts: it has been told the connection state,
    and [run] has painted it. *)
Definition opened (m : ChatModel) : M screen unit :=
  _render m (ConnectionStateChanged (cm_connection_state m));; first_paint m.

Record window_shows (s : screen) (m : ChatModel) : Prop := {
  wd_list : list_shows s m;
  wd_chat : chat_shows s m;
  wd_state : state_shows s m;
}.

Lemma run_step_ok l m a : model_inv m → step_args_ok l a → step_ok l m (run_step m a).
Proof.
  intros Hm Ha. destruct a as [[u|st|us|j|u b|k|k x|k xs|k i st|k|k u b|r us|c t|l'|l']|key];
    cbn [run_step run_op] in *.
  - by apply identity_ok.
  - by apply state_ok.
  - by apply roster_ok.
  - destruct (replace_contacts j m) eqn:E; [by eapply contacts_ok|by apply nothing_told].
  - by apply presence_ok.
  - done.
  - destruct Ha. by apply add_in_step.
  - destruct Ha. by apply history_ok.
  - by apply receipt_ok.
  - apply select_in_step; [by intros a ->|done|by apply tells_silent|done].
  - by apply typing_ok.
  - by apply members_ok.
  - by apply error_ok.
  - apply (step_late l m _ []); cbn; try (by left); [by apply (model_inv_core m)| |by intros ? []%not_elem_of_nil|..].
    + intros Hs. unfold subscribed, heard_with in *. cbn. rewrite app_nil_r. split; [|done].
      rewrite filter_app, Hs, filter_cons_False by congruence. done.
    + left. by apply list_view_looks.
    + left. by apply chat_view_looks.
  - apply (step_late l m _ []); cbn; try (by left); [by apply (model_inv_core m)| |by intros ? []%not_elem_of_nil|..].
    + intros Hs. unfold subscribed, heard_with in *. cbn. rewrite app_nil_r. split; [|done].
      by rewrite filter_remove_first.
    + left. by apply list_view_looks.
    + left. by apply chat_view_looks.
  - destruct (conversation_rest key m) as (El & Ec & _ & _ & Es & _).
    apply select_in_step; [by intros a [= <-]|by apply conversation_inv|by apply tells_silent|done].
Qed.

Lemma watch_run l m s a :
  model_inv m → subscribed l m → step_args_ok l a → screen_ready s → window_shows s m →
  ∃ s', watch l a (m, s) = ((run_step m a, s'), Ok tt) ∧ screen_ready s' ∧
        window_shows s' (run_step m a) ∧ model_inv (run_step m a) ∧ subscribed l (run_step m a).
Proof.
  intros Hm Hsub Ha Hs [Hl Hc Hst].
  destruct (run_step_ok l m a Hm Ha) as (Hm' & ev & Ht & Hev & Elist & Echat & Estate).
  destruct (Ht Hsub) as [Hsub' Eh]. unfold watch. cbn [fst snd]. rewrite Eh, drop_app_length.
  destruct (replay_shows ev m m m s Hev Hs Hl Hc Hst) as (s' & -> & Hs' & Hl' & Hc' & Hst').
  exists s'. split_and!; try done. constructor.
  - by eapply list_shows_view.
  - by eapply chat_shows_view.
  - by eapply state_shows_view.
Qed.

Lemma opened_run m s :
  model_inv m → screen_ready s →
  ∃ s', opened m s = (s', Ok tt) ∧ screen_ready s' ∧ window_shows s' m.
Proof.
  intros Hm Hs. unfold opened, mbind at 1, M_bind at 1.
  destruct (render_state m s _ (mi_drawable m Hm) Hs eq_refl) as (s1 & -> & Hs1 & _ & _ & Hst).
  unfold first_paint, mbind at 1, M_bind at 1.
  destruct (refresh_list_run m s1 (mi_drawable m Hm) (mi_ok m Hm) Hs1) as (s2 & -> & Hs2 & Hl & Hsame).
  unfold mbind, M_bind.
  destruct (redraw_run m s2 (mi_drawable m Hm) Hs2) as (s3 & -> & Hs3 & Hc & Hlist & Hstate).
  exists s3. split_and!; try done. constructor; [by eapply list_shows_part|done|].
  apply (state_shows_part s2); [done|]. apply (state_shows_part s1); [|done].
  destruct Hsame as (_ & _ & _ & E1 & E2 & E3 & E4 & E5 & E6). unfold state_part. congruence.
Qed.

(** A window that has just been built. *)
Lemma build_ready : screen_ready _build.
Proof.
  constructor; cbn; [constructor|done|by eexists|constructor].
Qed.

Lemma new_model_inv l : model_inv (subscribe l new_model).
Proof. by repeat constructor. Qed.

(** C12. What the user sees is what the model holds, as long as it can be drawn.  From
    the moment the window is open on a model whose messages and names can be
    drawn, and whatever public operations of the model follow (messages, history,
    receipts, presence, contacts, rooms, typing, clicks on the list, changes of
    the connection) whose arguments can be drawn, no callback fails and the screen
    is never behind: every conversation has its row, at its place, with its
    preview, time, unread count, presence dot and selection; the transcript is
    that of the conversation on screen; the composer is enabled exactly while the
    connection is ONLINE; and the strip says what [STRIP] has for the state.
    What can be drawn ([op_ok]): a message whose time is 0 or a date that exists
    and whose sender, if not the user, can be encoded as UTF-8, and a name that
    can be encoded; a time past the year 9999 makes the observer raise, see
    [TkStuck].  Not among the operations are a bare [conversation(key)], which
    adds to the list without telling anybody (a click on the list, [Picks], asks
    for the conversation and selects it), and the assignment to [model.active] in
    the controller's [_release], which bypasses the operations and after which
    the transcript can be of another conversation than the active one, see
    [TkFindings.released_text_shows_the_wrong_chat]. *)
Theorem window_in_step (l : nat) (m : ChatModel) (s0 : screen) (steps : list step)
    (Hm : model_inv m) (Hsub : subscribed l m) (Hs : screen_ready s0)
    (Hsteps : Forall (step_args_ok l) steps) :
  ∃ s, watch_all l steps (m, (opened m s0).1) = ((foldl run_step m steps, s), Ok tt) ∧
       window_shows s (foldl run_step m steps).
Proof.
  destruct (opened_run m s0 Hm Hs) as (s1 & -> & Hs1 & Hw). cbn [fst]. clear s0 Hs.
  revert m s1 Hm Hsub Hs1 Hw. induction Hsteps as [|a steps Ha _ IH]; intros m s Hm Hsub Hs Hw.
  { by exists s. }
  destruct (watch_run l m s a Hm Hsub Ha Hs Hw) as (s' & E & Hs' & Hw' & Hm' & Hsub').
  unfold watch_all. cbn [forM foldl]. unfold mbind, M_bind. rewrite E. by apply IH.
Qed.
End InStep.

(** alice's window: bob writes, she opens the conversation, and he reads on. *)
Abbreviation evening := [Does (Identity (&"alice")); Does (ConnectionStateIs (&"ONLINE"));
  Does (Add (&"bob") (new_message (JStr (&"1")) (&"bob") (JStr (&"hi")) 1709251505000 false));
  Picks (&"bob"); Does (Typing (&"bob") (&"bob") true); Does (Presence (&"bob") true)].

Lemma window_in_step_witness :
  let m0 := subscribe 7 new_model in
  let m := foldl (@run_step plain_runtime) m0 evening in
  keys (H := ascii_casing) m = [&"bob"] ∧
  ∃ s, @watch_all plain_runtime plain_display ascii_casing utc fixed_font 7 evening
         (m0, (@opened plain_runtime plain_display ascii_casing utc fixed_font m0
                 (@_build plain_display)).1) = ((m, s), Ok tt) ∧
       @window_shows plain_runtime ascii_casing utc fixed_font s m.
Proof.
  split; [vm_compute; reflexivity|].
  apply (@window_in_step plain_runtime plain_display ascii_casing utc fixed_font fixed_font_laws 7).
  - apply new_model_inv.
  - reflexivity.
  - apply build_ready.
  - repeat first [apply Forall_nil_2 | apply Forall_cons_2]; cbn [step_args_ok op_ok];
      try done; try (by eexists).
    split; [by eexists|]. split; [right; by eexists|intros _; by eexists].
Defined.
