(* ===== verification/TkWindow.v ===== *)
(** * The window: what the user does to it

    [im/client/view/tk/app.py], the rest: the inbox and the loop that drains it,
    and the gestures.  Tk calls one callback at a time; what is raised in one goes
    to [_on_callback_error].  The window owns the controller, and the observer
    runs on every event that a call of the controller emits ([ctl]).  When the
    observer raises, the call is cut short where it is: [wn_derailed] says that
    the controller is not followed any further, while the widgets are. *)

From S2P Require Import Prelude PyStr PyDict Json Frames Conversation ChatModel.
From S2P Require Import Base64 Envelope Keyring Uplink Controller.
From S2P Require Import Calendar Theme Backdrop Widgets TkView.
From S2P Require RoomDialog.

Definition POLL_MS : Z := 50.
Definition TYPING_IDLE_MS : Z := 1500.

(** What worker threads post. *)
Inductive posted := PostedFrame (frame : Frame) | PostedState (state : pystr).

(** [f"{type(exc).__name__}: {exc}"]. *)
Class Reports := { rp_text : exn → pystr }.

Record window (C : Type) := mkWindow {
  wn_controller : controller C;
  wn_screen : screen;
  wn_inbox : list posted;
  wn_polling : bool;               (* [_poll] is scheduled *)
  wn_typing_after : bool;          (* the timer that ends the announcement is pending *)
  wn_announced_typing : bool;
  wn_entry : pystr;                (* the text in the composer *)
  wn_boxes : list (pystr * pystr); (* message boxes, with their titles *)
  wn_open : bool;
  wn_derailed : bool;
}.
Arguments mkWindow {_} _ _ _ _ _ _ _ _ _ _.
Arguments wn_controller {_} _.
Arguments wn_screen {_} _.
Arguments wn_inbox {_} _.
Arguments wn_polling {_} _.
Arguments wn_typing_after {_} _.
Arguments wn_announced_typing {_} _.
Arguments wn_entry {_} _.
Arguments wn_boxes {_} _.
Arguments wn_open {_} _.
Arguments wn_derailed {_} _.

Section Window.
Context `{Runtime} `{Crypto} `{Display} `{Casing} `{Clock} `{Metrics} `{Reports}.
Context {C : Type} `{Uplink C}.
(** The number of the observer among the listeners of the model. *)
Context (listener : nat).
Implicit Type w : window C.

(** ** Assignments to one attribute *)

Definition with_controller x (w : window C) : window C := mkWindow x (wn_screen w) (wn_inbox w) (wn_polling w)
  (wn_typing_after w) (wn_announced_typing w) (wn_entry w) (wn_boxes w) (wn_open w) (wn_derailed w).
Definition with_screen x (w : window C) : window C := mkWindow (wn_controller w) x (wn_inbox w) (wn_polling w)
  (wn_typing_after w) (wn_announced_typing w) (wn_entry w) (wn_boxes w) (wn_open w) (wn_derailed w).
Definition with_inbox x (w : window C) : window C := mkWindow (wn_controller w) (wn_screen w) x (wn_polling w)
  (wn_typing_after w) (wn_announced_typing w) (wn_entry w) (wn_boxes w) (wn_open w) (wn_derailed w).
Definition with_polling x (w : window C) : window C := mkWindow (wn_controller w) (wn_screen w) (wn_inbox w) x
  (wn_typing_after w) (wn_announced_typing w) (wn_entry w) (wn_boxes w) (wn_open w) (wn_derailed w).
Definition with_typing_after x (w : window C) : window C := mkWindow (wn_controller w) (wn_screen w) (wn_inbox w)
  (wn_polling w) x (wn_announced_typing w) (wn_entry w) (wn_boxes w) (wn_open w) (wn_derailed w).
Definition with_announced_typing x (w : window C) : window C := mkWindow (wn_controller w) (wn_screen w) (wn_inbox w)
  (wn_polling w) (wn_typing_after w) x (wn_entry w) (wn_boxes w) (wn_open w) (wn_derailed w).
Definition with_entry x (w : window C) : window C := mkWindow (wn_controller w) (wn_screen w) (wn_inbox w) (wn_polling w)
  (wn_typing_after w) (wn_announced_typing w) x (wn_boxes w) (wn_open w) (wn_derailed w).
Definition with_boxes x (w : window C) : window C := mkWindow (wn_controller w) (wn_screen w) (wn_inbox w) (wn_polling w)
  (wn_typing_after w) (wn_announced_typing w) (wn_entry w) x (wn_open w) (wn_derailed w).
Definition with_open x (w : window C) : window C := mkWindow (wn_controller w) (wn_screen w) (wn_inbox w) (wn_polling w)
  (wn_typing_after w) (wn_announced_typing w) (wn_entry w) (wn_boxes w) x (wn_derailed w).
Definition derail (w : window C) : window C := mkWindow (wn_controller w) (wn_screen w) (wn_inbox w) (wn_polling w)
  (wn_typing_after w) (wn_announced_typing w) (wn_entry w) (wn_boxes w) (wn_open w) true.

Abbreviation Mw := (M (window C)).

(** [TkView(controller)]: the window subscribes to the model. *)
Definition new_window (c : controller C) : window C :=
  mkWindow (with_model (subscribe listener (ct_model c)) c) _build [] false false false [] [] true false.

(** ** Primitives *)

Definition on_screen {A} (m : M screen A) : Mw A := λ w,
  let '(s, r) := m (wn_screen w) in (with_screen s w, r).

Definition the_model : Mw ChatModel := w ← get; mret (ct_model (wn_controller w)).

(** A call of the controller, with the observer on every event. *)
Definition ctl {A} (m : M (controller C) A) : Mw A := λ w,
  let '(c, r) := m (wn_controller w) in
  match replay (heard_since listener (ct_model (wn_controller w)) (ct_model c)) (wn_screen w) with
  | (s, Ok _) => (with_controller c (with_screen s w), r)
  | (s, Raise e) => (derail (with_screen s w), Raise e)
  end.

(** [messagebox.showinfo(title, text)]. *)
Definition showinfo (title text : pystr) : Mw unit :=
  modify (λ w, with_boxes (wn_boxes w ++ [(title, text)]) w).

Definition _on_callback_error (e : exn) w : window C :=
  with_boxes (wn_boxes w ++ [(&"Something went wrong", rp_text e ++ &"

This is a bug in Semaphore, not something you did. The details are in the log.")]) w.

(** How Tk runs a callback. *)
Definition callback (m : Mw unit) w : window C :=
  match m w with
  | (w', Ok _) => w'
  | (w', Raise e) => _on_callback_error e w'
  end.

(** ** The inbox *)

Definition post_frame (frame : Frame) w : window C := with_inbox (wn_inbox w ++ [PostedFrame frame]) w.
Definition post_state (state : pystr) w : window C := with_inbox (wn_inbox w ++ [PostedState state]) w.

(** One entry: what it raises becomes a notice, and what the notice raises does
    not. *)
Definition drain_one (x : posted) : Mw unit := λ w,
  match ctl (match x with PostedFrame frame => on_frame frame | PostedState state => on_state state end) w with
  | (w', Ok _) => (w', Ok tt)
  | (w', Raise e) => on_screen (on_transcript (Transcript.notice (rp_text e))) w'
  end.

(** [while True: get_nowait()], until the inbox is empty. *)
Fixpoint drain (inbox : list posted) : Mw unit :=
  match inbox with
  | [] => mret tt
  | x :: inbox' => modify (with_inbox inbox');; drain_one x;; drain inbox'
  end.

(** The callback is not scheduled while it runs; its last line schedules it. *)
Definition _poll : Mw unit :=
  modify (with_polling false);;
  w ← get;
  drain (wn_inbox w);;
  modify (with_polling true).

Definition run : Mw unit :=
  modify (with_polling true);;
  m ← the_model;
  on_screen (first_paint m).

Definition stop : Mw unit :=
  modify (λ w, with_controller
    (with_model (unsubscribe listener (ct_model (wn_controller w))) (wn_controller w)) w);;
  modify (with_open false).

(** ** Typing and sending *)

Definition _stop_typing : Mw unit :=
  modify (with_typing_after false);;
  w ← get;
  if wn_announced_typing w then
    modify (with_announced_typing false);;
    ctl (typing false)
  else mret tt.

(** A disabled entry ignores [delete]. *)
Definition clear_entry : Mw unit :=
  modify (λ w, if sc_entry_enabled (wn_screen w) then with_entry [] w else w).

Definition NOT_SENT : pystr := (&"not sent ") ++ [8212%N] ++ &" pick a conversation first".

Definition _on_send : Mw unit :=
  w ← get;
  let text := strip (wn_entry w) in
  if decide (text = []) then mret tt
  else
    clear_entry;;
    _stop_typing;;
    sent ← ctl (send text);
    match sent with
    | None => on_screen (on_transcript (Transcript.notice NOT_SENT))
    | Some _ => mret tt
    end.

Definition _on_key : Mw unit :=
  m ← the_model;
  match cm_active m with
  | None => mret tt
  | Some _ =>
    w ← get;
    (if wn_announced_typing w then mret tt
     else modify (with_announced_typing true);; ctl (typing true));;
    modify (with_typing_after true)
  end.

(** ** Other gestures *)

Definition _new_conversation (who : option pystr) : Mw unit :=
  match who with
  | None => mret tt
  | Some who => if decide (strip who = []) then mret tt else ctl (open_conversation (strip who))
  end.

Definition _contacts (m : ChatModel) : list pystr := contact_names m.

(** What the room dialog is opened with, and what is done with its answer. *)
Definition room_dialog (m : ChatModel) : RoomDialog.dialog :=
  RoomDialog.new_dialog (_contacts m) None (is_online m) [].

Definition _room_menu (answer : option (pystr * list pystr)) : Mw unit :=
  match answer with
  | None => mret tt
  | Some (name, members) => ctl (open_room (RoomDialog._hashed name) members)
  end.

Definition invite_dialog (m : ChatModel) (room : pystr) : RoomDialog.dialog :=
  RoomDialog.new_dialog (_contacts m) (Some room) (is_online m) (room_members m room).

(** The room that people would be added to, unless a message box says why not. *)
Definition _invite_menu_begin : Mw (option pystr) :=
  m ← the_model;
  match cm_active m with
  | Some room =>
    if startswith room (&"#") then mret (Some room)
    else showinfo (&"Add people")
           (&"Open a room first. People are added to rooms, not to direct messages.");; mret None
  | None => showinfo (&"Add people")
              (&"Open a room first. People are added to rooms, not to direct messages.");; mret None
  end.

Definition _invite_menu_end (room : pystr) (answer : option (pystr * list pystr)) : Mw unit :=
  match answer with
  | Some (_, (_ :: _) as members) => ctl (invite room members)
  | _ => mret tt
  end.

(** The hits to show, unless a message box says that there are none. *)
Definition _search (query : option pystr) : Mw (option (pystr * list SearchHit)) :=
  match query with
  | None => mret None
  | Some query =>
    if decide (strip query = []) then mret None
    else
      m ← the_model;
      hits ← lift_res (search query 100 m);
      match hits with
      | [] =>
        showinfo (&"Search") ((&"Nothing loaded here contains ") ++ rt_repr (JStr (strip query)) ++ &".

Only messages this client has loaded can be searched -- the server stores ciphertext it cannot read. Open a conversation and scroll back to load more.");;
        mret None
      | _ => mret (Some (strip query, hits))
      end
  end.

(** A line of the list of matches. *)
Definition hit_line (query : pystr) (hit : SearchHit) : res pystr :=
  text ← snippet hit query 60;
  Ok (h_key hit ++ (&"  --  ") ++
      (if m_mine (h_message hit) then &"you" else m_sender (h_message hit)) ++ (&":  ") ++ text).

(** The title and the lines of the window. *)
Definition _show_hits (query : pystr) (hits : list SearchHit) : res (pystr * list pystr) :=
  lines ← mapR (hit_line query) hits;
  Ok (dec_of_N (N.of_nat (length hits)) ++ (&" matches for ") ++ rt_repr (JStr query), lines).

(** A match is picked in that window. *)
Definition open_hit (hits : list SearchHit) (picked : option nat) : Mw unit :=
  match picked ≫= (λ i, hits !! i) with
  | Some hit => ctl (select (h_key hit))
  | None => mret tt
  end.

(** The lines of the contacts window. *)
Definition _show_contacts (m : ChatModel) : list pystr :=
  match _contacts m with
  | [] => [&"  Nobody yet. Add somebody below, or message them."]
  | names => (λ name, (&" ") ++ [if is_online m name then 9679%N else 9675%N] ++ (&"  ") ++ name) <$> names
  end.

(** [add], and [open_selected], of the contacts window. *)
Definition add_contact_typed (entry : pystr) : Mw unit :=
  if decide (strip entry = []) then mret tt else ctl (open_conversation (strip entry)).

Definition open_contact (names : list pystr) (picked : option nat) : Mw unit :=
  match picked ≫= (λ i, names !! i) with
  | Some name => ctl (select name)
  | None => mret tt
  end.

Definition _show_settings : Mw unit :=
  m ← the_model;
  let nl := [10%N] in
  showinfo (&"Settings")
    ((&"Signed in as ") ++ default (&"None") (cm_username m) ++ nl ++
     (&"Connection: ") ++ cm_connection_state m ++ nl ++
     (&"Conversations: ") ++ dec_of_N (N.of_nat (length (cm_conversations m))) ++ nl ++
     (&"Rooms: ") ++ (match my_rooms m with [] => &"none" | rooms => PyStr.join (&", ") rooms end) ++ nl ++
     (&"Unread: ") ++ dec_of_N (N.of_nat (unread_total m))).

(** [_centre]: where a window of some size goes, over its parent. *)
Definition _centre (width height root_x root_y root_w root_h : Z) : Z * Z :=
  (Z.max (root_x + (root_w - width) / 2) 0, Z.max (root_y + (root_h - height) / 3) 0)%Z.

(** ** Callbacks of the layout *)

(** [<Configure>], [<Enter>] and [<Leave>] of a row. *)
Definition row_resized (key : pystr) (width height : Z) : M screen unit :=
  on_row key (modify (λ r, ConversationRow.set_cv
                        (mkCanvas width height (cv_items (ConversationRow.cv r))) r);;
              ConversationRow._draw false).

Definition row_hovered (key : pystr) (hover : bool) : M screen unit :=
  on_row key (ConversationRow._draw hover).

(** ** Everything that happens to the window *)

Inductive happening :=
| FramePosted (frame : Frame)
| StatePosted (state : pystr)
| PollDue
| KeyPressed (entry : pystr)        (* the text of the entry after the key *)
| ReturnPressed
| SendPressed
| TypingIdle                        (* the timer of [_on_key] *)
| RowPressed (key : pystr)
| NewConversation (who : option pystr)
| RoomAnswered (answer : option (pystr * list pystr))
| InviteAnswered (room : pystr) (answer : option (pystr * list pystr))
| HitPicked (hits : list SearchHit) (picked : option nat)
| ContactTyped (entry : pystr)
| ContactPicked (names : list pystr) (picked : option nat)
| SettingsPressed
| HeaderResized (width height : Z)
| RailResized (width height : Z)
| StripResized (width height : Z)
| TranscriptResized (width height : Z)
| BackdropDue                       (* the timer of [Transcript._on_resize] *)
| RowResized (key : pystr) (width height : Z)
| RowHovered (key : pystr) (hover : bool)
| Closed.

Definition happen (h : happening) w : window C :=
  if wn_open w then
    match h with
    | FramePosted frame => post_frame frame w
    | StatePosted state => post_state state w
    | PollDue => if wn_polling w then callback _poll w else w
    | KeyPressed text =>
      let w := callback _on_key w in
      if sc_entry_enabled (wn_screen w) then with_entry text w else w
    | ReturnPressed => callback _on_send w
    | SendPressed => if PillButton._click (sc_send (wn_screen w)) then callback _on_send w else w
    | TypingIdle => if wn_typing_after w then callback _stop_typing w else w
    | RowPressed key =>
      if dict_has (sc_rows (wn_screen w)) key then callback (ctl (select key)) w else w
    | NewConversation who => callback (_new_conversation who) w
    | RoomAnswered answer => callback (_room_menu answer) w
    | InviteAnswered room answer => callback (_invite_menu_end room answer) w
    | HitPicked hits picked => callback (open_hit hits picked) w
    | ContactTyped entry => callback (add_contact_typed entry) w
    | ContactPicked names picked => callback (open_contact names picked) w
    | SettingsPressed => callback _show_settings w
    | HeaderResized width height =>
      callback (m ← the_model; on_screen (header_resized m width height)) w
    | RailResized width height => callback (m ← the_model; on_screen (me_resized m width height)) w
    | StripResized width height => callback (on_screen (strip_resized width height)) w
    | TranscriptResized width height =>
      callback (on_screen (on_transcript (Transcript._on_resize width height))) w
    | BackdropDue =>
      if Transcript.resize_after (sc_transcript (wn_screen w))
      then callback (on_screen (on_transcript Transcript._refresh_backdrop)) w else w
    | RowResized key width height => callback (on_screen (row_resized key width height)) w
    | RowHovered key hover => callback (on_screen (row_hovered key hover)) w
    | Closed => callback stop w
    end
  else w.

Definition happen_all (hs : list happening) w : window C := foldl (λ w h, happen h w) w hs.
End Window.
