(* ===== verification/TkStuck.v ===== *)
(** * A time that no date holds

    The server forwards the time of a message as it is, and the window turns it
    into a date when it draws the bubble.  [fromtimestamp] raises for a time past
    the year 9999; the observer has no handler, [_poll] reports what it raised by
    drawing once more, and that raises too, before [_poll] schedules itself
    again. *)

From S2P Require Import Prelude PyStr PyDict Utf8 Json Frames Conversation ChatModel.
From S2P Require Import ChatModelFacts Events Wp Base64 Envelope Keyring Uplink Controller ControllerLive.
From S2P Require Import Calendar Theme Backdrop Widgets WidgetsFacts TkView TkFacts TkInStep TkWindow.
From S2P Require RoomDialog.

(** ** What a computation leaves alone, raise or not *)

Definition keeps {S B A} (f : S → B) (m : M S A) : Prop := ∀ s, f (m s).1 = f s.

Lemma keeps_ret {S B A} (f : S → B) (a : A) : keeps f (mret a).
Proof. by intros s. Qed.
Lemma keeps_modify {S B} (f : S → B) (g : S → S) : (∀ s, f (g s) = f s) → keeps f (modify g).
Proof. intros Hg s. apply Hg. Qed.
Lemma keeps_bind {S B A A'} (f : S → B) (m : M S A) (k : A → M S A') :
  keeps f m → (∀ a, keeps f (k a)) → keeps f (m ≫= k).
Proof.
  intros Hm Hk s. unfold mbind, M_bind. specialize (Hm s). destruct (m s) as [s1 [a|e]]; [|done].
  by rewrite Hk.
Qed.
Lemma keeps_res {S B A} (f : S → B) (r : res A) : keeps f (lift_res r).
Proof. by intros s. Qed.
Lemma keeps_get {S B} (f : S → B) : keeps f (get (S := S)).
Proof. by intros s. Qed.
Lemma keeps_forM {S B A} (f : S → B) (l : list A) (k : A → M S unit) :
  (∀ a, keeps f (k a)) → keeps f (forM l k).
Proof. intros Hk. induction l as [|x l IH]; [apply keeps_ret|]. by apply keeps_bind. Qed.

Ltac keep := repeat (intros; lazymatch goal with
  | |- keeps _ (mret _) => apply keeps_ret
  | |- keeps _ (lift_res _) => apply keeps_res
  | |- keeps _ get => apply keeps_get
  | |- keeps _ (create _) => apply keeps_modify; done
  | |- keeps _ delete_all => apply keeps_modify; done
  | |- keeps _ (modify _) => apply keeps_modify; try done
  | |- keeps _ (_ ≫= _) => apply keeps_bind
  | |- keeps _ (let _ := _ in _) => cbv zeta
  | |- keeps _ (match ?x with _ => _ end) => destruct x
  end); intros.

Section Drawing.
Context `{Runtime} `{Display} `{Casing} `{Clock} `{Metrics}.

(** The date of the message cannot be worked out. *)
Definition undatable (message : Message) : Prop :=
  m_ts message ≠ 0%Z ∧ ∃ e, fromtimestamp (m_ts message) = Raise e.

Lemma undatable_day message : undatable message → ∃ e, Transcript._day (m_ts message) = Raise e.
Proof.
  intros [Ht [e He]]. exists e. unfold Transcript._day.
  rewrite (proj2 (Z.eqb_neq _ _) Ht), He. reflexivity.
Qed.

Definition raises {S A} (m : M S A) : Prop := ∀ s, ∃ s' e, m s = (s', Raise e).

Lemma raises_bind {S A B} (m : M S A) (k : A → M S B) :
  (∀ s s' a, m s = (s', Ok a) → ∃ s2 e, k a s' = (s2, Raise e)) → raises (m ≫= k).
Proof.
  intros Hk s. unfold mbind, M_bind. destruct (m s) as [s1 [a|e]] eqn:E; [by eapply Hk|by eexists _, e].
Qed.

Lemma draw_messages_raises l y last width max_bubble :
  Exists undatable l → raises (Transcript.draw_messages l y last width max_bubble).
Proof.
  intros Hl. revert y last. induction l as [|x l IH]; intros y last; [by inversion Hl|].
  cbn [Transcript.draw_messages]. apply raises_bind. intros s s' day [= <- Hday].
  assert (Exists undatable l) as Hrest.
  { inversion Hl as [? ? Hx|]; subst; [|done]. destruct (undatable_day x Hx) as [e He]. congruence. }
  specialize (IH Hrest). case_decide; apply raises_bind; intros ? ? ? _; [|apply IH].
  apply raises_bind. intros ? ? ? _. apply IH.
Qed.

(** The pane is wide enough to draw in, and it holds an undatable message. *)
Definition stuck (s : Transcript.t) : Prop :=
  (40 ≤ cv_width (Transcript.cv s))%Z ∧ Exists undatable (Transcript.messages s).

Lemma draw_avatar_width x y name radius st : keeps cv_width (draw_avatar x y name radius st).
Proof. unfold draw_avatar. keep. Qed.

Lemma draw_bubble_width x y w b : keeps cv_width (Transcript._draw_bubble x y w b).
Proof.
  unfold Transcript._draw_bubble, rounded_rect, Transcript._draw_tail. keep;
    first [apply draw_avatar_width | keep].
Qed.

Lemma draw_messages_width l y last w b : keeps cv_width (Transcript.draw_messages l y last w b).
Proof.
  revert y last. induction l as [|x l IH]; intros y last; cbn [Transcript.draw_messages]; keep;
    first [apply draw_bubble_width | apply IH | unfold Transcript._draw_day; keep].
Qed.

Definition pane (s : Transcript.t) : Z * list Message * list pystr :=
  (cv_width (Transcript.cv s), Transcript.messages s, Transcript.notices s).

Lemma on_cv_pane {A} (m : Draw A) : keeps cv_width m → keeps pane (Transcript.on_cv m).
Proof.
  intros Hm s. unfold Transcript.on_cv. specialize (Hm (Transcript.cv s)).
  destruct (m (Transcript.cv s)) as [c r]. unfold pane. cbn in *. by rewrite Hm.
Qed.

Lemma draw_backdrop_pane w : keeps pane (Transcript._draw_backdrop w).
Proof.
  unfold Transcript._draw_backdrop, Transcript.take_backdrop. keep; try (apply on_cv_pane; keep).
  by destruct (backdrop _ _ _).
Qed.

Lemma draw_notices_width texts y w : keeps cv_width (Transcript.draw_notices texts y w).
Proof.
  revert y. induction texts as [|x texts IH]; intros y; cbn [Transcript.draw_notices]; keep. apply IH.
Qed.

(** Drawing changes neither the messages nor the notices, raise or not. *)
Lemma redraw_pane : keeps pane Transcript.redraw.
Proof.
  unfold Transcript.redraw, Transcript._draw_empty. keep;
    try first [apply draw_backdrop_pane
              | apply on_cv_pane; first [apply draw_messages_width | apply draw_notices_width
                                        | unfold Transcript.scene, rounded_rect, circle; keep]].
Qed.

(** A stuck pane raises whenever it is drawn, and is as stuck as before. *)
Lemma stuck_redraw s : stuck s → ∃ s' e, Transcript.redraw s = (s', Raise e) ∧ stuck s'.
Proof.
  intros [Hw Hl]. unfold Transcript.redraw.
  unfold mbind at 1, M_bind at 1. unfold Transcript.on_cv at 1, delete_all, modify at 1.
  set (s1 := Transcript.set_cv _ s). cbv zeta. rewrite get_run.
  change (cv_width (Transcript.cv s1)) with (cv_width (Transcript.cv s)).
  rewrite (proj2 (Z.ltb_ge _ _) Hw).
  unfold mbind at 1, M_bind at 1.
  destruct (draw_backdrop_run s1 (cv_width (Transcript.cv s)) eq_refl) as (s2 & -> & (Em & _ & _ & _ & Ew & _) & _).
  rewrite get_run, decide_False; [|intros [Hn _]; rewrite Em in Hn; cbn in Hn; rewrite Hn in Hl; inversion Hl].
  cbv zeta. unfold mbind at 1, M_bind at 1.
  match goal with |- context [Transcript.on_cv ?m s2] => set (d := m) end.
  assert (keeps pane (Transcript.on_cv d)) as Hk by (apply on_cv_pane, draw_messages_width).
  assert (raises d) as Hr by (apply draw_messages_raises; by rewrite Em).
  specialize (Hk s2). unfold Transcript.on_cv in *. destruct (Hr (Transcript.cv s2)) as (c & e & Ed).
  rewrite Ed in *. eexists _, e. split; [done|]. injection Hk as Hw2.
  split; cbn in *; [by rewrite Hw2, Ew|by rewrite Em].
Qed.

Lemma stuck_notice text s : stuck s → ∃ s' e, Transcript.notice text s = (s', Raise e) ∧ stuck s'.
Proof. intros [Hw Hl]. unfold Transcript.notice. rewrite modify_run. by apply stuck_redraw. Qed.

Lemma undatable_show l empty s : (40 ≤ cv_width (Transcript.cv s))%Z → Exists undatable l →
  ∃ s' e, Transcript.show l empty s = (s', Raise e) ∧ stuck s'.
Proof. intros Hw Hl. unfold Transcript.show. rewrite modify_run. by apply stuck_redraw. Qed.
End Drawing.

Section Window.
Context `{Runtime} `{Crypto} `{Display} `{Casing} `{ClockLaws} `{Metrics} `{Reports}.
Context {C : Type} `{Uplink C}.
Context (l : nat).
Implicit Types (w : window C) (m : ChatModel).

(** ** The observer raises *)

Lemma header_fine m s : (∀ a, cm_active m = Some a → encodable a) →
  ∃ c, _draw_header m s = (set_header c s, Ok tt).
Proof.
  intros Ha. unfold _draw_header, part.
  destruct (active_header_fine m Ha (sc_header s)) as [c ->]. by eexists.
Qed.

Lemma replay_typing events s :
  (∀ me, me ∈ events → (∀ a, cm_active me.1 = Some a → encodable a) ∧
                        ∃ k us, me.2 = TypingChanged k us) →
  ∃ s', replay events s = (s', Ok tt) ∧ sc_transcript s' = sc_transcript s.
Proof.
  revert s. induction events as [|[m e] events IH]; intros s He; [by exists s|].
  destruct (He (m, e)) as [Ha (k & us & Ee)]; [apply list_elem_of_here|]. cbn in Ha, Ee. subst e.
  unfold replay. cbn [forM]. unfold mbind at 1, M_bind at 1. cbn [fst snd _render]. destruct (header_fine m s Ha) as [c ->].
  destruct (IH (set_header c s)) as (s' & E & Et).
  { intros me Hin. apply He. by apply list_elem_of_further. }
  exists s'. split; [exact E|exact Et].
Qed.

(** The conversation on screen has an undatable message when the observer hears
    of one. *)
Lemma render_stuck m user x s :
  cm_active m = Some user → encodable user → x ∈ c_messages (conversation user m).2 → undatable x →
  (40 ≤ cv_width (Transcript.cv (sc_transcript s)))%Z →
  ∃ s' e, _render m (MessageAdded user x) s = (s', Raise e) ∧ stuck (sc_transcript s').
Proof.
  intros Ha He Hx Hu Hw. cbn [_render]. rewrite decide_True by done.
  unfold _redraw. unfold mbind at 1, M_bind at 1. unfold mbind at 1, M_bind at 1.
  destruct (header_fine m s) as [c ->]; [intros a; rewrite Ha; by intros [= <-]|].
  rewrite Ha. destruct (conversation user m) as [m1 cv]. cbn [snd] in Hx.
  unfold mbind at 1, M_bind at 1, part.
  destruct (undatable_show (c_messages cv) ((&"Say hi to ") ++ user) (sc_transcript (set_header c s)))
    as (tr & e & Es & Hs); [done|by eapply Exists_exists; eauto|].
  rewrite Es. by eexists _, e.
Qed.

Lemma replay_stuck ev1 m user x ev2 s :
  (∀ me, me ∈ ev1 → (∀ a, cm_active me.1 = Some a → encodable a) ∧
                     ∃ k us, me.2 = TypingChanged k us) →
  cm_active m = Some user → encodable user → x ∈ c_messages (conversation user m).2 → undatable x →
  (40 ≤ cv_width (Transcript.cv (sc_transcript s)))%Z →
  ∃ s' e, replay (ev1 ++ (m, MessageAdded user x) :: ev2) s = (s', Raise e) ∧ stuck (sc_transcript s').
Proof.
  intros He Ha Hu Hx Hun Hw. destruct (replay_typing ev1 s He) as (s1 & E1 & Et).
  destruct (render_stuck m user x s1) as (s2 & e & E2 & Hs2); [by rewrite ?Et..|].
  exists s2, e. split; [|done]. unfold replay in *. rewrite forM_app.
  unfold mbind, M_bind. rewrite E1. cbn [forM]. unfold mbind, M_bind. cbn [fst snd]. by rewrite E2.
Qed.

(** ** Nothing but [_poll] and [run] touches the loop *)

Definition loop w : bool * list posted := (wn_polling w, wn_inbox w).

Lemma ctl_loop {A} (m : M (controller C) A) : keeps loop (ctl l m).
Proof.
  intros w. unfold ctl. destruct (m (wn_controller w)) as [c r].
  by destruct (replay _ (wn_screen w)) as [s [?|?]].
Qed.

Lemma on_screen_loop {A} (m : M screen A) : keeps loop (on_screen (C := C) m).
Proof. intros w. unfold on_screen. by destruct (m (wn_screen w)). Qed.

Lemma callback_loop (m : M (window C) unit) w : keeps loop m → loop (callback m w) = loop w.
Proof. intros Hm. specialize (Hm w). unfold callback. by destruct (m w) as [w' [?|?]]. Qed.

Ltac loops := keep; try first [apply ctl_loop | apply on_screen_loop].

Lemma drain_one_loop x : keeps loop (drain_one l x (C := C)).
Proof.
  intros w. unfold drain_one. pose proof (ctl_loop (match x with
    | PostedFrame frame => on_frame frame | PostedState state => on_state state end) w) as Hc.
  destruct (ctl l _ w) as [w1 [[]|e]]; [done|]. by rewrite (on_screen_loop _ w1).
Qed.

Lemma stop_typing_loop : keeps loop (_stop_typing l (C := C)).
Proof. unfold _stop_typing. loops. Qed.

Lemma on_send_loop : keeps loop (_on_send l (C := C)).
Proof.
  unfold _on_send, clear_entry. keep; try first [apply stop_typing_loop | loops].
  by destruct (sc_entry_enabled _).
Qed.

Lemma on_key_loop : keeps loop (_on_key l (C := C)).
Proof. unfold _on_key, the_model. loops. Qed.

(** While the loop is not scheduled, nothing takes from the inbox. *)
Lemma happen_loop h w : wn_polling w = false →
  wn_polling (happen l h w) = false ∧ wn_inbox w `prefix_of` wn_inbox (happen l h w).
Proof.
  intros Hp. unfold happen. destruct (wn_open w); [|by split].
  assert (∀ w', loop w' = loop w → wn_polling w' = false ∧ wn_inbox w `prefix_of` wn_inbox w') as Hw.
  { intros w' [= -> ->]. by split. }
  destruct h; try (apply Hw, callback_loop;
    unfold _new_conversation, _room_menu, _invite_menu_end, open_hit, add_contact_typed, open_contact,
      _show_settings, the_model, showinfo, stop; by loops).
  - split; [done|by apply prefix_app_r].
  - split; [done|by apply prefix_app_r].
  - by rewrite Hp.
  - cbv zeta. apply Hw. pose proof (callback_loop _ w on_key_loop) as Hk. by destruct (sc_entry_enabled _).
  - apply Hw, callback_loop, on_send_loop.
  - apply Hw. destruct (PillButton._click _); [apply callback_loop, on_send_loop|done].
  - apply Hw. destruct (wn_typing_after w); [apply callback_loop, stop_typing_loop|done].
  - apply Hw. destruct (dict_has _ _); [apply callback_loop, ctl_loop|done].
  - apply Hw. destruct (Transcript.resize_after _); [apply callback_loop, on_screen_loop|done].
Qed.

Lemma happen_all_loop hs w : wn_polling w = false →
  wn_polling (happen_all l hs w) = false ∧ wn_inbox w `prefix_of` wn_inbox (happen_all l hs w).
Proof.
  revert w. induction hs as [|h hs IH]; intros w Hp; [by split|].
  destruct (happen_loop h w Hp) as [Hp1 Hi1]. destruct (IH _ Hp1) as [Hp2 Hi2].
  split; [done|]. by etrans.
Qed.

(** ** The frame that does it *)

Lemma message_derails w frame user me :
  subscribed l (ct_model (wn_controller w)) →
  addressed frame user me → f_nonce frame = JNull → cm_active (ct_model (wn_controller w)) = Some user →
  encodable user → (40 ≤ cv_width (Transcript.cv (sc_transcript (wn_screen w))))%Z →
  (1000 * (MAX_SECOND + 86400) ≤ f_ts frame)%Z →
  ∃ s e, ctl l (on_frame frame) w = (derail (with_screen s w), Raise e) ∧ stuck (sc_transcript s).
Proof.
  intros Hs Ha Hn Hact He Hw Hts. set (c := wn_controller w) in *.
  destruct (ask_model (λ id ts, receipt id ts user (f_id frame) (&"DELIVERED")) c) as (Hmod & _).
  set (c1 := (ask _ c).1) in *.
  assert (∃ body, _plaintext frame user c1 = (c1, Ok body)) as [body Hb].
  { unfold _plaintext. cbv zeta. rewrite get_run, Hn. cbn [truthy negb]. rewrite orb_true_r. by eexists. }
  assert (opens_now frame user c = true) as Ho.
  { unfold opens_now. rewrite Hn. by destruct (ct_keyring c). }
  set (x := new_message (f_id frame) user body (f_ts frame) false).
  destruct (add_tells l (ct_model c) user x Hs) as (ev1 & m1 & ev2 & Eh & Hev & _ & Ha1 & Hc1).
  destruct (replay_stuck ev1 (visible m1) user x ev2 (wn_screen w)) as (s & e & Er & Hst).
  - intros me1 [E1 [us E2]]%Hev. split; [|by eexists _, us]. intros a. rewrite E1, Hact. by intros [= <-].
  - by rewrite <-Hact, <-Ha1.
  - done.
  - rewrite conversation_snd. change (cm_conversations (visible m1)) with (cm_conversations m1).
    rewrite <-conversation_snd, Hc1. cbn. apply elem_of_app. right. by left.
  - split; [exact (ad_ts _ _ _ Ha)|]. by apply fromtimestamp_out_of_range.
  - done.
  - exists s, e. split; [|done]. unfold ctl. fold c.
    rewrite (direct_shown c frame user me body c1) by done.
    cbn [ct_model with_model]. fold x. unfold heard_since. by rewrite Eh, drop_app_length, Er.
Qed.

(** C26. A message whose time is past the year 9999 stops the window for good.
    When it is filed into the conversation on screen, drawing it raises, telling
    of that raises again, and [_poll] does not schedule itself any more: whatever
    happens afterwards, the inbox is never emptied. *)
Theorem far_future_stops_the_window w (frame : Frame) (rest : list posted) (user me : pystr)
    (hs : list happening)
    (Hopen : wn_open w = true) (Hpolling : wn_polling w = true)
    (Hinbox : wn_inbox w = PostedFrame frame :: rest)
    (Hsubscribed : subscribed l (ct_model (wn_controller w)))
    (Hframe : addressed frame user me) (Hplain : f_nonce frame = JNull)
    (Hactive : cm_active (ct_model (wn_controller w)) = Some user) (Huser : encodable user)
    (Hwidth : (40 ≤ cv_width (Transcript.cv (sc_transcript (wn_screen w))))%Z)
    (Htime : (1000 * (MAX_SECOND + 86400) ≤ f_ts frame)%Z) :
  let w' := happen_all l (PollDue :: hs) w in
  wn_polling w' = false ∧ rest `prefix_of` wn_inbox w'.
Proof.
  cbv zeta. change (happen_all l (PollDue :: hs) w) with (happen_all l hs (happen l PollDue w)).
  assert (loop (happen l PollDue w) = (false, rest)) as [= Hp Hi];
    [|pose proof (happen_all_loop hs _ Hp) as Hall; by rewrite Hi in Hall].
  unfold happen. rewrite Hopen, Hpolling. unfold callback, _poll. rewrite modify_run, get_run.
  cbn [wn_inbox with_polling]. rewrite Hinbox. cbn [drain].
  unfold mbind at 1, M_bind at 1. rewrite modify_run.
  set (w1 := with_inbox rest (with_polling false w)).
  unfold mbind at 1, M_bind at 1, drain_one.
  destruct (message_derails w1 frame user me) as (s & e & -> & Hst); [done..|].
  destruct (stuck_notice (rp_text e) (sc_transcript s) Hst) as (tr & e2 & En & _).
  unfold on_screen, part. cbn [wn_screen derail with_screen]. by rewrite En.
Qed.
End Window.

(** bob's message is from the year 16383. *)
Definition reports : Reports := {| rp_text _ := &"OverflowError: year out of range" |}.

Definition strange : Frame :=
  mkFrame MSG (JStr (&"bob")) (JStr (&"alice")) (JStr (&"hi")) JNull [] (JStr (&"x"))
    454840000000000 JNull.

Section AliceAtHome.
#[local] Existing Instances plain_runtime toy_crypto plain_display ascii_casing utc fixed_font reports.

(** alice has signed in and opened the conversation with bob. *)
Definition at_home : window fake :=
  happen_all 7
    [TranscriptResized 600 400;
     FramePosted (mkFrame LOGIN_OK JNull JNull JNull JNull
       [(&"user", JStr (&"alice")); (&"roster", JList [JStr (&"bob")])] (JStr (&"1")) 5 JNull);
     PollDue; NewConversation (Some (&"bob")); FramePosted strange; FramePosted strange]
    (run (new_window 7 (new_controller (mkFake true []) None))).1.
End AliceAtHome.

Lemma far_future_stops_the_window_witness :
  length (wn_inbox at_home) = 2 ∧ wn_boxes at_home = [] ∧
  let w' := @happen_all plain_runtime toy_crypto plain_display ascii_casing utc fixed_font reports
              fake fake_uplink 7 [PollDue; PollDue; PollDue] at_home in
  wn_polling w' = false ∧ [PostedFrame strange] `prefix_of` wn_inbox w'.
Proof.
  split_and!; [vm_compute; reflexivity..|].
  apply (@far_future_stops_the_window plain_runtime toy_crypto plain_display ascii_casing utc utc_laws
    fixed_font reports fake fake_uplink 7 at_home strange [PostedFrame strange] (&"bob") (&"alice")
    [PollDue; PollDue]);
    try (vm_compute; reflexivity).
  - split; try split; vm_compute; (reflexivity || discriminate).
  - by eexists.
  - vm_compute. discriminate.
  - vm_compute. discriminate.
Defined.
