(* ===== verification/TkFindings.v ===== *)
(** * What the window does that its documents do not say

    Behaviours found while modelling [im/client/view/tk/app.py].  The first group
    needs nothing but a link that is down; the second is one evening of alice's,
    run on the executable instances. *)

From S2P Require Import Prelude PyStr PyDict Utf8 Json Frames Conversation ChatModel.
From S2P Require Import ChatModelFacts Wp Base64 Envelope Keyring Uplink Controller ControllerSafety ControllerLive.
From S2P Require Import ClientFindings Calendar Theme Backdrop Widgets WidgetsFacts.
From S2P Require Import TkView TkFacts TkInStep TkWindow TkStuck.
From S2P Require RoomDialog.

Section Down.
Context `{Runtime} `{Crypto} `{Display} `{Casing} `{Clock} `{Metrics} `{Reports}.
Context (l : nat).
Implicit Types (w : window fake) (c : controller fake).

Abbreviation bug_box e := (&"Something went wrong", rp_text e ++ &"

This is a bug in Semaphore, not something you did. The details are in the log.").

(** A call that tells the observer nothing. *)
Lemma ctl_quiet {A} (m : M (controller fake) A) w c r :
  m (wn_controller w) = (c, r) → ct_model c = ct_model (wn_controller w) →
  ctl l m w = (with_controller c w, r).
Proof.
  intros E Em. unfold ctl, heard_since. rewrite E, Em, drop_all. by destruct w.
Qed.

Lemma typing_down on c target :
  cm_active (ct_model c) = Some target → fk_up (ct_connection c) = false →
  typing on c = (with_tick (S (ct_tick c)) c, Raise NotConnected).
Proof.
  intros Ha Hd. destruct c as [[up log] mo kr he aw pu pr ti]. cbn in *. subst up.
  unfold typing. rewrite get_run. cbn. by rewrite Ha.
Qed.

(** A call of [typing] while the link is down. *)
Abbreviation ticked c := (with_tick (S (ct_tick c)) c).

Lemma ctl_typing_down on w target :
  cm_active (ct_model (wn_controller w)) = Some target → fk_up (ct_connection (wn_controller w)) = false →
  ctl l (typing on) w = (with_controller (ticked (wn_controller w)) w, Raise NotConnected).
Proof. intros Ha Hd. by apply ctl_quiet; [apply (typing_down on _ target)|]. Qed.

(** What the composer holds after a key. *)
Definition typed_text (text : pystr) w : pystr :=
  if sc_entry_enabled (wn_screen w) then text else wn_entry w.

Lemma key_pressed text w w' : wn_open w = true → callback (_on_key l) w = w' →
  happen l (KeyPressed text) w = with_entry (typed_text text w') w'.
Proof.
  intros Ho <-. unfold happen. rewrite Ho. cbv zeta. unfold typed_text.
  destruct (callback _ w) as [? sc ? ? ? ? ? ? ? ?]. by destruct (sc_entry_enabled _).
Qed.

Lemma first_key_down w target :
  cm_active (ct_model (wn_controller w)) = Some target →
  fk_up (ct_connection (wn_controller w)) = false → wn_announced_typing w = false →
  callback (_on_key l) w = _on_callback_error NotConnected
    (with_controller (ticked (wn_controller w)) (with_announced_typing true w)).
Proof.
  intros Ha Hd Hq. unfold callback, _on_key, the_model. unfold mbind at 1, M_bind at 1. rewrite get_run.
  unfold mret, M_ret. rewrite Ha, get_run, Hq. unfold mbind at 1, M_bind at 1. rewrite modify_run.
  by rewrite (ctl_typing_down true (with_announced_typing true w) target).
Qed.

Lemma next_key w target :
  cm_active (ct_model (wn_controller w)) = Some target → wn_announced_typing w = true →
  callback (_on_key l) w = with_typing_after true w.
Proof.
  intros Ha Hq. unfold callback, _on_key, the_model. unfold mbind at 1, M_bind at 1. rewrite get_run.
  unfold mret, M_ret. by rewrite Ha, get_run, Hq.
Qed.

Lemma idle_down w target :
  wn_open w = true → cm_active (ct_model (wn_controller w)) = Some target →
  fk_up (ct_connection (wn_controller w)) = false →
  wn_announced_typing w = true → wn_typing_after w = true →
  happen l TypingIdle w =
    _on_callback_error NotConnected (with_controller (ticked (wn_controller w))
      (with_announced_typing false (with_typing_after false w))).
Proof.
  intros Ho Ha Hd Hq Ht. unfold happen. rewrite Ho, Ht. unfold callback, _stop_typing.
  rewrite modify_run, get_run. cbn [wn_announced_typing with_typing_after]. rewrite Hq, modify_run.
  by rewrite (ctl_typing_down false _ target).
Qed.

(** While the link is down, a user who goes on typing is told twice that there
    is a bug: on the first key, and again when the keys go quiet.  A disabled
    composer takes no text, and does not stop the keys from arriving. *)
Theorem keys_while_down_raise w (target k1 k2 : pystr)
    (Hopen : wn_open w = true)
    (Hactive : cm_active (ct_model (wn_controller w)) = Some target)
    (Hdown : fk_up (ct_connection (wn_controller w)) = false)
    (Hquiet : wn_announced_typing w = false) :
  let w' := happen_all l [KeyPressed k1; KeyPressed k2; TypingIdle] w in
  wn_boxes w' = wn_boxes w ++ [bug_box NotConnected; bug_box NotConnected] ∧
  (sc_entry_enabled (wn_screen w) = false → wn_entry w' = wn_entry w).
Proof.
  cbv zeta. unfold happen_all. cbn [foldl].
  rewrite (key_pressed k1 w _ Hopen (first_key_down w target Hactive Hdown Hquiet)).
  set (w1 := with_entry _ _).
  rewrite (key_pressed k2 w1 (with_typing_after true w1)); [|done|by apply (next_key _ target)].
  set (w2 := with_entry _ _). rewrite (idle_down w2 target) by done.
  split; [exact (eq_sym (app_assoc _ [bug_box NotConnected] [bug_box NotConnected]))|].
  intros E. change (typed_text k2 (with_typing_after true w1) = wn_entry w).
  unfold typed_text. change (sc_entry_enabled (wn_screen (with_typing_after true w1)))
    with (sc_entry_enabled (wn_screen w)). rewrite E.
  change (typed_text k1 w = wn_entry w). unfold typed_text. by rewrite E.
Qed.

(** ** A text that is held *)

Lemma send_held c (r : Keyring) (user text : pystr) :
  cm_active (ct_model c) = Some user → is_room_key user = false → ct_keyring c = Some r →
  ring_ok r → reference_key r user = Ok None → strip text ≠ [] → fk_up (ct_connection c) = true →
  ∃ c', send text c = (c', Ok None) ∧ ct_model c' = ct_model c ∧
        dict_get (ct_held c') user = Some (default [] (dict_get (ct_held c) user) ++ [text]).
Proof.
  intros Ha Hroom Hr Ho Hu Ht Hup.
  destruct (send_unknown c r user text Ha Hroom Hr Ho Hu Ht) as (r1 & _ & _ & ->).
  destruct c as [[up log] mo kr he aw pu pr ti]. cbn in Hup. subst up.
  unfold _hold. unfold mbind at 1, M_bind at 1. rewrite get_run. cbv zeta.
  cbn [ct_held with_keyring]. rewrite modify_run.
  destruct (negb (dict_has he user)); (eexists; split; [reflexivity|]; split; [reflexivity|apply dict_get_set_eq]).
Qed.

Lemma notice_told text (s : screen) :
  Transcript.notices (sc_transcript (on_transcript (Transcript.notice text) s).1) =
  Transcript.notices (sc_transcript s) ++ [text].
Proof.
  unfold part, Transcript.notice. rewrite modify_run.
  match goal with |- context [Transcript.redraw ?t] => pose proof (redraw_pane t) as Hk end.
  destruct (Transcript.redraw _) as [t r]. by injection Hk.
Qed.

(** Pressing Return when [send] tells the observer nothing and sends nothing. *)
Lemma on_send_nothing w c' :
  strip (wn_entry w) ≠ [] → wn_announced_typing w = false →
  send (strip (wn_entry w)) (wn_controller w) = (c', Ok None) →
  ct_model c' = ct_model (wn_controller w) →
  ∃ w1, _on_send l w = on_screen (on_transcript (Transcript.notice NOT_SENT)) w1 ∧
        wn_controller w1 = c' ∧ wn_screen w1 = wn_screen w.
Proof.
  intros Ht Hq Es Em. set (w0 := if sc_entry_enabled (wn_screen w) then with_entry [] w else w).
  exists (with_controller c' (with_typing_after false w0)). split_and!; [|done|].
  - unfold _on_send, clear_entry. rewrite get_run. cbv zeta. rewrite decide_False, modify_run by done.
    change (if sc_entry_enabled (wn_screen w) then with_entry [] w else w) with w0.
    unfold _stop_typing. unfold mbind at 1, M_bind at 1. rewrite modify_run, get_run.
    assert (wn_announced_typing (with_typing_after false w0) = false) as ->
      by (unfold w0; by destruct (sc_entry_enabled _)).
    unfold mret, M_ret. unfold mbind, M_bind.
    by rewrite (ctl_quiet _ (with_typing_after false w0) c' (Ok None))
      by (unfold w0; by destruct (sc_entry_enabled _)).
  - unfold w0. by destruct (sc_entry_enabled _).
Qed.

(** A text whose reader's key has not arrived is held until it does, and the
    window says "not sent", and to pick a conversation first, while one is picked. *)
Theorem held_text_is_reported_lost w (r : Keyring) (user : pystr)
    (Hopen : wn_open w = true) (Htext : strip (wn_entry w) ≠ [])
    (Hactive : cm_active (ct_model (wn_controller w)) = Some user) (Hroom : is_room_key user = false)
    (Hring : ct_keyring (wn_controller w) = Some r) (Hok : ring_ok r)
    (Hunknown : reference_key r user = Ok None)
    (Hup : fk_up (ct_connection (wn_controller w)) = true)
    (Hquiet : wn_announced_typing w = false) :
  let w' := happen l ReturnPressed w in
  dict_get (ct_held (wn_controller w')) user =
    Some (default [] (dict_get (ct_held (wn_controller w)) user) ++ [strip (wn_entry w)]) ∧
  Transcript.notices (sc_transcript (wn_screen w')) =
    Transcript.notices (sc_transcript (wn_screen w)) ++ [NOT_SENT] ∧
  cm_active (ct_model (wn_controller w')) = Some user.
Proof.
  destruct (send_held (wn_controller w) r user (strip (wn_entry w)))
    as (c' & Es & Em & Eh); [done..|by apply strip_again|done|].
  destruct (on_send_nothing w c') as (w1 & E & <- & Es1); [done..|].
  cbv zeta. unfold happen. rewrite Hopen. unfold callback. rewrite E. unfold on_screen.
  pose proof (notice_told NOT_SENT (wn_screen w1)) as Hn. rewrite Es1 in Hn |- *.
  destruct (on_transcript _ (wn_screen w)) as [s [[]|e]]; (split_and!; [exact Eh|exact Hn|]);
    cbn; by rewrite Em.
Qed.

(** ** A text that is not held *)

Lemma send_down c (r : Keyring) (user text : pystr) (k : bytes) :
  cm_active (ct_model c) = Some user → is_room_key user = false → ct_keyring c = Some r →
  ring_ok r → reference_key r user = Ok (Some k) → strip text ≠ [] →
  encodable text → encodable (my_name (ct_model c)) → fk_up (ct_connection c) = false →
  ∃ c', send text c = (c', Raise NotConnected) ∧ ct_model c' = ct_model c ∧
        ct_held c' = ct_held c ∧ ct_connection c' = ct_connection c.
Proof.
  intros Ha Hroom Hr Ho Hk Hs Ht Hm Hd.
  destruct (seal_run user text (my_name (ct_model c)) r Ho) as (r1 & Es & _).
  destruct (seal_total k text (my_name (ct_model c)) (kr_draws r) Ht Hm) as (ct & nonce & Ec).
  rewrite Hk in Es. cbn [mbind res_bind] in Es. rewrite Ec in Es. cbn [fmap res_fmap] in Es.
  destruct c as [[up log] mo kr he aw pu pr ti]. cbn in Ha, Hr, Hd, Es. subst up.
  unfold send. rewrite get_run. cbn [ct_model ct_keyring]. rewrite Ha, decide_False, Hr, Hroom by done.
  cbv zeta. unfold mbind, M_bind, on_keyring. cbn [ct_keyring ct_model]. rewrite Es. by eexists.
Qed.

Lemma on_send_raises w c' e :
  strip (wn_entry w) ≠ [] → wn_announced_typing w = false →
  send (strip (wn_entry w)) (wn_controller w) = (c', Raise e) →
  ct_model c' = ct_model (wn_controller w) →
  ∃ w1, _on_send l w = (w1, Raise e) ∧ wn_controller w1 = c' ∧ wn_boxes w1 = wn_boxes w ∧
        wn_entry w1 = if sc_entry_enabled (wn_screen w) then [] else wn_entry w.
Proof.
  intros Ht Hq Es Em. set (w0 := if sc_entry_enabled (wn_screen w) then with_entry [] w else w).
  exists (with_controller c' (with_typing_after false w0)).
  split_and!; [|done|unfold w0; by destruct (sc_entry_enabled _)..].
  unfold _on_send, clear_entry. rewrite get_run. cbv zeta. rewrite decide_False, modify_run by done.
  change (if sc_entry_enabled (wn_screen w) then with_entry [] w else w) with w0.
  unfold _stop_typing. unfold mbind at 1, M_bind at 1. rewrite modify_run, get_run.
  assert (wn_announced_typing (with_typing_after false w0) = false) as ->
    by (unfold w0; by destruct (sc_entry_enabled _)).
  unfold mret, M_ret. unfold mbind, M_bind.
  by rewrite (ctl_quiet _ (with_typing_after false w0) c' (Raise e))
    by (unfold w0; by destruct (sc_entry_enabled _)).
Qed.

(** While the link is down, a text to somebody whose key is known does not wait,
    whatever the strip says: it is neither sent nor held nor shown, the user is
    told that there is a bug, and an enabled composer has lost the text. *)
Theorem sent_while_down_is_lost w (r : Keyring) (user : pystr) (k : bytes)
    (Hopen : wn_open w = true) (Htext : strip (wn_entry w) ≠ [])
    (Hactive : cm_active (ct_model (wn_controller w)) = Some user) (Hroom : is_room_key user = false)
    (Hring : ct_keyring (wn_controller w) = Some r) (Hok : ring_ok r)
    (Hknown : reference_key r user = Ok (Some k))
    (Hutf8 : encodable (strip (wn_entry w))) (Hme : encodable (my_name (ct_model (wn_controller w))))
    (Hdown : fk_up (ct_connection (wn_controller w)) = false)
    (Hquiet : wn_announced_typing w = false) :
  let w' := happen l ReturnPressed w in
  ct_held (wn_controller w') = ct_held (wn_controller w) ∧
  ct_model (wn_controller w') = ct_model (wn_controller w) ∧
  fk_log (ct_connection (wn_controller w')) = fk_log (ct_connection (wn_controller w)) ∧
  wn_boxes w' = wn_boxes w ++ [bug_box NotConnected] ∧
  wn_entry w' = if sc_entry_enabled (wn_screen w) then [] else wn_entry w.
Proof.
  destruct (send_down (wn_controller w) r user (strip (wn_entry w)) k)
    as (c' & Es & Em & Eh & Ec); [done..|by apply strip_again|done|done|done|].
  destruct (on_send_raises w c' NotConnected) as (w1 & E & Ew & Eb & Ee); [done..|].
  cbv zeta. unfold happen. rewrite Hopen. unfold callback. rewrite E.
  unfold _on_callback_error. rewrite Eb.
  cbn [wn_controller wn_boxes wn_entry with_boxes]. by rewrite Ew, Em, Eh, Ec.
Qed.
End Down.

(** ** The header *)

Section Header.
Context `{Runtime} `{Display} `{Casing} `{Clock} `{Metrics}.

Definition header_of : screen → canvas := sc_header.

Lemma on_row_header key m : keeps header_of (on_row key m).
Proof.
  intros s. unfold on_row. destruct (dict_get _ _) as [[i r]|]; [|done]. by destruct (m r).
Qed.

Lemma refresh_list_header m : keeps header_of (_refresh_list m).
Proof.
  unfold _refresh_list. keep.
  - generalize 0. induction (keys m) as [|key ks IH]; intros i; cbn [refresh_rows]; keep; [|apply IH].
    unfold refresh_row, grid_row. keep; apply on_row_header.
  - intros s. unfold set_chats_badge. destruct (dict_get _ _) as [item|]; [|done].
    by destruct (NavItem.set_badge _ item).
Qed.

(** The header is not redrawn when the server lists who is online, who is in a
    room, or who the contacts are: it goes on saying what it said before, although
    [subtitle] depends on the first two. *)
Theorem header_goes_stale (m : ChatModel) (e : Event) (s : screen)
    (Hevent : match e with
              | RosterReplaced _ | RoomMembersChanged _ _ | ContactsChanged _ => True
              | _ => False
              end) :
  sc_header (_render m e s).1 = sc_header s.
Proof. by destruct e; try done; apply (refresh_list_header m). Qed.
End Header.

(** ** An evening of alice's *)

Section Evening.
#[local] Existing Instances plain_runtime toy_crypto plain_display ascii_casing utc fixed_font reports.

Definition from_server (t : MessageType) (data : list (pystr * json)) : happening :=
  FramePosted (mkFrame t JNull JNull JNull JNull data (JStr (&"1")) 5 JNull).

Definition names (l : list pystr) : json := JList (JStr <$> l).

(** The window is laid out, and alice signs in. *)
Definition signed_in : window fake :=
  happen_all 7
    [TranscriptResized 600 400; HeaderResized 600 64; StatePosted (&"ONLINE");
     from_server LOGIN_OK [(&"user", JStr (&"alice")); (&"roster", names [&"bob"; &"carol"])];
     PollDue]
    (run (new_window 7 (new_controller (mkFake true []) (Some alice_ring)))).1.

(** She writes to bob, and opens carol; then bob's key comes. *)
Definition key_comes : window fake :=
  happen_all 7
    [NewConversation (Some (&"bob")); KeyPressed (&"hello"); ReturnPressed;
     NewConversation (Some (&"carol"));
     from_server KEY [(&"user", JStr (&"bob"));
                      (&"pubkey", JStr (Identity.public_b64 (person (&"bob"))))];
     PollDue] signed_in.

(** A text released for bob while carol is the active conversation leaves bob's
    conversation on screen, under bob's name; what is typed next goes to carol. *)
Theorem released_text_shows_the_wrong_chat :
  let model w := ct_model (wn_controller w) in
  let next := happen_all 7 [KeyPressed (&"dear bob"); ReturnPressed] key_comes in
  cm_active (model key_comes) = Some (&"carol") ∧
  rendered_text (wn_screen key_comes) = (&"01 September 2025") ++ [10%N] ++ (&"hello") ++ [10%N] ++
    (&"00:00  ") ++ [10003%N] ∧
  texts_of (cv_items (sc_header (wn_screen key_comes))) = [&"BO"; &"bob"; &"Online"] ∧
  dict_get (ct_held (wn_controller next)) (&"carol") = Some [&"dear bob"].
Proof. vm_compute. by split_and!. Qed.

(** Who is told that typing has ended is whoever is on screen by then. *)
Theorem typing_ends_elsewhere :
  let w := happen_all 7 [NewConversation (Some (&"bob")); KeyPressed (&"h");
                         NewConversation (Some (&"carol")); TypingIdle] signed_in in
  (λ f, (f_to f, f_data f)) <$> filter (λ f, f_type f = TYPING) (fk_log (ct_connection (wn_controller w))) =
    [(JStr (&"bob"), [(&"on", JBool true)]); (JStr (&"carol"), [(&"on", JBool false)])].
Proof. vm_compute. reflexivity. Qed.

(** The scenario behind [header_goes_stale]: bob is gone when alice signs in again. *)
Example bob_is_still_online :
  let w := happen_all 7 [NewConversation (Some (&"bob"));
    from_server LOGIN_OK [(&"user", JStr (&"alice")); (&"roster", names [&"carol"])];
    PollDue] signed_in in
  is_online (ct_model (wn_controller w)) (&"bob") = false ∧
  subtitle (ct_model (wn_controller w)) (&"bob") = (&"Offline", MUTED) ∧
  texts_of (cv_items (sc_header (wn_screen w))) = [&"BO"; &"bob"; &"Online"].
Proof. vm_compute. by split_and!. Qed.
End Evening.

(** bob's key is known, alice has typed to him, and the link has dropped. *)
Definition knowing_bob : Keyring := remember (&"bob") (Identity.public_b64 (person (&"bob"))) alice_ring.

Definition link_down : window fake :=
  let w := @happen_all plain_runtime toy_crypto plain_display ascii_casing utc fixed_font reports
    fake fake_uplink 7 [NewConversation (Some (&"bob"))] signed_in in
  with_entry (&"hello? ") (with_controller
    (with_connection (mkFake false []) (with_keyring (Some knowing_bob) (wn_controller w))) w).

Lemma sent_while_down_is_lost_witness :
  sc_entry_enabled (wn_screen link_down) = true ∧
  let w' := @happen plain_runtime toy_crypto plain_display ascii_casing utc fixed_font reports
              fake fake_uplink 7 ReturnPressed link_down in
  ct_held (wn_controller w') = [] ∧ fk_log (ct_connection (wn_controller w')) = [] ∧ wn_entry w' = [].
Proof.
  split; [vm_compute; reflexivity|].
  destruct (@sent_while_down_is_lost plain_runtime toy_crypto plain_display ascii_casing utc fixed_font
    reports 7 link_down knowing_bob (&"bob") (replicate 32 8%N ++ INFO))
    as (Eh & _ & El & _ & Ee).
  - vm_compute. reflexivity.
  - vm_compute. discriminate.
  - vm_compute. reflexivity.
  - reflexivity.
  - vm_compute. reflexivity.
  - apply remember_ok, new_keyring_ok.
  - vm_compute. reflexivity.
  - eexists. vm_compute. reflexivity.
  - eexists. vm_compute. reflexivity.
  - reflexivity.
  - vm_compute. reflexivity.
  - split_and!; [rewrite Eh|rewrite El|rewrite Ee]; vm_compute; reflexivity.
Defined.
