(* ===== verification/TkDrives.v ===== *)
(** * The window drives the controller

    Every change of the controller behind a window is an input of the controller
    ([Controller.input]) that comes from something that happened to the window,
    as long as the observer does not raise; and a turn of the loop hands over the
    whole inbox in its order, whatever some of the frames raise. *)

From S2P Require Import Prelude PyStr PyDict Utf8 Json Frames Conversation ChatModel Wp.
From S2P Require Import Base64 Envelope Keyring Uplink Controller ControllerSafety ControllerLive.
From S2P Require Import Calendar Theme Backdrop Widgets WidgetsFacts TkView TkFacts TkInStep TkWindow TkStuck TkFindings.
From S2P Require RoomDialog.

(** ** What was painted can be painted again

    Whether painting the transcript raises depends on the messages alone, and on
    whether the pane is wide enough to be drawn in at all. *)
Section Painting.
Context `{Runtime} `{Display} `{Casing} `{Clock} `{Metrics}.

Definition paintable (s : Transcript.t) : Prop :=
  (cv_width (Transcript.cv s) < 40)%Z ∨ Forall drawable (Transcript.messages s).

Lemma bind_went_through {S A B} (m : M S A) (k : A → M S B) s s' b :
  (m ≫= k) s = (s', Ok b) → ∃ s1 a, m s = (s1, Ok a) ∧ k a s1 = (s', Ok b).
Proof. unfold mbind, M_bind. destruct (m s) as [s1 [a|e]]; [by eexists _, _|done]. Qed.

Lemma drew_bubble x y width b c c' z :
  Transcript._draw_bubble x y width b c = (c', Ok z) → drawable x.
Proof.
  unfold Transcript._draw_bubble. intros (c1 & stamp & Ec & E)%bind_went_through.
  injection Ec as <- Ec. cbv zeta in E. destruct (Transcript.bubble_size _ _ _) as [w h].
  apply bind_went_through in E as (c2 & [] & Ea & _). split.
  - unfold Transcript._clock in Ec. destruct (Z.eqb_spec (m_ts x) 0); [by left|right].
    destruct (fromtimestamp (m_ts x)) as [s|e]; [by exists s|done].
  - intros Hm. rewrite Hm in Ea. unfold draw_avatar in Ea.
    apply bind_went_through in Ea as (c3 & col & Eb & _). injection Eb as _ Eb.
    unfold avatar_colour in Eb. destruct (utf8_encode _); [by eexists|done].
Qed.

Lemma drew_messages ms y last width b c c' z :
  Transcript.draw_messages ms y last width b c = (c', Ok z) → Forall drawable ms.
Proof.
  revert y last c. induction ms as [|x ms IH]; intros y last c; [constructor|].
  cbn [Transcript.draw_messages]. intros (c1 & day & _ & E)%bind_went_through.
  case_decide.
  - apply bind_went_through in E as (c2 & y2 & _ & E).
    apply bind_went_through in E as (c3 & y3 & Eb & E). constructor; [by eapply drew_bubble|by eapply IH].
  - apply bind_went_through in E as (c3 & y3 & Eb & E). constructor; [by eapply drew_bubble|by eapply IH].
Qed.

(** A painting that went through leaves something that can be painted. *)
Lemma painted_paintable s s' : Transcript.redraw s = (s', Ok tt) → paintable s'.
Proof.
  intros E. pose proof (redraw_pane s) as Hp. rewrite E in Hp. injection Hp as Hw Hm _.
  unfold paintable. rewrite Hw, Hm. revert E. clear. unfold Transcript.redraw.
  intros (s1 & [] & E1 & E)%bind_went_through. injection E1 as <-. rewrite get_run in E. cbn in E.
  destruct (Z.ltb_spec (cv_width (Transcript.cv s)) 40); [by left|right].
  apply bind_went_through in E as (s2 & [] & E2 & E).
  match type of E2 with Transcript._draw_backdrop ?w ?t = _ => pose proof (draw_backdrop_pane w t) as Hp end.
  rewrite E2 in Hp. injection Hp as _ Hm _. rewrite <-Hm, get_run in *. revert E. case_decide as He.
  - intros _. destruct He as [-> _]. constructor.
  - intros (s3 & y & E3 & _)%bind_went_through. unfold Transcript.on_cv in E3.
    destruct (Transcript.draw_messages _ _ _ _ _ _) as [c [z|e]] eqn:Ed; [|done]. by eapply drew_messages.
Qed.

Lemma messages_drawn ms y last width b c :
  Forall drawable ms → ∃ c' z, Transcript.draw_messages ms y last width b c = (c', Ok z).
Proof.
  intros Hd. revert y last c. induction Hd as [|x ms Hx _ IH]; intros y last c; [by eexists _, _|].
  cbn [Transcript.draw_messages]. destruct (drawable_times x Hx) as [_ ->].
  unfold mbind at 1, M_bind at 1. cbn [lift_res].
  assert (∀ y c, ∃ c', Transcript._draw_bubble x y width b c = (c', Ok (y + (size_of x b).2 + Transcript.GAP + pxz 6)%Z)) as Hb.
  { clear -Hx. intros y c. pose proof (adds_draw_bubble x y width b Hx) as Ha.
    destruct (size_of x b) as [w h]. destruct Ha as (its & Hp & _). rewrite Hp. by eexists. }
  case_decide.
  - unfold mbind at 1, M_bind at 1. destruct (adds_draw_day (day_of (m_ts x)) y width) as (its & -> & _).
    unfold mbind at 1, M_bind at 1. match goal with |- context [Transcript._draw_bubble x ?y0 width b ?c0] =>
      destruct (Hb y0 c0) as [c1 ->] end. apply IH.
  - unfold mbind at 1, M_bind at 1. destruct (Hb y c) as [c1 ->]. apply IH.
Qed.

Lemma paintable_redraw s : paintable s → ∃ s', Transcript.redraw s = (s', Ok tt) ∧ paintable s'.
Proof.
  intros Hs. assert (∃ s', Transcript.redraw s = (s', Ok tt)) as [s' E];
    [|exists s'; split; [done|by eapply painted_paintable]].
  unfold Transcript.redraw. unfold mbind at 1, M_bind at 1. cbn [Transcript.on_cv delete_all modify].
  rewrite get_run. cbn. destruct (Z.ltb_spec (cv_width (Transcript.cv s)) 40); [by eexists|].
  destruct Hs as [?|Hs]; [lia|]. set (s0 := Transcript.set_cv _ s). unfold mbind at 1, M_bind at 1.
  destruct (draw_backdrop_run s0 (cv_width (Transcript.cv s)) eq_refl) as (s1 & -> & (Em & _ & En & _) & _).
  rewrite get_run. case_decide.
  { destruct (draw_empty_run s1 (cv_width (Transcript.cv s))) as (s2 & -> & _). by eexists. }
  cbv zeta. unfold mbind at 1, M_bind at 1. unfold Transcript.on_cv at 1. rewrite Em.
  match goal with |- context [Transcript.draw_messages ?l ?y ?d ?w ?b ?c] =>
    destruct (messages_drawn l y d w b c Hs) as (c1 & z & ->) end.
  unfold mbind at 1, M_bind at 1. unfold Transcript.on_cv at 1.
  match goal with |- context [Transcript.draw_notices ?l ?y ?w] => set (ns := l) end.
  match goal with |- context [Transcript.draw_notices ns z ?w ?c] =>
    assert (∃ c' y', Transcript.draw_notices ns z w c = (c', Ok y')) as (c2 & y2 & ->) end.
  { clear. generalize (Transcript.cv (Transcript.set_cv c1 s1)). revert z.
    induction ns as [|n ns IH]; intros z c; [by eexists _, _|]. apply IH. }
  by eexists.
Qed.

Lemma paintable_notice text s : paintable s → ∃ s', Transcript.notice text s = (s', Ok tt) ∧ paintable s'.
Proof. intros Hs. unfold Transcript.notice. rewrite modify_run. by apply paintable_redraw. Qed.

(** ** The observer leaves a transcript that can be painted, unless it raises *)

Abbreviation Fair := (λ s, paintable (sc_transcript s)).

Lemma wp_fair {A} (m : M screen A) s :
  keeps sc_transcript m → Fair s → wp m (λ _, Fair) (λ _, True) s.
Proof. intros Hm Hs. unfold wp. specialize (Hm s). destruct (m s) as [s' [a|e]]; [|done]. cbn in Hm. by rewrite Hm. Qed.

Lemma wp_show ms text s : wp (on_transcript (Transcript.show ms text)) (λ _, Fair) (λ _, True) s.
Proof.
  unfold wp, part, Transcript.show. rewrite modify_run.
  destruct (Transcript.redraw _) as [tr [[]|e]] eqn:E; [|done]. by eapply painted_paintable.
Qed.

Lemma wp_notice text s : wp (on_transcript (Transcript.notice text)) (λ _, Fair) (λ _, True) s.
Proof.
  unfold wp, part, Transcript.notice. rewrite modify_run.
  destruct (Transcript.redraw _) as [tr [[]|e]] eqn:E; [|done]. by eapply painted_paintable.
Qed.

Lemma on_row_transcript key m : keeps sc_transcript (on_row key m).
Proof. intros s. unfold on_row. destruct (dict_get _ _) as [[i row]|]; [|done]. by destruct (m row). Qed.

Lemma refresh_list_transcript m : keeps sc_transcript (_refresh_list m).
Proof.
  assert (∀ ks i, keeps sc_transcript (refresh_rows m i ks)) as Hr.
  { induction ks as [|k ks IH]; intros i; cbn [refresh_rows]; keep; [|apply IH].
    unfold refresh_row, grid_row. keep; apply on_row_transcript. }
  unfold _refresh_list. keep; [apply Hr|]. intros s. unfold set_chats_badge.
  destruct (dict_get _ _) as [item|]; [|done]. by destruct (NavItem.set_badge _ _).
Qed.

Lemma part_transcript {W A} (sel : screen → W) (upd : W → screen → screen) (m : M W A) :
  (∀ x s, sc_transcript (upd x s) = sc_transcript s) → keeps sc_transcript (part sel upd m).
Proof. intros Hu s. unfold part. destruct (m (sel s)) as [x r]. apply Hu. Qed.

Lemma render_fair m e s : Fair s → wp (_render m e) (λ _, Fair) (λ _, True) s.
Proof.
  assert (∀ m s, wp (_redraw m) (λ _, Fair) (λ _, True) s) as Hd.
  { clear. intros m s. unfold _redraw. apply wp_bind.
    unfold wp at 1, _draw_header, part. destruct (paint_header m (sc_header s)) as [c [[]|e]]; [|done].
    destruct (cm_active m); [destruct (conversation _ m)|]; apply wp_bind;
      (eapply wp_mono; [apply wp_show|intros ? ? ?; by apply wp_ret|done]). }
  assert (∀ m s, Fair s → wp (_refresh_list m) (λ _, Fair) (λ _, True) s) as Hl.
  { clear. intros m s. apply wp_fair, refresh_list_transcript. }
  assert (∀ m s, Fair s → wp (_draw_header m) (λ _, Fair) (λ _, True) s) as Hh.
  { clear. intros m s. by apply wp_fair, part_transcript. }
  intros Hs. destruct e; cbn [_render]; try done; try by apply Hl.
  - apply wp_bind. eapply wp_mono; [by apply Hl|intros [] s1 Hs1|done].
    apply wp_bind. eapply wp_mono; [by apply Hh|intros [] s2 Hs2; apply wp_notice|done].
  - apply wp_bind. case_decide; [|by apply Hl].
    eapply wp_mono; [apply Hd|intros ? ? ?; by apply Hl|done].
  - case_decide; [|done]. apply wp_bind. eapply wp_mono; [apply Hd|done..].
  - apply wp_bind. eapply wp_mono; [apply Hd|intros ? ? ?; by apply Hl|done].
  - by apply Hh.
  - apply wp_bind. eapply wp_mono; [apply Hd|intros ? ? ?; by apply Hl|done].
  - apply wp_fair; [|done]. unfold _set_composer, _show_state, _draw_me, _draw_strip.
    keep; by apply part_transcript.
  - apply wp_notice.
Qed.

Lemma replay_fair events s s' : Fair s → replay events s = (s', Ok tt) → Fair s'.
Proof.
  intros Hs E. assert (wp (replay events) (λ _, Fair) (λ _, True) s) as Hw.
  { apply (wp_forM Fair); [done|intros [m e] s1 _ Hs1; by apply render_fair|done]. }
  unfold wp in Hw. by rewrite E in Hw.
Qed.
End Painting.

Section Drives.
Context `{Runtime} `{Crypto} `{Display} `{Casing} `{Clock} `{Metrics} `{Reports}.
Context {C : Type} `{Uplink C}.
Context (l : nat).
Implicit Type w : window C.

(** A window whose controller has been given [ins], unless it is not followed any more. *)
Definition followed (P : input → Prop) w w' : Prop :=
  (wn_derailed w = true → wn_derailed w' = true) ∧
  (wn_derailed w' = false →
   ∃ ins, wn_controller w' = run_inputs (wn_controller w) ins ∧ Forall P ins).

Definition steers {A} (P : input → Prop) (m : M (window C) A) : Prop := ∀ w, followed P w (m w).1.

Lemma followed_refl P w w' :
  wn_derailed w' = wn_derailed w → wn_controller w' = wn_controller w → followed P w w'.
Proof. intros Ed Ec. split; [by rewrite Ed|]. intros _. by exists []. Qed.

Lemma followed_trans P w1 w2 w3 : followed P w1 w2 → followed P w2 w3 → followed P w1 w3.
Proof.
  intros [Hd1 H1'] [Hd2 H2']. split; [auto|]. intros Hd.
  destruct (wn_derailed w2) eqn:E; [by rewrite Hd2 in Hd|].
  destruct (H1' eq_refl) as (ins1 & E1 & Hf1). destruct (H2' Hd) as (ins2 & E2 & Hf2).
  exists (ins1 ++ ins2). split; [|by apply Forall_app].
  rewrite E2, E1. unfold run_inputs. by rewrite foldl_app.
Qed.

Lemma followed_weaken (P Q : input → Prop) w w' : (∀ i, P i → Q i) → followed P w w' → followed Q w w'.
Proof.
  intros HPQ [Hd Hi]. split; [done|]. intros E. destruct (Hi E) as (ins & Ec & Hf).
  exists ins. split; [done|]. by eapply Forall_impl.
Qed.

Lemma steers_still {A} P (m : M (window C) A) :
  keeps (λ w, (wn_derailed w, wn_controller w)) m → steers P m.
Proof. intros Hm w. specialize (Hm w). injection Hm as Ed Ec. by apply followed_refl. Qed.

Lemma steers_bind {A B} P (m : M (window C) A) (k : A → M (window C) B) :
  steers P m → (∀ a, steers P (k a)) → steers P (m ≫= k).
Proof.
  intros Hm Hk w. unfold mbind, M_bind. specialize (Hm w). destruct (m w) as [w1 [a|e]]; [|done].
  eapply followed_trans; [exact Hm|apply Hk].
Qed.

Lemma steers_ctl {A} (P : input → Prop) (m : M (controller C) A) i :
  P i → (∀ c, (m c).1 = run_input c i) → steers P (ctl l m).
Proof.
  intros Hp Hm w. unfold ctl. specialize (Hm (wn_controller w)).
  destruct (m (wn_controller w)) as [c r]. cbn in Hm. subst c.
  destruct (replay _ (wn_screen w)) as [s [[]|e]]; cbn; (split; [done|]); [|done].
  intros _. exists [i]. split; [done|by constructor].
Qed.

Lemma steers_on_screen {A} P (m : M screen A) : steers P (on_screen (C := C) m).
Proof. apply steers_still. intros w. unfold on_screen. by destruct (m (wn_screen w)). Qed.

Lemma callback_followed P (m : M (window C) unit) w : followed P w (m w).1 → followed P w (callback m w).
Proof.
  intros Hm. unfold callback. destruct (m w) as [w' [[]|e]]; [done|].
  eapply followed_trans; [exact Hm|]. by apply followed_refl.
Qed.

(** ** A turn of the loop *)

(** The input of the controller that an entry of the inbox is. *)
Definition input_of (x : posted) : input :=
  match x with PostedFrame frame => Arrived frame | PostedState state => StateIs state end.

(** Handing an entry over changes the controller as that input does; a notice that
    raises is what stops the loop. *)
Lemma drain_one_run x w :
  let w' := (drain_one l x w).1 in
  wn_derailed w' = false →
  wn_derailed w = false ∧ wn_controller w' = run_input (wn_controller w) (input_of x).
Proof.
  cbv zeta. unfold drain_one.
  assert (∀ w1 r, ctl l (match x with PostedFrame frame => on_frame frame
                                    | PostedState state => on_state state end) w = (w1, r) →
    wn_derailed w1 = false →
    wn_derailed w = false ∧ wn_controller w1 = run_input (wn_controller w) (input_of x)) as Hc.
  { intros w1 r Ew Hd. unfold ctl in Ew.
    assert ((match x with PostedFrame frame => on_frame frame | PostedState state => on_state state end)
              (wn_controller w) = (run_input (wn_controller w) (input_of x),
              (match x with PostedFrame frame => on_frame frame | PostedState state => on_state state end
                 (wn_controller w)).2)) as E by (destruct x; apply surjective_pairing).
    rewrite E in Ew. by destruct (replay _ (wn_screen w)) as [s [[]|e]]; injection Ew as <- _. }
  destruct (ctl l _ w) as [w1 [[]|e]] eqn:Ew; [by apply (Hc w1 (Ok tt))|].
  unfold on_screen. destruct (on_transcript _ (wn_screen w1)) as [s r]. cbn.
  by apply (Hc w1 (Raise e)).
Qed.

Lemma drain_run inbox w :
  let r := drain l inbox w in
  wn_inbox w = inbox → wn_derailed r.1 = false → r.2 = Ok tt →
  wn_derailed w = false ∧ wn_inbox r.1 = [] ∧
  wn_controller r.1 = run_inputs (wn_controller w) (input_of <$> inbox).
Proof.
  cbv zeta. revert w. induction inbox as [|x inbox IH]; intros w Hi; [done|].
  cbn [drain]. rewrite modify_run. unfold mbind, M_bind.
  pose proof (drain_one_run x (with_inbox inbox w)) as Hx. cbv zeta in Hx.
  assert (wn_inbox (drain_one l x (with_inbox inbox w)).1 = inbox) as Hin.
  { pose proof (drain_one_loop l x (with_inbox inbox w)) as Hl. by injection Hl. }
  destruct (drain_one l x (with_inbox inbox w)) as [w1 [[]|e]]; [|done].
  intros Hd Hr. destruct (IH w1 Hin Hd Hr) as (Hd1 & He & Ec). destruct (Hx Hd1) as [Hd0 Ec0].
  split_and!; [done..|]. cbn [fst] in *. by rewrite Ec, Ec0.
Qed.

Lemma drain_rest inbox : keeps (λ w, (wn_polling w, wn_boxes w)) (drain l inbox (C := C)).
Proof.
  induction inbox as [|x inbox IH]; cbn [drain]; keep; [|apply IH]. intros w.
  unfold drain_one, ctl. destruct (_ (wn_controller w)) as [c r].
  destruct (replay _ (wn_screen w)) as [s [[]|e]]; [destruct r as [?|?]|]; [done|..];
    unfold on_screen; cbn [wn_screen derail with_controller with_screen];
    by destruct (on_transcript _ s).
Qed.

Abbreviation fair := (λ w, paintable (sc_transcript (wn_screen w))).

(** As long as the observer does not raise, neither does handing over an entry. *)
Lemma drain_one_fair x w :
  fair w → wn_derailed (drain_one l x w).1 = false →
  (drain_one l x w).2 = Ok tt ∧ fair (drain_one l x w).1.
Proof.
  intros Hw. unfold drain_one, ctl. destruct (_ (wn_controller w)) as [c r].
  destruct (replay _ (wn_screen w)) as [s [[]|e]] eqn:Er.
  - pose proof (replay_fair _ _ _ Hw Er) as Hs. destruct r as [[]|e]; [done|]. intros _.
    unfold on_screen, part. cbn [wn_screen with_controller with_screen].
    destruct (paintable_notice (rp_text e) (sc_transcript s) Hs) as (tr & -> & Ht). done.
  - unfold on_screen. cbn [wn_screen derail with_screen]. by destruct (on_transcript _ s).
Qed.

Lemma drain_derailed inbox w : wn_derailed (drain l inbox w).1 = false → wn_derailed w = false.
Proof.
  revert w. induction inbox as [|x inbox IH]; intros w; [done|]. cbn [drain].
  rewrite modify_run. unfold mbind, M_bind.
  pose proof (drain_one_run x (with_inbox inbox w)) as Hx. cbv zeta in Hx.
  destruct (drain_one l x (with_inbox inbox w)) as [w1 [[]|e]]; cbn [fst] in *.
  - intros Hd%IH. by apply Hx.
  - intros Hd. by apply Hx.
Qed.

Lemma drain_fair inbox w :
  fair w → wn_derailed (drain l inbox w).1 = false →
  (drain l inbox w).2 = Ok tt ∧ fair (drain l inbox w).1.
Proof.
  revert w. induction inbox as [|x inbox IH]; intros w Hw; [done|]. cbn [drain].
  rewrite modify_run. unfold mbind, M_bind.
  pose proof (drain_one_fair x (with_inbox inbox w) Hw) as Hx.
  destruct (drain_one l x (with_inbox inbox w)) as [w1 [[]|e]]; cbn [fst snd] in *.
  - intros Hd. apply IH; [|done]. apply Hx. by apply drain_derailed in Hd.
  - intros Hd. by destruct (Hx Hd).
Qed.

(** C18. The loop feeds the controller, whatever some of the frames raise.  A turn in
    which the observer raises nothing, from a transcript that can be painted,
    hands everything in the inbox to the controller, frames and states alike, in
    the order in which they were posted, and schedules the next turn with a
    transcript that can be painted again: a frame that the controller chokes on
    stops neither the frames behind it nor the loop, and puts up no message box.
    From any transcript at all, a turn that schedules the next one has handed
    over the whole inbox, and one that does not has told the user in a message
    box. *)
Theorem poll_feeds_in_order w
    (Hopen : wn_open w = true) (Hpolling : wn_polling w = true) :
  let w' := happen l PollDue w in
  (wn_derailed w' = false → paintable (sc_transcript (wn_screen w)) →
   wn_polling w' = true ∧ wn_boxes w' = wn_boxes w ∧ paintable (sc_transcript (wn_screen w'))) ∧
  (wn_polling w' = true → wn_derailed w' = false →
   wn_inbox w' = [] ∧
   wn_controller w' = run_inputs (wn_controller w) (input_of <$> wn_inbox w)) ∧
  (wn_polling w' = false → ∃ box, wn_boxes w' = wn_boxes w ++ [box]).
Proof.
  cbv zeta. unfold happen. rewrite Hopen, Hpolling. unfold callback, _poll.
  rewrite modify_run, get_run. unfold mbind, M_bind.
  set (w0 := with_polling false w). pose proof (drain_run (wn_inbox w0) w0 eq_refl) as Hr.
  pose proof (drain_rest (wn_inbox w0) w0) as Hp. pose proof (drain_fair (wn_inbox w0) w0) as Hf. cbv zeta in Hr.
  destruct (drain l (wn_inbox w0) w0) as [w1 [[]|e]]; cbn [fst snd] in *; injection Hp as Ep Eb.
  - split_and!; [|intros _ Hd; by destruct (Hr Hd eq_refl) as (_ & Hi & Ec)|done].
    intros Hd Hw. by destruct (Hf Hw Hd) as [_ Hw1].
  - split_and!; [intros Hd Hw; by destruct (Hf Hw Hd)|by cbn; rewrite Ep|].
    intros _. unfold _on_callback_error. cbn [wn_boxes with_boxes]. rewrite Eb. by eexists.
Qed.

(** ** Where every input comes from *)

(** The input that a happening to the window can be, with what is in the inbox and
    in the composer at the time. *)
Definition stands_for (inbox : list posted) (entry : pystr) (h : happening) (i : input) : Prop :=
  match h, i with
  | PollDue, Arrived frame => PostedFrame frame ∈ inbox
  | PollDue, StateIs state => PostedState state ∈ inbox
  | (ReturnPressed | SendPressed), Typed text => text = strip entry ∧ text ≠ []
  | (ReturnPressed | SendPressed | TypingIdle), Composing on => on = false
  | KeyPressed _, Composing on => on = true
  | RowPressed key, Selected k => k = key
  | HitPicked hits _, Selected k => k ∈ h_key <$> hits
  | ContactPicked names _, Selected k => k ∈ names
  | NewConversation (Some who), Opened user => user = strip who ∧ user ≠ []
  | ContactTyped entry, Opened user => user = strip entry ∧ user ≠ []
  | RoomAnswered (Some (name, members)), OpenedRoom room ms =>
    room = RoomDialog._hashed name ∧ ms = members
  | InviteAnswered room (Some (_, members)), Invited r ms => r = room ∧ ms = members ∧ members ≠ []
  | _, _ => False
  end.

Lemma steers_stop_typing P : P (Composing false) → steers P (_stop_typing l (C := C)).
Proof.
  intros Hp. apply steers_bind; [by apply steers_still; keep|intros []].
  apply steers_bind; [by apply steers_still|intros w0]. destruct (wn_announced_typing w0); [|by apply steers_still].
  apply steers_bind; [by apply steers_still; keep|intros []]. by apply (steers_ctl _ _ (Composing false)).
Qed.

Lemma steers_on_send P w : P (Composing false) →
  (strip (wn_entry w) ≠ [] → P (Typed (strip (wn_entry w)))) → followed P w (_on_send l w).1.
Proof.
  intros Hc Ht. unfold _on_send. rewrite get_run. cbv zeta. case_decide as Hn; [by apply followed_refl|].
  match goal with |- followed _ _ (?m w).1 => enough (steers P m) by auto end.
  apply steers_bind; [apply steers_still; unfold clear_entry; keep; by destruct (sc_entry_enabled _)|intros []].
  apply steers_bind; [by apply steers_stop_typing|intros []].
  apply steers_bind; [by apply (steers_ctl _ _ (Typed (strip (wn_entry w)))); [apply Ht|]|].
  intros [x|]; [by apply steers_still|apply steers_on_screen].
Qed.

Lemma steers_on_key P : P (Composing true) → steers P (_on_key l (C := C)).
Proof.
  intros Hc. apply steers_bind; [by apply steers_still|intros m].
  destruct (cm_active m); [|by apply steers_still].
  apply steers_bind; [by apply steers_still|intros w0].
  apply steers_bind; [|by intros []; apply steers_still; keep].
  destruct (wn_announced_typing w0); [by apply steers_still|].
  apply steers_bind; [by apply steers_still; keep|intros []]. by apply (steers_ctl _ _ (Composing true)).
Qed.

Lemma steers_drain_one P x : P (input_of x) → steers P (drain_one l x (C := C)).
Proof.
  intros Hp w. pose proof (drain_one_run x w) as Hr. cbv zeta in Hr. split.
  - intros E. destruct (wn_derailed (drain_one l x w).1); [done|]. by destruct (Hr eq_refl); congruence.
  - intros E. destruct (Hr E) as [_ Ec]. exists [input_of x]. split; [exact Ec|by constructor].
Qed.

Lemma steers_drain P inbox : (∀ x, x ∈ inbox → P (input_of x)) → steers P (drain l inbox (C := C)).
Proof.
  induction inbox as [|x inbox IH]; intros Hx; cbn [drain]; [by apply steers_still|].
  apply steers_bind; [by apply steers_still; keep|intros []].
  apply steers_bind; [apply steers_drain_one, Hx; by left|intros []]. apply IH. intros y Hy. apply Hx. by right.
Qed.

Lemma followed_poll P w : (∀ x, x ∈ wn_inbox w → P (input_of x)) → followed P w (_poll l w).1.
Proof.
  intros Hx. unfold _poll. rewrite modify_run, get_run.
  eapply followed_trans; [by apply (followed_refl P w (with_polling false w))|].
  match goal with |- followed _ _ (?m _).1 => enough (steers P m) by auto end.
  apply steers_bind; [by apply steers_drain|intros []]. apply steers_still. keep.
Qed.

(** One thing that happens. *)
Lemma happen_followed h w :
  wn_open (happen l h w) = true →
  followed (stands_for (wn_inbox w) (wn_entry w) h) w (happen l h w).
Proof.
  unfold happen. destruct (wn_open w) eqn:Ho; [|by rewrite Ho].
  set (P := stands_for _ _ h).
  assert (∀ m, steers P m → followed P w (callback m w)) as Hc by (intros m Hm; apply callback_followed, Hm).
  destruct h as [frame|state| |text| | | |key|who|answer|room answer|hits picked|entry|names picked| |?|?|?|?| |?|?|];
    intros Hopen; try (apply Hc, steers_still; keep; done); try (by apply followed_refl);
    try by apply Hc, steers_on_screen.
  - destruct (wn_polling w); [|by apply followed_refl]. apply callback_followed, followed_poll.
    by intros [frame|state].
  - eapply followed_trans; [by apply Hc, steers_on_key|].
    destruct (sc_entry_enabled _); by apply followed_refl.
  - apply callback_followed, steers_on_send; [done|by split].
  - destruct (PillButton._click _); [|by apply followed_refl].
    apply callback_followed, steers_on_send; [done|by split].
  - destruct (wn_typing_after w); [|by apply followed_refl]. by apply Hc, steers_stop_typing.
  - destruct (dict_has _ _); [|by apply followed_refl]. by apply Hc, (steers_ctl _ _ (Selected key)).
  - apply Hc. unfold _new_conversation. destruct who as [who|]; [|by apply steers_still].
    case_decide; [by apply steers_still|]. by apply (steers_ctl _ _ (Opened (strip who))).
  - apply Hc. unfold _room_menu. destruct answer as [[name ms]|]; [|by apply steers_still].
    by apply (steers_ctl _ _ (OpenedRoom (RoomDialog._hashed name) ms)).
  - apply Hc. unfold _invite_menu_end. destruct answer as [[name [|x ms]]|]; try by apply steers_still.
    by apply (steers_ctl _ _ (Invited room (x :: ms))).
  - apply Hc. unfold open_hit. destruct (picked ≫= _) as [hit|] eqn:E; [|by apply steers_still].
    apply (steers_ctl _ _ (Selected (h_key hit))); [|done]. cbn.
    apply list_elem_of_fmap. exists hit. split; [done|]. destruct picked; [|done]. by eapply list_elem_of_lookup_2.
  - apply Hc. unfold add_contact_typed. case_decide; [by apply steers_still|].
    by apply (steers_ctl _ _ (Opened (strip entry))).
  - apply Hc. unfold open_contact. destruct (picked ≫= _) as [name|] eqn:E; [|by apply steers_still].
    apply (steers_ctl _ _ (Selected name)); [|done]. cbn.
    destruct picked; [|done]. by eapply list_elem_of_lookup_2.
  - apply Hc, steers_bind; [by apply steers_still|intros m; apply steers_on_screen].
  - apply Hc, steers_bind; [by apply steers_still|intros m; apply steers_on_screen].
  - destruct (Transcript.resize_after _); [|by apply followed_refl]. apply Hc, steers_on_screen.
Qed.

(** C17. The window is only a window.  Up to the moment it is closed, and as long as
    the observer raises nothing, the controller behind it has been given inputs
    and nothing else, each of which is one thing that happened: a frame or a
    state from the inbox, in the turn that took it; the text in the composer,
    stripped, when Return or the button was pressed; the name or the row that was
    picked.  In particular it never asks for the history of a conversation. *)
Theorem window_only_drives w (hs : list happening)
    (Hopen : wn_open (happen_all l hs w) = true)
    (Hfollowed : wn_derailed (happen_all l hs w) = false) :
  ∃ ins, wn_controller (happen_all l hs w) = run_inputs (wn_controller w) ins ∧
    (∀ i, i ∈ ins → ∃ pre h post, hs = pre ++ h :: post ∧
       let then_ := happen_all l pre w in stands_for (wn_inbox then_) (wn_entry then_) h i) ∧
    (∀ key limit, AskedHistory key limit ∉ ins).
Proof.
  enough (∃ ins, wn_controller (happen_all l hs w) = run_inputs (wn_controller w) ins ∧
    ∀ i, i ∈ ins → ∃ pre h post, hs = pre ++ h :: post ∧
       let then_ := happen_all l pre w in stands_for (wn_inbox then_) (wn_entry then_) h i)
    as (ins & Ec & Hi).
  { exists ins. split_and!; [done..|]. intros key limit (pre & h & post & _ & Hs)%Hi.
    destruct h; cbn in Hs; by repeat case_match. }
  induction hs as [|h hs IH] using rev_ind; [exists []; split; [done|by intros i []%not_elem_of_nil]|].
  unfold happen_all in *. rewrite foldl_app in *. cbn [foldl] in *. set (w1 := foldl _ w hs) in *.
  assert (wn_open w1 = true) as Ho1.
  { destruct (wn_open w1) eqn:E; [done|]. unfold happen in Hopen. rewrite E in Hopen. congruence. }
  destruct (happen_followed h w1 Hopen) as [Hd1 Hs]. destruct (Hs Hfollowed) as (ins2 & E2 & Hf2).
  destruct IH as (ins1 & E1 & Hf1); [done| |].
  { destruct (wn_derailed w1); [|done]. by rewrite Hd1 in Hfollowed. }
  exists (ins1 ++ ins2). split; [rewrite E2, E1; unfold run_inputs; by rewrite foldl_app|].
  intros i [Hin|Hin]%elem_of_app.
  - destruct (Hf1 i Hin) as (pre & h0 & post & -> & Hst). exists pre, h0, (post ++ [h]).
    split; [|done]. by rewrite <-app_assoc.
  - exists hs, h, []. split; [done|]. rewrite Forall_forall in Hf2. by apply Hf2.
Qed.
End Drives.

Section Evening.
#[local] Existing Instances plain_runtime toy_crypto plain_display ascii_casing utc fixed_font reports.

(** A frame that the controller chokes on, and one behind it. *)
Definition two_posted : window fake :=
  happen_all 7 [from_server CONTACTS [(&"contacts", JInt 5)]; StatePosted (&"RETRYING")] signed_in.
End Evening.

Lemma poll_feeds_in_order_witness :
  let w' := @happen plain_runtime toy_crypto plain_display ascii_casing utc fixed_font reports
              fake fake_uplink 7 PollDue two_posted in
  wn_derailed w' = false ∧ length (wn_inbox two_posted) = 2 ∧
  wn_polling w' = true ∧ wn_boxes w' = wn_boxes two_posted ∧
  wn_controller w' = @run_inputs plain_runtime toy_crypto fake fake_uplink
    (wn_controller two_posted) (input_of <$> wn_inbox two_posted).
Proof.
  split; [vm_compute; reflexivity|split; [vm_compute; reflexivity|]].
  destruct (@poll_feeds_in_order plain_runtime toy_crypto plain_display ascii_casing utc fixed_font
    reports fake fake_uplink 7 two_posted) as (Hl & Hp & _); [vm_compute; reflexivity..|].
  destruct Hl as (H1 & H2 & _).
  - vm_compute. reflexivity.
  - right. replace (Transcript.messages _) with (@nil Message) by (vm_compute; reflexivity). constructor.
  - split; [exact H1|split; [exact H2|]]. apply Hp; [exact H1|vm_compute; reflexivity].
Defined.

(** The evening of [key_comes]: three frames, one text, two conversations. *)
Lemma window_only_drives_witness :
  ∃ ins, wn_controller key_comes = @run_inputs plain_runtime toy_crypto fake fake_uplink
    (wn_controller signed_in) ins.
Proof.
  destruct (@window_only_drives plain_runtime toy_crypto plain_display ascii_casing utc fixed_font
    reports fake fake_uplink 7 signed_in
    [NewConversation (Some (&"bob")); KeyPressed (&"hello"); ReturnPressed;
     NewConversation (Some (&"carol"));
     from_server KEY [(&"user", JStr (&"bob"));
                      (&"pubkey", JStr (Identity.public_b64 (person (&"bob"))))];
     PollDue]) as (ins & E & _); [vm_compute; reflexivity..|].
  exists ins. exact E.
Defined.
