(* ===== verification/Peek.v ===== *)
(** * Looking into the database

    [demo/peek.py], which prints what the server has stored.  The tables are those
    of the stores; a [print] is one text of the list. *)

From S2P Require Import Prelude PyStr PyDict Utf8 Json.
From S2P Require Import Registries Database Users RoomsDb Messages.

Record stored := mkStored {
  st_users : Users.t;
  st_rooms : SqliteRooms.t;
  st_messages : Messages.t;
}.

Definition WIDTH : nat := 78.

Abbreviation Pk := (M (list pystr)).

Definition print (line : pystr) : Pk unit := modify (λ ps, ps ++ [line]).
Definition NL : pystr := [10%N].
Definition DASH : pystr := [8212%N].

Definition rule (title : pystr) : Pk unit :=
  let line := replicate WIDTH 45%N in print (NL ++ line ++ NL ++ &"  " ++ title ++ NL ++ line).

(** [bytes.hex()]. *)
Definition hex (b : bytes) : pystr := mjoin ((λ x, [hex_digit (x / 16); hex_digit (x mod 16)]%N) <$> b).

(** [f"{s:<10}"]. *)
Definition ljust (n : nat) (s : pystr) : pystr := s ++ replicate (n - length s) 32%N.

Definition account (r : Users.row) : Pk unit :=
  print (NL ++ &"  " ++ Users.u_name r);;
  print (&"    salt   " ++ hex (Users.u_salt r));;
  print (&"    digest " ++ hex (Users.u_digest r));;
  print (&"    public key " ++ match Users.u_pubkey r with
                               | Some ((_ :: _) as key) => take 44 key ++ [8230%N]
                               | _ => &"(none published)"
                               end).

Definition room_line (db : SqliteRooms.t) (room : pystr) : Pk unit :=
  let members := sorted (filter (λ m, m.1 = room) (SqliteRooms.memberships db)).*2 in
  print (NL ++ &"  " ++ room ++ &": " ++
         (if decide (join (&", ") members = []) then &"(empty)" else join (&", ") members)).

(** [sealed[0]], on anything that JSON can hold. *)
Definition first_of (sealed : json) : res json :=
  match sealed with
  | JList (x :: _) => Ok x
  | JStr (c :: _) => Ok (JStr [c])
  | JList [] | JStr [] => Raise IndexError
  | JObj _ => Raise KeyError
  | JNull | JBool _ | JInt _ | JFloat _ => Raise TypeError
  end.

(** [bool(row["nonce"])]. *)
Definition encrypted (r : Messages.row) : bool :=
  match Messages.m_nonce r with Some (_ :: _) => true | _ => false end.

Definition starred (r : Messages.row) : bool :=
  bool_decide (Messages.m_nonce r = Some Messages.ENVELOPES).

(** [row["body"] or "{}"]. *)
Definition body_text (r : Messages.row) : pystr :=
  match Messages.m_body r with Some ((_ :: _) as text) => text | _ => &"{}" end.

Section peek.
Context `{Runtime}.

Definition envelope_line (e : pystr * json) : Pk unit :=
  first ← lift_res (first_of e.2);
  print (&"      for " ++ ljust 10 e.1 ++ &" " ++ take 52 (py_str first)).

Definition copies (n : nat) : Pk unit :=
  print (&"    one sealed copy per member, " ++ dec_of_N (N.of_nat n) ++ &" of them:").

(** [len] and then [items] of what the body decodes to. *)
Definition envelopes (j : json) : Pk unit :=
  match j with
  | JObj d => copies (length d);; forM (sorted_by (λ a b, str_leb a.1 b.1) d) envelope_line
  | JList l => copies (length l);; raise AttributeError
  | JStr s => copies (length s);; raise AttributeError
  | JNull | JBool _ | JInt _ | JFloat _ => raise TypeError
  end.

Definition message (r : Messages.row) : Pk unit :=
  print (NL ++ &"  " ++ Messages.m_sender r ++ &" -> " ++ Messages.m_recipient r ++ &"   " ++
         (if encrypted r then &"ENCRYPTED" else &"plaintext"));;
  if starred r then j ← lift_res (loads (body_text r)); envelopes j
  else print (&"    " ++ default (&"None") (Messages.m_body r)).

Definition when (b : bool) (lines : list pystr) : Pk unit := if b then forM lines print else mret tt.

(** [GROUP BY username], which SQLite answers from the index on the names. *)
Definition owed (db : Messages.t) : list (pystr * nat) :=
  (λ u, (u, length (filter (λ p, p.2 = u) (Messages.pending db)))) <$>
    sorted (remove_dups (Messages.pending db).*2).

Definition owed_line (o : pystr * nat) : Pk unit :=
  print (NL ++ &"  " ++ o.1 ++ &": " ++ dec_of_N (N.of_nat o.2) ++ &" message(s) queued").

Definition accounts (db : stored) : Pk unit :=
  rule (&"ACCOUNTS  " ++ DASH ++ &"  no password and no private key is here");;
  forM (st_users db) account;;
  print (NL ++ &"  -> the salt differs per user, so two people who chose the same");;
  print (&"     password have nothing in common on disk.").

Definition rooms_shown (db : stored) : Pk unit :=
  rule (&"ROOMS");;
  let rooms := sorted (SqliteRooms.rooms (st_rooms db)).*1 in
  when (bool_decide (rooms = [])) [NL ++ &"  (none yet)"];;
  forM rooms (room_line (st_rooms db)).

Definition messages_shown (db : stored) : Pk unit :=
  rule (&"MESSAGES  " ++ DASH ++ &"  what the server actually holds");;
  let rows := Messages.by_ts (Messages.messages (st_messages db)) in
  when (bool_decide (rows = [])) [NL ++ &"  (nothing sent yet)"];;
  forM rows message;;
  when (existsb encrypted rows)
    [NL ++ &"  -> this is what the server stores and routes. It holds no";
     &"     private key for anybody and cannot read a single row."];;
  when (existsb starred rows)
    [&"     A room message is sealed once per member, so there is no";
     &"     shared key to hand round -- and no single copy to steal."];;
  when (existsb (negb ∘ encrypted) rows)
    [NL ++ &"  -> the plaintext rows were sent with --no-encryption, which";
     &"     exists so this script has something to contrast against."].

Definition undelivered (db : stored) : Pk unit :=
  rule (&"UNDELIVERED  " ++ DASH ++ &"  waiting for somebody to come back");;
  when (bool_decide (owed (st_messages db) = [])) [NL ++ &"  (nobody is owed anything)"];;
  forM (owed (st_messages db)) owed_line.

(** [opened]: the text of the error, or the database at that path. *)
Definition peek (path : pystr) (opened : pystr + stored) : Pk Z :=
  match opened with
  | inl error => print (&"  cannot open " ++ path ++ &": " ++ error);; mret 1%Z
  | inr db =>
    accounts db;;
    rooms_shown db;;
    messages_shown db;;
    undelivered db;;
    print [];;
    mret 0%Z
  end.

(** ** When it gets to the end *)

(** What [peek] can show: a room message whose body is an object of lists or texts
    that are not empty. *)
Definition readable (r : Messages.row) : Prop :=
  starred r = true →
  ∃ d, loads (body_text r) = Ok (JObj d) ∧ Forall (λ e, ∃ x, first_of e.2 = Ok x) d.

(** Code that goes through exactly when [P] holds. *)
Definition passes {A} (m : Pk A) (P : Prop) : Prop := ∀ ps, (∃ a, (m ps).2 = Ok a) ↔ P.

Lemma passes_print line : passes (print line) True.
Proof. intros ps. split; [done|]. intros _. by exists tt. Qed.

Lemma passes_bind {A B} (m : Pk A) (k : A → Pk B) P Q :
  passes m P → (∀ a, passes (k a) Q) → passes (m ≫= k) (P ∧ Q).
Proof.
  intros Hm Hk ps. specialize (Hm ps). unfold mbind, M_bind.
  destruct (m ps) as [ps' [a|e]]; cbn in Hm |- *.
  - rewrite (Hk a ps'). assert P by (apply Hm; by exists a). tauto.
  - split; [by intros [? [=]]|]. intros [HP _]. by apply Hm in HP as [? [=]].
Qed.

Lemma passes_iff {A} (m : Pk A) P Q : passes m P → (P ↔ Q) → passes m Q.
Proof. intros Hm HPQ ps. by rewrite (Hm ps). Qed.

Lemma passes_forM {X} (l : list X) f (P : X → Prop) :
  (∀ x, passes (f x) (P x)) → passes (forM l f) (Forall P l).
Proof.
  intros Hf. induction l as [|x l IH]; [intros ps; cbn; split; [constructor|by eexists tt]|].
  cbn [forM]. eapply passes_iff; [apply passes_bind; [apply Hf|done]|]. by rewrite Forall_cons.
Qed.

Lemma passes_prints lines : passes (forM lines print) True.
Proof.
  eapply passes_iff; [apply (passes_forM _ _ (λ _, True)), passes_print|].
  split; [done|]. by intros _; apply Forall_true.
Qed.

Lemma passes_when b lines : passes (when b lines) True.
Proof. destruct b; [apply passes_prints|]. intros ps. split; [done|]. by exists tt. Qed.

Lemma passes_first e : passes (envelope_line e) (∃ x, first_of e.2 = Ok x).
Proof.
  intros ps. unfold envelope_line, lift_res, mbind, M_bind.
  destruct (first_of e.2) as [x|]; cbn; split; try by intros [? [=]].
  - intros _. by exists x.
  - intros _. by exists tt.
Qed.

Lemma passes_envelopes j :
  passes (envelopes j) (∃ d, j = JObj d ∧ Forall (λ e, ∃ x, first_of e.2 = Ok x) d).
Proof.
  destruct j as [| | | | |l|d]; try (intros ps; cbn; split; [by intros [? [=]]|by intros (? & [=] & _)]).
  eapply passes_iff; [apply passes_bind; [apply passes_print|intros _; apply passes_forM, passes_first]|].
  rewrite sorted_by_perm. split; [intros [_ Hd]; by exists d|]. by intros (? & [= <-] & Hd).
Qed.

Lemma passes_message r : passes (message r) (readable r).
Proof.
  unfold message. eapply passes_iff;
    [apply passes_bind with (Q := readable r); [apply passes_print|intros _]|tauto].
  unfold readable. destruct (starred r).
  2: { eapply passes_iff; [apply passes_print|]. split; [done|by intros]. }
  intros ps. unfold lift_res, mbind, M_bind. destruct (loads (body_text r)) as [j|e].
  - rewrite (passes_envelopes j ps). split; [intros (d & -> & Hd) _; by exists d|].
    intros Hd. destruct Hd as (d & [= ->] & Hd); [done|]. by exists d.
  - split; [by intros [? [=]]|]. intros Hd. by destruct Hd as (d & [=] & _).
Qed.

Lemma passes_rule title : passes (rule title) True.
Proof. apply passes_print. Qed.

(** Code that always goes through, in front of what may not. *)
Lemma passes_skip {B} (m : Pk unit) (k : unit → Pk B) P :
  passes m True → (∀ a, passes (k a) P) → passes (m ≫= k) P.
Proof. intros Hm Hk. eapply passes_iff; [by apply passes_bind|]. tauto. Qed.

Lemma passes_forM_print {X} (l : list X) f : (∀ x, passes (f x) True) → passes (forM l f) True.
Proof.
  intros Hf. eapply passes_iff; [apply passes_forM; exact Hf|]. split; [done|].
  intros _. by apply Forall_true.
Qed.

Lemma passes_accounts db : passes (accounts db) True.
Proof.
  unfold accounts, account.
  repeat (apply passes_skip; [|intros _]);
    auto using passes_print, passes_rule.
  apply passes_forM_print. intros r. repeat (apply passes_skip; [apply passes_print|intros _]).
  apply passes_print.
Qed.

Lemma passes_rooms db : passes (rooms_shown db) True.
Proof.
  unfold rooms_shown. apply passes_skip; [apply passes_rule|intros _].
  apply passes_skip; [apply passes_when|intros _]. apply passes_forM_print. intros x. apply passes_print.
Qed.

Lemma passes_undelivered db : passes (undelivered db) True.
Proof.
  unfold undelivered. apply passes_skip; [apply passes_rule|intros _].
  apply passes_skip; [apply passes_when|intros _]. apply passes_forM_print. intros x. apply passes_print.
Qed.

Lemma passes_messages db :
  passes (messages_shown db) (Forall readable (Messages.messages (st_messages db))).
Proof.
  unfold messages_shown. apply passes_skip; [apply passes_rule|intros _].
  apply passes_skip; [apply passes_when|intros _].
  eapply passes_iff.
  - apply passes_bind with (Q := True); [apply passes_forM, passes_message|intros _].
    repeat (apply passes_skip; [apply passes_when|intros _]). apply passes_when.
  - unfold Messages.by_ts. rewrite sorted_by_perm. tauto.
Qed.

(** What stops a look into the database.  [peek] gets to its end exactly when
    every stored message that is marked as one envelope per member really is an
    object of lists or texts that are not empty; any other body ends it with an
    exception. *)
Theorem peek_ends path db ps :
  (∃ status, (peek path (inr db) ps).2 = Ok status) ↔
  Forall readable (Messages.messages (st_messages db)).
Proof.
  revert ps. change (passes (peek path (inr db)) (Forall readable (Messages.messages (st_messages db)))).
  unfold peek. apply passes_skip; [apply passes_accounts|intros _].
  apply passes_skip; [apply passes_rooms|intros _].
  eapply passes_iff; [apply passes_bind with (Q := True); [apply passes_messages|intros _]|tauto].
  apply passes_skip; [apply passes_undelivered|intros _].
  apply passes_skip; [apply passes_print|intros _]. intros p. split; [done|]. by eexists.
Qed.

(** The people it lists under the undelivered are those with something queued, once
    each, with the number that the store itself counts. *)
Lemma owed_counts (db : Messages.t) u n :
  encodable u →
  (u, n) ∈ owed db ↔ n ≠ 0 ∧ Messages.pending_count db u = Ok n.
Proof.
  intros Hu. unfold owed, Messages.pending_count. rewrite bind_str_ok by done. cbn [mbind res_bind].
  rewrite list_elem_of_fmap. split.
  - intros (v & [= <- ->] & Hv). rewrite elem_of_sorted, elem_of_remove_dups in Hv.
    apply list_elem_of_fmap in Hv as (p & -> & Hp). split; [|done].
    intros E%nil_length_inv. assert (p ∈ filter (λ q, q.2 = p.2) (Messages.pending db)) as Hin
      by by apply list_elem_of_filter.
    rewrite E in Hin. by apply not_elem_of_nil in Hin.
  - intros [Hn [= <-]]. exists u. split; [done|]. rewrite elem_of_sorted, elem_of_remove_dups.
    destruct (filter (λ p, p.2 = u) (Messages.pending db)) as [|p l] eqn:E; [done|].
    assert (p ∈ filter (λ p, p.2 = u) (Messages.pending db)) as [<- Hp]%list_elem_of_filter
      by (rewrite E; left).
    by apply list_elem_of_fmap_2.
Qed.
End peek.

(** ** One client is enough *)

Section example.
#[local] Existing Instance plain_runtime.

Definition row_of (body nonce : pystr) : Messages.row :=
  Messages.mkRow (&"id") (&"alice") (&"alice") (&"bob") (Some body) (Some nonce) 1 None None.

Definition holding (rows : list Messages.row) : stored :=
  mkStored [Users.mkRow (&"alice") [0; 255]%N [171]%N None 1] SqliteRooms.empty
    (Messages.mkStore rows [(&"id", &"bob")]).

(** What is printed for one message of each kind. *)
Example peek_prints :
  (message (row_of (&"hi") []) [], message (row_of (&"c2VhbGVk") (&"n1")) [],
   message (row_of (dumps true (JObj [(&"bob", JList [JStr (&"c2VhbGVk"); JStr (&"n1")])])) (&"*")) []) =
  (([[10%N] ++ &"  alice -> bob   plaintext"; &"    hi"], Ok tt),
   ([[10%N] ++ &"  alice -> bob   ENCRYPTED"; &"    c2VhbGVk"], Ok tt),
   ([[10%N] ++ &"  alice -> bob   ENCRYPTED"; &"    one sealed copy per member, 1 of them:";
     &"      for bob        c2VhbGVk"], Ok tt)).
Proof. vm_compute. reflexivity. Qed.

(** A direct message with the nonce of a room's envelopes, which the server takes
    from anybody, keeps the script from its end. *)
Example peek_stops :
  (λ rows, (peek (&"im.db") (inr (holding rows)) []).2) <$>
    [[row_of (&"hi") []]; [row_of (&"[]") (&"*")]; [row_of (dumps true (JObj [(&"bob", JList [])])) (&"*")];
     [row_of (dumps true (JObj [(&"bob", JInt 5)])) (&"*")]] =
  [Ok 0%Z; Raise AttributeError; Raise IndexError; Raise TypeError].
Proof. vm_compute. reflexivity. Qed.
End example.
