(* ===== verification/EndToEnd.v ===== *)
(** * A message from one person to another

    The parts composed: what alice types is sealed by her controller, crosses the
    wire, goes through the router, crosses the wire again and is opened and shown
    by bob's controller. *)

From S2P Require Import Prelude PyStr PyDict Utf8 Json JsonRoundtrip Frames Codec.
From S2P Require Import Registries Database Wire Users Messages RoomsDb.
From S2P Require Import Router Wp RouterSpec RouterRefines RouterInv Scenario RouterSafety.
From S2P Require Import RouterRuns Delivery.
From S2P Require Import Conversation ChatModel ChatModelTypes Base64 Envelope Keyring Uplink.
From S2P Require Controller.
From S2P Require Import ControllerSafety ControllerLive.
Import Controller (controller, ct_model, ct_connection, ct_keyring, on_frame, ROOM_PREFIX).

(** What the interpreter documents of the runtime: the clock counts milliseconds
    since 1970, an identifier is 32 hexadecimal digits, and the decoder accepts
    an object of objects of lists. *)
Class RuntimeLaws `{Runtime} := {
  law_clock n : int64 (rt_now n) ∧ (0 < rt_now n)%Z;
  law_uuid n : rt_uuid n ≠ [] ∧ encodable (rt_uuid n);
  law_depth : 3 ≤ rt_depth;
}.

(** The ring belongs to [me] and holds the true public key of [peer]. *)
Record keyed `{Crypto} (ident : pystr → Identity.t) (me peer : pystr) (r : Keyring) : Prop := {
  ky_ok : ring_ok r;
  ky_me : kr_identity r = ident me;
  ky_peer : dict_get (kr_pubkeys r) peer = Some (Identity.public_b64 (ident peer));
}.

Lemma b64_nonempty raw : raw ≠ [] → b64 raw ≠ [].
Proof. by destruct raw as [|x [|y [|z raw]]]. Qed.

Section crypto.
Context `{Crypto} `{!CryptoLaws}.

Lemma keyed_holds ident me peer r : keyed ident me peer r → holds ident me [peer] r.
Proof.
  intros [Hok Hme Hp]. split_and!; [done|done|].
  intros n ->%list_elem_of_singleton. by apply get_pubkey_of.
Qed.

(** What [seal] produces is ASCII text, and the nonce is never empty. *)
Lemma seal_text k text sender d ct n :
  Envelope.seal k text sender d = Ok (ct, n) → encodable ct ∧ encodable n ∧ n ≠ [].
Proof.
  unfold Envelope.seal, encode_utf8.
  destruct (utf8_encode text) as [data|] eqn:Et; [|done]. cbn [mbind res_bind].
  destruct (utf8_encode sender) as [ad|]; [|done]. cbn [mbind res_bind]. intros [= <- <-].
  split_and!.
  - apply encodable_ascii, b64_ascii, law_encrypt_bytes. by eapply utf8_encode_bytes.
  - apply encodable_ascii, b64_ascii, law_urandom_bytes.
  - apply b64_nonempty. intros E. pose proof (law_urandom_length d) as Hl. by rewrite E in Hl.
Qed.
End crypto.

Section EndToEnd.
Context `{Runtime} `{!RuntimeLaws} `{Crypto} `{!CryptoLaws}.

(** ** Each leg *)

(** The frame a controller sends for [text], and the one the router makes of it,
    cross the wire. *)
Lemma sealed_message_travels k me user text f :
  carries k me user text f → encodable user → travels f.
Proof.
  intros (n & d & ct & nonce & Hs & ->) Hu. destruct (seal_text _ _ _ _ _ _ Hs) as (Hc & Hn & _).
  destruct (law_uuid n) as [Hne He]. destruct (law_clock n) as [Ht _].
  apply (text_frame_travels MSG None (Some user) (Some ct) (Some nonce));
    [done..|pose proof law_depth; lia|]. repeat constructor; intros s [= <-]; done.
Qed.

Lemma routed_message_travels k me user text f :
  carries k me user text f → encodable user → encodable me → travels (outgoing me f).
Proof.
  intros (n & d & ct & nonce & Hs & ->) Hu Hm.
  destruct (seal_text _ _ _ _ _ _ Hs) as (Hc & Hn & _).
  destruct (law_uuid n) as [Hne He]. destruct (law_clock n) as [Ht _].
  apply (text_frame_travels MSG (Some me) (Some user) (Some ct) (Some nonce));
    [done..|pose proof law_depth; lia|]. repeat constructor; intros s [= <-]; done.
Qed.

(** The reader's controller opens it. *)
Lemma sealed_message_shown {D} `{Uplink D} ident (c : controller D) r k me user text f :
  cm_username (ct_model c) = Some me → ct_keyring c = Some r → keyed ident me user r →
  key_for (ident user) (Identity.public_b64 (ident me)) = Ok k →
  carries k user me text f → user ≠ [] → Router.is_room user = false → me ≠ [] → Router.is_room me = false →
  messages_of (ct_model (on_frame (outgoing user f) c).1) user =
  messages_of (ct_model c) user ++ [new_message (f_id f) user (JStr text) (f_ts f) false].
Proof.
  intros Hme Hr Hky Hk (n & d & ct & nonce & Hs & ->) Hu Hru Hm Hrm.
  set (f := message _ _ _ _ _ _).
  destruct (seal_text _ _ _ _ _ _ Hs) as (_ & _ & Hne).
  destruct (key_for_agrees (ident user) (ident me)) as [Hagree _].
  destruct (opens ident user me r text k d ct nonce) as [r' Hopen].
  { by apply keyed_holds. } { by rewrite <-Hagree. } { done. }
  destruct (ask_model (λ id ts, receipt id ts user (f_id (outgoing user f)) (&"DELIVERED")) c)
    as (Hmod & Hring & _). set (c1 := (Controller.ask _ c).1) in *.
  assert (truthy (JStr nonce) = true) as Hn by (cbn; by rewrite bool_decide_eq_true).
  rewrite (direct_shown c (outgoing user f) user me (JStr text)
             (Controller.with_keyring (Some r') c1)); [| | | |done].
  - cbn [fst ct_model Controller.with_model]. by rewrite messages_add_message, decide_True.
  - split; [done..|]. cbn. destruct (law_clock n). lia.
  - unfold opens_now. rewrite Hr. unfold knows, dict_has. destruct Hky as [_ _ ->].
    by rewrite bool_decide_true, orb_true_r by by eexists.
  - fold c1. unfold Controller._plaintext. cbn [f_body f_nonce outgoing f message].
    rewrite get_run, Hring, Hr, bool_decide_false, Hn by done. cbn [negb orb].
    unfold Controller.sender_of. cbn [f_sender outgoing truthy].
    rewrite (bool_decide_true (user ≠ [])) by done. unfold mbind at 1, M_bind at 1, lift_res at 1.
    unfold Controller.or_unreadable, Controller.on_keyring. rewrite Hring, Hr.
    change (default [] (Some user)) with user.
    assert ((if bool_decide (ct ≠ []) then JStr ct else JStr []) = JStr ct) as ->.
    { destruct ct; [by case_bool_decide|by rewrite bool_decide_true]. }
    by rewrite Hopen.
Qed.

(** ** The whole way *)

Context {R : Type} `{RoomStore R} {ok : R → Prop} {view : R → gmap pystr (gset pystr)}.

(** The router hands a sealed message to its reader, and to nobody else. *)
Lemma sealed_message_routed (w : world R) sa sb a b k text f :
  RouterInv.inv (ok := ok) (view := view) w → w_user w !! sa = Some a → w_user w !! sb = Some b →
  carries k a b text f →
  ∃ w', handle sa f w = (w', Ok tt) ∧
    filter (λ p, f_type p.2 = MSG) (new_out w w') = [(sb, outgoing a f)].
Proof.
  intros Hi Ha Hb Hf. pose proof Hf as (n & d & ct & nonce & Hs & Ef).
  destruct (seal_text _ _ _ _ _ _ Hs) as (Hc & Hn & _). destruct (law_uuid n) as [Hne He].
  assert (registered w b) as Hrb by by eapply (i_online (ok := ok) (view := view)).
  destruct (i_names w Hi b Hrb) as (Hbn & Hbr & _).
  assert (direct w sa f a b (rt_uuid n) (Some ct) (Some nonce)) as Hd.
  { subst f. split; [done..|]. split_and!; [|cbn..|apply law_clock].
    - unfold bind_key, bind_text. cbn. by rewrite bind_str_ok.
    - by rewrite bind_str_ok.
    - by rewrite bind_str_ok. }
  assert (Sessions.get (w_sessions w) b = Some sb) as Hsb by by apply (i_agree w Hi).
  destruct (to_user_run (λ n, proj1 (law_clock n)) w sa f a b _ _ _ Hi Hd Hrb)
    as (w1 & pre & Hrun & Hp & Ho & _); [congruence|].
  rewrite (message_run _ _ _ _ _ _ _ _ _ Hd Hrun). eexists. split; [reflexivity|].
  unfold new_out. cbn [w_out set_tick set_out]. rewrite Ho, Hsb, <-!app_assoc, drop_app_length.
  rewrite filter_app. cbn [app]. rewrite filter_cons_True, filter_cons_False by done.
  rewrite filter_none; [done|].
  eapply Forall_impl; [exact Hp|]. intros p E. cbn. by rewrite E.
Qed.

(** A link that takes every frame it is given, and any link on the other side. *)
Context {C D : Type} `{Uplink C, Uplink D} (live : C → Prop).
Hypothesis live_send : ∀ f conn, live conn →
  ∃ conn', up_send f conn = (conn', Ok tt) ∧ live conn' ∧ up_log conn' = up_log conn ++ [f].

(** C1. A message goes from one person to another.  alice and bob are logged in
    to a server in any reachable state, each with the other's true public key.
    Whatever alice types to bob: her controller queues one frame; the router, given
    that frame, hands one message to bob's connection and none to anybody else;
    and bob's controller, given that message, shows alice's text under alice's
    name, with the id and time alice has for it in her own conversation.  Both
    frames cross the wire: in whatever pieces the bytes arrive, a reader gets
    exactly the frame that was sent, if its line is within the limit of a
    mebibyte; one that exceeds the limit by more than a [recv] never gets
    through. *)
Theorem message_end_to_end (ident : pystr → Identity.t) (a b text : pystr)
    (ca : controller C) (cb : controller D) (ra rb : Keyring)
    (w : world R) (sa sb : sid)
    (Hinv : RouterInv.inv (ok := ok) (view := view) w)
    (Ha : w_user w !! sa = Some a) (Hb : w_user w !! sb = Some b)
    (Hlive : live (ct_connection ca)) (Hactive : cm_active (ct_model ca) = Some b)
    (Hname_a : cm_username (ct_model ca) = Some a) (Hname_b : cm_username (ct_model cb) = Some b)
    (Hring_a : ct_keyring ca = Some ra) (Hring_b : ct_keyring cb = Some rb)
    (Hkey_a : keyed ident a b ra) (Hkey_b : keyed ident b a rb) (Htext : sendable text) :
  let ca' := (Controller.send text ca).1 in
  ∃ f g w',
    up_log (ct_connection ca') = up_log (ct_connection ca) ++ [f] ∧
    messages_of (ct_model ca') b =
      messages_of (ct_model ca) b ++ [new_message (f_id f) a (JStr text) (f_ts f) true] ∧
    crosses f ∧
    handle sa f w = (w', Ok tt) ∧
    filter (λ p, f_type p.2 = MSG) (new_out w w') = [(sb, g)] ∧
    crosses g ∧
    messages_of (ct_model (on_frame g cb).1) a =
      messages_of (ct_model cb) a ++ [new_message (f_id f) a (JStr text) (f_ts f) false].
Proof.
  assert (registered w a ∧ registered w b) as [Hra Hrb]
    by (split; by eapply (i_online (ok := ok) (view := view))).
  destruct (i_names w Hinv a Hra) as (Hna & Hroom_a & Hea).
  destruct (i_names w Hinv b Hrb) as (Hnb & Hroom_b & Heb).
  destruct (holds_key ident a [b] ra b (keyed_holds _ _ _ _ Hkey_a)) as (k & Hk & Href); [by left|].
  destruct (key_for_agrees (ident a) (ident b)) as [Hagree _].
  assert (ready live k a b ca) as Hready.
  { split; [done| | |done].
    - unfold Controller.my_name. rewrite Hname_a. by destruct a.
    - exists ra. split_and!; [done|apply Hkey_a|done]. }
  destruct (send_ready live live_send k a b text ca Hready Hroom_b Htext Hea)
    as (ca1 & m & f & Hsend & _ & Hlog & Hf & _ & _ & Hm & ->).
  destruct (sealed_message_routed w sa sb a b k text f Hinv Ha Hb Hf) as (w' & Hrun & Hout).
  cbv zeta. rewrite Hsend. exists f, (outgoing a f), w'. split_and!; [done|done| |done|done| |].
  - by eapply travels_crosses, sealed_message_travels.
  - by eapply travels_crosses, routed_message_travels.
  - eapply sealed_message_shown; try done. by rewrite Hagree.
Qed.
End EndToEnd.

(** ** alice writes to bob *)

Lemma plain_laws : @RuntimeLaws plain_runtime.
Proof.
  split.
  - intros n. split; [apply plain_clock|]. cbn.
    pose proof (Z.mod_pos_bound (Z.of_nat n) 1000000000). lia.
  - intros n. split; [done|]. apply encodable_app; [by eexists|].
    apply encodable_ascii, digits_ascii.
  - cbn. lia.
Qed.

Definition ring_with (me peer : pystr) : Keyring := ring_of me [peer].

Definition hello (me peer : pystr) : list Controller.input :=
  [Controller.Arrived (data_frame LOGIN_OK JNull [(&"user", JStr me)] (&"l") 1);
   Controller.Selected peer].

(** The controller of somebody who has logged in and chosen whom to write to. *)
Abbreviation writes_to me peer := (@Controller.run_inputs plain_runtime toy_crypto fake fake_uplink
  (Controller.new_controller (mkFake true nil) (Some (ring_with me peer))) (hello me peer)).

Lemma person_keyed me peer :
  kr_identity (ring_with me peer) = person me ∧
  bool_decide (dict_get (kr_pubkeys (ring_with me peer)) peer
               = Some (Identity.public_b64 (person peer))) = true →
  @keyed toy_crypto person me peer (ring_with me peer).
Proof. intros [Hi Hp]. split; [apply ring_of_ok|done|]. by apply bool_decide_eq_true in Hp. Qed.

Lemma message_end_to_end_witness :
  ∃ f g w',
    handle 1 f stage = (w', Ok tt) ∧
    filter (λ p, f_type p.2 = MSG) (new_out stage w') = [(2, g)] ∧
    messages_of (ct_model (@on_frame plain_runtime toy_crypto fake fake_uplink g
                             (writes_to (&"bob") (&"alice"))).1) (&"alice") =
    messages_of (ct_model (writes_to (&"bob") (&"alice"))) (&"alice") ++
      [new_message (f_id f) (&"alice") (JStr (&"lunch?")) (f_ts f) false].
Proof.
  destruct (@message_end_to_end plain_runtime plain_laws toy_crypto toy_laws SqliteRooms.t
    SqliteRooms.store SqliteRooms.ok SqliteRooms.view
    fake fake fake_uplink fake_uplink (λ c, fk_up c = true) fake_live
    person (&"alice") (&"bob") (&"lunch?")
    (writes_to (&"alice") (&"bob")) (writes_to (&"bob") (&"alice"))
    (ring_with (&"alice") (&"bob")) (ring_with (&"bob") (&"alice")) stage 1 2)
    as (f & g & w' & _ & _ & _ & Hrun & Hout & _ & Hshown).
  - exact stage_inv.
  - vm_compute; reflexivity.
  - vm_compute; reflexivity.
  - vm_compute; reflexivity.
  - vm_compute; reflexivity.
  - vm_compute; reflexivity.
  - vm_compute; reflexivity.
  - vm_compute; reflexivity.
  - vm_compute; reflexivity.
  - apply person_keyed. split; vm_compute; reflexivity.
  - apply person_keyed. split; vm_compute; reflexivity.
  - split; [vm_compute; discriminate|eexists; vm_compute; reflexivity].
  - exists f, g, w'. split; [exact Hrun|]. split; [exact Hout|exact Hshown].
Defined.
