(* ===== verification/RoomEndToEnd.v ===== *)
(** * A message from one person to a room

    The parts composed for a room: what alice types is sealed once per member by
    her controller, crosses the wire as one frame, is taken apart by the router,
    and every connected member gets, opens and shows their own copy. *)

From S2P Require Import Prelude PyStr PyDict Utf8 Json JsonRoundtrip Frames Codec.
From S2P Require Import Registries Database Wire Users Messages RoomsDb.
From S2P Require Import Router Wp RouterSpec RouterRefines RouterInv Scenario RouterSafety.
From S2P Require Import RouterRuns Delivery RoomDelivery.
From S2P Require Import Conversation ChatModel ChatModelTypes Base64 Envelope Keyring Uplink.
From S2P Require Controller.
From S2P Require Import ControllerSafety ControllerLive EndToEnd.
Import Controller (controller, ct_model, ct_connection, ct_keyring, on_frame, is_room_key).

Section RoomEndToEnd.
Context `{Runtime} `{!RuntimeLaws} `{Crypto} `{!CryptoLaws}.

(** ** The frame *)

(** One copy of [text] from [me], for the reader [e.1]. *)
Definition sealed_for (ident : pystr → Identity.t) (me text : pystr)
    (e : pystr * (pystr * pystr)) : Prop :=
  ∃ k d, key_for (ident e.1) (Identity.public_b64 (ident me)) = Ok k ∧
         Envelope.seal k text me d = Ok e.2.

(** The frame that carries [text] to [room]: a sealed copy for each of [everyone],
    and nothing else. *)
Definition carries_copies (ident : pystr → Identity.t) (me room text : pystr)
    (everyone : list pystr) (f : Frame) (es : list (pystr * (pystr * pystr))) : Prop :=
  es.*1 = everyone ∧ Forall (sealed_for ident me text) es ∧
  ∃ n, f = message (rt_uuid n) (rt_now n) room [] None (Some es).

Definition env_json (es : list (pystr * (pystr * pystr))) : list (pystr * json) :=
  (λ e, (e.1, JList [JStr e.2.1; JStr e.2.2])) <$> es.

Lemma env_keys es : dict_keys (env_json es) = es.*1.
Proof. unfold dict_keys, env_json. by rewrite <-list_fmap_compose. Qed.

Lemma env_copy ident me text everyone es m :
  es.*1 = everyone → NoDup everyone → Forall (sealed_for ident me text) es → m ∈ everyone →
  ∃ ct nonce, jget (env_json es) m = JList [JStr ct; JStr nonce] ∧
              sealed_for ident me text (m, (ct, nonce)).
Proof.
  intros He Hd Hall Hm. rewrite <-He in Hm. apply list_elem_of_fmap in Hm as ([m' [ct n]] & -> & Hin).
  exists ct, n. split; [|by rewrite Forall_forall in Hall; apply Hall].
  unfold jget. rewrite (dict_In_get _ m' (JList [JStr ct; JStr n])); [done| |].
  - unfold dict_ok. by rewrite env_keys, He.
  - by apply (list_elem_of_fmap_2 (λ e : pystr * (pystr * pystr), (e.1, JList [JStr e.2.1; JStr e.2.2])) es (m', (ct, n))).
Qed.

(** The envelopes can be printed, and are nested two deep. *)
Lemma env_sendable ident me text es :
  Forall encodable es.*1 → NoDup es.*1 → Forall (sealed_for ident me text) es →
  sendable_json (JObj (env_json es)) = true ∧ json_depth (JObj (env_json es)) ≤ 2.
Proof.
  intros Hn Hd Hall. split.
  - cbn [sendable_json]. apply andb_true_iff.
    split; [|apply bool_decide_eq_true; unfold dict_ok; by rewrite env_keys].
    clear Hd. induction Hall as [|[m [ct n]] es (k & d & _ & Hs) _ IH]; [done|].
    apply Forall_cons in Hn as [Hm Hn]. destruct (seal_text _ _ _ _ _ _ Hs) as (Hc & Hnn & _).
    cbn in *. rewrite !bool_decide_true by done. by apply IH.
  - cbn [json_depth]. clear. unfold env_json. induction es as [|e es IH]; cbn in *; lia.
Qed.

Lemma copies_travel ident me room text everyone f es :
  carries_copies ident me room text everyone f es → encodable room →
  Forall encodable everyone → NoDup everyone → travels f.
Proof.
  intros (He & Hall & n & ->) Hr Hn Hd. destruct (law_uuid n) as [Hne Hid].
  destruct (law_clock n) as [Ht _]. rewrite <-He in Hn, Hd.
  destruct (env_sendable ident me text es Hn Hd Hall) as [Hs Hdepth].
  assert (travels (message (rt_uuid n) (rt_now n) room [] None None)) as Hbare.
  { apply (text_frame_travels MSG None (Some room) (Some []) None);
      [done..|pose proof law_depth; lia|].
    repeat constructor; intros s; intros [= <-]; [done|by eexists]. }
  destruct es as [|e es]; [exact Hbare|].
  apply (data_travels (message (rt_uuid n) (rt_now n) room [] None None)
           [(&"env", JObj (env_json (e :: es)))] Hbare); [done| | | |].
  - apply NoDup_singleton.
  - by repeat constructor.
  - change (bool_decide (encodable (&"env")) && sendable_json (JObj (env_json (e :: es))) && true
            && bool_decide (dict_ok [(&"env", JObj (env_json (e :: es)))]) = true).
    rewrite Hs, !bool_decide_true; [done|apply NoDup_singleton|by eexists].
  - change (S (json_depth (JObj (env_json (e :: es))) `max` 0) ≤ rt_depth).
    pose proof law_depth. lia.
Qed.

(** ** The legs *)

Lemma on_keyring_run {C A} (op : M Keyring A) (c : controller C) r r' x :
  ct_keyring c = Some r → op r = (r', x) →
  Controller.on_keyring op c = (Controller.with_keyring (Some r') c, x).
Proof. unfold Controller.on_keyring. intros -> E. by rewrite E. Qed.

(** The sender's controller. *)
Lemma send_to_room_run {C} `{Uplink C} (live : C → Prop)
    (live_send : ∀ f conn, live conn →
       ∃ conn', up_send f conn = (conn', Ok tt) ∧ live conn' ∧ up_log conn' = up_log conn ++ [f])
    ident (c : controller C) (r : Keyring) (me room text : pystr) :
  let members := room_members (ct_model c) room in
  cm_active (ct_model c) = Some room → is_room_key room = true →
  cm_username (ct_model c) = Some me → me ≠ [] → is_Some (utf8_encode me) →
  ct_keyring c = Some r → holds ident me (me :: members) (set_me me r) →
  sendable text → live (ct_connection c) →
  ∃ c' f es, Controller.send text c = (c', Ok (Some (new_message (f_id f) me (JStr text) (f_ts f) true))) ∧
    carries_copies ident me room text (sorted (remove_dups (me :: members))) f es ∧
    up_log (ct_connection c') = up_log (ct_connection c) ++ [f] ∧
    messages_of (ct_model c') room =
      messages_of (ct_model c) room ++ [new_message (f_id f) me (JStr text) (f_ts f) true].
Proof.
  intros members Ha Hroom Hme Hne Hu Hr Hholds [Hs Ht] Hl.
  destruct (seal_for_members_run ident me members text r Hne Ht Hu Hholds)
    as (r1 & es & E & Hes & Hall).
  assert (missing_keys r (filter (λ name, name ≠ me) members) = []) as Hmissing.
  { unfold missing_keys. rewrite filter_none; [done|]. apply Forall_forall. intros n.
    rewrite elem_of_remove_dups, list_elem_of_filter. intros [Hn Hin]. unfold knows.
    destruct Hholds as (_ & _ & Hp). specialize (Hp n ltac:(by right)).
    unfold pubkey_of in Hp. change (kr_me (set_me me r)) with me in Hp.
    rewrite decide_False in Hp by tauto. change (kr_pubkeys (set_me me r)) with (kr_pubkeys r) in Hp.
    destruct (dict_get (kr_pubkeys r) n) eqn:En; [|done].
    apply not_false_iff_true, dict_has_true, dict_get_is_Some. by eexists. }
  set (c1 := Controller.with_keyring (Some r1) c).
  destruct (ask_live live live_send (λ id ts, message id ts room [] None (Some es)) c1 Hl)
    as (conn' & Ea & _ & Hlog).
  set (f := message _ _ room [] None (Some es)) in *.
  eexists _, f, es. split_and!.
  - unfold Controller.send. rewrite get_run, Ha, decide_False, Hr, Hroom by done. cbv zeta.
    assert (Controller.my_name (ct_model c) = me) as ->.
    { unfold Controller.my_name. rewrite Hme. by destruct me. }
    assert (Controller._send_to_room room text me c =
      (Controller.with_connection conn' (Controller.with_tick (S (Controller.ct_tick c1)) c1),
       Ok (Some f))) as Esend; [|by rewrite (bind_run _ _ _ _ _ Esend)].
    unfold Controller._send_to_room. rewrite get_run. cbv zeta. fold members.
    rewrite (bind_run _ _ _ _ _ (on_keyring_run _ c r _ _ Hr eq_refl)), Hmissing.
    rewrite (bind_run _ _ _ _ _ (on_keyring_run _ (Controller.with_keyring (Some r) c) r _ _ eq_refl E)).
    change (Controller.with_keyring (Some r1) (Controller.with_keyring (Some r) c)) with c1.
    by rewrite (bind_run _ _ _ _ _ Ea).
  - split_and!; [done|done|]. by exists (Controller.ct_tick c1).
  - exact Hlog.
  - etrans; [apply messages_add_message|]. by rewrite decide_True.
Qed.

(** What the router hands to the reader of the copy [(ct, nonce)]. *)
Definition copy_for (me : pystr) (f : Frame) (ct nonce : pystr) : Frame :=
  mkFrame MSG (JStr me) (f_to f) (JStr ct) (JStr nonce) [] (f_id f) (f_ts f)
    (JInt PROTOCOL_VERSION).

Lemma copy_travels ident me room text everyone f es name ct nonce :
  carries_copies ident me room text everyone f es → sealed_for ident me text (name, (ct, nonce)) →
  encodable me → encodable room → travels (copy_for me f ct nonce).
Proof.
  intros (_ & _ & n & ->) (k & d & _ & Hs) Hm Hr.
  destruct (seal_text _ _ _ _ _ _ Hs) as (Hc & Hn & _).
  destruct (law_uuid n) as [Hne He]. destruct (law_clock n) as [Ht _].
  apply (text_frame_travels MSG (Some me) (Some room) (Some ct) (Some nonce));
    [done..|pose proof law_depth; lia|]. repeat constructor; intros s [= <-]; done.
Qed.

(** The reader's controller opens it and shows it in the room. *)
Lemma copy_shown {D} `{Uplink D} ident (c : controller D) r room me name text everyone f es ct nonce :
  cm_username (ct_model c) = Some name → ct_keyring c = Some r → keyed ident name me r →
  carries_copies ident me room text everyone f es → sealed_for ident me text (name, (ct, nonce)) →
  me ≠ [] → is_room_key room = true →
  messages_of (ct_model (on_frame (copy_for me f ct nonce) c).1) room =
  messages_of (ct_model c) room ++ [new_message (f_id f) me (JStr text) (f_ts f) false].
Proof.
  intros Hname Hr Hky (_ & _ & n & ->) (k & d & Hk & Hs) Hm Hroom. cbn [fst snd] in *.
  set (f := message _ _ _ _ _ _).
  destruct (seal_text _ _ _ _ _ _ Hs) as (_ & _ & Hne).
  destruct (opens ident me name r text k d ct nonce) as [r' Hopen]; [by apply keyed_holds|done..|].
  assert (∀ x : pystr, x ≠ [] → truthy (JStr x) = true) as Htr
    by (intros; cbn; by rewrite bool_decide_eq_true).
  rewrite (room_shown c (copy_for me f ct nonce) me room (JStr text)
             (Controller.with_keyring (Some r') c)); [| | | |done].
  - cbn [fst ct_model Controller.with_model]. by rewrite messages_add_message, decide_True.
  - split; [done..|]. cbn. destruct (law_clock n). lia.
  - unfold opens_now. rewrite Hr. unfold knows, dict_has. destruct Hky as [_ _ ->].
    by rewrite bool_decide_true, orb_true_r by by eexists.
  - unfold Controller._plaintext. cbn [f_body f_nonce copy_for].
    rewrite get_run, Hr, bool_decide_false, (Htr nonce) by done. cbn [negb orb].
    unfold Controller.sender_of. cbn [f_sender copy_for]. rewrite (Htr me) by done.
    unfold mbind at 1, M_bind at 1, lift_res at 1. unfold Controller.or_unreadable.
    change (default [] (Some me)) with me.
    assert ((if truthy (JStr ct) then JStr ct else JStr []) = JStr ct) as ->.
    { destruct ct; [by case_match|by rewrite Htr]. }
    by rewrite (on_keyring_run _ c r r' _ Hr Hopen).
Qed.

Context {R : Type} `{RoomStore R} {ok : R → Prop} {view : R → gmap pystr (gset pystr)}
  `{!RoomStoreSound R ok view, !RoomStoreLaws R ok view}.

Abbreviation in_room w room := (Registries.room_members (view (w_rooms w)) room).

(** The router hands every connected member their own copy. *)
Lemma copies_routed (w : world R) s ident me room text everyone f es :
  RouterInv.inv (ok := ok) (view := view) w → w_user w !! s = Some me →
  is_Some (view (w_rooms w) !! room) → encodable room → me ∈ in_room w room →
  carries_copies ident me room text everyone f es →
  (∀ n, n ∈ everyone ↔ n ∈ in_room w room) → NoDup everyone →
  ∃ w', handle s f w = (w', Ok tt) ∧
    ∀ name d, name ∈ in_room w room → name ≠ me →
      Sessions.get (w_sessions w) name = Some d →
      ∃ ct nonce, sealed_for ident me text (name, (ct, nonce)) ∧
                  (d, copy_for me f ct nonce) ∈ new_out w w'.
Proof.
  intros Hi Hu Hex Hre Hmem Hf Heq Hd. pose proof Hf as (He & Hall & n & Ef).
  destruct (law_uuid n) as [Hne Hid]. destruct (law_clock n) as [Ht _].
  pose proof (i_room_names w Hi room Hex) as (Hroom & _ & _).
  assert (Forall encodable es.*1) as Hnames.
  { rewrite He. apply Forall_forall. intros x Hx%Heq.
    by apply (i_names w Hi), (i_members w Hi room). }
  destruct (env_sendable ident me text es) as [Hs _]; [done|by rewrite He|done|].
  assert (env_of f = Some (env_json es)) as Henv.
  { destruct es as [|e es]; [|by subst f]. apply Heq in Hmem. rewrite <-He in Hmem.
    by apply not_elem_of_nil in Hmem. }
  assert (RoomDelivery.to_room (view := view) w s f me room (rt_uuid n)) as Hr.
  { split; try (by subst f); try done.
    - subst f. cbn. split; [|done]. unfold bind_key, bind_text. cbn. by rewrite bind_str_ok.
    - rewrite Henv. by apply encodable_ascii, dumps_ascii. }
  destruct (room_message_run w s f me room (rt_uuid n) Hi Hr)
    as (row & w2 & _ & (_ & (new & Ho) & _) & Hrun & Hreach).
  eexists. split; [exact Hrun|]. intros name d Hin Hname Hsess.
  destruct (env_copy ident me text everyone es name He Hd Hall (proj2 (Heq name) Hin))
    as (ct & nonce & Hj & Hsealed).
  exists ct, nonce. split; [done|].
  assert (_addressed_to (outgoing me f) (env_of f) name = Some (copy_for me f ct nonce)) as Hg
    by (rewrite Henv; cbn [_addressed_to]; by rewrite Hj).
  pose proof (reached_online _ _ _ _ _ _ (Hreach name _ Hin Hname Hg) Hsess) as Hout.
  unfold new_out in *. cbn [w_out set_tick set_out set_msgs] in *. rewrite Ho in Hout |- *.
  rewrite drop_app_length in Hout. rewrite <-app_assoc, drop_app_length. apply elem_of_app. by left.
Qed.

(** ** The whole way *)

Context {C D : Type} `{Uplink C, Uplink D} (live : C → Prop).
Hypothesis live_send : ∀ f conn, live conn →
  ∃ conn', up_send f conn = (conn', Ok tt) ∧ live conn' ∧ up_log conn' = up_log conn ++ [f].

(** C2. A message goes from one person to a whole room.  alice is logged in to a
    server in any reachable state and is a member of the room; her client knows
    who is in it and holds the members' true public keys.  Whatever she types: her
    controller queues one frame, with one sealed copy per member; the router, given
    that frame, accepts it; every other member who is connected, with alice's
    true key, is handed a frame of their own; and given that, their controller
    shows alice's text in the room, under alice's name, with the id and time that
    alice has for it.  All these frames cross the wire: in whatever pieces the
    bytes arrive, a reader gets exactly the frame that was sent, if its line is
    within the limit of a mebibyte; one that exceeds the limit by more than a
    [recv] never gets through (the copies for a large room go in one frame). *)
Theorem room_message_end_to_end (ident : pystr → Identity.t) (a room text : pystr)
    (ca : controller C) (ra : Keyring) (w : world R) (sa : sid)
    (Hinv : RouterInv.inv (ok := ok) (view := view) w)
    (Ha : w_user w !! sa = Some a) (Hin : a ∈ in_room w room)
    (Hroom : is_Some (view (w_rooms w) !! room) ∧ encodable room)
    (Hlive : live (ct_connection ca)) (Hactive : cm_active (ct_model ca) = Some room)
    (Hname : cm_username (ct_model ca) = Some a) (Hring : ct_keyring ca = Some ra)
    (Hknown : ∀ n, n ∈ room_members (ct_model ca) room ↔ n ∈ in_room w room)
    (Hkeys : holds ident a (room_members (ct_model ca) room) (set_me a ra))
    (Htext : sendable text) :
  let ca' := (Controller.send text ca).1 in
  ∃ f w',
    up_log (ct_connection ca') = up_log (ct_connection ca) ++ [f] ∧
    messages_of (ct_model ca') room =
      messages_of (ct_model ca) room ++ [new_message (f_id f) a (JStr text) (f_ts f) true] ∧
    crosses f ∧
    handle sa f w = (w', Ok tt) ∧
    ∀ b sb (cb : controller D) rb,
      b ∈ in_room w room → b ≠ a → w_user w !! sb = Some b →
      cm_username (ct_model cb) = Some b → ct_keyring cb = Some rb → keyed ident b a rb →
      ∃ g, (sb, g) ∈ new_out w w' ∧
        crosses g ∧
        messages_of (ct_model (on_frame g cb).1) room =
          messages_of (ct_model cb) room ++ [new_message (f_id f) a (JStr text) (f_ts f) false].
Proof.
  destruct Hroom as [Hex Hre]. pose proof (i_room_names w Hinv room Hex) as (Hroom & _ & _).
  assert (registered w a) as Hra by by eapply (i_online (ok := ok) (view := view)).
  destruct (i_names w Hinv a Hra) as (Hna & _ & Hea).
  set (members := room_members (ct_model ca) room) in *.
  assert (holds ident a (a :: members) (set_me a ra)) as Hall.
  { destruct Hkeys as (Hok & Hi & Hp). split_and!; [done..|].
    intros n [->|Hn]%elem_of_cons; apply Hp; [by apply Hknown|done]. }
  destruct (send_to_room_run live live_send ident ca ra a room text Hactive Hroom Hname Hna Hea
    Hring Hall Htext Hlive) as (ca1 & f & es & Hsend & Hf & Hlog & Hm). fold members in Hf.
  set (everyone := sorted (remove_dups (a :: members))) in *.
  assert (∀ n, n ∈ everyone ↔ n ∈ in_room w room) as Heq.
  { intros n. unfold everyone. rewrite elem_of_sorted, elem_of_remove_dups, elem_of_cons, Hknown.
    split; [by intros [->|?]|by right]. }
  assert (NoDup everyone) as Hd by apply sorted_NoDup, NoDup_remove_dups.
  assert (Forall encodable everyone) as Henc.
  { apply Forall_forall. intros n Hn%Heq. by apply (i_names w Hinv), (i_members w Hinv room). }
  destruct (copies_routed w sa ident a room text everyone f es Hinv Ha Hex Hre Hin Hf Heq Hd)
    as (w' & Hrun & Hout).
  cbv zeta. rewrite Hsend. exists f, w'. split_and!; [done|done| |done|].
  - by eapply travels_crosses, copies_travel.
  - intros b sb cb rb Hb Hne Hsb Hnb Hrb Hkb.
    destruct (Hout b sb Hb Hne) as (ct & nonce & Hsealed & Hg); [by apply (i_agree w Hinv)|].
    exists (copy_for a f ct nonce). split_and!; [done| |].
    + by eapply travels_crosses, copy_travels.
    + by eapply copy_shown.
Qed.
End RoomEndToEnd.

(** ** alice writes to the team *)

(** The controller of somebody who has logged in, was told who is in the room, and
    has chosen it. *)
Abbreviation in_team me peer := (@Controller.run_inputs plain_runtime toy_crypto fake fake_uplink
  (Controller.new_controller (mkFake true nil) (Some (ring_with me peer)))
  [Controller.Arrived (data_frame LOGIN_OK JNull [(&"user", JStr me)] (&"l") 1);
   Controller.Arrived (data_frame ROOM_STATE JNull
     [(&"room", JStr (&"#team")); (&"members", JList [JStr (&"alice"); JStr (&"bob")])] (&"r") 1);
   Controller.Selected (&"#team")]).

Lemma room_message_end_to_end_witness :
  ∃ f g w',
    handle 1 f stage = (w', Ok tt) ∧ (2, g) ∈ new_out stage w' ∧
    messages_of (ct_model (@on_frame plain_runtime toy_crypto fake fake_uplink g
                             (in_team (&"bob") (&"alice"))).1) (&"#team") =
    messages_of (ct_model (in_team (&"bob") (&"alice"))) (&"#team") ++
      [new_message (f_id f) (&"alice") (JStr (&"standup?")) (f_ts f) false].
Proof.
  assert (∀ n, n ∈ [&"alice"; &"bob"] ↔
    n ∈ Registries.room_members (SqliteRooms.view (w_rooms stage)) (&"#team")) as Hknown.
  { assert (Registries.room_members (SqliteRooms.view (w_rooms stage)) (&"#team")
            = list_to_set [&"alice"; &"bob"]) as -> by (vm_compute; reflexivity).
    intros n. by rewrite elem_of_list_to_set. }
  destruct (@room_message_end_to_end plain_runtime plain_laws toy_crypto toy_laws SqliteRooms.t
    SqliteRooms.store SqliteRooms.ok SqliteRooms.view _
    fake fake fake_uplink fake_uplink (λ c, fk_up c = true) fake_live
    person (&"alice") (&"#team") (&"standup?") (in_team (&"alice") (&"bob"))
    (ring_with (&"alice") (&"bob")) stage 1)
    as (f & w' & _ & _ & _ & Hrun & Hall).
  - exact stage_inv.
  - vm_compute; reflexivity.
  - apply Hknown. by left.
  - split; [apply (bool_decide_eq_true_1 (is_Some _)); vm_compute; reflexivity|].
    by apply literal_encodable.
  - vm_compute; reflexivity.
  - vm_compute; reflexivity.
  - vm_compute; reflexivity.
  - vm_compute; reflexivity.
  - exact Hknown.
  - split; [exact (ring_of_ok (&"alice") [&"bob"])|]. split; [vm_compute; reflexivity|].
    intros n Hn. change (n ∈ [&"alice"; &"bob"]) in Hn.
    apply elem_of_cons in Hn as [->|Hn]; [vm_compute; reflexivity|].
    apply list_elem_of_singleton in Hn as ->. vm_compute; reflexivity.
  - split; [vm_compute; discriminate|eexists; vm_compute; reflexivity].
  - destruct (Hall (&"bob") 2 (in_team (&"bob") (&"alice")) (ring_with (&"bob") (&"alice")))
      as (g & Hg & _ & Hshown).
    + apply Hknown. right. by left.
    + done.
    + vm_compute; reflexivity.
    + vm_compute; reflexivity.
    + vm_compute; reflexivity.
    + apply person_keyed. split; vm_compute; reflexivity.
    + exists f, g, w'. split; [exact Hrun|]. split; [exact Hg|exact Hshown].
Defined.
