(* ===== verification/Doctor.v ===== *)
(** * Why will the window not open?

    [tools/doctor.py].  What the checks find out about the computer is a record,
    [machine]; what they print is a list of lines. *)

From S2P Require Import Prelude PyStr Wp.

(** What an import comes to: the exception, with its text, if it raises. *)
Inductive imported := Imported | ImportRaised (e : exn) (exc : pystr).

(** What there is to find. [None] is success where a text is the text of an exception
    that the check catches whatever it is. *)
Record machine := mkMachine {
  mc_version : Z * Z * Z;              (* [sys.version_info] *)
  mc_executable : pystr;
  mc_nt : bool;                        (* [os.name == "nt"] *)
  mc_root : pystr;                     (* the project directory *)
  mc_beside : pystr;                   (* [pythonw.exe] next to the executable *)
  mc_exists : pystr → res bool;        (* [Path.exists]; it may not be allowed to look *)
  mc_tkinter : imported;               (* importing tkinter *)
  mc_window : pystr + pystr;           (* opening a window: the exception, or the version of Tk *)
  mc_cryptography : imported;          (* importing cryptography *)
  mc_photo : option pystr;             (* reading a picture from memory *)
  mc_app : option pystr;               (* importing the window's code *)
}.

Record doctor := mkDoctor {
  dr_problems : list (pystr * pystr);
  dr_printed : list pystr;
}.

Definition PASS : pystr := &"  [ ok ] ".
Definition FAIL : pystr := &"  [FAIL] ".
Definition WARN : pystr := &"  [warn] ".

Abbreviation Dr := (M doctor).

Definition print (line : pystr) : Dr unit :=
  modify (λ d, mkDoctor (dr_problems d) (dr_printed d ++ [line])).

Definition text (lines : list pystr) : pystr := join [10%N] lines.

Definition report (ok : bool) (title detail fix_ : pystr) : Dr bool :=
  print ((if ok then PASS else FAIL) ++ title);;
  (if decide (detail = []) then mret tt else print (&"         " ++ detail));;
  (if negb ok && bool_decide (fix_ ≠ []) then
     modify (λ d, mkDoctor (dr_problems d ++ [(title, text (strip <$> split 10 fix_))]) (dr_printed d))
   else mret tt);;
  mret ok.

Definition version_text (v : Z * Z * Z) : pystr :=
  dec_of_Z v.1.1 ++ &"." ++ dec_of_Z v.1.2 ++ &"." ++ dec_of_Z v.2.

(** [sys.version_info >= (3, 11)]: as tuples, the longer one is the greater. *)
Definition recent (v : Z * Z * Z) : bool := ((3 <? v.1.1) || (v.1.1 =? 3) && (11 <=? v.1.2))%Z.

Definition check_python (mc : machine) : Dr bool :=
  report (recent (mc_version mc)) (&"Python " ++ version_text (mc_version mc))
    (&"running from " ++ mc_executable mc)
    (text [&"Semaphore needs Python 3.11 or newer -- it uses enum.StrEnum, which";
           &"         arrived in 3.11. Install a newer Python and rebuild the venv:";
           [];
           &"             python -m venv .venv";
           &"             .venv\Scripts\activate";
           &"             pip install -r requirements.txt"]).

(** [except ImportError]: nothing else is caught. *)
Definition check_tkinter (mc : machine) : Dr bool :=
  match mc_tkinter mc with
  | ImportRaised ImportError exc =>
    report false (&"tkinter is importable") exc
      (text [&"THIS IS THE USUAL CAUSE. Python is installed without Tcl/Tk, so the";
             &"         console client works and the window cannot exist.";
             [];
             &"         Windows: re-run the Python installer, choose Modify, and tick";
             &"                  'tcl/tk and IDLE'. Then delete .venv and make it again.";
             &"         Linux:   sudo apt install python3-tk";
             &"         macOS:   brew install python-tk";
             [];
             &"         Python from the Microsoft Store often omits it. A python.org";
             &"         install is the reliable one."])
  | ImportRaised e _ => raise e
  | Imported => report true (&"tkinter is importable") [] []
  end.

Definition check_tk_window (mc : machine) : Dr bool :=
  match mc_window mc with
  | inl exc =>
    report false (&"Tk can open a window") exc
      (text [&"tkinter imports but cannot create a window. On Windows this usually";
             &"         means a broken or partial Tcl/Tk installation -- reinstall Python";
             &"         with the tcl/tk option. Over SSH or in a container it means there";
             &"         is no display, and the console view is the only option:";
             [];
             &"             python -m im.client --view console --user you --password pw"])
  | inr version => report true (&"Tk can open a window (Tk " ++ version ++ &")") [] []
  end.

Definition venv_pythonw (mc : machine) : pystr := mc_root mc ++ &"\.venv\Scripts\pythonw.exe".
Definition venv_python (mc : machine) : pystr := mc_root mc ++ &"\.venv\Scripts\python.exe".

Definition check_pythonw (mc : machine) : Dr bool :=
  if negb (mc_nt mc) then report true (&"pythonw not needed on this platform") [] []
  else
    let venv := venv_pythonw mc in
    there ← lift_res (mc_exists mc venv);
    found ← (if (there : bool) then mret true else lift_res (mc_exists mc (mc_beside mc)));
    report found (&"pythonw.exe exists")
      (if (found : bool) then (if (there : bool) then venv else mc_beside mc)
       else &"not beside python.exe or in .venv")
      (text [&"run.bat launches the window with pythonw.exe so no console sits behind";
             &"         it. Without that file nothing starts, and because pythonw has no";
             &"         console there is no error either.";
             [];
             &"         Run the client directly instead, which works and shows errors:";
             [];
             &"             .venv\Scripts\python.exe -m im.client --view tk --user aya \";
             &"                 --password demo --register"]).

Definition check_venv (mc : machine) : Dr bool :=
  if negb (mc_nt mc) then report true (&"virtual environment (not checked off Windows)") [] []
  else
    let python := venv_python mc in
    there ← lift_res (mc_exists mc python);
    report there (&"virtual environment exists")
      (if (there : bool) then python else &"no .venv in the project directory")
      (text [&"Make one in the project directory:";
             [];
             &"             python -m venv .venv";
             &"             .venv\Scripts\activate";
             &"             pip install -r requirements.txt"]).

(** The loop over the one module, with [except ImportError]. *)
Definition check_dependencies (mc : machine) : Dr bool :=
  missing ← match mc_cryptography mc return Dr (list pystr) with
            | Imported => mret []
            | ImportRaised ImportError _ => mret [&"cryptography"]
            | ImportRaised e _ => raise e
            end;
  report (bool_decide (missing = [])) (&"dependencies installed")
    (if decide (missing = []) then &"cryptography" else &"missing: " ++ join (&", ") missing)
    (&"             pip install -r requirements.txt").

Definition check_backdrop (mc : machine) : Dr bool :=
  match mc_photo mc with
  | Some exc =>
    report false (&"Tk can load the generated background") exc
      (text [&"The soft background is built in memory as a PPM. This Tk will not";
             &"         read one, which is unusual. The window still works without it --";
             &"         the backdrop is decoration -- so this is a warning, not a stop."])
  | None => report true (&"Tk can load the generated background") [] []
  end.

Definition check_app_imports (mc : machine) : Dr bool :=
  match mc_app mc with
  | Some exc =>
    report false (&"the window code imports") exc
      (text [&"Something in the application itself fails to import. The message";
             &"         above is the real error -- the one pythonw would have swallowed."])
  | None => report true (&"the window code imports") [] []
  end.

(** The summary of the problems, numbered from [i]. *)
Fixpoint summary (i : nat) (problems : list (pystr * pystr)) : Dr unit :=
  match problems with
  | [] => mret tt
  | (title, fix_) :: rest =>
    print (&"
  " ++ dec_of_N (N.of_nat i) ++ &". " ++ title ++ &"
");;
    forM (split 10 fix_) (λ line, print (if decide (line = []) then [] else &"     " ++ line));;
    summary (S i) rest
  end.

(** What is printed when nothing is wrong. *)
Definition ALL_PRESENT : list pystr :=
  [&"  Everything needed for the window is present."; [];
   &"  If it still will not open, run the client directly so that errors";
   &"  are visible instead of being swallowed by pythonw:"; [];
   &"      python -m im.client --view tk --user aya --password demo --register"; []].

Definition main (mc : machine) : Dr Z :=
  print [];;
  print (&"  Semaphore -- why will the window not open?");;
  print (&"  " ++ replicate 56 45%N);;
  print [];;
  check_python mc;;
  check_venv mc;;
  check_dependencies mc;;
  tk_ok ← check_tkinter mc;
  tk_ok ← (if (tk_ok : bool) then check_tk_window mc else mret false);
  check_pythonw mc;;
  (if (tk_ok : bool) then check_backdrop mc;; check_app_imports mc;; mret tt else mret tt);;
  print [];;
  d ← get;
  if decide (dr_problems d = []) then
    forM ALL_PRESENT print;;
    mret 0%Z
  else
    print (&"  " ++ replicate 56 61%N);;
    print (&"  " ++ dec_of_N (N.of_nat (length (dr_problems d))) ++ &" problem(s) found");;
    print (&"  " ++ replicate 56 61%N);;
    summary 1 (dr_problems d);;
    print [];;
    mret 1%Z.

(** ** What the checks say *)

(** A check adds its title to the problems, or nothing; or it raises. *)
Definition verdict (m : Dr bool) (r : res bool) (title : pystr) : Prop :=
  ∀ d, ∃ d', m d = (d', r) ∧
    ∀ ok, r = Ok ok → (dr_problems d').*1 = (dr_problems d).*1 ++ (if ok then [] else [title]).

Lemma report_verdict ok title detail fix_ :
  (ok = false → fix_ ≠ []) → verdict (report ok title detail fix_) (Ok ok) title.
Proof.
  intros Hfix d. unfold report, print. rewrite modify_run.
  assert (∀ k : unit → Dr bool, ∃ d1, dr_problems d1 = dr_problems d ∧
    ((if decide (detail = []) then mret tt else modify (λ d, mkDoctor (dr_problems d)
        (dr_printed d ++ [&"         " ++ detail]))) ≫= k)
      (mkDoctor (dr_problems d) (dr_printed d ++ [(if ok then PASS else FAIL) ++ title])) = k tt d1)
    as Hdetail.
  { intros k. case_decide; (eexists; split; [|reflexivity]; done). }
  edestruct Hdetail as (d1 & Hd1 & ->). destruct ok; cbn [negb andb].
  - exists d1. split; [done|]. intros ok [= <-]. by rewrite app_nil_r, Hd1.
  - rewrite bool_decide_true by auto. rewrite modify_run. eexists. split; [reflexivity|].
    intros ok [= <-]. cbn [dr_problems]. by rewrite fmap_app, Hd1.
Qed.

Lemma raise_verdict e title : verdict (raise e) (Raise e) title.
Proof. intros d. by exists d. Qed.

(** The tail of [main] prints only. *)
Definition prints {A} (m : Dr A) (a : A) : Prop :=
  ∀ d, ∃ d', m d = (d', Ok a) ∧ dr_problems d' = dr_problems d.

Lemma prints_ret {A} (a : A) : prints (mret a) a.
Proof. intros d. by exists d. Qed.

Lemma prints_bind {A B} (m : Dr A) (k : A → Dr B) a b : prints m a → prints (k a) b → prints (m ≫= k) b.
Proof.
  intros Hm Hk d. destruct (Hm d) as (d1 & E & H1). destruct (Hk d1) as (d2 & E2 & H2).
  exists d2. unfold mbind, M_bind. rewrite E, E2. split; [done|congruence].
Qed.

Lemma prints_print line : prints (print line) tt.
Proof. intros d. eexists. split; [reflexivity|done]. Qed.

Lemma prints_forM {A} (l : list A) (f : A → Dr unit) :
  (∀ x, prints (f x) tt) → prints (forM l f) tt.
Proof. intros Hf. induction l; [apply prints_ret|by eapply prints_bind]. Qed.

Lemma prints_summary i problems : prints (summary i problems) tt.
Proof.
  revert i. induction problems as [|[title fix_] problems IH]; intros i; [apply prints_ret|].
  cbn [summary]. eapply prints_bind; [apply prints_print|].
  eapply prints_bind; [|apply IH]. apply prints_forM. intros. apply prints_print.
Qed.

(** ** The verdict *)

Section verdict.
Variable mc : machine.

(** What an import counts for: an ImportError is a failed check. *)
Definition importable (i : imported) : res bool :=
  match i with
  | Imported => Ok true
  | ImportRaised ImportError _ => Ok false
  | ImportRaised e _ => Raise e
  end.

Definition has_venv : res bool := if mc_nt mc then mc_exists mc (venv_python mc) else Ok true.
Definition has_pythonw : res bool :=
  if mc_nt mc then
    there ← mc_exists mc (venv_pythonw mc);
    if (there : bool) then Ok true else mc_exists mc (mc_beside mc)
  else Ok true.
Definition absent (o : option pystr) : bool := match o with None => true | Some _ => false end.
Definition opens : bool := match mc_window mc with inr _ => true | inl _ => false end.

Definition venv_title : pystr :=
  if mc_nt mc then &"virtual environment exists" else &"virtual environment (not checked off Windows)".
Definition pythonw_title : pystr :=
  if mc_nt mc then &"pythonw.exe exists" else &"pythonw not needed on this platform".
Definition window_title : pystr :=
  match mc_window mc with
  | inr version => &"Tk can open a window (Tk " ++ version ++ &")"
  | inl _ => &"Tk can open a window"
  end.

(** The checks that are made, in order, each with its outcome; or the first exception
    that no check catches. *)
Definition made : res (list (bool * pystr)) :=
  venv ← has_venv;
  crypto ← importable (mc_cryptography mc);
  tk ← importable (mc_tkinter mc);
  pythonw ← has_pythonw;
  let window := (tk && opens)%bool in
  Ok ([(recent (mc_version mc), &"Python " ++ version_text (mc_version mc)); (venv, venv_title);
       (crypto, &"dependencies installed"); (tk, &"tkinter is importable")] ++
      (if (tk : bool) then [(window, window_title)] else []) ++ [(pythonw, pythonw_title)] ++
      (if window then [(absent (mc_photo mc), &"Tk can load the generated background");
                       (absent (mc_app mc), &"the window code imports")] else [])).

Definition failed (l : list (bool * pystr)) : list pystr := (filter (λ c, c.1 = false) l).*2.

Lemma python_verdict :
  verdict (check_python mc) (Ok (recent (mc_version mc))) (&"Python " ++ version_text (mc_version mc)).
Proof. by apply report_verdict. Qed.

Lemma bind_verdict {A} (r : res A) (k : A → Dr bool) (o : A → res bool) title :
  (∀ a, r = Ok a → verdict (k a) (o a) title) →
  verdict (lift_res r ≫= k) (r ≫= o) title.
Proof.
  intros Hk. destruct r as [a|e]; [|intros d; by exists d].
  intros d. destruct (Hk a eq_refl d) as (d' & E & Hd). by exists d'.
Qed.

Lemma venv_verdict : verdict (check_venv mc) has_venv venv_title.
Proof.
  unfold check_venv, has_venv, venv_title. destruct (mc_nt mc); [|by apply report_verdict]. cbn [negb].
  assert (mc_exists mc (venv_python mc) = (ok ← mc_exists mc (venv_python mc); Ok ok)) as E2
    by by destruct (mc_exists mc _).
  rewrite E2 at 2. apply bind_verdict. intros ok _. by apply report_verdict.
Qed.

Lemma dependencies_verdict :
  verdict (check_dependencies mc) (importable (mc_cryptography mc)) (&"dependencies installed").
Proof.
  unfold check_dependencies. destruct (mc_cryptography mc) as [|[] exc];
    first [apply (report_verdict true); done | apply (report_verdict false); done
          | intros d; by exists d].
Qed.

Lemma tkinter_verdict :
  verdict (check_tkinter mc) (importable (mc_tkinter mc)) (&"tkinter is importable").
Proof.
  unfold check_tkinter. destruct (mc_tkinter mc) as [|[] exc];
    first [by apply report_verdict | by apply raise_verdict].
Qed.

Lemma window_verdict : verdict (check_tk_window mc) (Ok opens) window_title.
Proof. unfold check_tk_window, opens, window_title. destruct (mc_window mc); by apply report_verdict. Qed.

Lemma pythonw_verdict : verdict (check_pythonw mc) has_pythonw pythonw_title.
Proof.
  unfold check_pythonw, has_pythonw, pythonw_title. destruct (mc_nt mc); [|by apply report_verdict].
  cbn [negb]. cbv zeta. apply bind_verdict. intros there _. destruct there; [by apply report_verdict|].
  assert (mc_exists mc (mc_beside mc) = (ok ← mc_exists mc (mc_beside mc); Ok ok)) as E2
    by by destruct (mc_exists mc _).
  rewrite E2 at 2. apply bind_verdict. intros ok _. by apply report_verdict.
Qed.

Lemma backdrop_verdict :
  verdict (check_backdrop mc) (Ok (absent (mc_photo mc))) (&"Tk can load the generated background").
Proof. unfold check_backdrop. destruct (mc_photo mc); by apply report_verdict. Qed.

Lemma app_verdict : verdict (check_app_imports mc) (Ok (absent (mc_app mc))) (&"the window code imports").
Proof. unfold check_app_imports. destruct (mc_app mc); by apply report_verdict. Qed.

(** A run so far: the titles of the checks of [l] that failed are the problems. *)
Definition so_far (l : list (bool * pystr)) (d : doctor) : Prop := (dr_problems d).*1 = failed l.

(** The rest of a run: it ends with [v], and then the problems are those of [l]. *)
Definition ends (v : res Z) (l : list (bool * pystr)) (m : Dr Z) (d : doctor) : Prop :=
  ∃ d', m d = (d', v) ∧ (∀ z, v = Ok z → so_far l d').

Lemma ends_print v l l' line (k : unit → Dr Z) d :
  so_far l d → (∀ d', so_far l d' → ends v l' (k tt) d') → ends v l' (print line ≫= k) d.
Proof. intros Hd Hk. by apply (Hk (mkDoctor (dr_problems d) (dr_printed d ++ [line]))). Qed.

Lemma ends_prints v l l' (m : Dr unit) (k : unit → Dr Z) d :
  prints m tt → so_far l d → (∀ d', so_far l d' → ends v l' (k tt) d') → ends v l' (m ≫= k) d.
Proof.
  intros Hm Hd Hk. destruct (Hm d) as (d' & E & Hp). destruct (Hk d') as (d2 & E2 & H2).
  - unfold so_far in *. by rewrite Hp.
  - exists d2. unfold mbind, M_bind. by rewrite E, E2.
Qed.

(** The end of [main]. *)
Definition conclusion : Dr Z :=
  print [];;
  d ← get;
  if decide (dr_problems d = []) then
    forM ALL_PRESENT print;;
    mret 0%Z
  else
    print (&"  " ++ replicate 56 61%N);;
    print (&"  " ++ dec_of_N (N.of_nat (length (dr_problems d))) ++ &" problem(s) found");;
    print (&"  " ++ replicate 56 61%N);;
    summary 1 (dr_problems d);;
    print [];;
    mret 1%Z.

Lemma conclusion_ends l d :
  so_far l d → ends (Ok (if decide (failed l = []) then 0 else 1)%Z) l conclusion d.
Proof.
  intros Hd. eapply ends_print; [done|]. clear d Hd. intros d Hd. unfold ends. rewrite get_run.
  assert (dr_problems d = [] ↔ failed l = []) as Hiff.
  { unfold so_far in Hd. rewrite <-Hd. by destruct (dr_problems d). }
  case_decide as Hp.
  - rewrite decide_True by tauto. change (ends (Ok 0%Z) l (forM ALL_PRESENT print;; mret 0%Z) d).
    eapply ends_prints; [apply prints_forM; intros; apply prints_print|done|].
    intros d' Hd'. by exists d'.
  - rewrite decide_False by tauto. change (ends (Ok 1%Z) l (print (&"  " ++ replicate 56 61%N) ≫= λ _,
      print (&"  " ++ dec_of_N (N.of_nat (length (dr_problems d))) ++ &" problem(s) found") ≫= λ _,
      print (&"  " ++ replicate 56 61%N) ≫= λ _, summary 1 (dr_problems d) ≫= λ _,
      print [] ≫= λ _, mret 1%Z) d).
    do 3 (eapply ends_print; [eassumption|]; intros ? ?).
    eapply ends_prints; [apply prints_summary|eassumption|]. intros ? ?.
    eapply ends_print; [eassumption|]. intros d3 Hd3. by exists d3.
Qed.

(** The rest of a run, when the checks come to [made]. *)
Definition concludes (made : res (list (bool * pystr))) (m : Dr Z) (d : doctor) : Prop :=
  match made with
  | Ok l => ends (Ok (if decide (failed l = []) then 0 else 1)%Z) l m d
  | Raise e => ends (Raise e) [] m d
  end.

Lemma concludes_print made l line (k : unit → Dr Z) d :
  so_far l d → (∀ d', so_far l d' → concludes made (k tt) d') → concludes made (print line ≫= k) d.
Proof. intros Hd Hk. by apply (Hk (mkDoctor (dr_problems d) (dr_printed d ++ [line]))). Qed.

(** A check that may raise, which ends the run. *)
Lemma concludes_check l m r title (rest : bool → res (list (bool * pystr))) (k : bool → Dr Z) d :
  verdict m r title → so_far l d →
  (∀ ok d', r = Ok ok → so_far (l ++ [(ok, title)]) d' → concludes (rest ok) (k ok) d') →
  concludes (r ≫= rest) (m ≫= k) d.
Proof.
  intros Hv Hd Hk. destruct (Hv d) as (d1 & E & Hp). unfold mbind at 2, M_bind.
  destruct r as [ok|e]; cbn [mbind res_bind].
  - assert (so_far (l ++ [(ok, title)]) d1) as H1.
    { unfold so_far, failed in *. rewrite (Hp ok eq_refl), Hd, filter_app, fmap_app. by destruct ok. }
    specialize (Hk ok d1 eq_refl H1). unfold concludes, ends in *. rewrite E. by destruct (rest ok).
  - exists d1. by rewrite E.
Qed.

(** One that does not raise. *)
Lemma concludes_sure l m ok title rest (k : bool → Dr Z) d :
  verdict m (Ok ok) title → so_far l d →
  (∀ d', so_far (l ++ [(ok, title)]) d' → concludes rest (k ok) d') → concludes rest (m ≫= k) d.
Proof.
  intros Hv Hd Hk. apply (concludes_check l m (Ok ok) title (λ _, rest) k d Hv Hd).
  intros ok' d' [= <-]. apply Hk.
Qed.

Lemma concludes_assoc {A B} rest (m : Dr A) (f : A → Dr B) (k : B → Dr Z) d :
  concludes rest (m ≫= λ a, f a ≫= k) d → concludes rest ((m ≫= f) ≫= k) d.
Proof. unfold concludes, ends. by rewrite M_bind_assoc. Qed.

Lemma concludes_pure {A} rest (a : A) (k : A → Dr Z) d :
  concludes rest (k a) d → concludes rest (mret a ≫= k) d.
Proof. done. Qed.

(** C33. The doctor's verdict is the outcome of its checks.  If every exception of the
    two imports is an ImportError and the paths may be looked at, it runs to its
    end: the problems it lists are exactly the checks that failed, in the order
    they were made, a check being left out when an earlier one rules it out; and
    its status is 0 if there is none, else 1 (so also when all that is missing is
    the backdrop, of which its text says that it is a warning and not a stop).
    Otherwise the doctor itself ends with that exception, the first one in the
    order of the checks, and without a verdict: [except ImportError] catches
    nothing else. *)
Theorem doctor_verdict :
  match made with
  | Ok l => ∃ d, main mc (mkDoctor [] []) = (d, Ok (if decide (failed l = []) then 0 else 1)%Z) ∧
                 (dr_problems d).*1 = failed l
  | Raise e => (main mc (mkDoctor [] [])).2 = Raise e
  end.
Proof.
  assert (so_far [] (mkDoctor [] [])) as H0 by done. revert H0. generalize (mkDoctor [] []). intros d Hd.
  enough (concludes made (main mc) d) as Hends.
  { unfold concludes in Hends. destruct made; destruct Hends as (d' & -> & Hp); [|done].
    exists d'. split; [done|]. by eapply Hp. }
  unfold main. do 4 (eapply concludes_print; [eassumption|]; clear d Hd; intros d Hd).
  eapply concludes_sure; [apply python_verdict|eassumption|]; clear d Hd; intros d Hd.
  eapply concludes_check; [apply venv_verdict|eassumption|]; clear d Hd; intros venv d _ Hd.
  eapply concludes_check; [apply dependencies_verdict|eassumption|]; clear d Hd; intros crypto d _ Hd.
  eapply concludes_check; [apply tkinter_verdict|eassumption|]; clear d Hd; intros tk d _ Hd.
  destruct tk; [eapply concludes_sure; [apply window_verdict|eassumption|]; clear d Hd; intros d Hd|
                apply (concludes_pure _ false)];
    (eapply concludes_check; [apply pythonw_verdict|eassumption|]; clear d Hd; intros pythonw d _ Hd).
  - destruct opens; cbn [andb].
    + apply concludes_assoc. eapply concludes_sure; [apply backdrop_verdict|eassumption|]; clear d Hd; intros d Hd.
      apply concludes_assoc. eapply concludes_sure; [apply app_verdict|eassumption|]; clear d Hd; intros d Hd.
      by apply conclusion_ends.
    + by apply conclusion_ends.
  - by apply conclusion_ends.
Qed.
End verdict.

(** ** Two computers *)

Definition linux : machine :=
  mkMachine (3, 12, 1)%Z (&"/usr/bin/python3") false (&"/home/aya/im") (&"/usr/bin/pythonw.exe")
    (λ _, Ok false) Imported (inr (&"8.6.13")) Imported None None.

Definition no_ppm : machine :=
  mkMachine (3, 12, 1)%Z (&"/usr/bin/python3") false (&"/home/aya/im") (&"/usr/bin/pythonw.exe")
    (λ _, Ok false) Imported (inr (&"8.6.13")) Imported (Some (&"TclError: couldn't recognize image data")) None.

Example healthy : (main linux (mkDoctor [] [])).2 = Ok 0%Z.
Proof. vm_compute. reflexivity. Qed.

(** A broken tkinter: its import raises something that is no ImportError. *)
Definition broken_tk : machine :=
  mkMachine (3, 12, 1)%Z (&"/usr/bin/python3") false (&"/home/aya/im") (&"/usr/bin/pythonw.exe")
    (λ _, Ok false) (ImportRaised OSError (&"libtcl8.6.so: cannot open shared object file"))
    (inr (&"8.6.13")) Imported None None.

(** The doctor stops in the middle, with no verdict. *)
Example no_verdict : (main broken_tk (mkDoctor [] [])).2 = Raise OSError.
Proof. vm_compute. reflexivity. Qed.

(** A Tk that only lacks the decoration, of which the text says that it is a warning
    and not a stop: it is a failed check, one of the problems, and status 1; [WARN]
    is never printed. *)
Example decoration_is_a_stop :
  let '(d, r) := main no_ppm (mkDoctor [] []) in
  r = Ok 1%Z ∧ (dr_problems d).*1 = [&"Tk can load the generated background"] ∧
  FAIL ++ &"Tk can load the generated background" ∈ dr_printed d ∧
  Forall (λ line, startswith line WARN = false) (dr_printed d).
Proof.
  vm_compute main. split_and!; [done|done| |].
  - apply (bool_decide_eq_true_1 (_ ∈ _)). vm_compute. reflexivity.
  - repeat (constructor; [vm_compute; reflexivity|]). constructor.
Qed.
