(* ===== verification/ToWord.v ===== *)
(** * Markdown to Word

    [tools/to_word.py]: the markdown of the documents, line by line, into the
    paragraphs, tables and runs that are asked of python-docx.  A document is the
    list of what was added to it.  The regular expressions are written out: each
    is a function that says where the match ends. *)

From S2P Require Import Prelude PyStr Utf8 Conversation.

(** ** What is asked of python-docx

    Lengths are in EMU, of which a point has 12700. *)

Definition Pt (points : Z) : Z := points * 12700.

Definition INK : Z := 0x2B2B2B.
Definition MUTED : Z := 0x606060.
Definition ACCENT : Z := 0xC0551F.

Record run := mkRun {
  rn_text : pystr;
  rn_bold : bool;
  rn_italic : bool;
  rn_font : option pystr;
  rn_size : option Z;
  rn_colour : option Z;
}.

Definition plain_run (text : pystr) : run := mkRun text false false None None None.
Definition set_bold r := mkRun (rn_text r) true (rn_italic r) (rn_font r) (rn_size r) (rn_colour r).
Definition set_italic r := mkRun (rn_text r) (rn_bold r) true (rn_font r) (rn_size r) (rn_colour r).
Definition set_font f r := mkRun (rn_text r) (rn_bold r) (rn_italic r) (Some f) (rn_size r) (rn_colour r).
Definition set_size s r := mkRun (rn_text r) (rn_bold r) (rn_italic r) (rn_font r) (Some s) (rn_colour r).
Definition set_colour c r := mkRun (rn_text r) (rn_bold r) (rn_italic r) (rn_font r) (rn_size r) (Some c).

Record paragraph := mkParagraph {
  pg_style : option pystr;
  pg_indent : option Z;
  pg_before : option Z;
  pg_after : option Z;
  pg_left : bool;               (* aligned to the left, explicitly *)
  pg_runs : list run;
}.

Definition paragraph_of (runs : list run) : paragraph := mkParagraph None None None None false runs.

Inductive block :=
| Para (p : paragraph)
| Heading (level : nat) (runs : list run)
| Table (rows : list (list (list run))).    (* in the grid style, centred *)

(** ** Inline markup *)

(** [\*\*.+?\*\*] from after the opening stars: how much text there is before the
    nearest closing ones; [k] is what has been passed. *)
Fixpoint closing_stars (k : nat) (s : pystr) : option nat :=
  if bool_decide (k ≠ 0) && startswith s (&"**") then Some k
  else match s with
       | [] => None
       | c :: s' => if (c =? 10)%N then None else closing_stars (S k) s'
       end.

(** [[^c]+c] : how much text there is before the nearest [c], which is not at once. *)
Fixpoint closing (c : N) (k : nat) (s : pystr) : option nat :=
  match s with
  | [] => None
  | d :: s' => if (d =? c)%N then (if decide (k = 0) then None else Some k) else closing c (S k) s'
  end.

(** The length of the match of [INLINE] at the start of [s], the alternatives in order. *)
Definition inline_match (s : pystr) : option nat :=
  match (if startswith s (&"**") then (λ k, k + 4) <$> closing_stars 0 (drop 2 s) else None) with
  | Some n => Some n
  | None =>
    match s with
    | 96%N :: s' => (λ k, k + 2) <$> closing 96 0 s'
    | 42%N :: s' => (λ k, k + 2) <$> closing 42 0 s'
    | _ => None
    end
  end.

(** [INLINE.split(text)]: what is between the matches and the matches themselves,
    alternating.  [seen] is the text since the last match, backwards, and [skip] the
    rest of a match. *)
Fixpoint split_from (seen : pystr) (skip : nat) (s : pystr) : list pystr :=
  match s with
  | [] => [reverse seen]
  | c :: s' =>
    match skip with
    | S n =>
      match n with
      | O => reverse (c :: seen) :: split_from [] 0 s'
      | _ => split_from (c :: seen) n s'
      end
    | O =>
      match inline_match s with
      | Some (S n) => reverse seen :: split_from [c] n s'
      | _ => split_from (c :: seen) 0 s'
      end
    end
  end.

Definition inline_split (text : pystr) : list pystr := split_from [] 0 text.

Definition endswith (s p : pystr) : bool := startswith (reverse s) (reverse p).

(** [s[a:-b]]. *)
Definition inner (a b : nat) (s : pystr) : pystr := slice a (length s - b) s.

(** One piece, as the run it becomes. *)
Definition inline_run (piece : pystr) : run :=
  if startswith piece (&"**") && endswith piece (&"**") then set_bold (plain_run (inner 2 2 piece))
  else if startswith piece (&"`") && endswith piece (&"`") then
    set_colour ACCENT (set_size 120650 (set_font (&"Consolas") (plain_run (inner 1 1 piece))))
  else if startswith piece (&"*") && endswith piece (&"*") && bool_decide (2 < length piece) then
    set_italic (plain_run (inner 1 1 piece))
  else plain_run piece.

Definition add_inline (text : pystr) (base_bold : bool) : list run :=
  (λ piece, (if base_bold then set_bold else id) (inline_run piece)) <$>
  filter (λ piece, piece ≠ []) (inline_split text).

(** [\[([^\]]+)\]\(([^)]+)\)] at the start of [s]: the label, and what follows the link. *)
Definition link_match (s : pystr) : option (pystr * pystr) :=
  match s with
  | 91%N :: s' =>
    k ← closing 93 0 s';
    match drop (S k) s' with
    | 40%N :: t => n ← closing 41 0 t; Some (take k s', drop (S n) t)
    | _ => None
    end
  | _ => None
  end.

(** [re.sub], with as many turns as there are characters. *)
Fixpoint strip_links_from (fuel : nat) (s : pystr) : pystr :=
  match fuel with
  | O => s
  | S fuel =>
    match link_match s with
    | Some (label, rest) => label ++ strip_links_from fuel rest
    | None => match s with [] => [] | c :: s' => c :: strip_links_from fuel s' end
    end
  end.

Definition strip_links (text : pystr) : pystr := strip_links_from (length text) text.

Example inline_ex :
  rn_text <$> add_inline (&"a **b** and `c*d` or *e* 2 * 3") false =
    [&"a "; &"b"; &" and "; &"c*d"; &" or "; &"e"; &" 2 * 3"].
Proof. reflexivity. Qed.

Example links_ex : strip_links (&"see [the docs](docs/x.md), [1] and [a [b](c)") = &"see the docs, [1] and a [b".
Proof. reflexivity. Qed.

(** ** Tables and code *)

Definition is_pipe (c : N) : bool := (c =? 124)%N.

Definition strip_by (f : N → bool) (s : pystr) : pystr := rstrip_by f (lstrip_by f s).

Definition split_row (line : pystr) : list pystr :=
  strip <$> split 124 (strip_by is_pipe (strip line)).

(** [\|[\s:|-]+\|], all of the line. *)
Definition is_divider (line : pystr) : bool :=
  let s := strip line in
  startswith s (&"|") && endswith s (&"|") && bool_decide (3 ≤ length s) &&
  forallb (λ c, isspace c || (c =? 58) || is_pipe c || (c =? 45))%N (inner 1 1 s).

Definition add_table (lines : list pystr) : list block :=
  match split_row <$> filter (λ line, is_divider line = false) lines with
  | [] => []
  | rows =>
    let width := foldr Nat.max 0 (length <$> rows) in
    [Table (imap (λ r row,
       imap (λ c (_ : unit), set_size (Pt 9) <$>
               add_inline (strip_links (default [] (row !! c))) (bool_decide (r = 0)))
            (replicate width tt)) rows);
     Para (paragraph_of [])]
  end.

Definition add_code (lines : list pystr) : block :=
  Para (mkParagraph None (Some (Pt 18)) None (Some (Pt 10)) false
    [set_colour INK (set_size (Pt 9) (set_font (&"Consolas") (plain_run (join [10%N] lines))))]).

(** ** convert *)

(** [\d] and [str.isdecimal]: ten characters from each of these on
    (Unicode 15). *)
Definition DECIMAL_ZEROS : list N :=
  [0x30; 0x660; 0x6F0; 0x7C0; 0x966; 0x9E6; 0xA66; 0xAE6; 0xB66; 0xBE6; 0xC66; 0xCE6; 0xD66; 0xDE6;
   0xE50; 0xED0; 0xF20; 0x1040; 0x1090; 0x17E0; 0x1810; 0x1946; 0x19D0; 0x1A80; 0x1A90; 0x1B50;
   0x1BB0; 0x1C40; 0x1C50; 0xA620; 0xA8D0; 0xA900; 0xA9D0; 0xA9F0; 0xAA50; 0xABF0; 0xFF10; 0x104A0;
   0x10D30; 0x11066; 0x110F0; 0x11136; 0x111D0; 0x112F0; 0x11450; 0x114D0; 0x11650; 0x116C0; 0x11730;
   0x118E0; 0x11950; 0x11C50; 0x11D50; 0x11DA0; 0x11F50; 0x16A60; 0x16AC0; 0x16B50; 0x1D7CE; 0x1D7D8;
   0x1D7E2; 0x1D7EC; 0x1D7F6; 0x1E140; 0x1E2F0; 0x1E4F0; 0x1E950; 0x1FBF0]%N.

Definition is_decimal (c : N) : bool := existsb (λ z, (z <=? c) && (c <? z + 10))%N DECIMAL_ZEROS.

(** [^\d+\. ], and what [^\d+\.\s*] leaves. *)
Definition numbered (s : pystr) : option pystr :=
  match s with
  | c :: _ =>
    if is_decimal c then
      match lstrip_by is_decimal s with
      | 46%N :: ((32%N :: _) as t) => Some (lstrip_by isspace t)
      | _ => None
      end
    else None
  | [] => None
  end.

Definition is_hash (c : N) : bool := (c =? 35)%N.
Definition is_quote (c : N) : bool := ((c =? 62) || (c =? 32))%N.

Definition rule : block :=
  Para (mkParagraph None None (Some (Pt 2)) None false
    [set_colour 0xC8C8C8 (plain_run (replicate 62 95%N))]).

Definition heading (stripped : pystr) : block :=
  let level := length stripped - length (lstrip_by is_hash stripped) in
  Heading (level `min` 4) (add_inline (strip_links (strip (drop level stripped))) false).

Definition quote (stripped : pystr) : block :=
  Para (mkParagraph None (Some (Pt 24)) None None false
    ((λ r, set_colour MUTED (set_italic r)) <$>
     add_inline (strip_links (strip (lstrip_by is_quote stripped))) false)).

Definition bullet (stripped : pystr) : block :=
  Para (mkParagraph (Some (&"List Bullet")) None None None false
    (add_inline (strip_links (drop 2 stripped)) false)).

Definition number (rest : pystr) : block :=
  Para (mkParagraph (Some (&"List Number")) None None None false
    (add_inline (strip_links rest) false)).

Definition body (stripped : pystr) : block :=
  Para (mkParagraph None None None None true (add_inline (strip_links stripped) false)).

(** A line that begins neither a code block nor a table. *)
Definition convert_line (stripped : pystr) : list block :=
  if decide (stripped = []) then []
  else if decide (stripped ∈ [&"---"; &"***"; &"___"]) then [rule]
  else if startswith stripped (&"#") then [heading stripped]
  else if startswith stripped (&">") then [quote stripped]
  else if startswith stripped (&"- ") || startswith stripped (&"* ") then [bullet stripped]
  else match numbered stripped with
       | Some rest => [number rest]
       | None => [body stripped]
       end.

Definition is_fence (line : pystr) : bool := startswith (strip line) (&"```").
Definition is_row (line : pystr) : bool := startswith (strip line) (&"|").

(** The lines of the inner loops, and what they leave. *)
Fixpoint until_fence (lines : list pystr) : list pystr * list pystr :=
  match lines with
  | [] => ([], [])
  | line :: rest =>
    if is_fence line then ([], lines) else let '(b, r) := until_fence rest in (line :: b, r)
  end.

Fixpoint while_row (lines : list pystr) : list pystr * list pystr :=
  match lines with
  | [] => ([], [])
  | line :: rest =>
    if is_row line then let '(b, r) := while_row rest in (line :: b, r) else ([], lines)
  end.

(** One turn of the loop: what is added, and the lines that are left. *)
Definition turn (line : pystr) (rest : list pystr) : list block * list pystr :=
  if is_fence line then let '(b, r) := until_fence rest in ([add_code b], drop 1 r)
  else
    let divided := match rest with next :: _ => is_divider next | [] => false end in
    if is_row line && divided then
      let '(b, r) := while_row (line :: rest) in (add_table b, r)
    else (convert_line (strip line), rest).

Fixpoint convert_from (fuel : nat) (lines : list pystr) : list block :=
  match fuel with
  | O => []
  | S fuel =>
    match lines with
    | [] => []
    | line :: rest => let '(bs, r) := turn line rest in bs ++ convert_from fuel r
    end
  end.

Definition convert_lines (lines : list pystr) : list block := convert_from (length lines) lines.

(** [read_text]: UTF-8, and every kind of line end as [\n]. *)
Fixpoint universal (s : pystr) : pystr :=
  match s with
  | [] => []
  | c :: s' =>
    if (c =? 13)%N then 10%N :: match s' with d :: t => if (d =? 10)%N then universal t else universal s'
                                             | [] => [] end
    else c :: universal s'
  end.

Definition convert (source : bytes) : res (list block) :=
  match utf8_decode source with
  | Some text => Ok (convert_lines (split 10 (universal text)))
  | None => Raise ValueError
  end.

(** ** main *)

Definition DOCUMENTS : list (pystr * pystr) :=
  [(&"design.md", &"Semaphore - Design Report.docx");
   (&"testing-report.md", &"Semaphore - Testing Report.docx");
   (&"reflection-template.md", &"Semaphore - Reflection Template.docx");
   (&"threat-model.md", &"Semaphore - Threat Model.docx");
   (&"protocol.md", &"Semaphore - Protocol Specification.docx");
   (&"demo.md", &"Semaphore - Demonstration Runbook.docx");
   (&"submission.md", &"Semaphore - Submission Checklist.docx")].

Record output := mkOutput {
  ou_saved : gmap pystr (list block);    (* the files in docs-word/ *)
  ou_printed : list pystr;
  ou_written : nat;
}.

Definition save (title : pystr) (blocks : list block) (o : output) : output :=
  mkOutput (<[title := blocks]> (ou_saved o)) (ou_printed o ++ [&"  " ++ title]) (S (ou_written o)).

Definition print_ (line : pystr) (o : output) : output :=
  mkOutput (ou_saved o) (ou_printed o ++ [line]) (ou_written o).

(** [s.replace(old, "")]; [skip] is the rest of an occurrence. *)
Fixpoint remove_from (old : pystr) (skip : nat) (s : pystr) : pystr :=
  match s with
  | [] => []
  | c :: s' =>
    match skip with
    | S n => remove_from old n s'
    | O => if startswith s old then remove_from old (length old - 1) s' else c :: remove_from old 0 s'
    end
  end.

(** [SOURCE.glob("reflection-*.md")], sorted, without the template. *)
Definition is_reflection (name : pystr) : bool :=
  startswith name (&"reflection-") && endswith name (&".md") &&
  bool_decide (length (&"reflection-.md") ≤ length name).

Definition reflections (docs : gmap pystr bytes) : list pystr :=
  filter (λ name, name ≠ &"reflection-template.md")
    (sorted (filter (λ name, is_reflection name = true) (elements (dom docs)))).

Section main.
Context `{Casing}.

(** [reflection.stem.replace("reflection-", "").title()]. *)
Definition who (name : pystr) : pystr :=
  to_title (remove_from (&"reflection-") 0 (take (length name - 3) name)).

Definition reflection_title (name : pystr) : pystr :=
  &"Semaphore - Reflection - " ++ who name ++ &".docx".

Definition write_one (docs : gmap pystr bytes) (name title : pystr) : M output unit :=
  match docs !! name with
  | None => modify (print_ (&"  skipped " ++ name ++ &" (not written yet)"))
  | Some source => blocks ← lift_res (convert source); modify (save title blocks)
  end.

Definition main (docs : gmap pystr bytes) : M output Z :=
  forM DOCUMENTS (λ d, write_one docs d.1 d.2);;
  forM (reflections docs) (λ name, write_one docs name (reflection_title name));;
  o ← get;
  modify (print_ (&"
" ++ dec_of_N (N.of_nat (ou_written o)) ++ &" documents in docs-word/"));;
  mret 0%Z.
End main.

Definition document : pystr := &"# Title

Some **bold** text
and `code`.

| a | b |
|---|---|
| 1 | *2* |

```
x | y
```
- one
2. two
> said".

Definition read_off (b : block) : list pystr :=
  match b with
  | Para p => rn_text <$> pg_runs p
  | Heading _ rs => rn_text <$> rs
  | Table rows => rows ≫= λ row, row ≫= λ cell, rn_text <$> cell
  end.

Example document_ex :
  match convert document with Ok bs => read_off <$> bs | Raise _ => [] end =
    [[&"Title"]; [&"Some "; &"bold"; &" text"]; [&"and "; &"code"; &"."];
        [&"a"; &"b"; &"1"; &"2"]; []; [&"x | y"]; [&"one"]; [&"two"]; [&"said"]].
Proof. vm_compute. reflexivity. Qed.
