(* ===== verification/ToWordFacts.v ===== *)
(** * What the converter keeps

    The inline markup loses stars and backquotes and nothing else; and the loop over
    the lines computes the one way to cut a document into code blocks, tables and
    single lines. *)

From S2P Require Import Prelude PyStr Utf8 Conversation ToWord.

(** ** Inline markup *)

Definition is_marker (c : N) : bool := (c =? 42)%N || (c =? 96)%N.

(** A text without its stars and backquotes. *)
Definition letters (s : pystr) : pystr := filter (λ c, is_marker c = false) s.

Lemma letters_app s t : letters (s ++ t) = letters s ++ letters t.
Proof. apply filter_app. Qed.

Lemma letters_none s : Forall (λ c, is_marker c = true) s → letters s = [].
Proof.
  intros H. apply filter_none. eapply Forall_impl; [exact H|]. cbn. intros c ->. done.
Qed.

Lemma letters_id s : Forall (λ c, is_marker c = false) s → letters s = s.
Proof. apply filter_all. Qed.

Lemma split_from_concat seen skip s : concat (split_from seen skip s) = reverse seen ++ s.
Proof.
  revert seen skip. induction s as [|c s IH]; intros seen skip; cbn; [by rewrite !app_nil_r|].
  assert (∀ t : pystr, reverse (c :: seen) ++ t = reverse seen ++ c :: t) as Hc
    by (intros; by rewrite reverse_cons, <-app_assoc).
  destruct skip as [|[|n]].
  - destruct (inline_match (c :: s)) as [[|n]|]; cbn [concat]; by rewrite IH, ?Hc.
  - cbn [concat]. by rewrite IH, Hc.
  - by rewrite IH, Hc.
Qed.

(** The pieces are the text. *)
Lemma inline_split_concat text : concat (inline_split text) = text.
Proof. apply split_from_concat. Qed.

(** Dropping markers at both ends loses markers only, however short the piece. *)
Lemma inner_letters a b s :
  Forall (λ c, is_marker c = true) (take a s) →
  Forall (λ c, is_marker c = true) (take b (reverse s)) →
  letters (inner a b s) = letters s.
Proof.
  intros Ha Hb. unfold inner, slice.
  rewrite <-(take_drop a s) at 3. rewrite letters_app, (letters_none _ Ha). cbn [app].
  rewrite <-(take_drop (length s - b - a) (drop a s)) at 2. rewrite letters_app.
  rewrite (letters_none (drop _ (drop a s))); [by rewrite app_nil_r|].
  rewrite drop_drop. apply Forall_forall. intros c Hc. rewrite Forall_forall in Hb. apply Hb.
  rewrite take_reverse, elem_of_reverse.
  apply list_elem_of_lookup in Hc as [i Hi]. rewrite lookup_drop in Hi.
  apply list_elem_of_lookup. exists (a + (length s - b - a) + i - (length s - b)).
  rewrite lookup_drop. rewrite <-Hi. f_equal. lia.
Qed.

Lemma startswith_take s p : startswith s p = true → take (length p) s = p.
Proof. intros [t ->]%startswith_spec. apply take_app_length. Qed.

Lemma endswith_take s p : endswith s p = true → take (length p) (reverse s) = reverse p.
Proof.
  unfold endswith. intros H%startswith_take. by rewrite length_reverse in H.
Qed.

Lemma quoted_letters p piece :
  Forall (λ c, is_marker c = true) p → startswith piece p = true → endswith piece p = true →
  letters (inner (length p) (length p) piece) = letters piece.
Proof.
  intros Hp Hs He. apply inner_letters.
  - by rewrite startswith_take.
  - rewrite endswith_take by done. by apply Forall_reverse.
Qed.

Lemma inline_run_letters piece : letters (rn_text (inline_run piece)) = letters piece.
Proof.
  unfold inline_run.
  destruct (startswith piece (&"**") && endswith piece (&"**")) eqn:E2.
  { apply andb_true_iff in E2 as [E F]. apply (quoted_letters (&"**")); by repeat constructor. }
  destruct (startswith piece (&"`") && endswith piece (&"`")) eqn:E1.
  { apply andb_true_iff in E1 as [E F]. apply (quoted_letters (&"`")); by repeat constructor. }
  destruct (startswith piece (&"*") && endswith piece (&"*")) eqn:E0; cbn [andb]; [|done].
  apply andb_true_iff in E0 as [E F]. destruct (bool_decide _); [|done].
  apply (quoted_letters (&"*")); by repeat constructor.
Qed.

Lemma bold_text (b : bool) (r : run) : rn_text ((if b then set_bold else id) r) = rn_text r.
Proof. by destruct b. Qed.

(** Text without markers is one run, as it stands. *)
Lemma no_match s : Forall (λ c, is_marker c = false) s → inline_match s = None.
Proof.
  intros Hs. destruct Hs as [|c s Hc _]; [done|]. unfold is_marker in Hc.
  apply orb_false_iff in Hc as [H1 H2]. unfold inline_match.
  change (startswith (c :: s) (&"**")) with ((c =? 42)%N && startswith s (&"*")). rewrite H1. cbn [andb].
  apply N.eqb_neq in H1, H2. repeat case_match; simplify_eq; done.
Qed.

Lemma split_plain seen s :
  Forall (λ c, is_marker c = false) s → split_from seen 0 s = [reverse seen ++ s].
Proof.
  intros Hs. revert seen. induction Hs as [|c s Hc Hs IH]; intros seen; [by rewrite app_nil_r|].
  cbn [split_from]. rewrite no_match by by constructor.
  rewrite IH. by rewrite reverse_cons, <-app_assoc.
Qed.

Lemma startswith_marker s c p : is_marker c = true → Forall (λ c, is_marker c = false) s →
  startswith s (c :: p) = false.
Proof.
  intros Hc Hs. destruct Hs as [|d s Hd _]; [done|]. cbn.
  destruct (N.eqb_spec d c); [congruence|done].
Qed.

Lemma inline_run_plain s : Forall (λ c, is_marker c = false) s → inline_run s = plain_run s.
Proof.
  intros Hs. unfold inline_run.
  by rewrite (startswith_marker s 42 [42%N] eq_refl Hs : startswith s (&"**") = false),
    (startswith_marker s 96 [] eq_refl Hs : startswith s (&"`") = false),
    (startswith_marker s 42 [] eq_refl Hs : startswith s (&"*") = false).
Qed.

(** C32. Inline markup loses nothing but its own signs.  For every text, the runs it
    becomes hold, one after the other, the text without some of its stars and
    backquotes: every other character is there, once and in its place, however
    the signs are nested, unbalanced or empty; and a text without signs becomes
    one run that is the text itself. *)
Theorem inline_keeps_text (text : pystr) (base_bold : bool) :
  letters (concat (rn_text <$> add_inline text base_bold)) = letters text ∧
  (Forall (λ c, is_marker c = false) text → text ≠ [] →
   add_inline text base_bold = [(if base_bold then set_bold else id) (plain_run text)]).
Proof.
  split.
  - rewrite <-(inline_split_concat text) at 2. unfold add_inline.
    generalize (inline_split text). intros pieces. rewrite <-list_fmap_compose.
    induction pieces as [|p pieces IH]; [done|].
    destruct (decide (p = [])) as [->|Hp]; [by rewrite filter_cons_False by auto|].
    rewrite filter_cons_True by done. cbn [fmap list_fmap concat]. rewrite !letters_app, IH.
    f_equal. cbn. by rewrite bold_text, inline_run_letters.
  - intros Hs Hne. unfold add_inline, inline_split. rewrite split_plain by done. cbn [reverse app].
    change (reverse [] ++ text) with text.
    rewrite filter_cons_True by done. cbn [fmap list_fmap]. by rewrite inline_run_plain.
Qed.

(** ** The loop over the lines *)

Lemma until_fence_spec lines b r :
  until_fence lines = (b, r) →
  lines = b ++ r ∧ Forall (λ l, is_fence l = false) b ∧
  (∀ l r', r = l :: r' → is_fence l = true).
Proof.
  revert b r. induction lines as [|l lines IH]; intros b r; cbn [until_fence].
  { intros [= <- <-]. split_and!; [done|constructor|done]. }
  destruct (is_fence l) eqn:E.
  - intros [= <- <-]. split_and!; [done|constructor|]. by intros ? ? [= <- _].
  - destruct (until_fence lines) as [b' r'] eqn:Eu. intros [= <- <-].
    destruct (IH _ _ eq_refl) as (-> & Hb & Hr). split_and!; [done|by constructor|done].
Qed.

Lemma while_row_spec lines b r :
  while_row lines = (b, r) →
  lines = b ++ r ∧ Forall (λ l, is_row l = true) b ∧ (∀ l r', r = l :: r' → is_row l = false).
Proof.
  revert b r. induction lines as [|l lines IH]; intros b r; cbn [while_row].
  { intros [= <- <-]. split_and!; [done|constructor|done]. }
  destruct (is_row l) eqn:E.
  - destruct (while_row lines) as [b' r'] eqn:Eu. intros [= <- <-].
    destruct (IH _ _ eq_refl) as (-> & Hb & Hr). split_and!; [done|by constructor|done].
  - intros [= <- <-]. split_and!; [done|constructor|]. by intros ? ? [= <- _].
Qed.

(** Every turn uses up a line. *)
Lemma turn_shorter line rest : length (turn line rest).2 ≤ length rest.
Proof.
  unfold turn. destruct (is_fence line).
  { destruct (until_fence rest) as [b r] eqn:E. apply until_fence_spec in E as (-> & _).
    cbn [snd]. rewrite length_drop, length_app. lia. }
  destruct (is_row line && _) eqn:Er; [|done]. apply andb_true_iff in Er as [Er _].
  cbn [while_row]. rewrite Er. destruct (while_row rest) as [b r] eqn:E.
  apply while_row_spec in E as (-> & _). cbn [snd]. rewrite length_app. lia.
Qed.

Lemma convert_from_enough fuel fuel' lines :
  length lines ≤ fuel → length lines ≤ fuel' → convert_from fuel lines = convert_from fuel' lines.
Proof.
  revert fuel' lines. induction fuel as [|fuel IH]; intros fuel' lines Hf Hf'.
  - destruct lines; [by destruct fuel'|cbn in Hf; lia].
  - destruct lines as [|line rest]; [by destruct fuel'|]. destruct fuel' as [|fuel']; [cbn in Hf'; lia|].
    cbn [convert_from]. pose proof (turn_shorter line rest) as Ht.
    destruct (turn line rest) as [bs r]. cbn [length snd] in *. f_equal. apply IH; lia.
Qed.

(** The loop has enough fuel: it is its own equation. *)
Lemma convert_cons line rest :
  convert_lines (line :: rest) = (turn line rest).1 ++ convert_lines (turn line rest).2.
Proof.
  unfold convert_lines at 1. cbn [length convert_from]. pose proof (turn_shorter line rest) as Ht.
  destruct (turn line rest) as [bs r]. cbn [fst snd] in *. f_equal. by apply convert_from_enough.
Qed.

(** A table begins here. *)
Definition table_at (lines : list pystr) : bool :=
  match lines with
  | line :: next :: _ => is_row line && is_divider next
  | _ => false
  end.

Definition starts_row (lines : list pystr) : bool :=
  match lines with line :: _ => is_row line | [] => false end.

(** How a document falls into parts, as a grammar: a fenced block (which the end of the
    document closes too), a table (a row over a divider, with all the rows after
    it), or a single line. *)
Inductive segmented : list pystr → list block → Prop :=
| seg_nil : segmented [] []
| seg_code opening text close rest bs :
    is_fence opening = true → Forall (λ l, is_fence l = false) text → is_fence close = true →
    segmented rest bs → segmented (opening :: text ++ close :: rest) (add_code text :: bs)
| seg_open opening text :
    is_fence opening = true → Forall (λ l, is_fence l = false) text →
    segmented (opening :: text) [add_code text]
| seg_table rows rest bs :
    Forall (λ l, is_row l = true) rows → table_at rows = true → starts_row rest = false →
    segmented rest bs → segmented (rows ++ rest) (add_table rows ++ bs)
| seg_line line rest bs :
    is_fence line = false → table_at (line :: rest) = false →
    segmented rest bs → segmented (line :: rest) (convert_line (strip line) ++ bs).

Lemma divider_is_row line : is_divider line = true → is_row line = true.
Proof.
  unfold is_divider, is_row. intros H. by repeat apply andb_true_iff in H as [H _].
Qed.

Lemma row_no_fence line : is_row line = true → is_fence line = false.
Proof.
  unfold is_row, is_fence. destruct (strip line) as [|c s]; [done|]. intros H%startswith_spec.
  destruct H as [k [= -> _]]. done.
Qed.

Lemma until_fence_run b r :
  Forall (λ l, is_fence l = false) b → (∀ l r', r = l :: r' → is_fence l = true) →
  until_fence (b ++ r) = (b, r).
Proof.
  intros Hb Hr. induction Hb as [|l b Hl _ IH]; cbn [app].
  - destruct r as [|l r]; [done|]. cbn [until_fence]. by rewrite (Hr l r eq_refl).
  - cbn [until_fence]. by rewrite Hl, IH.
Qed.

Lemma while_row_run b r :
  Forall (λ l, is_row l = true) b → starts_row r = false → while_row (b ++ r) = (b, r).
Proof.
  intros Hb Hr. induction Hb as [|l b Hl _ IH]; cbn [app].
  - destruct r as [|l r]; [done|]. cbn [starts_row] in Hr. cbn [while_row]. by rewrite Hr.
  - cbn [while_row]. by rewrite Hl, IH.
Qed.

Lemma segmented_convert lines bs : segmented lines bs → bs = convert_lines lines.
Proof.
  induction 1 as [|op text close rest bs Hf Ht Hc _ IH|op text Hf Ht|rows rest bs Hr Hd Hs _ IH
                 |line rest bs Hf Ht _ IH]; [done|..].
  - rewrite convert_cons. unfold turn. rewrite Hf.
    rewrite (until_fence_run text (close :: rest)); [by rewrite IH|done|by intros ? ? [= <- _]].
  - rewrite convert_cons. unfold turn. rewrite Hf.
    rewrite <-(app_nil_r text) at 2 3. by rewrite (until_fence_run text []).
  - destruct rows as [|l1 [|l2 rows]]; [done|done|].
    pose proof Hd as [Hl1 Hl2]%andb_true_iff. cbn [app].
    rewrite convert_cons. unfold turn. rewrite row_no_fence, Hl1, Hl2 by done. cbn [andb].
    rewrite (while_row_run (l1 :: l2 :: rows) rest Hr Hs : while_row (l1 :: l2 :: rows ++ rest) = _).
    cbn [fst snd]. by rewrite IH.
  - rewrite convert_cons. unfold turn. rewrite Hf.
    assert (is_row line && match rest with next :: _ => is_divider next | [] => false end = false) as ->.
    { destruct rest; [apply andb_false_r|exact Ht]. }
    cbn [fst snd]. by rewrite IH.
Qed.

Lemma convert_segmented lines : segmented lines (convert_lines lines).
Proof.
  induction lines as [[|line rest] IH] using length_ind; [constructor|].
  rewrite convert_cons. pose proof (turn_shorter line rest) as Hlen.
  assert (segmented (turn line rest).2 (convert_lines (turn line rest).2)) as Hrest
    by (apply IH; cbn [length]; lia).
  revert Hrest. unfold turn. destruct (is_fence line) eqn:Ef.
  - destruct (until_fence rest) as [b r] eqn:E. apply until_fence_spec in E as (-> & Hb & Hr).
    cbn [fst snd app]. destruct r as [|close r]; cbn [drop]; intros Hrest.
    + rewrite app_nil_r. by apply seg_open.
    + apply seg_code; [done|done|by eapply Hr|done].
  - set (divided := match rest with next :: _ => is_divider next | [] => false end).
    destruct (is_row line && divided) eqn:Er.
    + apply andb_true_iff in Er as [Er Ed]. cbn [while_row]. rewrite Er.
      destruct (while_row rest) as [b r] eqn:E. apply while_row_spec in E as (-> & Hb & Hr).
      cbn [fst snd]. intros Hrest.
      change (line :: b ++ r) with ((line :: b) ++ r). apply seg_table; [by constructor| | |done].
      * destruct b as [|l2 b].
        -- destruct r as [|l2 r]; [done|]. cbn in Ed. apply divider_is_row in Ed.
           by rewrite (Hr l2 r) in Ed.
        -- cbn [table_at]. rewrite Er. exact Ed.
      * destruct r as [|l r]; [done|]. by eapply Hr.
    + cbn [fst snd]. intros Hrest. apply seg_line; [done| |done].
      destruct rest; [done|exact Er].
Qed.

(** C31. The loop over the lines is the grammar of the documents.  What [convert] makes
    of any list of lines is what the grammar says, and the grammar says only one
    thing: the lines fall into fenced blocks, tables and single lines in one way,
    every line belongs to one part, and the parts are converted in order, each by
    itself. *)
Theorem convert_is_the_grammar (lines : list pystr) (bs : list block) :
  segmented lines bs ↔ bs = convert_lines lines.
Proof.
  split; [apply segmented_convert|]. intros ->. apply convert_segmented.
Qed.

(** ** What goes wrong *)

(** An ordinary line: none of the signs that [convert] looks for. *)
Definition ordinary (line : pystr) : Prop :=
  is_fence line = false ∧ is_row line = false ∧ strip line ≠ [] ∧
  convert_line (strip line) = [body (strip line)].

(** Each line of a paragraph that goes over several lines becomes a paragraph of its
    own. *)
Lemma wrapped_paragraph_splits lines :
  Forall ordinary lines → convert_lines lines = body ∘ strip <$> lines.
Proof.
  induction 1 as [|line lines (Hf & Hr & _ & Hl) _ IH]; [done|].
  rewrite convert_cons. unfold turn. rewrite Hf, Hr. cbn [andb fst snd]. by rewrite Hl, IH.
Qed.

(** The repository's own report begins so. *)
Example split_report :
  read_off <$> convert_lines
    [&"named for the build arc, from the raw"; &"TCP socket at one end to end-to-end encryption"] =
  [[&"named for the build arc, from the raw"]; [&"TCP socket at one end to end-to-end encryption"]].
Proof. vm_compute. reflexivity. Qed.

(** Text that consists of signs is lost: a cell with a code span that holds a pipe. *)
Example pipe_in_code_is_lost :
  read_off <$> convert_lines [&"| sign | use |"; &"|---|---|"; &"| `|` | a pipe |"] =
  [[&"sign"; &"use"; []; []; &"a pipe"]; []].
Proof. vm_compute. reflexivity. Qed.

(** Two people whose files differ in letter case only share one Word file. *)
Example two_adas :
  let docs : gmap pystr bytes :=
    {[ &"design.md" := &"# Design"; &"reflection-ada.md" := &"mine"; &"reflection-ADA.md" := &"hers" ]} in
  let o := (@main ascii_casing docs (mkOutput ∅ [] 0)).1 in
  elements (dom (ou_saved o)) ≡ₚ
    [&"Semaphore - Design Report.docx"; &"Semaphore - Reflection - Ada.docx"] ∧
  ou_written o = 3.
Proof.
  cbv zeta. split; [|vm_compute; reflexivity].
  apply (bool_decide_eq_true_1 (_ ≡ₚ _)). vm_compute. reflexivity.
Qed.
