(* ===== verification/Console.v ===== *)
(** * ConsoleView

    [im/client/view/console.py]: the inbox, the loop that drains it and the
    commands, over any controller, and the observer.  What is printed is a list.
    The observer runs on every event that a call of the controller emits, with the
    model as it is at that time ([ctl]); it prints, and cannot raise.

    [select(None)], which [/leave] calls, makes the model create a conversation
    whose key is [None]; nothing is ever filed under it, and all it does is make
    [keys()] raise.  [vw_none] says that it is there. *)

From S2P Require Import Prelude PyStr PyDict Json Frames.
From S2P Require Import Conversation ChatModel Base64 Envelope Keyring Uplink Controller.

Definition HELP : pystr := &"
  /to <user|#room>   talk to someone, e.g. /to bob
  /who               who is online
  /history           fetch this conversation's scrollback from the server
  /chats             conversations, with unread counts

  /create #room      make a room and join it
  /join #room        join a room somebody else made
  /leave #room       leave a room
  /rooms             rooms you are in
  /members           who is in the room on screen
  /typing on|off     announce that you are composing

  /help              this
  /quit              leave

  anything else is sent to the conversation on screen
".

(** What the inbox holds. *)
Inductive entry :=
| PostedFrame (frame : Frame)
| PostedState (state : pystr)
| PostedInput (line : pystr)
| _STOP.

(** What appears: a line, the report of an exception, or the prompt. *)
Inductive printed :=
| Line (text : pystr)
| Reported (e : exn)
| Prompt (active : pystr).

Record view (C : Type) := mkView {
  vw_controller : controller C;
  vw_running : bool;
  vw_none : bool;
  vw_printed : list printed;
}.
Arguments mkView {_} _ _ _ _.
Arguments vw_controller {_} _.
Arguments vw_running {_} _.
Arguments vw_none {_} _.
Arguments vw_printed {_} _.

Section Console.
Context `{Runtime} `{Crypto} `{Casing} {C : Type} `{Uplink C}.
(** The number of the observer among the listeners of the model. *)
Context (listener : nat).
Implicit Type v : view C.

(** ** The observer *)

Definition _line (message : Message) : pystr :=
  (if m_mine message then &"you" else m_sender message) ++ (&": ") ++ py_str (m_body message) ++
  if m_mine message then
    default [] (dict_get [(&"SENT", (&" ") ++ [10003%N]);
                          (&"DELIVERED", (&" ") ++ [10003%N; 10003%N]);
                          (&"READ", (&" ") ++ [10003%N; 10003%N] ++ (&" read"))] (m_state message))
  else [].

(** What one event prints. *)
Definition _render (m : ChatModel) (event : Event) : list printed :=
  match event with
  | MessageAdded k message =>
    if decide (Some k = cm_active m) then [Line (&"
  " ++ _line message)]
    else [Line (&"
  [" ++ k ++ &"] " ++ m_sender message ++ &": " ++ py_str (m_body message) ++ &"   (" ++
              dec_of_N (N.of_nat (c_unread (conversation k m).2)) ++ &" unread)")]
  | HistoryLoaded k count =>
    Line (&"
  -- " ++ dec_of_N (N.of_nat count) ++ &" message(s) in " ++ k ++ &" --") ::
    ((λ message, Line (&"  " ++ _line message)) <$> c_messages (conversation k m).2)
  | ReceiptChanged k _ state =>
    if decide (Some k = cm_active m) then [Line (&"
  * your message was " ++ to_lower state)] else []
  | TypingChanged k users =>
    if decide (users ≠ [] ∧ Some k = cm_active m) then
      [Line (&"
  ... " ++ PyStr.join (&", ") users ++ (if decide (length users = 1) then &" is" else &" are") ++
              &" typing")]
    else []
  | RoomMembersChanged room members =>
    [Line (&"
  * " ++ room ++ &": " ++ if decide (members = []) then &"nobody" else PyStr.join (&", ") members)]
  | PresenceChanged user online =>
    [Line (&"
  * " ++ user ++ &" is " ++ if online then &"online" else &"offline")]
  | ConversationSelected k => [Line (&"
  -- now talking to " ++ default (&"None") k ++ &" --")]
  | ConnectionStateChanged state => [Line (&"
  * connection " ++ state)]
  | ErrorRaised code message => [Line (&"
  ! " ++ code ++ &": " ++ message)]
  | RosterReplaced users =>
    if decide (users = []) then [] else [Line (&"
  * online: " ++ PyStr.join (&", ") users)]
  | UnreadChanged _ _ | ContactsChanged _ | IdentityEstablished _ => []
  end.

(** The view subscribes the observer to the model. *)
Definition new_view (c : controller C) : view C :=
  mkView (with_model (subscribe listener (ct_model c)) c) false false [].

Definition set_controller (x : controller C) v : view C := mkView x (vw_running v) (vw_none v) (vw_printed v).
Definition set_running x v : view C := mkView (vw_controller v) x (vw_none v) (vw_printed v).
Definition set_none x v : view C := mkView (vw_controller v) (vw_running v) x (vw_printed v).

Abbreviation Mv := (M (view C)).

Definition says (ps : list printed) v : view C :=
  mkView (vw_controller v) (vw_running v) (vw_none v) (vw_printed v ++ ps).

Definition say (p : printed) : Mv unit := modify (says [p]).

(** A call of the controller, and what the observer prints meanwhile. *)
Definition ctl {A} (m : M (controller C) A) : Mv A := λ v,
  let '(c, r) := m (vw_controller v) in
  let events := heard_since listener (ct_model (vw_controller v)) (ct_model c) in
  (says (events ≫= λ me, _render me.1 me.2) (set_controller c v), r).

Definition the_model : Mv ChatModel := v ← get; mret (ct_model (vw_controller v)).

(** [text.partition(" ")], without the separator. *)
Fixpoint partition (s : pystr) : pystr * pystr :=
  match s with
  | [] => ([], [])
  | c :: s' => if (c =? 32)%N then ([], s')
               else let '(a, b) := partition s' in (c :: a, b)
  end.

(** [self.controller.select(None)]. *)
Definition deselect : Mv unit :=
  modify (set_none true);;
  ctl (on_model (ChatModel.select None));;
  raise AttributeError.

Definition _room_command (command room : pystr) : Mv unit :=
  if decide (room = []) then say (Line (&"  ! usage: " ++ command ++ &" #roomname"))
  else if negb (startswith room (&"#")) then
    say (Line (&"  ! a room name starts with # -- try /join #general"))
  else if decide (command = &"/create") then ctl (create_room room [])
  else if decide (command = &"/join") then ctl (join room)
  else
    ctl (leave room);;
    m ← the_model;
    if decide (cm_active m = Some room) then deselect else mret tt.

Definition _members : Mv unit :=
  m ← the_model;
  match cm_active m with
  | Some room =>
    if startswith room (&"#") then
      let members := room_members m room in
      say (Line (&"  " ++ room ++ &": " ++
                 if decide (members = []) then &"(nobody)" else PyStr.join (&", ") members))
    else say (Line (&"  ! not in a room -- /to #general first"))
  | None => say (Line (&"  ! not in a room -- /to #general first"))
  end.

Definition _history : Mv unit :=
  asked ← ctl (request_history None 50);
  if (asked : bool) then mret tt else say (Line (&"  ! nobody selected -- try /to bob")).

(** One line of [_chats]. *)
Definition chat_line (m : ChatModel) (key : pystr) : pystr :=
  let c := (conversation key m).2 in
  &"  " ++ (if decide (Some key = cm_active m) then &"*" else &" ") ++ &" " ++ key ++ &"  " ++
  dec_of_N (N.of_nat (len c)) ++ &" messages" ++
  if decide (c_unread c = 0) then [] else &"  (" ++ dec_of_N (N.of_nat (c_unread c)) ++ &" unread)".

Definition _chats : Mv unit :=
  v ← get;
  if vw_none v then raise AttributeError
  else
    let m := ct_model (vw_controller v) in
    match keys m with
    | [] => say (Line (&"  (no conversations yet)"))
    | ks => forM ks (λ key, say (Line (chat_line m key)))
    end.

(** The names, or what is said when there are none. *)
Definition listing (head : pystr) (names : list pystr) (none : pystr) : printed :=
  Line (head ++ &" " ++ if decide (names = []) then none else PyStr.join (&", ") names).

Definition _typed (line : pystr) : Mv unit :=
  let text := strip line in
  if decide (text = []) then mret tt
  else if negb (startswith text (&"/")) then
    m ← the_model;
    match cm_active m with
    | None => say (Line (&"  ! nobody selected -- try /to bob"))
    | Some _ =>
      sent ← ctl (send text);
      match sent with Some _ => mret tt | None => say (Line (&"  ! not sent")) end
    end
  else
    let '(command, argument) := partition text in
    let argument := strip argument in
    if decide (command = &"/quit" ∨ command = &"/exit") then modify (set_running false)
    else if decide (command = &"/help") then say (Line HELP)
    else if decide (command = &"/who") then
      m ← the_model; say (listing (&"  online:") (online_users m) (&"(nobody else)"))
    else if decide (command = &"/to") then
      if decide (argument = []) then say (Line (&"  ! usage: /to <user|#room>"))
      else ctl (select argument)
    else if decide (command = &"/history") then _history
    else if decide (command = &"/chats") then _chats
    else if decide (command = &"/create" ∨ command = &"/join" ∨ command = &"/leave")
    then _room_command command argument
    else if decide (command = &"/rooms") then
      m ← the_model; say (listing (&"  rooms:") (my_rooms m) (&"(none -- try /create #general)"))
    else if decide (command = &"/members") then _members
    else if decide (command = &"/typing") then ctl (typing (bool_decide (argument ≠ &"off")))
    else say (Line (&"  ! unknown command " ++ command ++ &" -- try /help")).

(** ** The loop *)

Definition _banner : Mv unit :=
  m ← the_model;
  say (Line (&"
  logged in as " ++ default (&"None") (cm_username m) ++ &". /help for commands.")).

(** [self.model.active or "nobody"]. *)
Definition addressee (m : ChatModel) : pystr :=
  match cm_active m with Some ((_ :: _) as a) => a | _ => &"nobody" end.

Definition _prompt : Mv unit := m ← the_model; say (Prompt (addressee m)).

(** [try: m except Exception as exc: print(...)]. *)
Definition reported (m : Mv unit) : Mv unit := λ v,
  match m v with
  | (v, Ok _) => (v, Ok tt)
  | (v, Raise e) => say (Reported e) v
  end.

(** One passage of the loop; the [break] of [_STOP] is the end of running. *)
Definition drain (x : entry) : Mv unit :=
  match x with
  | _STOP => modify (set_running false)
  | _ =>
    reported (match x with
              | PostedFrame frame => ctl (on_frame frame)
              | PostedState state => ctl (on_state state)
              | PostedInput line => _typed line
              | _STOP => mret tt
              end);;
    _prompt
  end.

Definition drain_one v (x : entry) : view C := if vw_running v then (drain x v).1 else v.

Definition drain_all (inbox : list entry) v : view C := foldl drain_one v inbox.

(** [run()] on the entries that the inbox holds until it stops. *)
Definition run (inbox : list entry) v : view C :=
  let v := ((_banner;; _prompt) (set_running true v)).1 in
  let v := drain_all inbox v in
  if vw_running v then v    (* still waiting for the next entry *)
  else set_controller (with_model (unsubscribe listener (ct_model (vw_controller v)))
                         (vw_controller v)) v.

(** [read_stdin_forever]: what standard input puts into the inbox. *)
Definition pump (stdin : list pystr) : list entry :=
  ((λ line, PostedInput (rstrip_by (λ c, c =? 10)%N line)) <$> stdin) ++ [_STOP].
End Console.
