(* ===== verification/ConsoleFacts.v ===== *)
(** * What the console lets through

    The console drives its controller only with gestures that were typed and
    frames that were posted; and leaving the room on screen breaks [/chats]. *)

From S2P Require Import Prelude PyStr PyDict Json Frames.
From S2P Require Import Conversation ChatModel ChatModelFacts ChatModelTypes Events.
From S2P Require Import Base64 Envelope Keyring Uplink Controller Wp ControllerSafety ControllerLive.
From S2P Require Import Console.

Section Facts.
Context `{Runtime} `{Crypto} `{Casing} {C : Type} `{Uplink C}.
Context (obs : nat).
Implicit Type v : view C.

(** ** Gestures *)

(** What the console does to a controller: an input, or [select(None)]. *)
Inductive gesture := Did (i : input) | Deselected.

Definition run_gesture (c : controller C) (g : gesture) : controller C :=
  match g with
  | Did i => run_input c i
  | Deselected => with_model (ChatModel.select None (ct_model c)) c
  end.

Definition run_gestures (c : controller C) (gs : list gesture) : controller C :=
  foldl run_gesture c gs.

Definition is_command (text : pystr) : bool := startswith text (&"/").

(** The entry of the inbox that a gesture comes from. *)
Definition stands_for (x : entry) (g : gesture) : Prop :=
  match g with
  | Did (Arrived frame) => x = PostedFrame frame
  | Did (StateIs state) => x = PostedState state
  | Did (Typed text) => ∃ line, x = PostedInput line ∧ text = strip line ∧ is_command text = false
  | _ => ∃ line, x = PostedInput line ∧ is_command (strip line) = true
  end.

(** [m] changes the controller only by gestures that satisfy [P], and never takes
    back the conversation under [None]. *)
Definition drives {A} (P : gesture → Prop) (m : M (view C) A) : Prop :=
  ∀ v, (∃ gs, vw_controller (m v).1 = run_gestures (vw_controller v) gs ∧ Forall P gs) ∧
       (vw_none v = true → vw_none (m v).1 = true).

Lemma drives_still {A} P (m : M (view C) A) :
  (∀ v, vw_controller (m v).1 = vw_controller v ∧ vw_none (m v).1 = vw_none v) → drives P m.
Proof. intros Hm v. destruct (Hm v) as [E1 E2]. rewrite E2. split; [|done]. exists []. by rewrite E1. Qed.

Lemma drives_bind {A B} P (m : M (view C) A) (k : A → M (view C) B) :
  drives P m → (∀ a, drives P (k a)) → drives P (m ≫= k).
Proof.
  intros Hm Hk v. destruct (Hm v) as [(gs & E & Hgs) Hn]. unfold mbind, M_bind.
  destruct (m v) as [v' [a|e]]; [|by split; [exists gs|]].
  destruct (Hk a v') as [(gs' & E' & Hgs') Hn']. split; [|by intros ?%Hn%Hn'].
  exists (gs ++ gs'). split; [|by apply Forall_app].
  cbn [fst] in E. rewrite E', E. unfold run_gestures. by rewrite foldl_app.
Qed.

Lemma drives_ctl {A} P i (m : M (controller C) A) :
  P (Did i) → (∀ c, (m c).1 = run_input c i) → drives P (ctl obs m).
Proof.
  intros Hp Hm v. unfold ctl. cbn. split; [exists [Did i]; split; [|by constructor]|].
  - cbn. rewrite <-Hm. by destruct (m (vw_controller v)).
  - by destruct (m (vw_controller v)).
Qed.

Lemma drives_forM {A} P (l : list A) (f : A → M (view C) unit) :
  (∀ x, drives P (f x)) → drives P (forM l f).
Proof.
  intros Hf. induction l as [|x l IH]; [by apply drives_still|]. by apply drives_bind.
Qed.

Lemma drives_say P p : drives P (say p).
Proof. by apply drives_still. Qed.

Lemma drives_the_model P : drives P the_model.
Proof. by apply drives_still. Qed.

Lemma drives_deselect P : P Deselected → drives P (deselect obs).
Proof. intros Hp v. split; [|done]. exists [Deselected]. split; [done|by constructor]. Qed.

#[local] Hint Resolve drives_say drives_the_model : core.
Ltac still := apply drives_still; intros; split; reflexivity.

Lemma drives_room_command P command room :
  (∀ g, (∃ i, g = Did i ∧ match i with
         | CreatedRoom _ _ | Joined _ | Left _ => True | _ => False end) ∨ g = Deselected → P g) →
  drives P (_room_command obs command room).
Proof.
  intros Hp. unfold _room_command. repeat case_decide; [done|..].
  all: case_match; [done|].
  - apply (drives_ctl _ (CreatedRoom room [])); [|done]. apply Hp. left. by eexists.
  - apply (drives_ctl _ (Joined room)); [|done]. apply Hp. left. by eexists.
  - apply drives_bind.
    { apply (drives_ctl _ (Left room)); [|done]. apply Hp. left. by eexists. }
    intros []. apply drives_bind; [done|]. intros m. case_decide; [|still].
    apply drives_deselect, Hp. by right.
Qed.

Lemma drives_history P : P (Did (AskedHistory None 50)) → drives P (_history obs).
Proof.
  intros Hp. apply drives_bind; [by apply (drives_ctl _ (AskedHistory None 50))|].
  intros []; [still|done].
Qed.

Lemma drives_members P : drives P _members.
Proof.
  apply drives_bind; [done|]. intros m. repeat case_match; done.
Qed.

Lemma drives_chats P : drives P _chats.
Proof.
  apply drives_bind; [still|]. intros v. case_match; [still|]. cbv zeta.
  case_match; [done|]. by apply drives_forM.
Qed.

Lemma drives_typed line : drives (stands_for (PostedInput line)) (_typed obs line).
Proof.
  unfold _typed. cbv zeta. case_decide as Hne; [still|].
  destruct (startswith (strip line) (&"/")) eqn:Hs; cbn [negb].
  - destruct (partition (strip line)) as [command argument].
    repeat case_decide; try done; try still.
    + apply (drives_ctl _ (Selected (strip argument))); [by exists line|done].
    + apply drives_history. by exists line.
    + apply drives_chats.
    + apply drives_room_command. intros g [(i & -> & Hi)| ->]; [|by exists line].
      destruct i; try done; by exists line.
    + apply drives_members.
    + eapply (drives_ctl _ (Composing _)); [by exists line|reflexivity].
    + eapply (drives_ctl _ (Composing _)); [by exists line|reflexivity].
  - apply drives_bind; [done|]. intros m. case_match; [|done].
    apply drives_bind; [|intros []; [still|done]].
    apply (drives_ctl _ (Typed (strip line))); [by exists line|done].
Qed.

Lemma drives_drain x : drives (stands_for x) (drain obs x).
Proof.
  assert (∀ P m, drives P m → drives P (reported (C := C) m)) as Hrep.
  { intros P m Hm v. specialize (Hm v). unfold reported. by destruct (m v) as [v' [a|e]]. }
  assert (∀ P, drives P (_prompt (C := C))) as Hprompt.
  { intros P. apply drives_bind; [done|]. intros. done. }
  destruct x as [frame|state|line|]; cbn [drain]; [..|still];
    (apply drives_bind; [apply Hrep|intros; apply Hprompt]).
  - by apply (drives_ctl _ (Arrived frame)).
  - by apply (drives_ctl _ (StateIs state)).
  - apply drives_typed.
Qed.

(** The console is only a console.  Whatever is in the inbox, the loop drives
    the controller by gestures alone, each of which comes from an entry of the
    inbox: a frame or a state that was posted, a typed line that is sent as it
    was typed, or a command.  What starts with a slash is a command and is never
    sent to anybody, misspelt or not; and every fact about a controller under
    any gestures holds of one behind the console. *)
Theorem console_only_drives (inbox : list entry) v :
  ∃ gs, vw_controller (drain_all obs inbox v) = run_gestures (vw_controller v) gs ∧
        ∀ g, g ∈ gs → ∃ x, x ∈ inbox ∧ stands_for x g.
Proof.
  revert v. induction inbox as [|x inbox IH]; intros v.
  { exists []. split; [done|]. intros g []%not_elem_of_nil. }
  cbn [drain_all foldl]. destruct (IH (drain_one obs v x)) as (gs & E & Hgs).
  assert (drives (stands_for x) (drain obs x)) as Hx by apply drives_drain.
  assert (∃ gs0, vw_controller (drain_one obs v x) = run_gestures (vw_controller v) gs0 ∧
                 Forall (stands_for x) gs0) as (gs0 & E0 & Hgs0).
  { unfold drain_one. destruct (vw_running v); [apply Hx|by exists []]. }
  exists (gs0 ++ gs). split.
  - etrans; [exact E|]. rewrite E0. unfold run_gestures. by rewrite foldl_app.
  - intros g [Hg|Hg]%elem_of_app.
    + exists x. split; [by left|]. rewrite Forall_forall in Hgs0. by apply Hgs0.
    + destruct (Hgs g Hg) as (y & Hy & ?). exists y. split; [by right|done].
Qed.

(** ** Leaving the room on screen *)

Lemma none_forever inbox v : vw_none v = true → vw_none (drain_all obs inbox v) = true.
Proof.
  revert v. induction inbox as [|x inbox IH]; intros v Hv; [done|]. apply IH.
  unfold drain_one. destruct (vw_running v); [|done]. by apply (drives_drain x v).
Qed.

Lemma ask_active build (c : controller C) :
  cm_active (ct_model (ask build c).1) = cm_active (ct_model c).
Proof. by destruct (ask_model build c) as [-> _]. Qed.

(** [/leave] of the room on screen, once the request is queued. *)
Lemma leave_typed v (line room : pystr) :
  cm_active (ct_model (vw_controller v)) = Some room →
  strip line = &"/leave " ++ room → strip room = room → startswith room (&"#") = true →
  (leave room (vw_controller v)).2 = Ok tt →
  ∃ said, _typed obs line v = deselect obs (says said (set_controller (leave room (vw_controller v)).1 v)).
Proof.
  intros Hactive Hstrip Hbare Hroom Hsent.
  unfold _typed. rewrite Hstrip. cbv zeta. rewrite decide_False by done.
  change (startswith (&"/leave " ++ room) (&"/")) with true. cbn [negb].
  change (partition (&"/leave " ++ room)) with (&"/leave", room). cbv iota beta. rewrite Hbare.
  repeat (rewrite decide_False by (vm_compute; intuition discriminate)).
  rewrite decide_True by (by right; right). unfold _room_command.
  rewrite decide_False by by intros ->. rewrite Hroom. cbn [negb].
  do 2 rewrite decide_False by done.
  assert (cm_active (ct_model (leave room (vw_controller v)).1) = Some room) as Ha.
  { rewrite <-Hactive, <-(ask_active (λ id ts, leave_room id ts room) (vw_controller v)). unfold leave.
    unfold mbind, M_bind. by destruct (ask _ _) as [c [f|e]]. }
  unfold mbind at 1, M_bind at 1. unfold ctl at 1.
  destruct (leave room (vw_controller v)) as [c r]. cbn in Hsent, Ha. subst r.
  unfold the_model. unfold mbind at 1, M_bind at 1. rewrite get_run.
  unfold mret at 1, M_ret at 1. cbn [ct_model vw_controller set_controller says].
  eexists. by rewrite decide_True.
Qed.

Lemma deselect_run v : ∃ v' said, deselect obs v = (v', Raise AttributeError) ∧
  vw_none v' = true ∧ cm_active (ct_model (vw_controller v')) = None ∧
  vw_printed v' = vw_printed v ++ said.
Proof. by eexists _, _. Qed.

Lemma reported_run (m : M (view C) unit) v v' e :
  m v = (v', Raise e) →
  ((reported m;; _prompt) v).1 =
  mkView (vw_controller v') (vw_running v') (vw_none v')
    (vw_printed v' ++ [Reported e; Prompt (addressee (ct_model (vw_controller v')))]).
Proof.
  intros E. unfold _prompt, the_model, say, says, reported, mbind, M_bind, get, mret, M_ret, modify.
  rewrite E. cbn. by rewrite <-app_assoc.
Qed.

(** Leaving the room that is on screen selects [None]: the user sees an
    [AttributeError], and [/chats] shows nothing else ever after, whatever is
    typed or received in between. *)
Theorem leaving_breaks_chats v (line room : pystr) (inbox : list entry)
    (Hrunning : vw_running v = true)
    (Hactive : cm_active (ct_model (vw_controller v)) = Some room)
    (Hline : strip line = &"/leave " ++ room) (Hbare : strip room = room)
    (Hroom : startswith room (&"#") = true) (Hsent : (leave room (vw_controller v)).2 = Ok tt) :
  let v1 := drain_one obs v (PostedInput line) in
  let v2 := drain_all obs inbox v1 in
  (∃ said, vw_printed v1 = vw_printed v ++ said ++ [Reported AttributeError; Prompt (&"nobody")]) ∧
  (vw_running v2 = true →
   ∃ active, vw_printed (drain_one obs v2 (PostedInput (&"/chats")))
             = vw_printed v2 ++ [Reported AttributeError; Prompt active]).
Proof.
  cbv zeta.
  assert (∃ v1, drain_one obs v (PostedInput line) = v1 ∧ vw_none v1 = true ∧ ∃ said,
    vw_printed v1 = vw_printed v ++ said ++ [Reported AttributeError; Prompt (&"nobody")])
    as (v1 & -> & Hnone & Hsaid).
  { eexists. split; [reflexivity|]. unfold drain_one. rewrite Hrunning. unfold drain.
    destruct (leave_typed v line room Hactive Hline Hbare Hroom Hsent) as (said & E).
    destruct (deselect_run (says said (set_controller (leave room (vw_controller v)).1 v)))
      as (v' & more & Ed & Hn & Ha & Hp). rewrite Ed in E. rewrite (reported_run _ _ _ _ E).
    split; [done|]. exists (said ++ more). cbn [vw_printed]. unfold addressee.
    rewrite Hp, Ha. cbn [vw_printed says set_controller]. by rewrite <-!app_assoc. }
  split; [done|]. intros Hrun. apply (none_forever inbox) in Hnone.
  set (v2 := drain_all obs inbox v1) in *. unfold drain_one. rewrite Hrun. unfold drain.
  assert (_typed obs (&"/chats") v2 = (v2, Raise AttributeError)) as E.
  { change (_typed obs (&"/chats") v2) with (_chats v2). unfold _chats. by rewrite get_run, Hnone. }
  rewrite (reported_run _ _ _ _ E). by eexists.
Qed.

(** ** What a message prints *)

Lemma drain_ok x v v' :
  match x with
  | PostedFrame frame => ctl obs (on_frame frame) v
  | PostedState state => ctl obs (on_state state) v
  | PostedInput line => _typed obs line v
  | _STOP => (v, Raise Unmodelled)
  end = (v', Ok tt) →
  vw_printed (drain obs x v).1 = vw_printed v' ++ [Prompt (addressee (ct_model (vw_controller v')))].
Proof.
  intros E. destruct x; [..|done]; unfold drain, reported, _prompt, the_model, say, mbind, M_bind;
    by rewrite E.
Qed.

(** The line of a message from [user]: the bare line in the conversation on screen,
    and in any other one its name and how many messages there are unread. *)
Definition arrival_line (m : ChatModel) (user : pystr) (body : json) : pystr :=
  if decide (Some user = cm_active m) then &"
  " ++ user ++ &": " ++ py_str body
  else &"
  [" ++ user ++ &"] " ++ user ++ &": " ++ py_str body ++ &"   (" ++
    dec_of_N (N.of_nat (S (unread_in m user))) ++ &" unread)".

Lemma print_nothing (ev : list (ChatModel * Event)) k :
  (∀ me, me ∈ ev → ∃ n, me.2 = UnreadChanged k n) → (ev ≫= λ me, _render me.1 me.2) = [].
Proof.
  induction ev as [|[m e] ev IH]; intros He; [done|].
  destruct (He (m, e)) as [n En]; [by left|]. cbn in En. subst e. cbn.
  apply IH. intros me Hin. apply He. by right.
Qed.

(** A message for this user that can be read at once is printed, as the last
    thing before the prompt, whichever conversation is on screen. *)
Theorem arrival_is_printed v (frame : Frame) (user me : pystr) (body : json) (c : controller C)
    (Hrunning : vw_running v = true) (Hs : subscribed obs (ct_model (vw_controller v)))
    (Hframe : addressed frame user me) (Hopen : opens_now frame user (vw_controller v) = true)
    (Hplain : _plaintext frame user
       (ask (λ id ts, receipt id ts user (f_id frame) (&"DELIVERED")) (vw_controller v)).1 = (c, Ok body))
    (Hmodel : ct_model c = ct_model (vw_controller v)) :
  ∃ before, vw_printed (drain_one obs v (PostedFrame frame)) =
    vw_printed v ++ before ++ [Line (arrival_line (ct_model (vw_controller v)) user body);
                               Prompt (addressee (ct_model (vw_controller v)))].
Proof.
  set (m := ct_model (vw_controller v)) in *.
  set (x := new_message (f_id frame) user body (f_ts frame) false).
  destruct (add_tells obs m user x Hs) as (ev1 & m1 & ev2 & Eh & _ & Hev2 & Ha & Hc).
  assert (ctl obs (on_frame frame) v =
    (says ((ev1 ++ (visible m1, MessageAdded user x) :: ev2) ≫= λ me, _render me.1 me.2)
       (set_controller (with_model (add_message user x m) c) v), Ok tt)) as E.
  { unfold ctl. rewrite (direct_shown (vw_controller v) frame user me body c) by done.
    cbn [ct_model with_model]. fold m x. unfold heard_since. by rewrite Eh, drop_app_length. }
  unfold drain_one. rewrite Hrunning. rewrite (drain_ok (PostedFrame frame) _ _ E).
  rewrite bind_app, bind_cons, (print_nothing ev2 user), app_nil_r by done.
  exists (ev1 ≫= λ me, _render me.1 me.2). cbn [vw_printed says set_controller vw_controller ct_model with_model].
  rewrite <-!app_assoc. f_equal. f_equal.
  destruct (add_message_frame user x m) as (_ & Hact & _). unfold addressee. rewrite Hact.
  enough (_render (visible m1, MessageAdded user x).1 (visible m1, MessageAdded user x).2 =
          [Line (arrival_line m user body)]) as -> by done.
  unfold arrival_line. cbn [_render fst snd]. change (cm_active (visible m1)) with (cm_active m1).
  rewrite Ha. destruct (decide (Some user = cm_active m)) as [Hk|Hk]; [by unfold _line; cbn; rewrite app_nil_r|].
  rewrite conversation_snd in Hc |- *. change (cm_conversations (visible m1)) with (cm_conversations m1).
  rewrite Hc, conversation_snd, bool_decide_false by done. cbn [add c_unread x m_mine new_message].
  unfold unread_in. by destruct (dict_get (cm_conversations m) user).
Qed.
End Facts.

(** bob's console, in a room. *)
Abbreviation in_room := (@drain_all plain_runtime toy_crypto ascii_casing fake fake_uplink 0
  [PostedFrame (data_frame LOGIN_OK JNull [(&"user", JStr (&"bob"))] (&"l") 1);
   PostedInput (&" /to #team ")]
  (set_running true (new_view 0 (new_controller (mkFake true []) None)))).

Abbreviation typed line v := (@drain_one plain_runtime toy_crypto ascii_casing fake fake_uplink 0
  v (PostedInput line)).

Lemma leaving_breaks_chats_witness :
  let v1 := typed (&"/leave #team") in_room in
  let v2 := @drain_all plain_runtime toy_crypto ascii_casing fake fake_uplink 0
              [PostedInput (&"/to #team")] v1 in
  (∃ said, vw_printed v1 = vw_printed in_room ++ said ++ [Reported AttributeError; Prompt (&"nobody")]) ∧
  ∃ active, vw_printed (typed (&"/chats") v2)
            = vw_printed v2 ++ [Reported AttributeError; Prompt active].
Proof.
  destruct (@leaving_breaks_chats plain_runtime toy_crypto ascii_casing fake fake_uplink 0 in_room
    (&"/leave #team") (&"#team") [PostedInput (&"/to #team")]) as [Hleave Hchats];
    [vm_compute; reflexivity..|].
  split; [exact Hleave|]. apply Hchats. vm_compute. reflexivity.
Defined.

(** alice writes to bob, who is looking at the room. *)
Definition from_alice : Frame :=
  mkFrame MSG (JStr (&"alice")) (JStr (&"bob")) (JStr (&"lunch?")) JNull [] (JStr (&"x")) 5 JNull.

Lemma arrival_is_printed_witness :
  ∃ before, vw_printed (@drain_one plain_runtime toy_crypto ascii_casing fake fake_uplink 0
              in_room (PostedFrame from_alice)) =
    vw_printed in_room ++ before ++ [Line (&"
  [alice] alice: lunch?   (1 unread)"); Prompt (&"#team")].
Proof.
  destruct (@arrival_is_printed plain_runtime toy_crypto ascii_casing fake fake_uplink 0 in_room
    from_alice (&"alice") (&"bob") (JStr (&"lunch?"))
    (@ask plain_runtime fake fake_uplink
       (λ id ts, receipt id ts (&"alice") (f_id from_alice) (&"DELIVERED")) (vw_controller in_room)).1)
    as [before E]; [vm_compute; reflexivity|vm_compute; reflexivity| |vm_compute; reflexivity
                   |vm_compute; reflexivity|vm_compute; reflexivity|exists before; exact E].
  split; try split; vm_compute; (reflexivity || discriminate).
Defined.
