(* ===== verification/LinkUse.v ===== *)
(** * What a view does to the connection

    Whatever the user does to the window or types at the console, and whatever
    arrives, the connection behind the controller is only ever sent on: nothing in
    the controller, the window or the console opens, closes or replaces it. *)

From S2P Require Import Prelude PyStr PyDict Json Frames Conversation ChatModel Wp.
From S2P Require Import Base64 Envelope Keyring Uplink Controller.
From S2P Require Import Calendar Theme Backdrop Widgets TkView.
From S2P Require TkWindow Console.

(** Any number of sends, one after the other. *)
Definition sent_on {C} `{Uplink C} : relation C := rtc (λ x y, ∃ f, y = (up_send f x).1).

(** What every send keeps, sends keep. *)
Lemma sent_on_keeps {C} `{Uplink C} (P : C → Prop) x y :
  (∀ f z, P z → P (up_send f z).1) → sent_on x y → P x → P y.
Proof. intros HP Hs. induction Hs as [|x1 x2 x3 [f ->] _ IH]; [done|]. auto. Qed.

Section uses.
Context {C S : Type} `{Uplink C} (conn : S → C).

(** [m] does nothing to the connection in its state but send on it, raise or not. *)
Definition uses {A} (m : M S A) : Prop := ∀ s, sent_on (conn s) (conn (m s).1).

Lemma uses_still {A} (m : M S A) : (∀ s, conn (m s).1 = conn s) → uses m.
Proof. intros Hm s. rewrite Hm. apply rtc_refl. Qed.

Lemma uses_bind {A B} (m : M S A) (k : A → M S B) : uses m → (∀ a, uses (k a)) → uses (m ≫= k).
Proof.
  intros Hm Hk s. unfold mbind, M_bind. specialize (Hm s). destruct (m s) as [s1 [a|e]]; [|done].
  etrans; [exact Hm|apply Hk].
Qed.

Lemma uses_forM {A} (l : list A) (f : A → M S unit) : (∀ x, uses (f x)) → uses (forM l f).
Proof. intros Hf. induction l as [|x l IH]; [by apply uses_still|]. by apply uses_bind. Qed.
End uses.

Create HintDb uses.

(** One step through code that only sends. *)
Ltac uses_step :=
  lazymatch goal with
  | |- uses _ (_ ≫= _) => apply uses_bind; [|intros]
  | |- uses _ (forM _ _) => apply uses_forM; intros
  | |- uses _ (let _ := _ in _) => cbv zeta
  | |- uses _ (match ?x with _ => _ end) => destruct x
  | |- uses _ _ => first [by apply uses_still | solve [eauto 2 with uses]]
  end.
Ltac uses_walk := repeat uses_step.

Section controller.
Context `{Runtime} `{Crypto} {C : Type} `{Uplink C}.

Abbreviation calls := (uses (ct_connection (C := C))).

Lemma calls_ask build : calls (ask build).
Proof.
  intros c. unfold ask, tick, mbind, M_bind, get, modify, lift_res, mret, M_ret. cbn.
  set (f := build _ _). destruct (up_send f (ct_connection c)) as [x r] eqn:E.
  assert (sent_on (ct_connection c) x) as Hs by (apply rtc_once; exists f; by rewrite E).
  by destruct r.
Qed.

Lemma calls_keyring {A} (op : M Keyring A) : calls (on_keyring op).
Proof. intros c. unfold on_keyring. destruct (ct_keyring c); [by destruct (op _)|]; apply rtc_refl. Qed.

Lemma calls_attempt {A} (m : M (controller C) A) : calls m → calls (attempt m).
Proof. intros Hm c. apply Hm. Qed.

Lemma calls_restoring previous m : calls m → calls (restoring previous m).
Proof. intros Hm c. unfold restoring. specialize (Hm c). by destruct (m c). Qed.

Lemma calls_or_unreadable m : calls m → calls (or_unreadable m).
Proof. intros Hm c. unfold or_unreadable. specialize (Hm c). by destruct (m c) as [c' [a|[]]]. Qed.

#[local] Hint Resolve calls_ask calls_keyring calls_attempt calls_restoring calls_or_unreadable : uses.

Lemma calls_hold target text fetch : calls (_hold target text fetch).
Proof. unfold _hold. uses_walk. Qed.
#[local] Hint Resolve calls_hold : uses.

Lemma calls_send text : calls (send text).
Proof. unfold send, _send_to_room, on_model. uses_walk. Qed.
#[local] Hint Resolve calls_send : uses.

Lemma calls_release user : calls (_release user).
Proof.
  unfold _release, with_active, on_model. uses_walk. apply calls_restoring. uses_walk.
Qed.

Lemma calls_select key : calls (select key).
Proof. unfold select, on_model. uses_walk. Qed.

Lemma calls_file frame key : calls (_file frame key).
Proof. unfold _file, _plaintext, on_model. uses_walk. Qed.
#[local] Hint Resolve calls_release calls_select calls_file : uses.

Lemma calls_rows key rows : calls (mapM_rows key rows).
Proof.
  induction rows as [|row rows IH]; cbn [mapM_rows]; [by apply uses_still|].
  unfold row_message, _stored_plaintext. uses_walk.
Qed.
#[local] Hint Resolve calls_rows : uses.

Lemma calls_open_room room members : calls (open_room room members).
Proof. unfold open_room, join, invite, create_room. uses_walk. Qed.
#[local] Hint Resolve calls_open_room : uses.

Lemma calls_on_frame frame : calls (on_frame frame).
Proof.
  unfold on_frame, _incoming_message, _presence, _typing, _receipt, _key, _history_result, _room_state,
    _open_pending_user, _logged_in, _on_error, _deliver_awaiting, release_if_complete, join, invite,
    on_model_res, on_model. uses_walk.
Qed.

Lemma calls_on_state state : calls (on_state state).
Proof. by apply uses_still. Qed.

Lemma calls_typing on : calls (typing on).
Proof. unfold typing. uses_walk. Qed.

Lemma calls_open_conversation user : calls (open_conversation user).
Proof. unfold open_conversation, add_contact, on_model. uses_walk. Qed.

Lemma calls_invite room members : calls (invite room members).
Proof. unfold invite. uses_walk. Qed.

Lemma calls_history key limit : calls (request_history key limit).
Proof. unfold request_history. uses_walk. Qed.

Lemma calls_create_room room members : calls (create_room room members).
Proof. unfold create_room. uses_walk. Qed.

Lemma calls_join room : calls (join room).
Proof. unfold join. uses_walk. Qed.

Lemma calls_leave room : calls (leave room).
Proof. unfold leave. uses_walk. Qed.

#[local] Hint Resolve calls_on_frame calls_on_state calls_typing calls_open_conversation calls_invite
  calls_history calls_create_room calls_join calls_leave : uses.

(** ** The console *)

Section console.
Context `{Casing} (l : nat).

Abbreviation conn := (λ v : Console.view C, ct_connection (Console.vw_controller v)).

Lemma console_ctl {A} (m : M (controller C) A) : calls m → uses conn (Console.ctl l m).
Proof.
  intros Hm v. unfold Console.ctl. specialize (Hm (Console.vw_controller v)).
  by destruct (m (Console.vw_controller v)) as [c r].
Qed.
#[local] Hint Resolve console_ctl : uses.

Lemma console_deselect : uses conn (Console.deselect l).
Proof. unfold Console.deselect. uses_walk. Qed.
#[local] Hint Resolve console_deselect : uses.

Lemma console_typed line : uses conn (Console._typed l line).
Proof.
  unfold Console._typed, Console._history, Console._chats, Console._room_command, Console._members.
  uses_walk.
Qed.

Lemma console_reported m : uses conn m → uses conn (Console.reported m).
Proof. intros Hm v. unfold Console.reported. specialize (Hm v). by destruct (m v) as [v' [a|e]]. Qed.

Lemma console_drain x : uses conn (Console.drain l x).
Proof.
  destruct x; cbn [Console.drain]; [..|by apply uses_still];
    (apply uses_bind; [apply console_reported|by intros; apply uses_still]);
    first [apply console_typed | apply console_ctl; eauto 2 with uses].
Qed.

Lemma console_run inbox v : sent_on (conn v) (conn (Console.run l inbox v)).
Proof.
  assert (∀ v, sent_on (conn v) (conn (Console.drain_all l inbox v))) as Hs.
  { clear v. induction inbox as [|x inbox IH]; intros v; [apply rtc_refl|].
    cbn [Console.drain_all foldl]. etrans; [|apply IH]. unfold Console.drain_one.
    destruct (Console.vw_running v); [apply console_drain|apply rtc_refl]. }
  unfold Console.run. set (v0 := (_ (Console.set_running true v)).1). cbv zeta.
  change (conn v) with (conn v0). specialize (Hs v0).
  by destruct (Console.vw_running (Console.drain_all l inbox v0)).
Qed.
End console.

(** ** The window *)

Section window.
Context `{Display} `{Casing} `{Clock} `{Metrics} `{TkWindow.Reports} (l : nat).
Import TkWindow.

Abbreviation conn := (λ w : window C, ct_connection (wn_controller w)).

(** When the observer raises the controller is not followed any further, and nor is
    its connection. *)
Lemma window_ctl {A} (m : M (controller C) A) : calls m → uses conn (TkWindow.ctl l m).
Proof.
  intros Hm w. unfold TkWindow.ctl. specialize (Hm (wn_controller w)).
  destruct (m (wn_controller w)) as [c r]. destruct (replay _ _) as [s [[]|e]]; [exact Hm|apply rtc_refl].
Qed.

Lemma window_screen {A} (m : M screen A) : uses conn (on_screen (C := C) m).
Proof. apply uses_still. intros w. unfold on_screen. by destruct (m (wn_screen w)). Qed.

Lemma window_callback m w : uses conn m → sent_on (conn w) (conn (callback m w)).
Proof. intros Hm. specialize (Hm w). unfold callback. by destruct (m w) as [w' [a|e]]. Qed.

#[local] Hint Resolve window_ctl window_screen : uses.

Lemma window_drain inbox : uses conn (drain l inbox).
Proof.
  induction inbox as [|x inbox IH]; cbn [drain]; uses_walk.
  assert (calls (match x with PostedFrame frame => on_frame frame | PostedState state => on_state state end)) as Hx
    by (destruct x; eauto 2 with uses).
  intros w. unfold drain_one. pose proof (window_ctl _ Hx w) as Hw.
  destruct (ctl l _ w) as [w1 [r|e]]; [done|]. etrans; [exact Hw|]. apply window_screen.
Qed.
#[local] Hint Resolve window_drain : uses.

Lemma window_clear : uses conn (clear_entry (C := C)).
Proof.
  apply uses_still. intros w. unfold clear_entry, modify. cbn. by destruct (sc_entry_enabled _).
Qed.

Lemma window_typing : uses conn (_stop_typing l).
Proof. unfold _stop_typing. uses_walk. Qed.
#[local] Hint Resolve window_clear window_typing : uses.

Lemma window_send : uses conn (_on_send l).
Proof. unfold _on_send. uses_walk. Qed.

Lemma window_key : uses conn (_on_key l).
Proof. unfold _on_key, the_model. uses_walk. Qed.

Lemma window_poll : uses conn (_poll l).
Proof. unfold _poll. uses_walk. Qed.
#[local] Hint Resolve window_send window_key window_poll : uses.

Lemma window_happen h w : sent_on (conn w) (conn (happen l h w)).
Proof.
  unfold happen. destruct (wn_open w); [|apply rtc_refl].
  destruct h; try (apply window_callback;
    unfold _new_conversation, _room_menu, _invite_menu_end, open_hit, add_contact_typed,
      open_contact, _show_settings, showinfo, the_model, stop; by uses_walk); try apply rtc_refl.
  all: match goal with |- context [if ?b then _ else _] => destruct b end;
    first [apply rtc_refl | apply (window_callback _ w); eauto 2 with uses].
Qed.

Lemma window_happen_all hs w : sent_on (conn w) (conn (happen_all l hs w)).
Proof.
  revert w. induction hs as [|h hs IH]; intros w; [apply rtc_refl|].
  cbn [happen_all foldl]. etrans; [apply window_happen|apply IH].
Qed.

Lemma window_run hs : uses conn (TkWindow.run;; modify (happen_all l hs)).
Proof.
  apply uses_bind; [unfold TkWindow.run, the_model; uses_walk|]. intros [] w. apply window_happen_all.
Qed.
End window.
End controller.
