(* ===== verification/Handler.v ===== *)
(** * ClientHandler

    [im/server/handler.py]: one connection's line buffer, its bounded outbound
    queue and its writer.  The socket is the bytes that reached it; what becomes
    of a [sendall] is an argument ([Wire.sending]): one that raises may have
    written any part of the frame. *)

From S2P Require Import Prelude PyStr PyDict Json Frames Codec Wire.

Definition OUTBOX_LIMIT : nat := 1000.

(** What the queue holds: a frame, or the sentinel that ends the writer. *)
Inductive item := Item (f : Frame) | _STOP.

Record Handler := mkHandler {
  h_buffer : LineBuffer;
  h_lines : list pystr;     (* of the last chunk, those still to be handled *)
  h_outbox : list item;
  h_closed : bool;          (* the _closed event *)
  h_open : bool;            (* the socket, on our side *)
  h_reading : bool;         (* serve() is in its read loop *)
  h_writing : bool;         (* the writer thread is in its loop *)
  h_wire : bytes;           (* everything sendall has written *)
}.

(** A new connection, its two threads started. *)
Definition new_handler : Handler := mkHandler new_buffer [] [] false true true true [].

(** ** Assignments to one attribute *)
Definition set_input buffer lines h := mkHandler buffer lines (h_outbox h) (h_closed h) (h_open h)
  (h_reading h) (h_writing h) (h_wire h).
Definition set_outbox x h := mkHandler (h_buffer h) (h_lines h) x (h_closed h) (h_open h)
  (h_reading h) (h_writing h) (h_wire h).
Definition set_closed x h := mkHandler (h_buffer h) (h_lines h) (h_outbox h) x (h_open h)
  (h_reading h) (h_writing h) (h_wire h).
Definition set_open x h := mkHandler (h_buffer h) (h_lines h) (h_outbox h) (h_closed h) x
  (h_reading h) (h_writing h) (h_wire h).
Definition set_reading x h := mkHandler (h_buffer h) (h_lines h) (h_outbox h) (h_closed h) (h_open h)
  x (h_writing h) (h_wire h).
Definition set_writing x h := mkHandler (h_buffer h) (h_lines h) (h_outbox h) (h_closed h) (h_open h)
  (h_reading h) x (h_wire h).
Definition set_wire x h := mkHandler (h_buffer h) (h_lines h) (h_outbox h) (h_closed h) (h_open h)
  (h_reading h) (h_writing h) x.

(** [self._outbox.put_nowait(x)]: [None] is [queue.Full]. *)
Definition put_nowait (x : item) (h : Handler) : option Handler :=
  if decide (length (h_outbox h) < OUTBOX_LIMIT) then Some (set_outbox (h_outbox h ++ [x]) h) else None.

Definition close (h : Handler) : Handler :=
  if h_closed h then h
  else
    let h := set_closed true h in
    let h := default h (put_nowait _STOP h) in
    set_open false h.

Definition send (frame : Frame) (h : Handler) : Handler :=
  if h_closed h then h
  else match put_nowait (Item frame) h with
       | Some h' => h'
       | None => close h
       end.

(** One turn of [_write_loop], when the queue is not empty. *)
Definition write_turn `{Runtime} (how : sending) (h : Handler) : Handler :=
  match h_outbox h with
  | [] => h
  | x :: rest =>
    let h := set_outbox rest h in
    match x with
    | _STOP => set_writing false h
    | Item frame =>
      match encode frame with
      | Raise _ => h
      | Ok wire =>
        let '(part, ok) := sendall how (h_open h) wire in
        let h := set_wire (h_wire h ++ part) h in
        if (ok : bool) then h else set_writing false (set_closed true h)
      end
    end
  end.

(** ** The queue *)

(** The frames waiting. *)
Definition waiting (h : Handler) : list Frame :=
  omap (λ x, match x with Item f => Some f | _STOP => None end) (h_outbox h).

(** What the frames of a list look like on the wire: those that do not encode
    are skipped. *)
Definition wire_of `{Runtime} (fs : list Frame) : bytes :=
  concat (omap (λ f, match encode f with Ok w => Some w | Raise _ => None end) fs).

(** The queue is bounded, only a closed handler holds the sentinel, and an open
    one has its socket and its writer. *)
Record handler_ok (h : Handler) : Prop := {
  ho_bound : length (h_outbox h) ≤ OUTBOX_LIMIT;
  ho_stop : h_closed h = false → _STOP ∉ h_outbox h;
  ho_open : h_closed h = false → h_open h = true ∧ h_writing h = true;
  ho_down : h_closed h = true → h_writing h = true → h_open h = false;
}.

Section facts.
Context `{Runtime}.

Lemma wire_of_app fs gs : wire_of (fs ++ gs) = wire_of fs ++ wire_of gs.
Proof. unfold wire_of. by rewrite omap_app, concat_app. Qed.

(** What a [sendall] that failed may leave behind the frames [written]: a part of the
    next one, and then the writer is done and the connection closed. *)
Definition broken_off (fs written : list Frame) (part : bytes) (h : Handler) : Prop :=
  part = [] ∨
  (h_writing h = false ∧ h_closed h = true ∧
   ∃ f wire, written ++ [f] `prefix_of` fs ∧ encode f = Ok wire ∧ part `prefix_of` wire).

(** [h] has carried [fs] so far, as its owner sees it: what was written is a
    prefix, and perhaps part of one more frame; with the writer alive the queue
    continues it; and while the connection is open nothing is missing. *)
Definition carried (fs : list Frame) (h : Handler) : Prop :=
  ∃ written part, h_wire h = wire_of written ++ part ∧ broken_off fs written part h ∧
    written `prefix_of` fs ∧
    (h_writing h = true → written ++ waiting h `prefix_of` fs) ∧
    (h_closed h = false → written ++ waiting h = fs).

Lemma broken_off_keeps fs gs written part h h' :
  broken_off fs written part h → (h_writing h = false → h_writing h' = false) →
  (h_closed h = true → h_closed h' = true) → broken_off (fs ++ gs) written part h'.
Proof.
  intros [->|(Hw & Hc & f & wire & Hp & He & Ht)] Hw' Hc'; [by left|right].
  split_and!; [auto..|]. exists f, wire. split_and!; [by apply prefix_app_r|done..].
Qed.

Lemma waiting_app x h l :
  h_outbox h = l ++ [x] → waiting h = omap (λ x, match x with Item f => Some f | _STOP => None end) l
    ++ match x with Item f => [f] | _STOP => [] end.
Proof. intros E. unfold waiting. rewrite E, omap_app. by destruct x. Qed.

Lemma put_nowait_Some x h h' :
  put_nowait x h = Some h' →
  length (h_outbox h) < OUTBOX_LIMIT ∧ h' = set_outbox (h_outbox h ++ [x]) h.
Proof. unfold put_nowait. case_decide; [|done]. by intros [= <-]. Qed.

Lemma close_spec h :
  h_closed (close h) = true ∧ h_reading (close h) = h_reading h ∧
  h_writing (close h) = h_writing h ∧ h_wire (close h) = h_wire h ∧
  waiting (close h) = waiting h ∧ (h_closed h = true → close h = h) ∧
  (h_closed h = false → h_open (close h) = false).
Proof.
  unfold close. destruct (h_closed h) eqn:E; [done|]. unfold put_nowait. cbn [h_outbox set_closed].
  case_decide; cbn; split_and!; try done.
  unfold waiting. cbn. rewrite omap_app. cbn. by rewrite app_nil_r.
Qed.

Lemma close_ok h : handler_ok h → handler_ok (close h).
Proof.
  intros Hh. unfold close. destruct (h_closed h) eqn:E; [done|]. destruct Hh.
  unfold put_nowait. cbn [h_outbox set_closed]. case_decide; constructor; cbn; try done; auto.
  rewrite length_app. cbn. lia.
Qed.

Lemma close_carried fs h : carried fs h → carried fs (close h).
Proof.
  intros (w & part & Hw & Hb & Hp & Hwr & Hcl).
  destruct (close_spec h) as (Hc & _ & Hwr' & Hwire & Hwait & _).
  exists w, part. rewrite Hwire, Hwait, Hwr'. split_and!; [done| |done..|congruence].
  rewrite <-(app_nil_r fs). apply (broken_off_keeps fs [] w part h); [done|congruence|done].
Qed.

(** A frame for an open connection joins the end of the queue; for a closed one
    it is dropped; and a full queue closes the connection instead of growing. *)
Lemma send_carried fs f h : carried fs h → handler_ok h → carried (fs ++ [f]) (send f h).
Proof.
  intros Hc Hok. unfold send.
  assert (∀ h', carried fs h' → h_closed h' = true → carried (fs ++ [f]) h') as Hclosed.
  { intros h' (w & part & Hw & Hb & Hp & Hwr & _) Hcl. exists w, part.
    split_and!; [done|by eapply broken_off_keeps|by apply prefix_app_r|
      intros; by apply prefix_app_r, Hwr|congruence]. }
  destruct (h_closed h) eqn:E; [by apply Hclosed|].
  destruct (put_nowait (Item f) h) as [h'|] eqn:Ep.
  - apply put_nowait_Some in Ep as [_ ->]. destruct Hc as (w & part & Hw & Hb & Hp & _ & Hall).
    specialize (Hall E). exists w, part.
    assert (w ++ waiting (set_outbox (h_outbox h ++ [Item f]) h) = fs ++ [f]) as Heq.
    { rewrite (waiting_app (Item f) _ (h_outbox h)) by done. unfold waiting in Hall.
      by rewrite app_assoc, Hall. }
    split_and!; [done|by eapply broken_off_keeps|by apply prefix_app_r|intros _; by rewrite Heq|done].
  - apply Hclosed; [by apply close_carried|]. by destruct (close_spec h) as (? & _).
Qed.

Lemma send_ok f h : handler_ok h → handler_ok (send f h).
Proof.
  intros Hok. unfold send. destruct (h_closed h) eqn:E; [done|].
  destruct (put_nowait (Item f) h) as [h'|] eqn:Ep; [|by apply close_ok].
  apply put_nowait_Some in Ep as (Hl & ->).
  destruct Hok as [Hb Hs Hopn Hd]. constructor; cbn; try done.
  - rewrite length_app. cbn. lia.
  - intros _. specialize (Hs E). set_solver.
Qed.

Lemma send_reading f h : h_reading (send f h) = h_reading h.
Proof.
  unfold send. destruct (h_closed h); [done|]. destruct (put_nowait _ h) eqn:Ep.
  - by apply put_nowait_Some in Ep as [_ ->].
  - by destruct (close_spec h) as (_ & ? & _).
Qed.

(** The frames left after the head of the queue. *)
Abbreviation frames_in := (omap (λ x, match x with Item f => Some f | _STOP => None end)).

Lemma wire_of_snoc fs f : wire_of (fs ++ [f]) =
  wire_of fs ++ match encode f with Ok w => w | Raise _ => [] end.
Proof.
  rewrite wire_of_app. unfold wire_of at 2. cbn. destruct (encode f); cbn; [|done].
  by rewrite app_nil_r.
Qed.

(** The writer takes the frames in order. *)
Lemma write_carried how fs h :
  h_writing h = true → carried fs h → carried fs (write_turn how h).
Proof.
  intros Hwr (w & part & Hw & Hb & Hp & Hq & Hcl). specialize (Hq Hwr).
  assert (part = []) as -> by (destruct Hb as [?|[? _]]; [done|congruence]). clear Hb.
  rewrite app_nil_r in Hw. unfold write_turn.
  destruct (h_outbox h) as [|x rest] eqn:Eo.
  { exists w, []. rewrite app_nil_r. by split_and!; [|left|..]. }
  assert (waiting h = match x with Item f => [f] | _STOP => [] end ++ frames_in rest) as Hwait
    by (unfold waiting; rewrite Eo; by destruct x).
  rewrite Hwait in Hq, Hcl. destruct x as [f|].
  2:{ exists w, []. rewrite app_nil_r. by split_and!; [|left|..]. }
  rewrite app_assoc in Hq, Hcl.
  assert (w ++ [f] `prefix_of` fs) as Hf by (etrans; [|exact Hq]; by apply prefix_app_r).
  pose proof (wire_of_snoc w f) as Hsnoc. destruct (encode f) as [wire|] eqn:Ee.
  - cbn [h_open set_outbox]. destruct how as [|n]; cbn [sendall]; [destruct (h_open h)|].
    + exists (w ++ [f]), []. cbn. rewrite Hw, Hsnoc, app_nil_r.
      split_and!; [done|by left|done|intros _; exact Hq|exact Hcl].
    + exists w, []. cbn. rewrite Hw, app_nil_r. by split_and!; [|left|..].
    + exists w, (take n wire). cbn. rewrite Hw. split_and!; try done. right.
      split_and!; [done..|]. exists f, wire. split_and!; [done..|]. apply prefix_take.
  - exists (w ++ [f]), []. cbn. rewrite Hsnoc, !app_nil_r.
    split_and!; [done|by left|done|intros _; exact Hq|exact Hcl].
Qed.

Lemma write_ok how h : handler_ok h → handler_ok (write_turn how h).
Proof.
  intros Hok. unfold write_turn. destruct (h_outbox h) as [|x rest] eqn:Eo; [done|].
  destruct Hok as [Hb Hs Hopn Hd]. rewrite Eo in *. cbn [length] in Hb.
  destruct x as [f|].
  - destruct (encode f) as [wire|]; [destruct how as [|n]; cbn [sendall]; [destruct (h_open _) eqn:Eh|]|];
      constructor; cbn in *; try done; try lia;
      first [intros Hc; specialize (Hs Hc); set_solver | intros Hc Hwr; by specialize (Hd Hc Hwr)].
  - constructor; cbn; try done; [lia|..]; intros Hc; specialize (Hs Hc); set_solver.
Qed.

Lemma write_reading how h : h_reading (write_turn how h) = h_reading h.
Proof.
  unfold write_turn. destruct (h_outbox h) as [|[f|] rest]; [done| |done].
  destruct (encode f); [|done]. by destruct (sendall _ _ _) as [? []].
Qed.

(** The writer of a connection that was closed comes to its end: it takes at most
    what is queued, and stops at the sentinel or at the first frame it cannot
    deliver. *)
Fixpoint write_turns (how : nat → sending) (n : nat) (h : Handler) : Handler :=
  match n with
  | O => h
  | S n' => if h_writing h then write_turns (λ i, how (S i)) n' (write_turn (how 0) h) else h
  end.

Lemma write_turns_done how n h : h_writing h = false → h_writing (write_turns how n h) = false.
Proof. intros Hw. destruct n; [done|]. cbn. by rewrite Hw. Qed.

Definition ends_writer (x : item) : bool :=
  match x with _STOP => true | Item f => match encode f with Ok _ => true | Raise _ => false end end.

Lemma writer_ends how h :
  handler_ok h → h_closed h = true → Exists (λ x, ends_writer x = true) (h_outbox h) →
  h_writing (write_turns how (length (h_outbox h)) h) = false.
Proof.
  intros Hok Hc He. remember (h_outbox h) as q eqn:Eq. revert how h Hok Hc Eq.
  induction He as [x q Hx|x q He IH]; intros how h Hok Hc Eq; cbn [length write_turns];
    (destruct (h_writing h) eqn:Ew; [|done]);
    pose proof (ho_down h Hok Hc Ew) as Hopen.
  - apply write_turns_done. unfold write_turn. rewrite <-Eq. destruct x as [f|]; [|done].
    cbn in Hx. destruct (encode f); [|done]. cbn [h_open set_outbox]. rewrite Hopen.
    by destruct (how 0).
  - destruct (h_writing (write_turn (how 0) h)) eqn:Ew'; [|by apply write_turns_done].
    assert (h_closed (write_turn (how 0) h) = true ∧ q = h_outbox (write_turn (how 0) h)) as [Hc' Hq'].
    { unfold write_turn. rewrite <-Eq. destruct x as [f|]; [|done].
      destruct (encode f); [|done]. by destruct (sendall _ _ _) as [? []]. }
    apply IH; [by apply write_ok|done..].
Qed.
End facts.
