(* ===== verification/Server.v ===== *)
(** * The hub server

    [im/server/server.py] around the router: connections being accepted, each
    with a reader thread and a writer thread ([Handler]), and the router they
    share.  Frames that the router hands to [session.send] are the trace
    [w_out] of [Router]; here each of them goes into the queue of its
    connection.  One call of the router is one step: the queues never answer,
    so the router cannot see what becomes of its frames. *)

From S2P Require Import Prelude PyStr PyDict Utf8 Json Frames Codec.
From S2P Require Import Registries Database Users Messages RoomsDb.
From S2P Require Import Router Wp RouterSpec RouterRefines RouterInv Scenario RouterSafety Wire Handler.

(** What a list of sends holds for one connection. *)
Definition frames_to (s : sid) (out : list (sid * Frame)) : list Frame :=
  (filter (λ p : sid * Frame, p.1 = s) out).*2.

Record server (R : Type) := mkServer {
  sv_world : world R;
  sv_conns : gmap sid Handler;
  sv_handlers : gset sid;
  sv_running : bool;
  sv_next : nat;
}.
Arguments mkServer {_} _ _ _ _ _.
Arguments sv_world {_} _.
Arguments sv_conns {_} _.
Arguments sv_handlers {_} _.
Arguments sv_running {_} _.
Arguments sv_next {_} _.

Section Server.
Context `{Runtime} {R : Type} `{RoomStore R}.
Implicit Type sv : server R.

(** A server that has bound its socket. *)
Definition bound (w : world R) : server R := mkServer w ∅ ∅ true 0.

Definition on_conns (f : gmap sid Handler → gmap sid Handler) sv :=
  mkServer (sv_world sv) (f (sv_conns sv)) (sv_handlers sv) (sv_running sv) (sv_next sv).

Definition on_conn (f : Handler → Handler) (s : sid) sv := on_conns (alter f s) sv.

(** Every send in the order the router made it. *)
Definition deliver (out : list (sid * Frame)) (conns : gmap sid Handler) : gmap sid Handler :=
  foldl (λ m p, alter (Handler.send p.2) p.1 m) conns out.

Definition run_router {A} (op : M (world R) A) sv : server R * res A :=
  let '(w, r) := op (sv_world sv) in
  (mkServer w (deliver (new_out (sv_world sv) w) (sv_conns sv)) (sv_handlers sv) (sv_running sv)
     (sv_next sv), r).

(** ** The accept loop *)

Definition accept sv : server R :=
  let s := sv_next sv in
  mkServer (sv_world sv) (<[s := new_handler]> (sv_conns sv)) ({[s]} ∪ sv_handlers sv)
    (sv_running sv) (S s).

Definition shutdown sv : server R :=
  let close_each := set_fold (λ s m, alter close s m) (sv_conns sv) (sv_handlers sv) in
  mkServer (sv_world sv) close_each ∅ false (sv_next sv).

(** ** The reader thread of one connection *)

(** The [finally] of [serve], then that of [_run_handler].  An exception from
    [on_disconnect] would skip the rest of the first. *)
Definition finish (s : sid) sv : server R :=
  let '(sv, r) := run_router (on_disconnect s) sv in
  let sv := match r with Ok _ => on_conn close s sv | Raise _ => sv end in
  let sv := on_conn (set_reading false) s sv in
  mkServer (sv_world sv) (sv_conns sv) (sv_handlers sv ∖ {[s]}) (sv_running sv) (sv_next sv).

(** One line: [decode], then the router or the answer BAD_FRAME. *)
Definition on_line (s : sid) (line : pystr) : M (world R) unit :=
  n ← tick;
  match decode (rt_now n) (rt_uuid n) line with
  | Ok frame => handle s frame
  | Raise (ProtocolError m) => send_error s (&"BAD_FRAME") m
  | Raise e => raise e
  end.

(** The reader is at the end of a chunk when no line of it is left; then the loop
    tests [_closed]. *)
Definition next_turn (s : sid) sv : server R :=
  match sv_conns sv !! s with
  | Some h => if decide (h_lines h = [] ∧ h_closed h = true) then finish s sv else sv
  | None => sv
  end.

(** What [recv] returned: the lines that are now complete wait to be handled. *)
Definition receive (s : sid) (chunk : bytes) sv : server R :=
  match sv_conns sv !! s with
  | None => sv
  | Some h =>
    let '(b, r) := feed (h_buffer h) chunk in
    match r with
    | Raise (ProtocolError m) =>
      finish s (run_router (send_error s (&"LINE_TOO_LONG") m) (on_conn (set_input b []) s sv)).1
    | Raise _ => finish s (on_conn (set_input b []) s sv)
    | Ok lines => next_turn s (on_conn (set_input b lines) s sv)
    end
  end.

(** The next of those lines.  Other threads may have run since the one before. *)
Definition handle_line (s : sid) sv : server R :=
  match sv_conns sv !! s with
  | None => sv
  | Some h =>
    match h_lines h with
    | [] => sv
    | line :: rest =>
      let '(sv, r) := run_router (on_line s line) (on_conn (set_input (h_buffer h) rest) s sv) in
      match r with
      | Raise _ => finish s sv
      | Ok _ => next_turn s sv
      end
    end
  end.

(** The peer hung up, or [recv] failed. *)
Definition hangup (s : sid) sv : server R := finish s sv.

Definition write (s : sid) (how : sending) sv : server R := on_conn (write_turn how) s sv.

(** ** What can happen, in any order *)

Inductive sstep sv : server R → Prop :=
| s_accept : sv_running sv = true → sstep sv (accept sv)
| s_receive s chunk h :
    sv_conns sv !! s = Some h → h_reading h = true → h_lines h = [] → h_open h = true →
    chunk ≠ [] → length chunk ≤ RECV_BYTES → sstep sv (receive s chunk sv)
| s_line s h :
    sv_conns sv !! s = Some h → h_reading h = true → h_lines h ≠ [] → sstep sv (handle_line s sv)
| s_hangup s h :
    sv_conns sv !! s = Some h → h_reading h = true → h_lines h = [] → sstep sv (hangup s sv)
| s_write s how h :
    sv_conns sv !! s = Some h → h_writing h = true → h_outbox h ≠ [] → sstep sv (write s how sv)
| s_shutdown : sstep sv (shutdown sv).

(** ** Queues and the trace *)

Lemma frames_to_app s o1 o2 : frames_to s (o1 ++ o2) = frames_to s o1 ++ frames_to s o2.
Proof. unfold frames_to. by rewrite filter_app, fmap_app. Qed.

Lemma deliver_lookup out conns s :
  deliver out conns !! s
  = (λ h, foldl (λ h f, Handler.send f h) h (frames_to s out)) <$> conns !! s.
Proof.
  revert conns. induction out as [|[d f] out IH]; intros conns; cbn [deliver foldl].
  { by destruct (conns !! s). }
  etrans; [apply IH|]. unfold frames_to. rewrite filter_cons. cbn [fst snd].
  case_decide as Hd; [subst; rewrite lookup_alter_eq; by destruct (conns !! s)|].
  by rewrite lookup_alter_ne.
Qed.

Lemma sends_carried fs gs h :
  carried fs h → handler_ok h →
  let h' := foldl (λ h f, Handler.send f h) h gs in
  carried (fs ++ gs) h' ∧ handler_ok h'.
Proof.
  revert fs h. induction gs as [|g gs IH]; intros fs h Hc Hok; cbn [foldl].
  { by rewrite app_nil_r. }
  destruct (IH (fs ++ [g]) (Handler.send g h)) as (H1 & H2).
  - by apply send_carried.
  - by apply send_ok.
  - rewrite <-app_assoc in H1. by split_and!.
Qed.

(** ** What a step leaves alone

    Whether the two threads of a connection run, and what is on its wire. *)

Definition threads (h : Handler) : bool * bool * bytes := (h_reading h, h_writing h, h_wire h).

Definition threads_of (s : sid) sv : option (bool * bool * bytes) := threads <$> sv_conns sv !! s.

Lemma send_threads f h : threads (Handler.send f h) = threads h.
Proof.
  unfold Handler.send. destruct (h_closed h); [done|]. destruct (put_nowait _ h) eqn:Ep.
  - by apply put_nowait_Some in Ep as [_ ->].
  - unfold threads. by destruct (close_spec h) as (_ & -> & -> & -> & _).
Qed.

Lemma sends_threads gs h : threads (foldl (λ h f, Handler.send f h) h gs) = threads h.
Proof.
  revert h. induction gs as [|g gs IH]; intros h; [done|]. cbn [foldl]. by rewrite IH, send_threads.
Qed.

Lemma router_threads {A} (op : M (world R) A) s sv :
  threads_of s (run_router op sv).1 = threads_of s sv.
Proof.
  unfold run_router, threads_of. destruct (op (sv_world sv)) as [w r]. cbn.
  rewrite deliver_lookup. destruct (sv_conns sv !! s); cbn; [|done]. by rewrite sends_threads.
Qed.

Lemma on_conn_threads f d s sv :
  (d = s → ∀ h, sv_conns sv !! s = Some h → threads (f h) = threads h) →
  threads_of s (on_conn f d sv) = threads_of s sv.
Proof.
  intros Hf. unfold threads_of. cbn. destruct (decide (d = s)) as [->|].
  - rewrite lookup_alter_eq. destruct (sv_conns sv !! s) eqn:E; [|done]. cbn. by rewrite Hf.
  - by rewrite lookup_alter_ne.
Qed.

Lemma close_threads h : threads (close h) = threads h.
Proof. unfold threads. by destruct (close_spec h) as (_ & -> & -> & -> & _). Qed.

(** The end of one reader leaves the threads of the others alone, and its own writer. *)
Lemma finish_threads d s sv :
  threads_of s (finish d sv)
  = (λ t, (if decide (s = d) then false else t.1.1, t.1.2, t.2)) <$> threads_of s sv.
Proof.
  unfold finish. pose proof (router_threads (on_disconnect d) s sv) as Hr.
  destruct (run_router (on_disconnect d) sv) as [sv1 r]. cbn [fst] in Hr. rewrite <-Hr. clear Hr sv.
  set (sv2 := match r with Ok _ => _ | Raise _ => _ end).
  assert (threads_of s sv2 = threads_of s sv1) as <-.
  { destruct r; [|done]. apply on_conn_threads. intros _ h _. apply close_threads. }
  unfold threads_of. cbn. destruct (decide (s = d)) as [->|].
  - rewrite lookup_alter_eq. by destruct (sv_conns sv2 !! d).
  - rewrite lookup_alter_ne by done. by destruct (sv_conns sv2 !! s) as [[]|].
Qed.

Lemma finish_other d s sv : d ≠ s → threads_of s (finish d sv) = threads_of s sv.
Proof.
  intros Hd. rewrite finish_threads. destruct (threads_of s sv) as [[[a b] c]|]; cbn; [|done].
  by rewrite decide_False.
Qed.

Lemma next_turn_threads d s sv :
  d ≠ s → threads_of s (next_turn d sv) = threads_of s sv.
Proof.
  intros Hd. unfold next_turn. destruct (sv_conns sv !! d) as [h|]; [|done].
  case_decide; [by apply finish_other|done].
Qed.
End Server.
