(* ===== verification/ServerMain.v ===== *)
(** * Starting the server

    [im/server/__main__.py], and the accept loop of [im/server/server.py] with what
    TLS does in it.  [argparse] cuts the command line into the options that were
    given ([given]); what the source says about each of them is modelled.  The
    handshake of a connection runs on the thread that accepts, so the loop is
    inside of it until it is over. *)

From S2P Require Import Prelude PyStr PyDict Json PyInt Frames Codec.
From S2P Require Import Registries Database Users Messages RoomsDb.
From S2P Require Import Router RouterInv Scenario Handler Server Files Tls.

Definition VERSION : pystr := &"0.1.0".
Definition DEFAULT_HOST : pystr := &"127.0.0.1".
Definition DEFAULT_PORT : Z := 5000.

(** ** The command line *)

Inductive given :=
| GivenHost (value : pystr)
| GivenPort (value : pystr)
| GivenDb (value : pystr)
| GivenTls
| GivenCert (value : pystr)
| GivenKey (value : pystr)
| GivenQuiet.

Record namespace := mkNamespace {
  host : pystr;
  port : Z;
  db : pystr;
  tls : bool;
  cert : pystr;
  key : pystr;
  quiet : bool;
}.

Definition default_namespace : namespace :=
  mkNamespace DEFAULT_HOST DEFAULT_PORT (&"im.db") false (&"dev.crt") (&"dev.key") false.

(** One option; a port that is no integer ends the program with status 2. *)
Definition take_option (a : namespace) (g : given) : res namespace :=
  match g with
  | GivenHost x => Ok (mkNamespace x (port a) (db a) (tls a) (cert a) (key a) (quiet a))
  | GivenPort x =>
    match int_of_str x with
    | Ok p => Ok (mkNamespace (host a) p (db a) (tls a) (cert a) (key a) (quiet a))
    | Raise ValueError => Raise (SystemExit 2)
    | Raise e => Raise e
    end
  | GivenDb x => Ok (mkNamespace (host a) (port a) x (tls a) (cert a) (key a) (quiet a))
  | GivenTls => Ok (mkNamespace (host a) (port a) (db a) true (cert a) (key a) (quiet a))
  | GivenCert x => Ok (mkNamespace (host a) (port a) (db a) (tls a) x (key a) (quiet a))
  | GivenKey x => Ok (mkNamespace (host a) (port a) (db a) (tls a) (cert a) x (quiet a))
  | GivenQuiet => Ok (mkNamespace (host a) (port a) (db a) (tls a) (cert a) (key a) true)
  end.

Definition parse_args (argv : list given) : res namespace :=
  foldl (λ r g, a ← r; take_option a g) (Ok default_namespace) argv.

Example parse_ex :
  parse_args [GivenPort (&"8000"); GivenTls; GivenPort (&" 7_000 ")] =
    Ok (mkNamespace (&"127.0.0.1") 7000 (&"im.db") true (&"dev.crt") (&"dev.key") false) ∧
  parse_args [GivenPort (&"http")] = Raise (SystemExit 2).
Proof. split; reflexivity. Qed.

(** ** The accept loop *)

(** What the loop lives through.  [p] is a peer.  The socket of a handshake has no
    timeout, so it ends when its peer does something: it completes it, or fails
    in it, or hangs up. *)
Inductive event :=
| Connects (p : nat)               (* the system puts the peer behind the others that wait *)
| Returns                          (* the system lets [accept] return *)
| Shaken (p : nat) (done : bool)   (* the peer completes its handshake, or spoils it *)
| ShutDown.                        (* another thread calls [shutdown] *)

Record acceptor (R : Type) := mkAcceptor {
  ac_server : server R;
  ac_backlog : list nat;           (* who waits to be accepted *)
  ac_shaking : option nat;         (* whose [wrap_socket] the loop is inside of *)
  ac_ended : bool;                 (* [serve_forever] has returned *)
}.
Arguments mkAcceptor {_} _ _ _ _.
Arguments ac_server {_} _.
Arguments ac_backlog {_} _.
Arguments ac_shaking {_} _.
Arguments ac_ended {_} _.

Section ServerMain.
Context `{Runtime} {R : Type} `{RoomStore R} `{X509}.
Implicit Types (sv : server R) (a : acceptor R).

Definition listening_on sv : acceptor R := mkAcceptor sv [] None false.

(** The test of the loop. *)
Definition loop_test a : acceptor R :=
  if sv_running (ac_server a) then a
  else mkAcceptor (ac_server a) (ac_backlog a) (ac_shaking a) true.

Definition serve_step (secure : bool) a (e : event) : acceptor R :=
  if ac_ended a then a
  else match e with
  | Connects p =>
    if sv_running (ac_server a)
    then mkAcceptor (ac_server a) (ac_backlog a ++ [p]) (ac_shaking a) false else a
  | Returns =>
    match ac_shaking a, ac_backlog a with
    | None, p :: rest =>
      if secure then mkAcceptor (ac_server a) rest (Some p) false
      else loop_test (mkAcceptor (accept (ac_server a)) rest None false)
    | _, _ => a
    end
  | Shaken p done =>
    if decide (ac_shaking a = Some p) then
      loop_test (mkAcceptor (if done then accept (ac_server a) else ac_server a) (ac_backlog a) None false)
    else a
  | ShutDown =>
    mkAcceptor (shutdown (ac_server a)) [] (ac_shaking a) (bool_decide (ac_shaking a = None))
  end.

Definition serve_forever (secure : bool) (es : list event) a : acceptor R :=
  foldl (serve_step secure) a es.

(** ** main *)

(** What is printed once the socket is bound. *)
Definition banner (a : namespace) (address : pystr * Z) : list pystr :=
  [&"Socket to Ciphertext -- server " ++ VERSION;
   &"  listen   " ++ address.1 ++ &":" ++ dec_of_Z address.2;
   &"  store    " ++ db a;
   &"  tls      " ++ (if tls a then cert a else &"off (plaintext)");
   &"  phase    6 (TLS available, end-to-end encryption in the client)";
   &"  try      telnet " ++ address.1 ++ &" " ++ dec_of_Z address.2;
   &"  stop     Ctrl-C"].

(** The context, when TLS is asked for. *)
Definition tls_context (draw : nat) (now : Z) (chmod : bool) (a : namespace)
    : M files (option context) :=
  if tls a then
    paths ← generate_self_signed draw now chmod (cert a) (key a) (&"localhost");
    fs ← get;
    cx ← lift_res (server_context paths.1 paths.2 fs);
    mret (Some cx)
  else mret None.

(** [main] up to [serve_forever]: [w] is the world that the stores of [db] hold, and
    [bind] what the system says to binding the socket. *)
Definition main_begin (draw : nat) (now : Z) (chmod : bool) (argv : list given)
    (w : world R) (bind : res (pystr * Z)) : M files (server R * option context * list pystr) :=
  a ← lift_res (parse_args argv);
  context ← tls_context draw now chmod a;
  address ← lift_res bind;
  mret (bound w, context, banner a address).

(** [main] from there: [es] happen, and then Ctrl-C, or the end of the loop, ends it. *)
Definition main_end (context : option context) (es : list event) sv : server R * Z :=
  (shutdown (ac_server (serve_forever (bool_decide (context ≠ None)) es (listening_on sv))), 0%Z).

(** ** A silent peer *)

(** Who connects meanwhile. *)
Definition comers (es : list event) : list nat :=
  omap (λ e, match e with Connects p => Some p | _ => None end) es.

(** Nothing of this is the end of [p]'s handshake, or of the server. *)
Definition without (p : nat) (es : list event) : Prop :=
  ShutDown ∉ es ∧ ∀ done, Shaken p done ∉ es.

Lemma serve_app secure es fs a :
  serve_forever secure (es ++ fs) a = serve_forever secure fs (serve_forever secure es a).
Proof. apply foldl_app. Qed.

Lemma shaking_waits p es sv backlog :
  sv_running sv = true → without p es →
  serve_forever true es (mkAcceptor sv backlog (Some p) false)
    = mkAcceptor sv (backlog ++ comers es) (Some p) false.
Proof.
  intros Hr. revert backlog. induction es as [|e es IH]; intros backlog [Hs Hp]; [by rewrite app_nil_r|].
  assert (without p es) as He by (split; [set_solver|intros done; specialize (Hp done); set_solver]).
  unfold serve_forever in *. cbn [foldl]. destruct e as [q| |q done|]; unfold serve_step at 2; cbn.
  - rewrite Hr, IH by done. by rewrite <-app_assoc.
  - by apply IH.
  - rewrite decide_False; [by apply IH|]. intros [= ->]. specialize (Hp done). set_solver.
  - set_solver.
Qed.

(** Peers that wait, each of them accepted in its turn. *)
Definition all_shake (ps : list nat) : list event := ps ≫= λ p, [Returns; Shaken p true].

Definition taken_on (n : nat) sv sv' : Prop :=
  sv_running sv' = sv_running sv ∧ sv_next sv' = sv_next sv + n ∧ sv_handlers sv ⊆ sv_handlers sv' ∧
  ∀ d, sv_next sv ≤ d < sv_next sv' → d ∈ sv_handlers sv'.

Lemma taken_on_accept n sv sv' : taken_on n (accept sv) sv' → taken_on (S n) sv sv'.
Proof.
  unfold taken_on. cbn. intros (Hr & Hn & Hs & Hin). split_and!; [done|lia|set_solver|].
  intros d Hd. destruct (decide (d = sv_next sv)) as [->|]; [set_solver|apply Hin; lia].
Qed.

(** One after the other, when nobody keeps the loop waiting. *)
Lemma backlog_served (secure : bool) ps sv :
  sv_running sv = true →
  ∃ sv', serve_forever secure (if secure then all_shake ps else replicate (length ps) Returns)
           (mkAcceptor sv ps None false) = mkAcceptor sv' [] None false ∧ taken_on (length ps) sv sv'.
Proof.
  intros Hr. revert sv Hr. induction ps as [|p ps IH]; intros sv Hr.
  { exists sv. split; [by destruct secure|]. split_and!; [done|cbn; lia|done|lia]. }
  destruct (IH (accept sv) Hr) as (sv' & E & Ht). exists sv'. split; [|by apply taken_on_accept].
  destruct secure; unfold serve_forever in *; cbn [length replicate foldl all_shake mbind list_bind app].
  - assert (serve_step true (mkAcceptor sv (p :: ps) None false) Returns
            = mkAcceptor sv ps (Some p) false) as -> by done.
    assert (serve_step true (mkAcceptor sv ps (Some p) false) (Shaken p true)
            = mkAcceptor (accept sv) ps None false) as ->; [|exact E].
    unfold serve_step. cbn. rewrite decide_True by done. unfold loop_test. cbn. by rewrite Hr.
  - assert (serve_step false (mkAcceptor sv (p :: ps) None false) Returns
            = mkAcceptor (accept sv) ps None false) as ->; [|exact E].
    unfold serve_step. cbn. unfold loop_test. cbn. by rewrite Hr.
Qed.

(** C37. With TLS one peer that connects and says nothing keeps everybody else out,
    for as long as it likes.  Once [accept] has returned it, and until it
    completes or spoils its handshake, whoever connects meanwhile only joins
    those who wait, and nothing that the others do takes anybody on; when it does
    answer or hang up, the loop goes on, and those who waited are taken on, each
    with a handler of its own, as they complete their handshakes.  Without TLS
    the same peers are taken on as [accept] returns, whatever they send.
    ([serve_forever] says that a failed handshake is one client's problem, not
    the server's.) *)
Theorem silent_peer_stops_accepting sv p rest es
    (Hrun : sv_running sv = true) (Hsilent : without p es) :
  let a := mkAcceptor sv (p :: rest) None false in
  let waiting := rest ++ comers es in
  serve_forever true (Returns :: es) a = mkAcceptor sv waiting (Some p) false ∧
  (∀ done, ∃ sv', serve_forever true (Returns :: es ++ Shaken p done :: all_shake waiting) a
                    = mkAcceptor sv' [] None false ∧
     taken_on (length waiting) (if (done : bool) then accept sv else sv) sv') ∧
  ∃ sv', serve_forever false (replicate (S (length rest)) Returns) a = mkAcceptor sv' [] None false ∧
         taken_on (S (length rest)) sv sv'.
Proof.
  intros a waiting.
  assert (serve_forever true (Returns :: es) a = mkAcceptor sv waiting (Some p) false) as Hwait
    by by apply (shaking_waits p es sv rest).
  split; [done|split].
  - intros done. destruct (backlog_served true waiting (if done then accept sv else sv)) as (sv' & E & Ht);
      [by destruct done|]. exists sv'. split; [|done].
    change (Returns :: es ++ Shaken p done :: all_shake waiting)
      with ((Returns :: es) ++ Shaken p done :: all_shake waiting).
    rewrite serve_app, Hwait. unfold serve_forever in *. cbn [foldl]. rewrite <-E. f_equal.
    unfold serve_step. cbn. rewrite decide_True by done. unfold loop_test. cbn.
    destruct done; cbn; by rewrite Hrun.
  - apply (backlog_served false (p :: rest) sv Hrun).
Qed.
End ServerMain.

(** ** A server at work *)

Definition just_bound : server SqliteRooms.t := bound (fresh SqliteRooms.empty true true).

(** 7 says nothing while 8 and 9 come and 8 sends its hello; then it hangs up. *)
Lemma silent_peer_stops_accepting_witness :
  serve_forever true [Returns; Connects 8; Shaken 8 true; Connects 9] (mkAcceptor just_bound [7] None false)
    = mkAcceptor just_bound [8; 9] (Some 7) false ∧
  ∃ sv, serve_forever true [Returns; Connects 8; Shaken 8 true; Connects 9; Shaken 7 false;
                            Returns; Shaken 8 true; Returns; Shaken 9 true]
          (mkAcceptor just_bound [7] None false) = mkAcceptor sv [] None false ∧ sv_next sv = 2.
Proof.
  destruct (silent_peer_stops_accepting just_bound 7 [] [Connects 8; Shaken 8 true; Connects 9])
    as (H1 & H2 & _).
  - reflexivity.
  - split; [|intros done]; rewrite !not_elem_of_cons; split_and!; try discriminate; apply not_elem_of_nil.
  - split; [exact H1|]. destruct (H2 false) as (sv & E & _ & Hn & _). exists sv. split; [exact E|exact Hn].
Defined.

(** A peer that completes its handshake after the server was shut down still gets a
    handler, which nobody will close. *)
Example accepted_after_shutdown :
  let a := serve_forever true [Connects 7; Returns; ShutDown; Shaken 7 true] (listening_on just_bound) in
  ac_ended a = true ∧ sv_running (ac_server a) = false ∧ sv_handlers (ac_server a) = {[0]}.
Proof. vm_compute. by split_and!. Qed.

(** The first start of a server with TLS, in an empty directory. *)
Example first_start :
  (main_begin 7 1756684800 true [GivenTls] (fresh SqliteRooms.empty true true)
     (Ok (&"127.0.0.1", 5000%Z)) bare_disk).2 =
  Ok (just_bound,
      Some (mkContext Server TLSv1_2
              (Some (self_signed 7 1756684800 (&"localhost"), [7%N])) false false false []),
      [&"Socket to Ciphertext -- server 0.1.0"; &"  listen   127.0.0.1:5000"; &"  store    im.db";
       &"  tls      dev.crt"; &"  phase    6 (TLS available, end-to-end encryption in the client)";
       &"  try      telnet 127.0.0.1 5000"; &"  stop     Ctrl-C"]).
Proof. vm_compute. reflexivity. Qed.
