(* ===== verification/ServerInv.v ===== *)
(** * What every connection of the server gets

    The invariant of [Server]: queues stay within their bound, what a client is
    written is a prefix of what was sent to it, and only a connection whose
    reader is running is logged in. *)

From S2P Require Import Prelude PyStr PyDict Utf8 Json Frames Codec.
From S2P Require Import Registries Database Users Messages RoomsDb.
From S2P Require Import Router Wp RouterSpec RouterRefines RouterInv Scenario RouterSafety.
From S2P Require Import Wire Handler Server.

Section inv.
Context `{Runtime} {R : Type} `{RoomStore R} {ok : R → Prop}
  {view : R → gmap pystr (gset pystr)} `{!RoomStoreSound R ok view}.
Implicit Types (w : world R) (sv : server R).

Abbreviation winv := (RouterInv.inv (ok := ok) (view := view)).

(** ** What a call of the router for connection [s] may do *)

Record routed (s : sid) w w' : Prop := {
  ro_inv : winv w';
  ro_sent : ∃ out, w_out w' = w_out w ++ out ∧
    ∀ d g, (d, g) ∈ out → d = s ∨ is_Some (w_user w !! d);
  ro_others : ∀ d, d ≠ s → w_user w' !! d = w_user w !! d;
}.

Lemma routed_refl s w : winv w → routed s w w.
Proof.
  split; [done| |done]. exists []. rewrite app_nil_r. split; [done|].
  by intros d g ?%not_elem_of_nil.
Qed.

Lemma routed_trans s w1 w2 w3 : routed s w1 w2 → routed s w2 w3 → routed s w1 w3.
Proof.
  intros [_ (o1 & E1 & H1') Ho1] [Hi (o2 & E2 & H2') Ho2]. split; [done| |].
  - exists (o1 ++ o2). rewrite E2, E1, app_assoc. split; [done|].
    intros d g [?|Hin]%elem_of_app; [eauto|]. destruct (decide (d = s)) as [|Hd]; [by left|].
    destruct (H2' d g Hin) as [|Hs]; [by left|]. right. by rewrite Ho1 in Hs.
  - intros d Hd. by rewrite Ho2, Ho1.
Qed.

Lemma handle_routed s f w : winv w → routed s w (handle s f w).1.
Proof.
  intros Hi. split; [by apply handle_inv| |].
  - destruct (acts_sent w s f _ (acts_handle w s f)) as (out & E & _). exists out.
    split; [done|]. intros d g Hin. apply (sent_to w s f d g Hi). unfold new_out.
    by rewrite E, drop_app_length.
  - intros d Hd. eapply acts_user_other; [apply acts_handle|done].
Qed.

Lemma send_error_routed s code m w :
  winv w → routed s w (send_error s code m w).1 ∧ ∃ w', send_error s code m w = (w', Ok tt).
Proof.
  intros Hi. unfold send_error, new_frame, send, tick, modify, mbind, M_bind, mret, M_ret.
  split; [|by eexists]. cbn [fst]. split.
  - by apply inv_out, inv_tick.
  - eexists. split; [reflexivity|]. intros d g [= -> _]%list_elem_of_singleton. by left.
  - done.
Qed.

Lemma on_line_routed s line w : winv w → routed s w (on_line s line w).1.
Proof.
  intros Hi. unfold on_line, tick, mbind, M_bind. cbn [w_tick].
  assert (routed s w (set_tick (S (w_tick w)) w)) as Ht.
  { split; [by apply inv_tick| |done]. exists []. rewrite app_nil_r. split; [done|].
    by intros d g ?%not_elem_of_nil. }
  eapply routed_trans; [exact Ht|]. destruct Ht as [Hi' _ _].
  destruct (decode _ _ line) as [f|[]]; try (by apply routed_refl).
  - by apply handle_routed.
  - by apply send_error_routed.
Qed.

(** [on_disconnect] logs the connection out, and cannot fail. *)
Lemma disconnect_routed s w :
  winv w → routed s w (on_disconnect s w).1 ∧ (on_disconnect s w).2 = Ok tt ∧
  w_user (on_disconnect s w).1 !! s = None.
Proof.
  intros Hi. destruct (w_user w !! s) as [u|] eqn:Hu.
  - pose proof (disconnect_inv w s Hi) as Hi'. rewrite (on_disconnect_eq w s u Hu) in *.
    cbv zeta in *. cbn [fst snd] in *. split_and!; [|done|by cbn; rewrite lookup_delete_eq].
    split; [done| |].
    + eexists. split; [reflexivity|]. intros d g ([= <- _] & Hd)%list_elem_of_fmap
        || intros d g (d' & [= -> _] & Hd)%list_elem_of_fmap.
      right. apply Sessions.elem_of_others in Hd as (v & Hv & Hg);
        [|by apply Sessions.logout_spec, Hi].
      destruct (Sessions.logout_spec (w_sessions w) u) as (_ & _ & Hl); [apply Hi|].
      rewrite Hl in Hg by done. exists v. by apply (i_agree w Hi).
    + intros d Hd. cbn. by rewrite lookup_delete_ne.
  - unfold on_disconnect, username, gets, mbind, M_bind, mret, M_ret. rewrite Hu.
    split_and!; [by apply routed_refl|done|done].
Qed.

(** ** The invariant *)

(** Everything the router has sent to one connection. *)
Definition offered (s : sid) sv : list Frame := frames_to s (w_out (sv_world sv)).

Record server_inv sv : Prop := {
  si_world : winv (sv_world sv);
  si_conns s : is_Some (sv_conns sv !! s) ↔ s < sv_next sv;
  si_conn s h : sv_conns sv !! s = Some h → handler_ok h ∧ carried (offered s sv) h;
  si_out s f : (s, f) ∈ w_out (sv_world sv) → s < sv_next sv;
  si_user s : is_Some (w_user (sv_world sv) !! s) →
    ∃ h, sv_conns sv !! s = Some h ∧ h_reading h = true;
}.

(** A change of one handler that keeps its part. *)
Lemma on_conn_inv f s sv :
  (∀ h, sv_conns sv !! s = Some h → handler_ok h → carried (offered s sv) h →
    handler_ok (f h) ∧ carried (offered s sv) (f h) ∧
    (is_Some (w_user (sv_world sv) !! s) → h_reading (f h) = h_reading h)) →
  server_inv sv → server_inv (on_conn f s sv).
Proof.
  intros Hf []. constructor; cbn [on_conn on_conns sv_world sv_conns sv_next]; try done.
  - intros d. rewrite <-si_conns0. destruct (decide (d = s)) as [->|];
      [rewrite lookup_alter_eq; by destruct (sv_conns sv !! s)|by rewrite lookup_alter_ne].
  - intros d h. unfold offered. cbn [sv_world]. destruct (decide (d = s)) as [->|].
    + rewrite lookup_alter_eq. destruct (sv_conns sv !! s) as [h0|] eqn:E; [|done].
      intros [= <-]. destruct (si_conn0 s h0 E). by destruct (Hf h0 eq_refl) as (? & ? & _).
    + rewrite lookup_alter_ne by done. apply si_conn0.
  - intros d Hd. destruct (si_user0 d Hd) as (h & E & Hr).
    destruct (decide (d = s)) as [->|]; [|exists h; by rewrite lookup_alter_ne].
    exists (f h). rewrite lookup_alter_eq, E. split; [done|]. destruct (si_conn0 s h E).
    destruct (Hf h E) as (_ & _ & ->); done.
Qed.

(** A call of the router fills the queues as it sends. *)
Lemma run_router_inv {A} (op : M (world R) A) s h sv :
  routed s (sv_world sv) (op (sv_world sv)).1 →
  sv_conns sv !! s = Some h → h_reading h = true →
  server_inv sv → server_inv (run_router op sv).1 ∧ sv_world (run_router op sv).1 = (op (sv_world sv)).1 ∧
    ∃ h', sv_conns (run_router op sv).1 !! s = Some h' ∧ h_reading h' = true.
Proof.
  intros [Hi (out & E & Hout) Ho] Hh Hr Hsv. unfold run_router.
  destruct (op (sv_world sv)) as [w r]. cbn [fst] in *. unfold new_out. rewrite E, drop_app_length.
  assert (∀ d h0, sv_conns sv !! d = Some h0 →
    let h1 := foldl (λ h f, Handler.send f h) h0 (frames_to d out) in
    deliver out (sv_conns sv) !! d = Some h1 ∧ handler_ok h1 ∧
    carried (frames_to d (w_out w)) h1 ∧ h_reading h1 = h_reading h0) as Hd.
  { intros d h0 Hd. destruct (si_conn sv Hsv d h0 Hd) as [Hok Hc].
    destruct (sends_carried (offered d sv) (frames_to d out) h0 Hc Hok) as (H1' & H2').
    pose proof (sends_threads (frames_to d out) h0) as H3'. injection H3' as H3' _ _.
    rewrite deliver_lookup, Hd, E, frames_to_app. by split_and!. }
  split; [|split; [done|]].
  - constructor; cbn [sv_world sv_conns sv_next]; [done|..].
    + intros d. rewrite deliver_lookup, fmap_is_Some. apply Hsv.
    + intros d h1. rewrite deliver_lookup. destruct (sv_conns sv !! d) as [h0|] eqn:Ed; [|done].
      intros [= <-]. unfold offered. cbn [sv_world]. by destruct (Hd d h0 Ed) as (_ & ? & ? & _).
    + intros d f. rewrite E. intros [Hin|Hin]%elem_of_app; [by eapply si_out|].
      apply (si_conns sv Hsv). destruct (Hout d f Hin) as [->|Hs]; [by eexists|].
      destruct (si_user sv Hsv d Hs) as (h0 & ? & _). by eexists.
    + intros d Hs. destruct (decide (d = s)) as [->|Hds].
      * destruct (Hd s h Hh) as (E1 & _ & _ & E2). eexists. split; [exact E1|]. by rewrite E2.
      * rewrite Ho in Hs by done. destruct (si_user sv Hsv d Hs) as (h0 & Hh0 & Hr0).
        destruct (Hd d h0 Hh0) as (E1 & _ & _ & E2). eexists. split; [exact E1|]. by rewrite E2.
  - destruct (Hd s h Hh) as (E1 & _ & _ & E2). eexists. split; [exact E1|]. by rewrite E2.
Qed.

(** ** The steps *)

Lemma set_input_keeps b ls fs h :
  handler_ok h → carried fs h → handler_ok (set_input b ls h) ∧ carried fs (set_input b ls h).
Proof. intros [] Hc. split; [by constructor|exact Hc]. Qed.

Lemma set_reading_keeps b fs h :
  handler_ok h → carried fs h → handler_ok (set_reading b h) ∧ carried fs (set_reading b h).
Proof. intros [] Hc. split; [by constructor|exact Hc]. Qed.

(** The end of a connection: logged out, closed, its reader done. *)
Lemma finish_inv s h sv :
  sv_conns sv !! s = Some h → h_reading h = true → server_inv sv →
  server_inv (finish s sv) ∧ w_user (sv_world (finish s sv)) !! s = None ∧
  (∀ d, d ≠ s → w_user (sv_world (finish s sv)) !! d = w_user (sv_world sv) !! d) ∧
  ∃ h', sv_conns (finish s sv) !! s = Some h' ∧ h_closed h' = true ∧ h_reading h' = false.
Proof.
  intros Hh Hr Hsv. destruct (disconnect_routed s (sv_world sv)) as (Hro & Hres & Hnone); [apply Hsv|].
  destruct (run_router_inv (on_disconnect s) s h sv Hro Hh Hr Hsv) as (Hinv & Hw & h1 & Hh1 & _).
  assert ((run_router (on_disconnect s) sv).2 = Ok tt) as Hok.
  { unfold run_router. by destruct (on_disconnect s (sv_world sv)). }
  unfold finish. destruct (run_router (on_disconnect s) sv) as [sv1 r] eqn:E. cbn [fst snd] in *. subst r.
  assert (server_inv (on_conn (set_reading false) s (on_conn close s sv1))) as Hfin.
  { apply on_conn_inv.
    - intros h0 _ Hok0 Hc0. destruct (set_reading_keeps false _ _ Hok0 Hc0) as [? ?].
      split_and!; [done..|]. intros [u Hu]. cbn in Hu. by rewrite Hw, Hnone in Hu.
    - apply on_conn_inv; [|done]. intros h0 _ Hok0 Hc0.
      split_and!; [by apply close_ok|by apply close_carried|].
      intros _. by destruct (close_spec h0) as (_ & ? & _). }
  split_and!.
  - destruct Hfin. by constructor.
  - cbn. by rewrite Hw.
  - intros d Hd. cbn. rewrite Hw. by apply Hro.
  - exists (set_reading false (close h1)). cbn. rewrite !lookup_alter_eq, Hh1. split_and!; [done| |done].
    by destruct (close_spec h1) as (? & _).
Qed.

(** What the reader of [s] leaves behind: nothing of it, and nobody else's login
    changed; or it is still running. *)
Definition signed_off (s : sid) sv sv' : Prop :=
  w_user (sv_world sv') !! s = None ∧
  ∃ h, sv_conns sv' !! s = Some h ∧ h_closed h = true ∧ h_reading h = false.

Definition reader_step (s : sid) sv sv' : Prop :=
  server_inv sv' ∧ (∀ d, d ≠ s → w_user (sv_world sv') !! d = w_user (sv_world sv) !! d) ∧
  (signed_off s sv sv' ∨ ∃ h, sv_conns sv' !! s = Some h ∧ h_reading h = true).

Lemma reader_finishes s h sv0 sv :
  sv_conns sv !! s = Some h → h_reading h = true → server_inv sv →
  (∀ d, d ≠ s → w_user (sv_world sv) !! d = w_user (sv_world sv0) !! d) →
  reader_step s sv0 (finish s sv) ∧ signed_off s sv0 (finish s sv).
Proof.
  intros Hh Hr Hsv Ho. destruct (finish_inv s h sv Hh Hr Hsv) as (Hinv & Hnone & Hoth & Hc).
  assert (signed_off s sv0 (finish s sv)) as Hs by by split.
  split; [|done]. split_and!; [done| |by left]. intros d Hd. by rewrite Hoth, Ho.
Qed.

Lemma next_turn_step s h sv0 sv :
  sv_conns sv !! s = Some h → h_reading h = true → server_inv sv →
  (∀ d, d ≠ s → w_user (sv_world sv) !! d = w_user (sv_world sv0) !! d) →
  reader_step s sv0 (next_turn s sv).
Proof.
  intros Hh Hr Hsv Ho. unfold next_turn. rewrite Hh. case_decide; [by eapply reader_finishes|].
  split_and!; [done..|]. right. by exists h.
Qed.

(** The lines of a handler are nobody's business but the reader's. *)
Lemma set_input_inv s h b ls sv :
  sv_conns sv !! s = Some h → server_inv sv →
  server_inv (on_conn (set_input b ls) s sv) ∧
  sv_conns (on_conn (set_input b ls) s sv) !! s = Some (set_input b ls h).
Proof.
  intros Hh Hsv. split; [|cbn; by rewrite lookup_alter_eq, Hh].
  apply on_conn_inv; [|done]. intros h0 _ Hok Hc. by destruct (set_input_keeps b ls _ _ Hok Hc).
Qed.

Lemma receive_step s chunk h sv :
  sv_conns sv !! s = Some h → h_reading h = true → server_inv sv →
  reader_step s sv (receive s chunk sv) ∧
  (∀ b e, feed (h_buffer h) chunk = (b, Raise e) → signed_off s sv (receive s chunk sv)).
Proof.
  intros Hh Hr Hsv. unfold receive. rewrite Hh. destruct (feed (h_buffer h) chunk) as [b r].
  destruct r as [lines|e].
  - destruct (set_input_inv s h b lines sv Hh Hsv) as [Hsv1 Hh1].
    split; [|done]. by eapply next_turn_step.
  - destruct (set_input_inv s h b [] sv Hh Hsv) as [Hsv1 Hh1].
    enough (∃ sv2, match e with
              | ProtocolError m => finish s (run_router (send_error s (&"LINE_TOO_LONG") m)
                  (on_conn (set_input b []) s sv)).1
              | _ => finish s (on_conn (set_input b []) s sv) end = finish s sv2 ∧
            server_inv sv2 ∧ (∃ h2, sv_conns sv2 !! s = Some h2 ∧ h_reading h2 = true) ∧
            ∀ d, d ≠ s → w_user (sv_world sv2) !! d = w_user (sv_world sv) !! d)
      as (sv2 & -> & Hsv2 & (h2 & Hh2 & Hr2) & Ho2).
    { destruct (reader_finishes s h2 sv sv2) as [? ?]; [done..|]. by split. }
    destruct e as [m| | | | | | | | | | | | | | | | | | | | |];
      try (eexists; split; [reflexivity|]; split_and!; [done|by eexists|done]).
    set (sv1 := on_conn _ s sv) in *.
    destruct (send_error_routed s (&"LINE_TOO_LONG") m (sv_world sv1)) as [Hro _]; [apply Hsv1|].
    destruct (run_router_inv _ s _ sv1 Hro Hh1 Hr Hsv1) as (Hinv & Hw & h2 & Hh2 & Hr2).
    eexists. split; [reflexivity|]. split_and!; [done|by exists h2|].
    intros d Hd. rewrite Hw. by apply Hro.
Qed.

Lemma handle_line_step s h sv :
  sv_conns sv !! s = Some h → h_reading h = true → server_inv sv →
  reader_step s sv (handle_line s sv) ∧
  (∀ line rest e, h_lines h = line :: rest → (on_line s line (sv_world sv)).2 = Raise e →
     signed_off s sv (handle_line s sv)).
Proof.
  intros Hh Hr Hsv. unfold handle_line. rewrite Hh. destruct (h_lines h) as [|line rest].
  { split; [|done]. split_and!; [done..|]. right. by exists h. }
  destruct (set_input_inv s h (h_buffer h) rest sv Hh Hsv) as [Hsv1 Hh1].
  set (sv1 := on_conn _ s sv) in *.
  pose proof (on_line_routed s line (sv_world sv1) (si_world _ Hsv1)) as Hro.
  destruct (run_router_inv (on_line s line) s _ sv1 Hro Hh1 Hr Hsv1) as (Hinv & Hw & h2 & Hh2 & Hr2).
  assert (∀ d, d ≠ s → w_user (sv_world (run_router (on_line s line) sv1).1) !! d
                       = w_user (sv_world sv) !! d) as Ho
    by (intros d Hd; rewrite Hw; by apply Hro).
  assert ((run_router (on_line s line) sv1).2 = (on_line s line (sv_world sv)).2) as Hres
    by (unfold run_router; cbn; by destruct (on_line s line (sv_world sv))).
  destruct (run_router (on_line s line) sv1) as [sv2 [[]|e]]; cbn [fst snd] in *.
  - split; [by eapply next_turn_step|]. intros l r e [= <- <-]. congruence.
  - destruct (reader_finishes s h2 sv sv2) as [? ?]; [done..|]. by split.
Qed.

Lemma accept_inv sv : server_inv sv → server_inv (accept sv).
Proof.
  intros []. set (s := sv_next sv).
  assert (sv_conns sv !! s = None) as Hn.
  { destruct (sv_conns sv !! s) as [h|] eqn:E; [|done]. exfalso.
    assert (s < sv_next sv) by (apply si_conns0; by eexists). unfold s in *. lia. }
  assert (frames_to s (w_out (sv_world sv)) = []) as Hnone.
  { unfold frames_to. rewrite filter_none; [done|]. apply Forall_forall. intros [d f] Hin Hd.
    cbn in Hd. subst d. apply si_out0 in Hin. unfold s in *. lia. }
  constructor; cbn [accept sv_world sv_conns sv_next]; try done.
  - intros d. fold s. destruct (decide (d = s)) as [->|Hd].
    + rewrite lookup_insert_eq. split; [lia|by eexists].
    + rewrite lookup_insert_ne by done. rewrite si_conns0. unfold s in *. lia.
  - intros d h. fold s. change (offered d (accept sv)) with (frames_to d (w_out (sv_world sv))).
    destruct (decide (d = s)) as [->|Hd].
    + rewrite lookup_insert_eq. intros [= <-]. rewrite Hnone. split.
      * constructor; cbn; try done; [unfold OUTBOX_LIMIT; lia|]. intros _. apply not_elem_of_nil.
      * exists [], []. split_and!; [done|by left|done..].
    + rewrite lookup_insert_ne by done. apply si_conn0.
  - intros d f Hin. specialize (si_out0 d f Hin). lia.
  - intros d Hd. destruct (si_user0 d Hd) as (h & Hh & Hr). exists h. split; [|done].
    rewrite lookup_insert_ne; [done|]. intros <-. fold s in Hh. congruence.
Qed.

Lemma shutdown_conns sv s :
  sv_conns (shutdown sv) !! s = sv_conns sv !! s ∨
  sv_conns (shutdown sv) !! s = close <$> sv_conns sv !! s.
Proof.
  cbn [shutdown sv_conns]. set (P := λ (m : gmap sid Handler) (_ : gset sid),
    m !! s = sv_conns sv !! s ∨ m !! s = close <$> sv_conns sv !! s).
  apply (set_fold_ind_L P); unfold P; [by left|]. intros d X m _ IH.
  destruct (decide (s = d)) as [->|Hd]; [|by rewrite lookup_alter_ne].
  rewrite lookup_alter_eq. right. destruct IH as [->| ->]; [done|].
  destruct (sv_conns sv !! d) as [h|]; [|done]. cbn. f_equal.
  destruct (close_spec (close h)) as (_ & _ & _ & _ & _ & Hid & _). apply Hid.
  by destruct (close_spec h) as (? & _).
Qed.

Lemma shutdown_inv sv : server_inv sv → server_inv (shutdown sv).
Proof.
  intros []. pose proof (shutdown_conns sv) as Hc.
  constructor; try done.
  - intros s. change (sv_next (shutdown sv)) with (sv_next sv). rewrite <-si_conns0.
    destruct (Hc s) as [->| ->]; [done|apply fmap_is_Some].
  - intros s h. destruct (Hc s) as [->| ->]; [apply si_conn0|].
    intros (h0 & E & ->)%fmap_Some. destruct (si_conn0 s h0 E).
    split; [by apply close_ok|by apply close_carried].
  - intros s Hs. destruct (si_user0 s Hs) as (h & Hh & Hr).
    destruct (Hc s) as [->| ->]; [by exists h|]. exists (close h). rewrite Hh.
    split; [done|]. by destruct (close_spec h) as (_ & -> & _).
Qed.

Lemma sstep_inv sv sv' : sstep sv sv' → server_inv sv → server_inv sv'.
Proof.
  intros [_|s chunk h Hh Hr _ _ _ _|s h Hh Hr _|s h Hh Hr _|s how h Hh Hw _|] Hsv.
  - by apply accept_inv.
  - by eapply receive_step.
  - by eapply handle_line_step.
  - by eapply finish_inv.
  - apply on_conn_inv; [|done]. intros h0 Hh0 Hok Hc. assert (h0 = h) as -> by congruence.
    split_and!; [by apply write_ok|by apply write_carried|]. intros _. apply write_reading.
  - by apply shutdown_inv.
Qed.

Lemma bound_inv w : winv w → w_out w = [] → w_user w = ∅ → server_inv (bound w).
Proof.
  intros Hw Ho Hu. constructor; cbn [bound sv_world sv_conns sv_next]; [done|..].
  - intros s. rewrite lookup_empty. split; [by intros []|lia].
  - by intros s h ?%lookup_empty_Some.
  - intros s f. rewrite Ho. by intros ?%not_elem_of_nil.
  - intros s. rewrite Hu, lookup_empty. by intros [].
Qed.

Lemma ssteps_inv sv sv' : rtc sstep sv sv' → server_inv sv → server_inv sv'.
Proof. induction 1; eauto using sstep_inv. Qed.

Lemma reachable_server_inv r b c sv :
  ok r → view r = ∅ → rtc sstep (bound (fresh r b c)) sv → server_inv sv.
Proof. intros Hr Hv Hs. eapply ssteps_inv; [done|]. apply bound_inv; [by apply fresh_inv|done..]. Qed.

(** ** What each step does to one connection *)

Lemma shutdown_threads s sv : threads_of s (shutdown sv) = threads_of s sv.
Proof.
  unfold threads_of. destruct (shutdown_conns sv s) as [->| ->]; [done|].
  destruct (sv_conns sv !! s); [|done]. cbn. by rewrite close_threads.
Qed.

(** Only the reader of [s] ends the reader of [s], and only its writer writes. *)
Lemma receive_threads d s chunk sv : d ≠ s → threads_of s (receive d chunk sv) = threads_of s sv.
Proof.
  intros Hd. unfold receive. destruct (sv_conns sv !! d) as [h|]; [|done].
  destruct (feed (h_buffer h) chunk) as [b r].
  assert (∀ ls, threads_of s (on_conn (set_input b ls) d sv) = threads_of s sv) as Hin
    by (intros ls; by apply on_conn_threads).
  assert (∀ sv1, threads_of s sv1 = threads_of s sv → threads_of s (finish d sv1) = threads_of s sv) as Hf
    by (intros sv1 <-; by apply finish_other).
  destruct r as [lines|e]; [by rewrite next_turn_threads|].
  destruct e; apply Hf; rewrite ?router_threads; apply Hin.
Qed.

Lemma handle_line_threads d s sv : d ≠ s → threads_of s (handle_line d sv) = threads_of s sv.
Proof.
  intros Hd. unfold handle_line. destruct (sv_conns sv !! d) as [h|]; [|done].
  destruct (h_lines h) as [|line rest]; [done|].
  set (sv1 := on_conn _ d sv).
  assert (threads_of s (run_router (on_line d line) sv1).1 = threads_of s sv) as Ht
    by (rewrite router_threads; by apply on_conn_threads).
  destruct (run_router (on_line d line) sv1) as [sv2 [[]|e]]; cbn [fst] in Ht.
  - by rewrite next_turn_threads.
  - by rewrite finish_other.
Qed.

(** Its own steps leave the writer and the wire alone. *)
Lemma reader_keeps_writer s sv sv' :
  (∃ chunk, sv' = receive s chunk sv) ∨ sv' = handle_line s sv ∨ sv' = hangup s sv →
  (λ t, (t.1.2, t.2)) <$> threads_of s sv' = (λ t, (t.1.2, t.2)) <$> threads_of s sv.
Proof.
  set (wr := λ t : bool * bool * bytes, (t.1.2, t.2)).
  assert (∀ sv1, wr <$> threads_of s sv1 = wr <$> threads_of s sv →
    wr <$> threads_of s (finish s sv1) = wr <$> threads_of s sv) as Hf.
  { intros sv1 <-. rewrite finish_threads. by destruct (threads_of s sv1) as [[[]]|]. }
  assert (∀ sv1, threads_of s sv1 = threads_of s sv →
    wr <$> threads_of s (next_turn s sv1) = wr <$> threads_of s sv) as Hn.
  { intros sv1 E. unfold next_turn. destruct (sv_conns sv1 !! s); [|by rewrite E].
    case_decide; [apply Hf|]; by rewrite E. }
  assert (∀ b ls, threads_of s (on_conn (set_input b ls) s sv) = threads_of s sv) as Hin
    by (intros; by apply on_conn_threads).
  intros [[chunk ->]|[->| ->]]; [..|by apply Hf].
  - unfold receive. destruct (sv_conns sv !! s) as [h|]; [|done].
    destruct (feed (h_buffer h) chunk) as [b [lines|e]]; [by apply Hn|].
    destruct e; apply Hf; by rewrite ?router_threads, Hin.
  - unfold handle_line. destruct (sv_conns sv !! s) as [h|]; [|done].
    destruct (h_lines h) as [|line rest]; [done|].
    pose proof (router_threads (on_line s line) s (on_conn (set_input (h_buffer h) rest) s sv)) as Ht.
    destruct (run_router _ _) as [sv2 [[]|e]]; cbn [fst] in Ht; rewrite Hin in Ht; [by apply Hn|].
    apply Hf. by rewrite Ht.
Qed.

(** After a writer is done nothing is written any more. *)
Lemma sstep_wire sv sv' s h :
  sstep sv sv' → server_inv sv → sv_conns sv !! s = Some h → h_writing h = false →
  ∃ h', sv_conns sv' !! s = Some h' ∧ h_writing h' = false ∧ h_wire h' = h_wire h.
Proof.
  intros Hstep Hsv Hh Hw.
  enough ((λ t : bool * bool * bytes, (t.1.2, t.2)) <$> threads_of s sv' = Some (false, h_wire h)) as Ht.
  { unfold threads_of in Ht. destruct (sv_conns sv' !! s) as [h'|]; [|done]. injection Ht as ? ?. by exists h'. }
  assert ((λ t : bool * bool * bytes, (t.1.2, t.2)) <$> threads_of s sv = Some (false, h_wire h)) as Hbefore
    by (unfold threads_of; rewrite Hh; cbn; by rewrite Hw).
  rewrite <-Hbefore. destruct Hstep as [_|d chunk hd _ _ _ _ _ _|d hd _ _ _|d hd _ _ _|d how hd Hd Hwd _|].
  - f_equal. unfold threads_of. cbn. rewrite lookup_insert_ne; [done|].
    assert (s < sv_next sv) by (apply (si_conns sv Hsv); by eexists). lia.
  - destruct (decide (d = s)) as [->|Hd]; [apply reader_keeps_writer; eauto|by rewrite receive_threads].
  - destruct (decide (d = s)) as [->|Hd]; [apply reader_keeps_writer; eauto|by rewrite handle_line_threads].
  - destruct (decide (d = s)) as [->|Hd]; [apply reader_keeps_writer; eauto|].
    unfold hangup. by rewrite finish_other.
  - f_equal. apply on_conn_threads. intros ->. congruence.
  - by rewrite shutdown_threads.
Qed.

(** A reader that runs before a step and not after it was ended by its own step. *)
Lemma sstep_reader sv sv' s h h' :
  sstep sv sv' → server_inv sv → sv_conns sv !! s = Some h → h_reading h = true →
  sv_conns sv' !! s = Some h' → h_reading h' = false → reader_step s sv sv'.
Proof.
  intros Hstep Hsv Hh Hr Hh' Hr'.
  assert (threads_of s sv' ≠ threads_of s sv) as Hne
    by (unfold threads_of; rewrite Hh, Hh'; cbn; intros [= E _ _]; congruence).
  destruct Hstep as [_|d chunk hd Hd Hrd _ _ _ _|d hd Hd Hrd _|d hd Hd Hrd _|d how hd Hd Hwd _|].
  - destruct Hne. unfold threads_of. cbn. rewrite lookup_insert_ne; [done|].
    assert (s < sv_next sv) by (apply (si_conns sv Hsv); by eexists). lia.
  - destruct (decide (d = s)) as [->|]; [by eapply receive_step|]. by destruct Hne; apply receive_threads.
  - destruct (decide (d = s)) as [->|]; [by eapply handle_line_step|]. by destruct Hne; apply handle_line_threads.
  - destruct (decide (d = s)) as [->|]; [by eapply reader_finishes|]. destruct Hne.
    unfold hangup. by apply finish_other.
  - exfalso. cbn in Hh'. destruct (decide (d = s)) as [->|].
    + rewrite lookup_alter_eq, Hh in Hh'. injection Hh' as <-. rewrite write_reading in Hr'. congruence.
    + rewrite lookup_alter_ne in Hh' by done. congruence.
  - by destruct Hne; apply shutdown_threads.
Qed.

(** C8. What a client receives is what was sent to it, in order.  In every state a
    server can reach, whatever arrives, however the threads interleave (between
    the lines of one chunk too) and wherever a [sendall] fails, the queue of a
    connection never exceeds its limit; the bytes on its socket are the
    encodings of a prefix of the frames the router has sent to it (a frame that
    does not encode is skipped), then perhaps a part of the encoding of the next
    one, which is all that a failed [sendall] can have left and after which the
    writer is done and the connection closed; while the connection is not closed,
    nothing is lost: those frames and the queue together are all of them; and
    once the writer is done, nothing more is ever written. *)
Theorem connection_is_a_queue r b c sv s h
    (Hr : ok r) (Hv : view r = ∅) (Hs : rtc sstep (bound (fresh r b c)) sv)
    (Hh : sv_conns sv !! s = Some h) :
  length (h_outbox h) ≤ OUTBOX_LIMIT ∧
  (∃ written part, h_wire h = wire_of written ++ part ∧ written `prefix_of` offered s sv ∧
    (part = [] ∨ (h_writing h = false ∧ h_closed h = true ∧
       ∃ f wire, written ++ [f] `prefix_of` offered s sv ∧ encode f = Ok wire ∧ part `prefix_of` wire)) ∧
    (h_closed h = false → part = [] ∧ written ++ waiting h = offered s sv)) ∧
  (h_writing h = false → ∀ sv', rtc sstep sv sv' →
     ∃ h', sv_conns sv' !! s = Some h' ∧ h_wire h' = h_wire h).
Proof.
  pose proof (reachable_server_inv r b c sv Hr Hv Hs) as Hsv.
  destruct (si_conn sv Hsv s h Hh) as [Hok (w & part & Hw & Hb & Hp & _ & Hc)].
  split_and!; [apply Hok|exists w, part; split_and!; [done..|]|].
  - intros Hcl. split; [|by apply Hc]. destruct Hb as [?|(_ & ? & _)]; [done|congruence].
  - intros Hdone sv' Hs'. clear Hs Hok Hw Hb Hp Hc. revert h Hh Hdone Hsv.
    induction Hs' as [sv|sv1 sv2 sv3 Hstep _ IH]; intros h Hh Hdone Hsv; [by exists h|].
    destruct (sstep_wire _ _ s h Hstep Hsv Hh Hdone) as (h2 & Hh2 & Hd2 & Hw2).
    destruct (IH h2 Hh2 Hd2 (sstep_inv _ _ Hstep Hsv)) as (h' & ? & ?). exists h'. by split; [|congruence].
Qed.

(** What is left of a connection whose reader has ended. *)
Definition logged_out (s : sid) (how : nat → sending) sv sv' : Prop :=
  (∀ u, Sessions.get (w_sessions (sv_world sv')) u ≠ Some s) ∧
  (∀ u d, d ≠ s → Sessions.get (w_sessions (sv_world sv')) u = Some d ↔
                  Sessions.get (w_sessions (sv_world sv)) u = Some d) ∧
  ∃ h', sv_conns sv' !! s = Some h' ∧ h_closed h' = true ∧ h_reading h' = false ∧
    (Exists (λ x, ends_writer x = true) (h_outbox h') →
     h_writing (write_turns how (length (h_outbox h')) h') = false).

Lemma signed_off_logged_out s how sv sv' :
  server_inv sv → reader_step s sv sv' → signed_off s sv sv' → logged_out s how sv sv'.
Proof.
  intros Hsv (Hsv' & Hoth & _) (Hnone & h' & Hh' & Hc' & Hr').
  pose proof (i_agree _ (si_world _ Hsv)) as Ha. pose proof (i_agree _ (si_world _ Hsv')) as Ha'.
  unfold logged_out. split_and!.
  - intros u Hu%Ha'. congruence.
  - intros u d Hd. by rewrite Ha', Hoth, Ha.
  - exists h'. split_and!; [done..|]. intros He. apply writer_ends; [|done..].
    by destruct (si_conn _ Hsv' s h' Hh').
Qed.

(** C20. Every connection ends by logging out.  In every state a server can reach, a
    name is online only through a connection whose reader is running.  Whatever
    step ends a running reader leaves that connection with no name, closed and
    its reader done, changes nobody else's login, and its writer then stops
    within as many turns as frames are queued, if the sentinel or any frame that
    can be encoded is among them.  And a reader does end, that way, when the peer
    hangs up or [recv] fails, when a line is too long to be read, and when an
    exception other than a ProtocolError escapes from the decoding or the handling
    of a line. *)
Theorem connection_ends_logged_out r b c sv s h (how : nat → sending)
    (Hr : ok r) (Hv : view r = ∅) (Hs : rtc sstep (bound (fresh r b c)) sv)
    (Hh : sv_conns sv !! s = Some h) (Hread : h_reading h = true) :
  (∀ u d, Sessions.get (w_sessions (sv_world sv)) u = Some d →
     ∃ hd, sv_conns sv !! d = Some hd ∧ h_reading hd = true) ∧
  (∀ sv' h', sstep sv sv' → sv_conns sv' !! s = Some h' → h_reading h' = false →
     logged_out s how sv sv') ∧
  logged_out s how sv (hangup s sv) ∧
  (∀ chunk b' e, feed (h_buffer h) chunk = (b', Raise e) → logged_out s how sv (receive s chunk sv)) ∧
  (∀ line rest e, h_lines h = line :: rest → (on_line s line (sv_world sv)).2 = Raise e →
     logged_out s how sv (handle_line s sv)).
Proof.
  pose proof (reachable_server_inv r b c sv Hr Hv Hs) as Hsv.
  destruct (reader_finishes s h sv sv) as [Hfs Hfo]; [done..|].
  split_and!.
  - intros u d Hu%(i_agree _ (si_world _ Hsv)). apply (si_user sv Hsv). by eexists.
  - intros sv' h' Hstep Hh' Hr'. pose proof (sstep_reader _ _ s h h' Hstep Hsv Hh Hread Hh' Hr') as Hrs.
    apply signed_off_logged_out; [done..|]. destruct Hrs as (_ & _ & [?|(h2 & ? & ?)]); [done|congruence].
  - by apply signed_off_logged_out.
  - intros chunk b' e He. destruct (receive_step s chunk h sv Hh Hread Hsv) as [Hrs Hso].
    apply signed_off_logged_out; eauto.
  - intros line rest e Hl He. destruct (handle_line_step s h sv Hh Hread Hsv) as [Hrs Hso].
    apply signed_off_logged_out; eauto.
Qed.
End inv.

(** ** A client that types prose at the protocol port *)

Definition prose : bytes := &"hello?" ++ [10%N].

Definition listening : server SqliteRooms.t := bound (fresh SqliteRooms.empty true true).

(** The line has been answered, and the peer is gone when the answer is half out. *)
Definition typed_prose : server SqliteRooms.t :=
  write 0 (Broken 5) (handle_line 0 (receive 0 prose (accept listening))).

Definition prose_handler : Handler := default new_handler (sv_conns typed_prose !! 0).

Lemma conn_found {R} (sv : server R) :
  is_Some (sv_conns sv !! 0) → sv_conns sv !! 0 = Some (default new_handler (sv_conns sv !! 0)).
Proof. by intros [h ->]. Qed.

Lemma typed_prose_reachable : rtc sstep listening typed_prose.
Proof.
  apply (rtc_l _ _ (accept listening)); [by constructor|].
  set (sv1 := receive 0 prose (accept listening)).
  apply (rtc_l _ _ sv1).
  { apply (s_receive (accept listening) 0 prose new_handler); [done..|].
    apply Nat.leb_le. vm_compute. reflexivity. }
  apply (rtc_l _ _ (handle_line 0 sv1)).
  { eapply (s_line sv1 0 (default new_handler (sv_conns sv1 !! 0)));
      [apply conn_found; vm_compute; by eexists|vm_compute; reflexivity|vm_compute; discriminate]. }
  apply (rtc_l _ _ typed_prose); [|reflexivity].
  eapply (s_write _ 0 (Broken 5) (default new_handler (sv_conns (handle_line 0 sv1) !! 0)));
    [apply conn_found; vm_compute; by eexists|vm_compute; reflexivity|vm_compute; discriminate].
Qed.

Lemma prose_handler_found : sv_conns typed_prose !! 0 = Some prose_handler.
Proof. apply conn_found. vm_compute. by eexists. Qed.

Lemma connection_is_a_queue_witness :
  length (h_outbox prose_handler) ≤ OUTBOX_LIMIT ∧ length (h_wire prose_handler) = 5 ∧
  ∀ sv', rtc sstep typed_prose sv' →
    ∃ h', sv_conns sv' !! 0 = Some h' ∧ h_wire h' = h_wire prose_handler.
Proof.
  destruct (connection_is_a_queue SqliteRooms.empty true true typed_prose 0 prose_handler
    empty_rooms_ok empty_rooms_view typed_prose_reachable prose_handler_found) as (H1 & _ & H2).
  split; [exact H1|]. split; [vm_compute; reflexivity|]. apply H2. vm_compute. reflexivity.
Defined.

Lemma connection_ends_logged_out_witness :
  h_reading prose_handler = true ∧
  ∃ h', sv_conns (hangup 0 typed_prose) !! 0 = Some h' ∧ h_closed h' = true ∧ h_reading h' = false.
Proof.
  assert (h_reading prose_handler = true) as Hr by (vm_compute; reflexivity).
  split; [exact Hr|].
  destruct (connection_ends_logged_out SqliteRooms.empty true true typed_prose 0 prose_handler
    (λ _, Through) empty_rooms_ok empty_rooms_view typed_prose_reachable prose_handler_found Hr)
    as (_ & _ & (_ & _ & h' & H1 & H2 & H3 & _) & _).
  exists h'. split; [exact H1|]. split; [exact H2|exact H3].
Defined.
