(* ===== verification/Connection.v ===== *)
(** * ServerConnection

    [im/client/net/connection.py]: the state machine, the bounded outbox, the
    one slot for the reply of a handshake, the heartbeat and the two loops.  A
    call that blocks on another thread is cut where it blocks: [_request] into
    what it does before and after the wait.  What the network does (a socket
    that opens or not, a [sendall] that goes through or not) is an argument. *)

From S2P Require Import Prelude PyStr PyDict Json Frames Codec Wire ConnState Uplink.

Definition OUTBOX_LIMIT : nat := 100.
Definition MISSED_PONGS : nat := 2.

Inductive item := Item (f : Frame) | _STOP.

Record connection := mkConnection {
  cn_username : option pystr;
  cn_machine : Machine;
  cn_outbox : list item;
  cn_closing : bool;
  cn_await : list MessageType;      (* _await_types *)
  cn_reply : option Frame;
  cn_ready : bool;                  (* _reply_ready *)
  cn_heartbeat : bool;              (* the heartbeat thread is in its loop *)
  cn_unanswered : nat;
  cn_buffer : LineBuffer;
  cn_reading : bool;
  cn_writing : bool;
  cn_open : bool;                   (* self._sock is there and not closed *)
  cn_wire : bytes;                  (* what sendall has written *)
  cn_heard : list Frame;            (* the calls of on_frame *)
}.

(** [ServerConnection(...)] with its listeners attached. *)
Definition new_connection : connection :=
  mkConnection None (new_machine true) [] false [] None false false 0 new_buffer false false false
    [] [].

(** ** Assignments to one attribute *)
Definition set_username x c := mkConnection x (cn_machine c) (cn_outbox c) (cn_closing c)
  (cn_await c) (cn_reply c) (cn_ready c) (cn_heartbeat c) (cn_unanswered c) (cn_buffer c)
  (cn_reading c) (cn_writing c) (cn_open c) (cn_wire c) (cn_heard c).
Definition set_machine x c := mkConnection (cn_username c) x (cn_outbox c) (cn_closing c)
  (cn_await c) (cn_reply c) (cn_ready c) (cn_heartbeat c) (cn_unanswered c) (cn_buffer c)
  (cn_reading c) (cn_writing c) (cn_open c) (cn_wire c) (cn_heard c).
Definition set_outbox x c := mkConnection (cn_username c) (cn_machine c) x (cn_closing c)
  (cn_await c) (cn_reply c) (cn_ready c) (cn_heartbeat c) (cn_unanswered c) (cn_buffer c)
  (cn_reading c) (cn_writing c) (cn_open c) (cn_wire c) (cn_heard c).
Definition set_closing x c := mkConnection (cn_username c) (cn_machine c) (cn_outbox c) x
  (cn_await c) (cn_reply c) (cn_ready c) (cn_heartbeat c) (cn_unanswered c) (cn_buffer c)
  (cn_reading c) (cn_writing c) (cn_open c) (cn_wire c) (cn_heard c).
(** The three attributes of the reply slot. *)
Definition set_slot await reply ready c := mkConnection (cn_username c) (cn_machine c)
  (cn_outbox c) (cn_closing c) await reply ready (cn_heartbeat c) (cn_unanswered c) (cn_buffer c)
  (cn_reading c) (cn_writing c) (cn_open c) (cn_wire c) (cn_heard c).
Definition set_heartbeat on unanswered c := mkConnection (cn_username c) (cn_machine c)
  (cn_outbox c) (cn_closing c) (cn_await c) (cn_reply c) (cn_ready c) on unanswered (cn_buffer c)
  (cn_reading c) (cn_writing c) (cn_open c) (cn_wire c) (cn_heard c).
Definition set_buffer x c := mkConnection (cn_username c) (cn_machine c) (cn_outbox c)
  (cn_closing c) (cn_await c) (cn_reply c) (cn_ready c) (cn_heartbeat c) (cn_unanswered c) x
  (cn_reading c) (cn_writing c) (cn_open c) (cn_wire c) (cn_heard c).
Definition set_threads reading writing open c := mkConnection (cn_username c) (cn_machine c)
  (cn_outbox c) (cn_closing c) (cn_await c) (cn_reply c) (cn_ready c) (cn_heartbeat c)
  (cn_unanswered c) (cn_buffer c) reading writing open (cn_wire c) (cn_heard c).
Definition set_wire x c := mkConnection (cn_username c) (cn_machine c) (cn_outbox c)
  (cn_closing c) (cn_await c) (cn_reply c) (cn_ready c) (cn_heartbeat c) (cn_unanswered c)
  (cn_buffer c) (cn_reading c) (cn_writing c) (cn_open c) x (cn_heard c).
Definition set_heard x c := mkConnection (cn_username c) (cn_machine c) (cn_outbox c)
  (cn_closing c) (cn_await c) (cn_reply c) (cn_ready c) (cn_heartbeat c) (cn_unanswered c)
  (cn_buffer c) (cn_reading c) (cn_writing c) (cn_open c) (cn_wire c) x.

Definition state (c : connection) : ConnectionState := sm_state (cn_machine c).

Definition can_send (c : connection) : bool := ConnState.can_send (cn_machine c).

(** [self._machine.transition(event)]. *)
Definition transition (e : Event) : M connection ConnectionState := λ c,
  let '(m, r) := ConnState.transition e (cn_machine c) in (set_machine m c, r).

(** ** Lifecycle *)

(** What dialling comes to. *)
Inductive dialled := Unreachable | TlsFailed | Reached.

#[export] Instance dialled_eq_dec : EqDecision dialled.
Proof. solve_decision. Defined.

Definition connect (how : dialled) : M connection unit :=
  transition CONNECT;;
  match how with
  | Unreachable | TlsFailed => transition SOCKET_FAILED;; raise ConnectionError
  | Reached =>
    modify (set_threads true true true);;
    transition SOCKET_READY;;
    mret tt
  end.

(** [close()], the join of the writer left to the writer's own steps. *)
Definition close : M connection unit :=
  c ← get;
  if cn_closing c then mret tt
  else
    modify (set_closing true);;
    (if is_closed (cn_machine c) then mret tt else transition CLOSE;; mret tt);;
    modify (λ c, set_slot (cn_await c) (cn_reply c) true c);;
    modify (λ c, if decide (length (cn_outbox c) < OUTBOX_LIMIT)
                 then set_outbox (cn_outbox c ++ [_STOP]) c else c);;
    modify (λ c, set_threads (cn_reading c) (cn_writing c) false c).

(** ** The handshake *)

Definition _require (s : ConnectionState) : M connection unit :=
  c ← get; if decide (state c = s) then mret tt else raise NotConnected.

(** [_request] up to the wait. *)
Definition _request_begin (frame : Frame) (expecting : list MessageType) : M connection unit :=
  modify (set_slot expecting None false);;
  c ← get;
  if decide (length (cn_outbox c) < OUTBOX_LIMIT)
  then modify (set_outbox (cn_outbox c ++ [Item frame]))
  else modify (λ c, set_slot [] (cn_reply c) (cn_ready c) c);; raise NotConnected.

(** [_request] once the wait is over, because the event was set or because the
    timeout has passed. *)
Definition _request_end : M connection Frame :=
  c ← get;
  if cn_ready c then
    modify (set_slot [] None (cn_ready c));;
    match cn_reply c with
    | Some reply => mret reply
    | None => raise NotConnected
    end
  else modify (λ c, set_slot [] (cn_reply c) (cn_ready c) c);; raise TimeoutError.

Definition register_begin (frame : Frame) : M connection unit :=
  _require AUTHENTICATING;; _request_begin frame [OK; ERROR].

Definition register_end : M connection Frame := _request_end.

Definition login_begin (frame : Frame) : M connection unit :=
  _require AUTHENTICATING;; _request_begin frame [Frames.LOGIN_OK; ERROR].

Definition _start_heartbeat : M connection unit :=
  c ← get; if cn_heartbeat c then mret tt else modify (set_heartbeat true 0).

Definition login_end (username : pystr) : M connection Frame :=
  reply ← _request_end;
  (if decide (f_type reply = Frames.LOGIN_OK) then
     modify (set_username (Some username));;
     transition ConnState.LOGIN_OK;;
     _start_heartbeat
   else transition LOGIN_REFUSED;; mret tt);;
  mret reply.

(** ** The writer *)

(** One turn of [_write_loop], when the queue is not empty. *)
Definition write_turn `{Runtime} (how : sending) (c : connection) : connection :=
  match cn_outbox c with
  | [] => c
  | x :: rest =>
    let c := set_outbox rest c in
    match x with
    | _STOP => set_threads (cn_reading c) false (cn_open c) c
    | Item frame =>
      match encode frame with
      | Raise _ => c
      | Ok wire =>
        let '(part, ok) := sendall how (cn_open c) wire in
        let c := set_wire (cn_wire c ++ part) c in
        if (ok : bool) then c else set_threads (cn_reading c) false (cn_open c) c
      end
    end
  end.

(** ** Sending *)

(** [send]; [meanwhile] is what happens to a full queue during OUTBOX_WAIT: the
    writer takes a frame ([Some how]) or it does not. *)
Definition send `{Runtime} (meanwhile : option sending) (frame : Frame) : M connection unit :=
  c ← get;
  if negb (can_send c) then raise NotConnected
  else if decide (length (cn_outbox c) < OUTBOX_LIMIT)
  then modify (set_outbox (cn_outbox c ++ [Item frame]))
  else match meanwhile with
       | Some how =>
         modify (write_turn how);;
         modify (λ c, set_outbox (cn_outbox c ++ [Item frame]) c)
       | None => close;; raise NotConnected
       end.

(** ** The reader *)

Definition _on_connection_lost : M connection unit :=
  c ← get;
  if cn_closing c || is_closed (cn_machine c) then mret tt
  else
    (if allows (cn_machine c) CONNECTION_LOST then transition CONNECTION_LOST;; mret tt
     else mret tt);;
    modify (λ c, set_slot (cn_await c) (cn_reply c) true c).

Definition _deliver (frame : Frame) : M connection unit :=
  (if decide (f_type frame = PONG) then modify (λ c, set_heartbeat (cn_heartbeat c) 0 c)
   else mret tt);;
  c ← get;
  if decide (f_type frame ∈ cn_await c) then modify (set_slot [] (Some frame) true)
  else modify (set_heard (cn_heard c ++ [frame])).

(** One line: decoded and delivered, skipped if it is no frame; any other
    exception ends the thread.  [now] and [fresh] as in [decode]. *)
Definition on_line `{Runtime} (now : Z) (fresh : pystr) (line : pystr) : M connection unit :=
  match decode now fresh line with
  | Ok frame => _deliver frame
  | Raise (ProtocolError _) => mret tt
  | Raise e => raise e
  end.

(** The [finally] of the read loop. *)
Definition end_reader : M connection unit :=
  modify (λ c, set_threads false (cn_writing c) (cn_open c) c);; _on_connection_lost.

(** What [recv] returned, up to the next test of the loop. *)
Definition receive `{Runtime} (now : Z) (fresh : pystr) (chunk : bytes) (c : connection)
    : connection :=
  let '(b, r) := feed (cn_buffer c) chunk in
  let c := set_buffer b c in
  match r with
  | Raise _ => (end_reader c).1
  | Ok lines =>
    match forM lines (on_line now fresh) c with
    | (c, Raise _) => (end_reader c).1
    | (c, Ok _) => if cn_closing c then (end_reader c).1 else c
    end
  end.

(** ** The heartbeat *)

Definition stop_heartbeat (c : connection) : connection := set_heartbeat false (cn_unanswered c) c.

(** One turn of [_heartbeat_loop], the interval having passed. *)
Definition heartbeat_turn `{Runtime} (meanwhile : option sending) (ping : Frame) (c : connection)
    : connection :=
  if cn_closing c || negb (can_send c) then stop_heartbeat c
  else if decide (MISSED_PONGS ≤ cn_unanswered c) then
    stop_heartbeat (_on_connection_lost c).1
  else
    let c := set_heartbeat (cn_heartbeat c) (S (cn_unanswered c)) c in
    match send meanwhile ping c with
    | (c, Ok _) => c
    | (c, Raise NotConnected) => stop_heartbeat c
    | (c, Raise _) => c
    end.
