(* ===== verification/Session.v ===== *)
(** * Session

    [im/client/net/session.py]: one user kept logged in across connections.
    The supervisor thread is a function of one turn of its loop; what the
    network does during an attempt is an argument ([attempt]). *)

From S2P Require Import Prelude PyStr PyDict Json Frames Codec Wire ConnState Backoff Uplink Connection.
From Stdlib Require Import QArith.

(** What arrives on a connection while [login] waits for its answer. *)
Inductive arrival := Delivered (frame : Frame) | Lost.

(** One attempt to log in, as the network lets it go: the dialling, and what
    arrives before [login] stops waiting. *)
Record attempt := mkAttempt { at_dial : dialled; at_arrivals : list arrival }.

Record session := mkSession {
  ss_username : pystr;
  ss_connection : option connection;
  ss_backoff : Backoff;
  ss_stopped : bool;
  ss_supervisor : option bool;  (* the thread, once started, and whether it still runs *)
  ss_reconnects : nat;
  ss_gone : list connection;    (* those it built and holds no more, as it left them *)
}.

(** The supervisor thread is in its loop. *)
Definition ss_supervised (s : session) : bool := default false (ss_supervisor s).

Definition new_session (username : pystr) (backoff : Backoff) : session :=
  mkSession username None backoff false None 0 [].

Definition set_connection x s := mkSession (ss_username s) x (ss_backoff s) (ss_stopped s)
  (ss_supervisor s) (ss_reconnects s) (ss_gone s).
Definition set_backoff x s := mkSession (ss_username s) (ss_connection s) x (ss_stopped s)
  (ss_supervisor s) (ss_reconnects s) (ss_gone s).
Definition set_stopped x s := mkSession (ss_username s) (ss_connection s) (ss_backoff s) x
  (ss_supervisor s) (ss_reconnects s) (ss_gone s).
Definition set_supervised x s := mkSession (ss_username s) (ss_connection s) (ss_backoff s)
  (ss_stopped s) (Some x) (ss_reconnects s) (ss_gone s).
Definition set_reconnects x s := mkSession (ss_username s) (ss_connection s) (ss_backoff s)
  (ss_stopped s) (ss_supervisor s) x (ss_gone s).

(** A connection is out of the session's hands, in the state it is left in. *)
Definition let_go (c : connection) s := mkSession (ss_username s) (ss_connection s) (ss_backoff s)
  (ss_stopped s) (ss_supervisor s) (ss_reconnects s) (ss_gone s ++ [c]).

(** What is held is taken out, and closed.  ([close] raises nothing:
    [SessionFacts.close_total].) *)
Definition drop_connection (s : session) : session :=
  match ss_connection s with
  | Some c => let_go (close c).1 (set_connection None s)
  | None => s
  end.

Definition arrive (a : arrival) : M connection unit :=
  match a with Delivered frame => _deliver frame | Lost => end_reader end.

(** [connection.login(username, pass_hash)] with its wait filled in. *)
Definition login (username : pystr) (request : Frame) (arrivals : list arrival)
    : M connection Frame :=
  login_begin request;; forM arrivals arrive;; login_end username.

Definition register (request : Frame) (arrivals : list arrival) : M connection Frame :=
  register_begin request;; forM arrivals arrive;; register_end.

(** ** Lifecycle *)

Definition is_error (reply : Frame) : bool := bool_decide (f_type reply = ERROR).

Definition error_code (reply : Frame) : json := jget (f_data reply) (&"code").

Definition _start_supervisor (s : session) : session :=
  match ss_supervisor s with Some _ => s | None => set_supervised true s end.

(** [start(register)]: [reg] is the REGISTER request and what arrives for it.  A
    refusal closes the connection; what is raised leaves it as it is. *)
Definition start (reg : option (Frame * list arrival)) (request : Frame) (a : attempt)
    : M session Frame := λ s,
  match (connect (at_dial a);;
         refused ← match reg with
           | None => mret None
           | Some (r, arrivals) =>
             reply ← register r arrivals;
             mret (if is_error reply && negb (bool_decide (as_str (error_code reply)
                       = Some (&"USER_EXISTS"))) then Some reply else None)
           end;
         match refused with
         | Some reply => close;; mret (reply, false)
         | None =>
           reply ← login (ss_username s) request (at_arrivals a);
           if is_error reply then close;; mret (reply, false) else mret (reply, true)
         end) new_connection with
  | (c, Raise e) => (let_go c s, Raise e)
  | (c, Ok (reply, false)) => (let_go c s, Ok reply)
  | (c, Ok (reply, true)) =>
    (_start_supervisor (set_backoff (reset (ss_backoff s)) (set_connection (Some c) s)), Ok reply)
  end.

Definition close_session (s : session) : session := drop_connection (set_stopped true s).

Definition session_state (s : session) : ConnectionState :=
  match ss_connection s with Some c => state c | None => DISCONNECTED end.

Definition session_can_send (s : session) : bool :=
  match ss_connection s with Some c => can_send c | None => false end.

(** ** The supervisor *)

(** [except (ConnectionError, TimeoutError, OSError)]: nothing else is caught. *)
Definition caught (e : exn) : bool :=
  match e with ConnectionError | TimeoutError | OSError => true | _ => false end.

(** Building a connection, dialling and logging in. *)
Definition dial_and_login (user : pystr) (request : Frame) (a : attempt) : connection * res Frame :=
  (connect (at_dial a);; login user request (at_arrivals a)) new_connection.

(** [_reconnect] from where the attempt is over. *)
Definition _reconnect_end (attempted : connection * res Frame) : M session unit := λ s,
  match attempted with
  | (fresh, Raise e) =>
    if caught e then (let_go (close fresh).1 s, Ok tt) else (let_go fresh s, Raise e)
  | (fresh, Ok reply) =>
    if is_error reply then (let_go (close fresh).1 s, Ok tt)
    else (set_backoff (reset (ss_backoff s))
            (set_reconnects (S (ss_reconnects s)) (set_connection (Some fresh) s)), Ok tt)
  end.

Definition _reconnect (request : Frame) (a : attempt) : M session unit := λ s,
  let s := drop_connection s in
  _reconnect_end (dial_and_login (ss_username s) request a) s.

(** What one turn of [_watch] comes to. *)
Inductive turn := Healthy | Busy | Waited (delay : Q) | Ended.

Definition _watch_turn (request : Frame) (random : Q) (stopped_meanwhile : bool) (a : attempt)
    : M session turn :=
  s ← get;
  if ss_stopped s then modify (set_supervised false);; mret Ended
  else
    let idle := match ss_connection s with
                | Some c => if can_send c then Some Healthy
                            else if decide (state c = CONNECTING ∨ state c = AUTHENTICATING)
                                 then Some Busy else None
                | None => None
                end in
    match idle with
    | Some t => mret t
    | None =>
      let '(b, r) := next_delay random (ss_backoff s) in
      modify (set_backoff b);;
      delay ← lift_res r;
      if (stopped_meanwhile : bool) then modify (set_supervised false);; mret Ended
      else _reconnect request a;; mret (Waited delay)
    end.

(** An exception that escapes [_watch] ends the thread, and nothing starts it
    again. *)
Definition watch_turn (request : Frame) (random : Q) (stopped_meanwhile : bool) (a : attempt)
    (s : session) : session :=
  if ss_supervised s then
    match _watch_turn request random stopped_meanwhile a s with
    | (s, Raise _) => set_supervised false s
    | (s, Ok _) => s
    end
  else s.

(** ** Sending *)

Definition _live (s : session) : res connection :=
  match ss_connection s with
  | Some c => if can_send c then Ok c else Raise NotConnected
  | None => Raise NotConnected
  end.

Definition session_send `{Runtime} (meanwhile : option sending) (frame : Frame) : M session unit :=
  λ s, match _live s with
       | Raise e => (s, Raise e)
       | Ok c => let '(c, r) := send meanwhile frame c in (set_connection (Some c) s, r)
       end.
