(* ===== verification/SessionFacts.v ===== *)
(** * What the client's transport promises

    A silent connection is noticed; a session comes back when the server does;
    and two ways in which the supervisor ends for good. *)

From S2P Require Import Prelude PyStr PyDict Json Frames Codec Wire ConnState Backoff Uplink Connection.
From S2P Require Import Session Wp.
From Stdlib Require Import QArith.

#[local] Close Scope Q_scope.

(** ** The heartbeat *)

Section heartbeat.
Context `{Runtime}.

(** What happens on an open connection, as far as the heartbeat cares. *)
Inductive beat :=
| Tick (meanwhile : option sending) (ping : Frame)  (* the interval passes *)
| Heard (frame : Frame)                             (* the reader delivers a frame *)
| Wrote (how : sending).                            (* the writer takes a frame *)

Definition run_beat (c : connection) (b : beat) : connection :=
  match b with
  | Tick meanwhile ping => if cn_heartbeat c then heartbeat_turn meanwhile ping c else c
  | Heard frame => (_deliver frame c).1
  | Wrote how => write_turn how c
  end.

Definition run_beats (c : connection) (bs : list beat) : connection := foldl run_beat c bs.

Definition is_tick (b : beat) : bool := match b with Tick _ _ => true | _ => false end.

Definition is_pong (b : beat) : bool :=
  match b with Heard frame => bool_decide (f_type frame = PONG) | _ => false end.

Definition ticks (bs : list beat) : nat := length (filter (λ b, is_tick b = true) bs).

(** Online and watched, with this many pings unanswered; or no longer online. *)
Definition silent_for (n : nat) (c : connection) : Prop :=
  can_send c = false ∨
  (cn_heartbeat c = true ∧ cn_closing c = false ∧ n ≤ cn_unanswered c).

Lemma deliver_machine frame c : cn_machine (_deliver frame c).1 = cn_machine c.
Proof.
  unfold _deliver, mbind, M_bind, get, modify, mret, M_ret.
  case_decide; cbn; by case_decide.
Qed.

Lemma deliver_heartbeat frame c :
  cn_heartbeat (_deliver frame c).1 = cn_heartbeat c ∧
  cn_closing (_deliver frame c).1 = cn_closing c ∧
  cn_unanswered (_deliver frame c).1
  = if decide (f_type frame = PONG) then 0 else cn_unanswered c.
Proof.
  unfold _deliver, mbind, M_bind, get, modify, mret, M_ret.
  case_decide; cbn; by case_decide.
Qed.

Lemma write_turn_frame how c :
  cn_machine (write_turn how c) = cn_machine c ∧
  cn_heartbeat (write_turn how c) = cn_heartbeat c ∧
  cn_closing (write_turn how c) = cn_closing c ∧
  cn_unanswered (write_turn how c) = cn_unanswered c.
Proof.
  unfold write_turn. destruct (cn_outbox c) as [|[f|] rest]; [done| |done].
  destruct (encode f); [|done]. by destruct (sendall _ _ _) as [? []].
Qed.

(** [close] always goes through, and leaves a closed machine. *)
Lemma close_run c :
  cn_closing c = false →
  ∃ c', close c = (c', Ok tt) ∧ state c' = CLOSED ∧ cn_closing c' = true ∧ cn_open c' = false.
Proof.
  intros Hc. unfold close. rewrite get_run, Hc, modify_run.
  set (c0 := set_closing true c).
  assert (∃ c1, (if is_closed (cn_machine c) then mret tt else transition CLOSE;; mret tt) c0
                = (c1, Ok tt) ∧ state c1 = CLOSED ∧ cn_closing c1 = true) as (c1 & E & Hs & Hcl).
  { unfold is_closed. case_bool_decide as Hst; [by exists c0|].
    exists (set_machine (enter CLOSED (cn_machine c0)) c0).
    unfold mbind, M_bind, transition. rewrite transition_run.
    assert (next_state (sm_state (cn_machine c0)) CLOSE = Ok CLOSED) as ->
      by (unfold next_state; by rewrite decide_False).
    split_and!; [done|apply enter_state|done]. }
  unfold mbind at 1, M_bind at 1. rewrite E, !modify_run. unfold modify.
  eexists. split; [reflexivity|]. by case_decide.
Qed.

(** A connection that was hung up, and one that was, or is as it was built. *)
Definition hung_up (c : connection) : Prop :=
  cn_closing c = true ∧ state c = CLOSED ∧ cn_open c = false.

Definition settled (c : connection) : Prop := cn_closing c = false ∨ hung_up c.

Lemma close_hangs_up c : settled c → hung_up (close c).1.
Proof.
  intros [Hc|Hc].
  - destruct (close_run c Hc) as (c' & -> & ? & ? & ?). by split_and!.
  - unfold close. rewrite get_run. destruct Hc as (Hc & ? & ?). rewrite Hc. by split_and!.
Qed.

(** [close] never raises. *)
Lemma close_total c : (close c).2 = Ok tt.
Proof.
  destruct (cn_closing c) eqn:Hc; [unfold close; by rewrite get_run, Hc|].
  by destruct (close_run c Hc) as (c' & -> & _).
Qed.

Lemma close_offline c : cn_closing c = false → can_send (close c).1 = false.
Proof.
  intros Hc. destruct (close_run c Hc) as (c' & -> & Hs & _ & _).
  unfold can_send, ConnState.can_send. unfold state in Hs. cbn. by rewrite Hs.
Qed.

Lemma send_frame meanwhile frame c :
  cn_closing c = false →
  can_send (send meanwhile frame c).1 = false ∨
  (cn_heartbeat (send meanwhile frame c).1 = cn_heartbeat c ∧
   cn_closing (send meanwhile frame c).1 = false ∧
   cn_unanswered (send meanwhile frame c).1 = cn_unanswered c ∧
   ((send meanwhile frame c).2 = Ok tt ∨ can_send c = false)).
Proof.
  intros Hc. unfold send. rewrite get_run.
  destruct (can_send c) eqn:Es; cbn [negb]; [|left; exact Es].
  case_decide; [right; split_and!; [done|exact Hc|done|by left]|].
  destruct meanwhile as [how|].
  - right. rewrite modify_run. unfold modify. cbn.
    destruct (write_turn_frame how c) as (_ & -> & -> & ->).
    split_and!; [done|exact Hc|done|by left].
  - left. unfold mbind, M_bind. pose proof (close_offline c Hc) as Hoff.
    by destruct (close c) as [c' [[]|e]].
Qed.

Lemma lost_offline c : cn_closing c = false → can_send c = true →
  can_send (_on_connection_lost c).1 = false.
Proof.
  unfold can_send, ConnState.can_send. rewrite bool_decide_eq_true. intros Hc Hs.
  unfold _on_connection_lost, mbind, M_bind, get, modify, mret, M_ret.
  destruct c as [? [st w l] ? ? ? ? ? ? ? ? ? ? ? ? ?]. cbn in *. subst. done.
Qed.

Lemma beat_silent b n c :
  is_pong b = false → silent_for n c → silent_for (n + if is_tick b then 1 else 0) (run_beat c b).
Proof.
  intros Hp Hs. destruct b as [meanwhile ping|frame|how]; cbn [is_tick run_beat].
  - unfold heartbeat_turn. destruct Hs as [Hoff|(Hh & Hc & Hn)].
    { rewrite Hoff, orb_true_r. cbn [negb]. left. destruct (cn_heartbeat c); exact Hoff. }
    rewrite Hh, Hc. destruct (can_send c) eqn:Es; cbn [negb orb]; [|by left].
    unfold MISSED_PONGS. case_decide as Hd.
    { left. by apply lost_offline. }
    set (c1 := set_heartbeat true (S (cn_unanswered c)) c).
    destruct (send_frame meanwhile ping c1 Hc) as [Hoff|(H1 & H2 & H3 & [H4|H4])].
    + left. destruct (send meanwhile ping c1) as [c2 [[]|[]]]; exact Hoff.
    + right. destruct (send meanwhile ping c1) as [c2 [[]|e]]; [|done]. cbn in *.
      rewrite H1, H2, H3. split_and!; [done..|lia].
    + change (can_send c1) with (can_send c) in H4. congruence.
  - cbn [is_pong] in Hp. apply bool_decide_eq_false in Hp. rewrite Nat.add_0_r.
    destruct (deliver_heartbeat frame c) as (H1 & H2 & H3). rewrite decide_False in H3 by done.
    unfold silent_for, can_send. rewrite deliver_machine, H1, H2, H3. exact Hs.
  - rewrite Nat.add_0_r. destruct (write_turn_frame how c) as (H1 & H2 & H3 & H4).
    unfold silent_for, can_send. rewrite H1, H2, H3, H4. exact Hs.
Qed.

Lemma beats_silent bs n c :
  Forall (λ b, is_pong b = false) bs → silent_for n c → silent_for (n + ticks bs) (run_beats c bs).
Proof.
  intros Hp. revert n c. unfold ticks. induction Hp as [|b bs Hb _ IH]; intros n c Hs.
  { by rewrite Nat.add_0_r. }
  pose proof (beat_silent b n c Hb Hs) as H1. apply IH in H1. cbn [run_beats foldl].
  rewrite filter_cons. destruct (is_tick b); [rewrite decide_True by done|rewrite decide_False by done];
    cbn [length]; unfold run_beats in H1; [replace (n + S _) with (n + 1 + length (filter (λ b, is_tick b = true) bs)) by lia|
    rewrite Nat.add_0_r in H1]; exact H1.
Qed.

(** Online with at least three pings unanswered cannot be. *)
Definition beating (c : connection) : Prop :=
  can_send c = true → cn_heartbeat c = true ∧ cn_unanswered c ≤ MISSED_PONGS.

Lemma beat_beating b c :
  cn_closing c = false → beating c → beating (run_beat c b) ∧
  (can_send (run_beat c b) = true → cn_closing (run_beat c b) = false).
Proof.
  intros Hc Hb. unfold beating in *. destruct b as [meanwhile ping|frame|how]; cbn [run_beat].
  - destruct (cn_heartbeat c) eqn:Hh; [|split; [rewrite Hh; exact Hb|done]].
    unfold heartbeat_turn. rewrite Hc.
    destruct (can_send c) eqn:Es; cbn [negb orb];
      [|split; intros Hx; change (can_send c = true) in Hx; congruence].
    destruct (Hb eq_refl) as [_ Hu]. unfold MISSED_PONGS in *. case_decide as Hd.
    { pose proof (lost_offline c Hc Es) as Hoff. unfold stop_heartbeat.
      split; intros Hx; exfalso; change (can_send (_on_connection_lost c).1 = true) in Hx; congruence. }
    rewrite Hh. set (c1 := set_heartbeat true (S (cn_unanswered c)) c).
    assert (can_send c1 = true) as Es1 by exact Es.
    destruct (send_frame meanwhile ping c1 Hc) as [Hoff|(H1 & H2 & H3 & [H4|H4])]; [| |congruence].
    + destruct (send meanwhile ping c1) as [c2 [[]|[]]]; (split; intros Hx; exfalso;
        change (can_send c2 = true) in Hx; change (can_send c2 = false) in Hoff; congruence).
    + destruct (send meanwhile ping c1) as [c2 [[]|e]]; [|done]. cbn [fst] in *.
      split; [|done]. intros _. rewrite H1, H3. cbn. split; [done|lia].
  - destruct (deliver_heartbeat frame c) as (H1 & H2 & H3). unfold can_send in *.
    rewrite deliver_machine, H1, H2, H3. split; [|done]. intros Hs. destruct (Hb Hs).
    split; [done|]. case_decide; [lia|done].
  - destruct (write_turn_frame how c) as (H1 & H2 & H3 & H4). unfold can_send in *.
    by rewrite H1, H2, H3, H4.
Qed.

(** C19. A connection that has gone silent is noticed.  From an online connection with
    its heartbeat running, and whatever else is received or written, three
    intervals without a PONG take it out of ONLINE: nothing can be sent on it any
    more, so the session will replace it. *)
Theorem silence_is_noticed (c : connection) (bs : list beat)
    (Honline : can_send c = true) (Hheart : cn_heartbeat c = true) (Hopen : cn_closing c = false)
    (Hcount : cn_unanswered c ≤ MISSED_PONGS)
    (Hsilent : Forall (λ b, is_pong b = false) bs) (Hticks : MISSED_PONGS < ticks bs) :
  can_send (run_beats c bs) = false.
Proof.
  destruct (can_send (run_beats c bs)) eqn:E; [|done]. exfalso.
  assert (silent_for 0 c) as H0 by (right; split_and!; [done..|lia]).
  apply (beats_silent bs 0 c Hsilent) in H0.
  assert (∀ bs c, cn_closing c = false → beating c → can_send (run_beats c bs) = true →
    beating (run_beats c bs)) as Hbeat.
  { clear. induction bs as [|b bs IH]; intros c Hc Hb Hs; [done|]. cbn [run_beats foldl] in *.
    destruct (beat_beating b c Hc Hb) as [Hb' Hc']. destruct (can_send (run_beat c b)) eqn:Es.
    - by apply IH; [apply Hc'| |].
    - exfalso. clear -Es Hs. revert Hs. generalize dependent (run_beat c b).
      induction bs as [|b' bs IH]; intros c' Es Hs; [cbn in Hs; congruence|].
      apply (IH (run_beat c' b')); [|exact Hs]. clear IH Hs. destruct b'; cbn [run_beat].
      + destruct (cn_heartbeat c'); [|done]. unfold heartbeat_turn. by rewrite Es, orb_true_r.
      + unfold can_send. by rewrite deliver_machine.
      + unfold can_send. by destruct (write_turn_frame how c') as (-> & _). }
  destruct (Hbeat bs c Hopen) as [_ Hu]; [intros _; by split|done..|].
  destruct H0 as [?|(_ & _ & Hn)]; [congruence|]. lia.
Qed.
End heartbeat.

Lemma silence_is_noticed_witness :
  ∃ c : connection, can_send c = true ∧
    ∀ ping frame : Frame, f_type frame = MSG →
      can_send (@run_beats plain_runtime c [Tick None ping; Heard frame; Tick None ping;
                                            Wrote Through; Tick None ping]) = false.
Proof.
  exists (set_heartbeat true 0 (set_machine (mkMachine ONLINE true []) new_connection)).
  split; [reflexivity|]. intros ping frame Hf.
  apply (@silence_is_noticed plain_runtime (set_heartbeat true 0 (set_machine (mkMachine ONLINE true [])
           new_connection)) [Tick None ping; Heard frame; Tick None ping; Wrote Through;
           Tick None ping]); [reflexivity..|apply le_0_n| |exact (Nat.lt_succ_diag_r 2)].
  repeat constructor. cbn. rewrite Hf. reflexivity.
Defined.

(** ** The supervisor *)

(** One passage of the supervisor through its loop: the jitter it draws, whether
    the session is closed while it waits, and how its attempt goes. *)
Definition passage : Type := Q * bool * attempt.

Definition run_watch (request : Frame) (s : session) (ps : list passage) : session :=
  foldl (λ s p, watch_turn request p.1.1 p.1.2 p.2 s) s ps.

(** The connection of a fresh attempt while it waits for the answer to its
    request, after [heard] has gone to the listener. *)
Definition waiting (request : Frame) (heard : list Frame) : connection :=
  mkConnection None (mkMachine AUTHENTICATING true [CONNECTING; AUTHENTICATING]) [Item request]
    false [Frames.LOGIN_OK; ERROR] None false false 0 new_buffer true true true [] heard.

Definition answered (request reply : Frame) (heard : list Frame) : connection :=
  set_slot [] (Some reply) true (waiting request heard).

(** Not an answer to a login. *)
Definition aside (f : Frame) : Prop := f_type f ≠ Frames.LOGIN_OK ∧ f_type f ≠ ERROR.

Lemma waiting_aside request heard fs :
  Forall aside fs →
  forM (Delivered <$> fs) arrive (waiting request heard) = (waiting request (heard ++ fs), Ok tt).
Proof.
  intros Hfs. revert heard. induction Hfs as [|f fs [Hf1 Hf2] _ IH]; intros heard.
  { by rewrite app_nil_r. }
  cbn [fmap list_fmap forM arrive]. unfold mbind at 1, M_bind at 1.
  assert (_deliver f (waiting request heard) = (waiting request (heard ++ [f]), Ok tt)) as ->.
  { unfold _deliver, mbind, M_bind, get, modify, mret, M_ret.
    destruct (decide (f_type f = PONG)); cbn [cn_await waiting set_heartbeat];
      rewrite decide_False by (rewrite !elem_of_cons, elem_of_nil; tauto); done. }
  rewrite IH, <-app_assoc. done.
Qed.

Lemma waiting_answered request heard reply :
  f_type reply ∈ [Frames.LOGIN_OK; ERROR] →
  _deliver reply (waiting request heard) = (answered request reply heard, Ok tt).
Proof.
  intros Hr. unfold _deliver, mbind, M_bind, get, modify, mret, M_ret.
  rewrite (decide_False (P := f_type reply = PONG)); [|by rewrite !elem_of_cons, elem_of_nil in Hr;
    intros E; rewrite E in Hr; naive_solver].
  cbn [cn_await waiting]. by rewrite decide_True.
Qed.

Lemma answered_more request reply heard fs :
  forM (Delivered <$> fs) arrive (answered request reply heard)
  = (answered request reply (heard ++ fs), Ok tt).
Proof.
  revert heard. induction fs as [|f fs IH]; intros heard; [by rewrite app_nil_r|].
  cbn [fmap list_fmap forM arrive]. unfold mbind at 1, M_bind at 1.
  assert (_deliver f (answered request reply heard)
          = (answered request reply (heard ++ [f]), Ok tt)) as ->.
  { unfold _deliver, mbind, M_bind, get, modify, mret, M_ret.
    destruct (decide (f_type f = PONG)); cbn [cn_await answered set_slot set_heartbeat];
      by rewrite decide_False by apply not_elem_of_nil. }
  rewrite IH, <-app_assoc. done.
Qed.

(** An attempt that fails in one of the ways [_reconnect] provides for: the server
    is not reached, does not answer in time, or answers with an error. *)
Definition fails (a : attempt) : Prop :=
  at_dial a ≠ Reached ∨
  (∃ pre, Forall aside pre ∧ at_arrivals a = Delivered <$> pre) ∨
  (∃ pre reply post, Forall aside pre ∧ f_type reply = ERROR ∧
     at_arrivals a = Delivered <$> pre ++ reply :: post).

(** The server is reached and answers the login. *)
Definition succeeds (a : attempt) : Prop :=
  at_dial a = Reached ∧
  ∃ pre reply post, Forall aside pre ∧ f_type reply = Frames.LOGIN_OK ∧
    at_arrivals a = Delivered <$> pre ++ reply :: post.

(** The server is reached and the connection is lost before the login is answered. *)
Definition cut_short (a : attempt) : Prop :=
  at_dial a = Reached ∧ ∃ pre, Forall aside pre ∧ at_arrivals a = (Delivered <$> pre) ++ [Lost].

Lemma dialled_run user request a :
  at_dial a = Reached →
  dial_and_login user request a
  = (forM (at_arrivals a) arrive;; login_end user) (waiting request []).
Proof. intros Hd. unfold dial_and_login. rewrite Hd. reflexivity. Qed.

Lemma arrivals_run {B} request (k : M connection B) pre reply post :
  Forall aside pre → f_type reply ∈ [Frames.LOGIN_OK; ERROR] →
  (forM (Delivered <$> pre ++ reply :: post) arrive;; k) (waiting request [])
  = k (answered request reply (pre ++ post)).
Proof.
  intros Hpre Hr. unfold mbind at 1, M_bind at 1.
  rewrite fmap_app, forM_app. unfold mbind at 1, M_bind at 1.
  rewrite waiting_aside by done. cbn [fmap list_fmap forM arrive app].
  unfold mbind at 1, M_bind at 1. rewrite waiting_answered by done.
  by rewrite answered_more.
Qed.

Lemma failing_login user request a :
  fails a →
  (∃ e c, dial_and_login user request a = (c, Raise e) ∧ caught e = true) ∨
  (∃ reply c, dial_and_login user request a = (c, Ok reply) ∧ is_error reply = true).
Proof.
  intros Ha. destruct (at_dial a) eqn:Hd.
  1, 2: left; unfold dial_and_login; rewrite Hd; by do 2 eexists.
  destruct Ha as [?|[(pre & Hpre & Harr)|(pre & reply & post & Hpre & Hr & Harr)]]; [done| |].
  - left. rewrite dialled_run, Harr by done. unfold mbind at 1, M_bind at 1.
    rewrite waiting_aside by done. by do 2 eexists.
  - right. rewrite dialled_run, Harr, arrivals_run by (rewrite ?Hr; set_solver).
    exists reply. unfold login_end, _request_end. unfold mbind at 1, M_bind at 1. rewrite get_run.
    cbn [cn_ready answered set_slot]. rewrite modify_run. cbn [cn_reply answered set_slot].
    unfold mret at 1, M_ret at 1. rewrite (decide_False (P := f_type reply = Frames.LOGIN_OK))
      by by rewrite Hr. eexists. split; [reflexivity|]. by apply bool_decide_eq_true.
Qed.

Lemma succeeding_login user request a :
  succeeds a →
  ∃ reply c, dial_and_login user request a = (c, Ok reply) ∧ is_error reply = false ∧
    can_send c = true ∧ cn_heartbeat c = true ∧ cn_closing c = false ∧ cn_unanswered c = 0 ∧
    cn_username c = Some user ∧ cn_outbox c = [Item request].
Proof.
  intros (Hd & pre & reply & post & Hpre & Hr & Harr).
  rewrite dialled_run, Harr, arrivals_run by (rewrite ?Hr; set_solver).
  exists reply. unfold login_end, _request_end. unfold mbind at 1, M_bind at 1. rewrite get_run.
  cbn [cn_ready answered set_slot]. rewrite modify_run. cbn [cn_reply answered set_slot].
  unfold mret at 1, M_ret at 1. rewrite decide_True by done.
  eexists. split; [reflexivity|]. split_and!; [|reflexivity..].
  unfold is_error. by rewrite Hr.
Qed.

Lemma cut_short_login user request a :
  cut_short a → ∃ c, dial_and_login user request a = (c, Raise NotConnected).
Proof.
  intros (Hd & pre & Hpre & Harr). rewrite dialled_run, Harr by done.
  unfold mbind at 1, M_bind at 1. rewrite forM_app. unfold mbind at 1, M_bind at 1.
  rewrite waiting_aside by done. by eexists.
Qed.

(** What taking the connection out leaves alone. *)
Lemma drop_spec s :
  ss_connection (drop_connection s) = None ∧ ss_username (drop_connection s) = ss_username s ∧
  ss_backoff (drop_connection s) = ss_backoff s ∧ ss_stopped (drop_connection s) = ss_stopped s ∧
  ss_supervisor (drop_connection s) = ss_supervisor s ∧
  ss_reconnects (drop_connection s) = ss_reconnects s.
Proof. unfold drop_connection. by destruct (ss_connection s) eqn:E. Qed.

(** The supervisor owes a reconnection, after [n] attempts of this outage. *)
Definition owing (n : nat) (s : session) : Prop :=
  ss_supervised s = true ∧ ss_stopped s = false ∧
  ss_backoff s = set_attempts n default_backoff ∧
  ∀ c, ss_connection s = Some c →
    can_send c = false ∧ state c ≠ CONNECTING ∧ state c ≠ AUTHENTICATING.

Lemma owing_watch n s request random stopped a :
  owing n s →
  watch_turn request random stopped a s =
  match (modify (set_backoff (next_delay random (set_attempts n default_backoff)).1);;
         delay ← lift_res (next_delay random (set_attempts n default_backoff)).2;
         if (stopped : bool) then modify (set_supervised false);; mret Ended
         else _reconnect request a;; mret (Waited delay)) s with
  | (s, Raise _) => set_supervised false s
  | (s, Ok _) => s
  end.
Proof.
  intros (Hsup & Hstop & Hb & Hc). unfold watch_turn, _watch_turn. rewrite Hsup, get_run, Hstop, Hb.
  assert (match ss_connection s with
          | Some c => if can_send c then Some Healthy
                      else if decide (state c = CONNECTING ∨ state c = AUTHENTICATING)
                           then Some Busy else None
          | None => None end = None) as ->.
  { destruct (ss_connection s) as [c|]; [|done]. destruct (Hc c eq_refl) as (-> & H1 & H2).
    rewrite decide_False; naive_solver. }
  cbv zeta. by destruct (next_delay random _) as [b r].
Qed.

Lemma owing_turn n s request random a :
  owing n s → n < 1024 →
  watch_turn request random false a s =
  match _reconnect request a (set_backoff (set_attempts (S n) default_backoff) s) with
  | (s, Raise _) => set_supervised false s
  | (s, Ok _) => s
  end.
Proof.
  intros Ho Hn. rewrite (owing_watch n) by done.
  destruct (next_delay_default n random) as [d ->]. rewrite bool_decide_false by lia. cbn [fst snd]. rewrite modify_run.
  unfold mbind, M_bind, lift_res. by destruct (_reconnect _ _ _) as [s' [[]|e]].
Qed.

Lemma owing_overflow n s request random stopped a :
  owing n s → 1024 ≤ n → watch_turn request random stopped a s = set_supervised false s.
Proof.
  intros Ho Hn. rewrite (owing_watch n) by done.
  destruct (next_delay_default n random) as [d ->]. rewrite bool_decide_true by done. cbn [fst snd]. rewrite modify_run.
  destruct Ho as (? & ? & Hb & ?). destruct s; cbn in *. by subst.
Qed.

(** One failed attempt: it is counted, and nothing else of the session changes but
    the dead connection, which is dropped. *)
Lemma failed_turn n s request random a :
  owing n s → n < 1024 → fails a →
  owing (S n) (watch_turn request random false a s) ∧
  ss_username (watch_turn request random false a s) = ss_username s ∧
  ss_reconnects (watch_turn request random false a s) = ss_reconnects s.
Proof.
  intros Ho Hn Ha. rewrite (owing_turn n) by done. unfold _reconnect.
  set (s1 := set_backoff _ s). destruct (drop_spec s1) as (D1 & D2 & D3 & D4 & D5 & D6).
  destruct Ho as (Hsup & Hstop & Hb & Hc).
  assert (∀ c, owing (S n) (let_go c (drop_connection s1)) ∧
    ss_username (let_go c (drop_connection s1)) = ss_username s ∧
    ss_reconnects (let_go c (drop_connection s1)) = ss_reconnects s) as Hgone.
  { intros c. unfold owing, ss_supervised. cbn. rewrite D1, D2, D3, D4, D5, D6.
    split_and!; [exact Hsup|done..]. }
  unfold _reconnect_end.
  destruct (failing_login (ss_username (drop_connection s1)) request a Ha)
    as [(e & c & -> & ->)|(reply & c & -> & ->)]; apply Hgone.
Qed.

(** C10. The session comes back by itself, from an outage whose failed attempts all
    fail in one of the ways that [_reconnect] provides for: the server cannot be
    reached, or does not answer the login in time, or answers it with an ERROR.
    (A connection lost between the dialling and the answer is not one of them:
    that ends the supervisor, see [supervisor_dies].)  Fewer than 1024 such
    attempts, which is where the schedule stops being defined and is more than
    six hours of waiting, and then one that reaches a server which accepts the
    login: that one leaves the session online, sending works, the heartbeat runs
    from zero, the reconnection is counted, the schedule starts over and the
    supervisor still watches. *)
Theorem supervisor_recovers (request : Frame) (s : session) (n : nat) (failures : list (Q * attempt))
    (random : Q) (good : attempt)
    (Howing : owing n s) (Hfail : Forall (λ p, fails p.2) failures)
    (Hcount : n + length failures < 1024) (Hgood : succeeds good) :
  let s' := run_watch request s (((λ p, (p.1, false, p.2)) <$> failures) ++ [(random, false, good)]) in
  session_can_send s' = true ∧ ss_supervised s' = true ∧
  ss_reconnects s' = S (ss_reconnects s) ∧ ss_backoff s' = default_backoff ∧
  ∃ c, ss_connection s' = Some c ∧ cn_username c = Some (ss_username s) ∧
       cn_heartbeat c = true ∧ cn_closing c = false ∧ cn_unanswered c = 0.
Proof.
  revert n s Howing Hcount. induction Hfail as [|[q a] failures Ha _ IH]; intros n s Ho Hn s'; subst s'.
  - cbn [fmap list_fmap app run_watch foldl fst snd length] in *.
    rewrite (owing_turn n) by (done || lia). unfold _reconnect, _reconnect_end.
    set (s1 := set_backoff _ s). destruct (drop_spec s1) as (_ & D2 & D3 & _ & D5 & D6).
    rewrite D2. destruct (succeeding_login (ss_username s) request good Hgood)
      as (reply & c & E & Herr & H1 & H2 & H3 & H4 & H5 & _).
    change (ss_username s1) with (ss_username s).
    rewrite E, Herr. destruct Ho as (Hsup & _). unfold ss_supervised. cbn. rewrite D3, D5, D6.
    split_and!; [exact H1|exact Hsup|done|done|]. by exists c.
  - cbn [length] in Hn. destruct (failed_turn n s request q a Ho ltac:(lia) Ha) as (Ho' & Hu & Hr).
    rewrite <-Hu, <-Hr. apply (IH (S n) (watch_turn request q false a s)); [done|lia].
Qed.

(** C36. Two things end the supervisor for good.  [_reconnect] does not catch the
    [NotConnected] of a connection that is lost between the dialling and the
    answer to the login, and [_watch] does not catch the [OverflowError] of the
    schedule: either way the thread ends, and whatever the network does later the
    session never sends again. *)
Theorem supervisor_dies (request : Frame) (s : session) (n : nat) (random : Q) (a : attempt)
    (later : list passage)
    (Howing : owing n s) (Hwhy : 1024 ≤ n ∨ cut_short a) :
  let s' := run_watch request s ((random, false, a) :: later) in
  ss_supervised s' = false ∧ session_can_send s' = false ∧ ss_stopped s' = false.
Proof.
  assert (∀ s0, ss_supervised s0 = false → run_watch request s0 later = s0) as Hdead.
  { intros s0 Hs0. induction later as [|p ps IH]; [done|]. cbn [run_watch foldl].
    unfold watch_turn at 2. rewrite Hs0. apply IH. }
  pose proof Howing as (Hsup & Hstop & Hb & Hc).
  cbv zeta. change (run_watch request s (_ :: later))
    with (run_watch request (watch_turn request random false a s) later).
  destruct (decide (1024 ≤ n)) as [Hn|Hn].
  - rewrite (owing_overflow n) by done. rewrite Hdead by done. split_and!; [done| |done].
    unfold session_can_send. cbn. destruct (ss_connection s) as [c|]; [|done]. by apply Hc.
  - destruct Hwhy as [?|Hcut]; [lia|]. rewrite (owing_turn n) by (done || lia).
    unfold _reconnect, _reconnect_end.
    set (s1 := set_backoff _ s). destruct (drop_spec s1) as (D1 & _ & _ & D4 & _ & _).
    destruct (cut_short_login (ss_username (drop_connection s1)) request a Hcut) as (c & ->).
    cbn [caught]. rewrite Hdead by done. unfold session_can_send. cbn. by rewrite D1, D4.
Qed.


(** ** Hanging up *)

(** The connection as the handshake leaves it: not closed by us, and with the socket it
    was dialled with. *)
Definition untouched (o : bool) (c : connection) : Prop := cn_closing c = false ∧ cn_open c = o.

Lemma untouched_bind {A B} o (m : M connection A) (k : A → M connection B) :
  keeps (untouched o) m → (∀ a, keeps (untouched o) (k a)) → keeps (untouched o) (m ≫= k).
Proof.
  intros Hm Hk c Hc. unfold mbind, M_bind. specialize (Hm c Hc).
  destruct (m c) as [c1 [a|e]]; [by apply Hk|done].
Qed.

Lemma transition_keeps o e : keeps (untouched o) (transition e).
Proof. intros c Hc. unfold transition. by destruct (ConnState.transition e (cn_machine c)). Qed.

Lemma forM_keeps {A} o (l : list A) f :
  (∀ x, keeps (untouched o) (f x)) → keeps (untouched o) (forM l f).
Proof. intros Hf. apply wp_forM_keeps. auto. Qed.

Ltac untouched_step :=
  lazymatch goal with
  | |- keeps _ (transition _) => apply transition_keeps
  | |- keeps _ (_ ≫= _) => apply untouched_bind; [|intros]
  | |- keeps _ (forM _ _) => apply forM_keeps; intros
  | |- keeps _ (match ?x with _ => _ end) => destruct x
  | |- keeps _ _ => by intros ? [? ?]
  end.
Ltac untouched_walk := repeat untouched_step.

Lemma arrive_untouched o x : keeps (untouched o) (arrive x).
Proof. destruct x; cbn [arrive]; unfold _deliver, end_reader, _on_connection_lost; untouched_walk. Qed.

Lemma login_untouched o user request arrivals : keeps (untouched o) (login user request arrivals).
Proof.
  unfold login, login_begin, login_end, _require, _request_begin, _request_end, _start_heartbeat.
  untouched_walk; apply arrive_untouched.
Qed.

Lemma register_untouched o request arrivals : keeps (untouched o) (register request arrivals).
Proof.
  unfold register, register_begin, register_end, _require, _request_begin, _request_end.
  untouched_walk; apply arrive_untouched.
Qed.

(** What becomes of the connection that [start] builds: refused, it is hung up;
    accepted, it is the session's; and when something is raised it is left as it is,
    with its socket open if the server was reached. *)
Lemma start_connection reg request att s :
  let '(s', r) := start reg request att s in
  match r with
  | Raise _ => ∃ c, s' = let_go c s ∧ untouched (bool_decide (at_dial att = Reached)) c
  | Ok reply =>
    if is_error reply then ∃ c, s' = let_go c s ∧ hung_up c
    else ∃ c, cn_closing c = false ∧ s' =
      _start_supervisor (set_backoff (reset (ss_backoff s)) (set_connection (Some c) s))
  end.
Proof.
  unfold start. set (m := _ ≫= _). set (o := bool_decide (at_dial att = Reached)).
  enough (wp m (λ rb c, is_error rb.1 = negb rb.2 ∧ if rb.2 : bool then cn_closing c = false else hung_up c)
            (untouched o) new_connection) as Hwp.
  { unfold wp in Hwp. destruct (m new_connection) as [c [[reply [|]]|e]]; [..|by exists c].
    - cbn in Hwp. destruct Hwp as [-> Hc]. by exists c.
    - cbn in Hwp. destruct Hwp as [-> Hc]. by exists c. }
  assert (∀ reply c, is_error reply = true → untouched o c →
    wp (close;; mret (reply, false)) (λ rb c, is_error rb.1 = negb rb.2 ∧
      if rb.2 : bool then cn_closing c = false else hung_up c) (untouched o) c) as Hclose.
  { intros reply c He [Hc _]. destruct (close_run c Hc) as (c' & E & ? & ? & ?).
    unfold wp, mbind, M_bind. rewrite E. by split_and!. }
  subst m. apply wp_bind. apply (wp_mono _ (λ _, untouched o) _ (untouched o)); [| |done].
  { subst o. by destruct (at_dial att). }
  intros [] c1 H1'. apply wp_bind.
  apply (wp_mono _ (λ refused c, untouched o c ∧ ∀ reply, refused = Some reply → is_error reply = true)
           _ (untouched o)); [| |done].
  { destruct reg as [[r arrivals]|]; [|by apply wp_ret]. apply wp_bind.
    eapply wp_keeps; [apply register_untouched|done| |done]. intros reply c2 H2'. apply wp_ret.
    split; [done|]. destruct (is_error reply) eqn:Er; [|done]. cbn. case_bool_decide; [done|].
    by intros ? [= <-]. }
  intros refused c2 [H2' Hr]. destruct refused as [reply|]; [by apply Hclose; [apply Hr|]|].
  apply wp_bind. eapply wp_keeps; [apply login_untouched|done| |done]. intros reply c3 H3'.
  destruct (is_error reply) eqn:Er; [by apply Hclose|]. apply wp_ret. cbn. by destruct H3' as [? ?]; rewrite Er.
Qed.

(** Code that never raises a ConnectionError. *)
Definition reachable {A} (m : M connection A) : Prop := ∀ c, (m c).2 ≠ Raise ConnectionError.

Lemma reachable_bind {A B} (m : M connection A) (k : A → M connection B) :
  reachable m → (∀ a, reachable (k a)) → reachable (m ≫= k).
Proof.
  intros Hm Hk c. unfold mbind, M_bind. specialize (Hm c).
  destruct (m c) as [c1 [a|e]]; [apply Hk|]. cbn in *. congruence.
Qed.

Lemma reachable_transition e : reachable (transition e).
Proof.
  intros c. unfold transition. rewrite ConnState.transition_run.
  enough (next_state (sm_state (cn_machine c)) e ≠ Raise ConnectionError) as Hn
    by by destruct (next_state _ e) as [s|x]; [|intros [= ->]].
  unfold next_state. by repeat case_match.
Qed.

Lemma reachable_forM {A} (l : list A) f : (∀ x, reachable (f x)) → reachable (forM l f).
Proof. intros Hf. induction l as [|x l IH]; [done|]. by apply reachable_bind. Qed.

Lemma reachable_close : reachable close.
Proof. intros c. by rewrite close_total. Qed.

Ltac reachable_step :=
  lazymatch goal with
  | |- reachable (transition _) => apply reachable_transition
  | |- reachable close => apply reachable_close
  | |- reachable (_ ≫= _) => apply reachable_bind; [|intros]
  | |- reachable (forM _ _) => apply reachable_forM; intros
  | |- reachable (match ?x with _ => _ end) => destruct x
  | |- reachable _ => done
  end.

(** It is only when the server cannot be reached that [start] raises one. *)
Lemma start_unreachable reg request att s :
  at_dial att = Reached → (start reg request att s).2 ≠ Raise ConnectionError.
Proof.
  intros Hd. unfold start. set (m := _ ≫= _). enough (reachable m) as Hm.
  { specialize (Hm new_connection). destruct (m new_connection) as [c [[reply [|]]|e]]; [done..|].
    by intros [= ->]. }
  subst m. rewrite Hd. unfold connect, register, login, register_begin, register_end, login_begin,
    login_end, _require, _request_begin, _request_end, _start_heartbeat, arrive, _deliver,
    end_reader, _on_connection_lost. repeat reachable_step.
Qed.

(** A send hangs up, if the queue stays full, or leaves the connection as it is. *)
Lemma send_settled `{Runtime} meanwhile frame c : settled c → settled (send meanwhile frame c).1.
Proof.
  intros Hc. unfold send. rewrite get_run. destruct (can_send c); cbn [negb]; [|exact Hc].
  case_decide; [exact Hc|]. destruct meanwhile as [how|].
  - rewrite !modify_run. unfold settled, hung_up, state, write_turn.
    destruct (cn_outbox c) as [|[frame'|] rest]; [exact Hc| |exact Hc].
    destruct (encode frame'); [|exact Hc]. destruct (sendall _ _ _) as [part [|]]; exact Hc.
  - right. unfold mbind, M_bind. pose proof (close_hangs_up c Hc) as Hup.
    pose proof (close_total c) as Hok. destruct (close c) as [c' r]. cbn in Hok. by subst r.
Qed.

(** What a session that holds a connection keeps while it is sent on. *)
Definition holding (gone : list connection) (s : session) : Prop :=
  ss_gone s = gone ∧ ∃ c, ss_connection s = Some c ∧ settled c.

Lemma close_session_hangs_up gone s :
  holding gone s → ∃ c, ss_gone (close_session s) = gone ++ [c] ∧ hung_up c ∧
    ss_connection (close_session s) = None ∧ ss_stopped (close_session s) = true.
Proof.
  intros (<- & c & Hc & Hs). unfold close_session, drop_connection. cbn. rewrite Hc.
  eexists. split; [reflexivity|]. split; [by apply close_hangs_up|done].
Qed.

(** [close] does not wait for an attempt to reconnect: when it comes between the
    dialling and the end of [_reconnect], the session is stopped and yet ends up
    with an open connection that nothing will close. *)
Theorem closed_while_dialling request s a :
  succeeds a →
  let s' := (_reconnect_end (dial_and_login (ss_username s) request a)
               (close_session (drop_connection s))).1 in
  ss_stopped s' = true ∧ session_can_send s' = true ∧
  ∃ c, ss_connection s' = Some c ∧ cn_closing c = false.
Proof.
  intros Ha. destruct (succeeding_login (ss_username s) request a Ha)
    as (reply & c & -> & Hr & Hsend & _ & Hc & _).
  assert (close_session (drop_connection s) = set_stopped true (drop_connection s)) as ->.
  { unfold close_session. unfold drop_connection at 1. destruct (drop_spec s) as (Hd & _).
    change (ss_connection (set_stopped true (drop_connection s))) with (ss_connection (drop_connection s)).
    by rewrite Hd. }
  cbn. rewrite Hr. split_and!; [done|exact Hsend|by exists c].
Qed.

Definition reply_of (t : MessageType) : Frame :=
  mkFrame t JNull JNull JNull JNull [] JNull 0 JNull.

(** A session whose connection was just lost. *)
Definition lost_session : session :=
  set_supervised true (set_connection (Some (set_machine (mkMachine RETRYING true []) new_connection))
    (new_session (&"alice") default_backoff)).

Lemma lost_session_owing : owing 0 lost_session.
Proof. split_and!; [done..|]. intros c [= <-]. split_and!; done. Qed.

Lemma succeeds_example : succeeds (mkAttempt Reached [Delivered (reply_of Frames.LOGIN_OK)]).
Proof. split; [done|]. exists [], (reply_of Frames.LOGIN_OK), []. done. Qed.

Lemma supervisor_recovers_witness :
  session_can_send (run_watch (reply_of LOGIN) lost_session
    [(0%Q, false, mkAttempt Unreachable []); (0%Q, false, mkAttempt Reached []);
     (0%Q, false, mkAttempt Reached [Delivered (reply_of ERROR)]);
     (0%Q, false, mkAttempt Reached [Delivered (reply_of Frames.LOGIN_OK)])]) = true.
Proof.
  assert (Forall (λ p : Q * attempt, fails p.2)
    [(0%Q, mkAttempt Unreachable []); (0%Q, mkAttempt Reached []);
     (0%Q, mkAttempt Reached [Delivered (reply_of ERROR)])]) as Hf.
  { apply Forall_cons. split; [by left|]. apply Forall_cons. split; [right; left; by exists []|].
    apply Forall_singleton. right; right. by exists [], (reply_of ERROR), []. }
  exact (proj1 (supervisor_recovers (reply_of LOGIN) lost_session 0 _ 0%Q _ lost_session_owing Hf
    ltac:(cbn; lia) succeeds_example)).
Defined.

Lemma supervisor_dies_witness :
  session_can_send (run_watch (reply_of LOGIN) lost_session
    [(0%Q, false, mkAttempt Reached [Lost]);
     (0%Q, false, mkAttempt Reached [Delivered (reply_of Frames.LOGIN_OK)])]) = false.
Proof.
  assert (cut_short (mkAttempt Reached [Lost])) as Hc by by (split; [done|exists []]).
  exact (proj1 (proj2 (supervisor_dies (reply_of LOGIN) lost_session 0 0%Q _
    [(0%Q, false, mkAttempt Reached [Delivered (reply_of Frames.LOGIN_OK)])]
    lost_session_owing (or_intror Hc)))).
Defined.

(** ** A session is an uplink

    What the controller is proved against ([UplinkLaws]) holds of the session it
    is given: a send queues exactly that frame, or raises [NotConnected] and
    nothing else. *)

Section uplink.
Context `{Runtime}.

Lemma send_result meanwhile frame c :
  (∃ c', send meanwhile frame c = (c', Ok tt) ∧ last (cn_outbox c') = Some (Item frame)) ∨
  (∃ c', send meanwhile frame c = (c', Raise NotConnected)).
Proof.
  unfold send. rewrite get_run. destruct (can_send c); cbn [negb]; [|right; by eexists].
  case_decide as Hroom; [left; eexists; split; [reflexivity|apply last_snoc]|].
  destruct meanwhile as [how|].
  - left. rewrite modify_run. eexists. split; [reflexivity|]. apply last_snoc.
  - right. unfold mbind, M_bind. destruct (cn_closing c) eqn:Hc.
    + unfold close. rewrite get_run, Hc. by eexists.
    + destruct (close_run c Hc) as (c' & -> & _). by eexists.
Qed.

(** A session, what its writer does while a full queue is waited for, and the
    frames it has queued. *)
Record link := mkLink {
  lk_session : session;
  lk_meanwhile : option sending;
  lk_log : list Frame;
}.

#[export] Instance session_uplink : Uplink link := {
  up_send f l :=
    let '(s, r) := session_send (lk_meanwhile l) f (lk_session l) in
    (mkLink s (lk_meanwhile l)
       (lk_log l ++ match r with Ok _ => [f] | Raise _ => [] end), r);
  up_log := lk_log;
}.

(** Sending through the session changes nothing else about it. *)
Lemma up_send_holding gone f (l : link) :
  holding gone (lk_session l) → holding gone (lk_session (up_send f l).1).
Proof.
  intros (Hgone & c & Hc & Hs). cbn. unfold session_send, _live. rewrite Hc.
  destruct (can_send c); [|by split; [|exists c]].
  pose proof (send_settled (lk_meanwhile l) f c Hs) as Hs'.
  destruct (send (lk_meanwhile l) f c) as [c' r]. by split; [|exists c'].
Qed.

#[export] Instance session_laws : UplinkLaws link.
Proof.
  split. intros f [s w log]. cbn. unfold session_send.
  destruct (_live s) as [c|e] eqn:El.
  - destruct (send_result w f c) as [(c' & -> & _)|(c' & ->)]; eexists;
      [by left|right; by rewrite app_nil_r].
  - assert (e = NotConnected) as ->.
    { unfold _live in El. by repeat case_match; simplify_eq. }
    eexists. right. by rewrite app_nil_r.
Qed.
End uplink.
