(* ===== verification/ClientMain.v ===== *)
(** * Starting the client

    [im/client/__main__.py].  [argparse] cuts the command line into the options that
    were given; what the user answers to a prompt, what the network does during
    the first login and what the view's loop takes from its inbox are arguments.
    The two views are instances of one interface, [Face]: all that [main] asks of
    a view. *)

From S2P Require Import Prelude PyStr PyDict Utf8 Json PyInt Frames Wire.
From S2P Require Import ConnState Backoff Conversation ChatModel Base64 Envelope Keyring Files Tls Uplink.
From S2P Require Import Connection Session SessionFacts Wp.
From S2P Require Controller Console.
From S2P Require Import Calendar Theme Widgets TkView.
From S2P Require TkWindow.
From S2P Require Import LinkUse.
Import Controller (controller, new_controller, on_frame, on_state, ct_connection, ct_model).

Definition VERSION : pystr := &"0.1.0".
Definition DEFAULT_HOST : pystr := &"127.0.0.1".
Definition DEFAULT_PORT : Z := 5000.

(** [hashlib.sha256(data).hexdigest()]. *)
Class Digest := { sha256_hex : bytes → pystr }.

Definition hash_password `{Digest} (password : pystr) : res pystr :=
  match utf8_encode password with
  | Some data => Ok (sha256_hex data)
  | None => Raise UnicodeEncodeError
  end.

(** ** The command line *)

Inductive view_choice := ConsoleChoice | TkChoice.

Inductive given :=
| GivenHost (value : pystr)
| GivenPort (value : pystr)
| GivenUser (value : pystr)
| GivenPassword (value : pystr)
| GivenRegister
| GivenView (value : pystr)
| GivenKeyfile (value : pystr)
| GivenPlaintext
| GivenTls
| GivenCacert (value : pystr)
| GivenServerHostname (value : pystr)
| GivenQuiet.

Record namespace := mkNamespace {
  host : pystr;
  port : Z;
  user : option pystr;
  password : option pystr;
  register_ : bool;
  view : view_choice;
  keyfile : option pystr;
  plaintext : bool;
  tls : bool;
  cacert : pystr;
  server_hostname : pystr;
  quiet : bool;
}.

Definition default_namespace : namespace :=
  mkNamespace DEFAULT_HOST DEFAULT_PORT None None false ConsoleChoice None false false (&"dev.crt")
    (&"localhost") false.

(** One option.  A port that is no integer and a view that is neither of the two end
    the program with status 2. *)
Definition take_option (a : namespace) (g : given) : res namespace :=
  let '(mkNamespace h p u w r v k pl t c n q) := a in
  match g with
  | GivenHost x => Ok (mkNamespace x p u w r v k pl t c n q)
  | GivenPort x =>
    match int_of_str x with
    | Ok p => Ok (mkNamespace h p u w r v k pl t c n q)
    | Raise ValueError => Raise (SystemExit 2)
    | Raise e => Raise e
    end
  | GivenUser x => Ok (mkNamespace h p (Some x) w r v k pl t c n q)
  | GivenPassword x => Ok (mkNamespace h p u (Some x) r v k pl t c n q)
  | GivenRegister => Ok (mkNamespace h p u w true v k pl t c n q)
  | GivenView x =>
    if decide (x = &"console") then Ok (mkNamespace h p u w r ConsoleChoice k pl t c n q)
    else if decide (x = &"tk") then Ok (mkNamespace h p u w r TkChoice k pl t c n q)
    else Raise (SystemExit 2)
  | GivenKeyfile x => Ok (mkNamespace h p u w r v (Some x) pl t c n q)
  | GivenPlaintext => Ok (mkNamespace h p u w r v k true t c n q)
  | GivenTls => Ok (mkNamespace h p u w r v k pl true c n q)
  | GivenCacert x => Ok (mkNamespace h p u w r v k pl t x n q)
  | GivenServerHostname x => Ok (mkNamespace h p u w r v k pl t c x q)
  | GivenQuiet => Ok (mkNamespace h p u w r v k pl t c n true)
  end.

Definition parse_args (argv : list given) : res namespace :=
  foldl (λ r g, a ← r; take_option a g) (Ok default_namespace) argv.

(** [value or ask()], for an option that is [None] when it is not given. *)
Definition or_ask (value : option pystr) (answer : res pystr) : res pystr :=
  match value with Some ((_ :: _) as x) => Ok x | _ => answer end.

(** ** Views *)

(** A view: its constructor, the controller it holds, a call made on that controller
    while the view listens to the model, and its loop on what the inbox brings. *)
Class Face (V : Type) := {
  fc_input : Type;
  fc_new : controller link → V;
  fc_controller : V → controller link;
  fc_set_controller : controller link → V → V;
  fc_tell : M (controller link) unit → M V unit;
  fc_run : list fc_input → M V unit;
}.

Section faces.
Context `{Runtime} `{Crypto} `{Casing}.

(** The console's loop reports what is raised in it. *)
#[export] Instance console_face (listener : nat) : Face (Console.view link) := {
  fc_new := Console.new_view listener;
  fc_controller := Console.vw_controller;
  fc_set_controller := Console.set_controller;
  fc_tell := Console.ctl listener;
  fc_run inbox v := (Console.run listener inbox v, Ok tt);
}.

(** What is raised in a callback of the window is reported too, but not what is raised
    by the first painting. *)
#[export] Instance window_face `{Display} `{Clock} `{Metrics} `{TkWindow.Reports} (listener : nat) :
    Face (TkWindow.window link) := {
  fc_new := TkWindow.new_window listener;
  fc_controller := TkWindow.wn_controller;
  fc_set_controller := TkWindow.with_controller;
  fc_tell := TkWindow.ctl listener;
  fc_run happenings := TkWindow.run;; modify (TkWindow.happen_all listener happenings);
}.
End faces.

(** A controller put into a view is the controller of the view, a new view changes
    nothing about the connection, and a view does nothing to it but send. *)
Class FaceLaws (V : Type) `{Runtime} `{Face V} := {
  law_new c : ct_connection (fc_controller (fc_new (V := V) c)) = ct_connection c;
  law_face c (v : V) : fc_controller (fc_set_controller c v) = c;
  law_tell m : uses ct_connection m → uses (λ v : V, ct_connection (fc_controller v)) (fc_tell m);
  law_run inputs : uses (λ v : V, ct_connection (fc_controller v)) (fc_run inputs);
}.

#[export] Instance console_face_laws `{Runtime} `{Crypto} `{Casing} listener :
  @FaceLaws _ _ (console_face listener).
Proof.
  split; [done|done|intros m Hm; by apply console_ctl|]. intros inbox v. apply console_run.
Qed.

#[export] Instance window_face_laws `{Runtime} `{Crypto} `{Casing} `{Display} `{Clock} `{Metrics}
    `{TkWindow.Reports} listener : @FaceLaws _ _ (window_face listener).
Proof.
  split; [done|done|intros m Hm; by apply window_ctl|]. intros happenings. apply window_run.
Qed.

(** ** main *)

(** What the user answers; [input] and [getpass] raise at the end of the input. *)
Record answers := mkAnswers { an_username : res pystr; an_password : res pystr }.

(** What the network does: during the login, for the registration before it, and to a
    queue that is full later. *)
Record network := mkNetwork {
  nw_attempt : attempt;
  nw_registered : list arrival;
  nw_meanwhile : option sending;
}.

Section main.
Context `{Runtime} `{Crypto} `{Digest} `{X509} `{TkWindow.Reports} {V : Type} `{Face V}.

Definition credentials (a : namespace) (an : answers) : res (pystr * pystr) :=
  username ← or_ask (user a) (strip <$> an_username an);
  password ← or_ask (password a) (an_password an);
  digest ← hash_password password;
  Ok (username, digest).

Definition key_path (a : namespace) (username : pystr) : pystr :=
  match keyfile a with Some ((_ :: _) as path) => path | _ => &"keys/" ++ username ++ &".key" end.

Definition make_keyring (draw : nat) (chmod : bool) (a : namespace) (username : pystr)
    : M files (option Keyring) :=
  if plaintext a then mret None
  else identity ← Identity.load_or_create draw chmod (key_path a username);
       mret (Some (new_keyring identity [])).

Definition make_context (a : namespace) : M files (option context) :=
  if tls a then fs ← get; cx ← lift_res (client_context (Some (cacert a)) fs); mret (Some cx)
  else mret None.

Definition make_view (username : pystr) (net : network) (ring : option Keyring) : V :=
  fc_new (new_controller (mkLink (new_session username default_backoff) (nw_meanwhile net) []) ring).

(** Everything before the view; [available] says whether the view that was chosen can
    be imported. *)
Definition main_begin (draw : nat) (chmod : bool) (argv : list given) (an : answers) (net : network)
    (available : bool) : M files (namespace * pystr * option context * option Keyring * V) :=
  a ← lift_res (parse_args argv);
  c ← lift_res (credentials a an);
  let '(username, digest) := c in
  ring ← make_keyring draw chmod a username;
  cx ← make_context a;
  if available then mret (a, digest, cx, ring, make_view username net ring) else raise (SystemExit 1).

Definition view_session (v : V) : session := lk_session (ct_connection (fc_controller v)).

Definition on_session (f : session → session) (v : V) : V :=
  let c := fc_controller v in
  let l := ct_connection c in
  fc_set_controller (Controller.with_connection (mkLink (f (lk_session l)) (lk_meanwhile l) (lk_log l)) c) v.

(** The frames of the handshake; [n] counts the identifiers drawn so far. *)
Definition handshake_frames (n : nat) (a : namespace) (username digest : pystr) (ring : option Keyring)
    (net : network) : option (Frame * list arrival) * Frame :=
  (if register_ a
   then Some (register_request (rt_uuid n) (rt_now n) username digest (public_b64 <$> ring), nw_registered net)
   else None,
   login_request (rt_uuid (S n)) (rt_now (S n)) username digest).

(** The rest of [main]: what it prints, and its status.  [inputs] is what the loop of
    the view gets. *)
Definition main_end (n : nat) (a : namespace) (digest : pystr) (ring : option Keyring)
    (net : network) (inputs : list fc_input) (v : V) : V * list pystr * res Z :=
  let s := view_session v in
  let '(reg, request) := handshake_frames n a (ss_username s) digest ring net in
  let '(s, r) := start reg request (nw_attempt net) s in
  let v := on_session (λ _, s) v in
  match r with
  | Raise ConnectionError => (v, [&"  ! " ++ TkWindow.rp_text ConnectionError], Ok 1%Z)
  | Raise e => (v, [], Raise e)
  | Ok reply =>
    if is_error reply then (v, [&"  ! " ++ py_str (jget (f_data reply) (&"message"))], Ok 1%Z)
    else
      let '(v, r) := (fc_tell (on_frame reply);;
                      fc_tell (on_state (state_value (session_state s)));;
                      fc_run inputs) v in
      let v := on_session close_session v in
      match r with
      | Ok _ => (v, [&"
  bye"], Ok 0%Z)
      | Raise e => (v, [], Raise e)
      end
  end.

Definition BANNER : pystr := &"Semaphore -- client " ++ VERSION.

(** The whole program: the files it leaves, the view (if it got as far), what was
    printed, and the status or the exception that ends it. *)
Definition main (draw n : nat) (chmod : bool) (argv : list given) (an : answers) (net : network)
    (available : bool) (inputs : list fc_input) (fs : files)
    : files * (option V * list pystr * res Z) :=
  match parse_args argv with
  | Raise e => (fs, (None, [], Raise e))
  | Ok _ =>
    match main_begin draw chmod argv an net available fs with
    | (fs, Raise e) => (fs, (None, [BANNER], Raise e))
    | (fs, Ok (a, digest, cx, ring, v)) =>
      let '(v, ps, r) := main_end n a digest ring net inputs v in
      (fs, (Some v, BANNER :: ps, r))
    end
  end.

Context `{!FaceLaws V}.

Lemma on_session_session f (v : V) : view_session (on_session f v) = f (view_session v).
Proof. unfold view_session, on_session. by rewrite law_face. Qed.

(** Whatever the view does, the connection it started with is still the session's. *)
Lemma view_holds gone (m : M V unit) v :
  uses (λ v, ct_connection (fc_controller v)) m →
  holding gone (view_session v) → holding gone (view_session (m v).1).
Proof.
  intros Hm. apply (sent_on_keeps (λ l, holding gone (lk_session l)) _ _
    (λ f z, up_send_holding gone f z) (Hm v)).
Qed.

(** How a session is left: it holds no connection, it will not dial again, and the only
    connection it built is hung up, unless no socket was ever opened or the program
    is ending with an exception that was raised while [start] still had it. *)
Definition let_go_of (net : network) (s : session) (ending : res Z) : Prop :=
  ss_connection s = None ∧ (ss_supervisor s = None ∨ ss_stopped s = true) ∧
  ∃ c, ss_gone s = [c] ∧
    (hung_up c ∨ (at_dial (nw_attempt net) ≠ Reached ∧ cn_open c = false) ∨
     (ss_supervisor s = None ∧ cn_closing c = false ∧ cn_open c = true ∧ ∃ e, ending = Raise e)).

Lemma main_end_hangs_up n a digest ring net inputs (v : V) username :
  view_session v = new_session username default_backoff →
  let_go_of net (view_session (main_end n a digest ring net inputs v).1.1)
    (main_end n a digest ring net inputs v).2.
Proof.
  intros Hv. unfold main_end. rewrite Hv. destruct (handshake_frames _ _ _ _ _ _) as [reg request].
  pose proof (start_connection reg request (nw_attempt net) (new_session username default_backoff)) as Hs.
  pose proof (start_unreachable reg request (nw_attempt net) (new_session username default_backoff)) as Hr.
  destruct (start reg request (nw_attempt net) _) as [s1 [reply|e]].
  - destruct (is_error reply) eqn:Ee; [destruct Hs as (c & -> & Hc)|destruct Hs as (c & Hc & ->)].
    { cbn [fst snd]. rewrite on_session_session. split_and!; [done|by left|]. exists c. by split; [|left]. }
    set (s1 := _start_supervisor _). set (v1 := on_session _ v).
    assert (holding [] (view_session v1)) as Hh.
    { unfold v1. rewrite on_session_session. split; [done|]. exists c. by split; [|left]. }
    assert (uses (λ v : V, ct_connection (fc_controller v)) (fc_tell (on_frame reply);;
        fc_tell (on_state (state_value (session_state s1)));; fc_run inputs)) as Hu.
    { apply uses_bind; [apply law_tell, calls_on_frame|intros]. apply uses_bind; [|intros; apply law_run].
      apply law_tell, calls_on_state. }
    pose proof (view_holds [] _ v1 Hu Hh) as Hend. fold s1 v1.
    match type of Hend with context [?m v1] => destruct (m v1) as [v2 r] end.
    destruct (close_session_hangs_up [] _ Hend) as (c' & Hgone & Hup & Hnone & Hstop).
    destruct r as [[]|e]; cbn [fst snd]; rewrite on_session_session;
      (split_and!; [exact Hnone|by right|]; exists c'; by split; [|left]).
  - destruct Hs as (c & -> & Hc & Ho). set (s1 := let_go c _).
    assert (let_go_of net s1 (match e with ConnectionError => Ok 1%Z | e => Raise e end)) as Hend.
    { split_and!; [done|by left|]. exists c. split; [done|]. right.
      destruct (decide (at_dial (nw_attempt net) = Reached)) as [Hd|Hd]; [right|left].
      - rewrite bool_decide_true in Ho by done. split_and!; [done..|].
        specialize (Hr Hd). cbn in Hr. destruct e; first [congruence | eexists; reflexivity].
      - by rewrite bool_decide_false in Ho. }
    destruct e; cbn [fst snd]; rewrite on_session_session; exact Hend.
Qed.

(** C9. When the program ends, the connection its login was made on is hung up.  On
    every command line, with any answers, any network during the login and
    anything that happens to the view until its loop ends, also by an exception:
    the session holds no connection then, its supervisor never ran or was told to
    stop, and the one connection that the session built was closed, its machine
    CLOSED and its socket shut, whether the login was refused or accepted.  Two
    cases remain: the server was never reached, and then no socket was opened; and
    the source's own leak, when [start] itself raised after the server was
    reached (no answer in time, or the connection lost): then the program ends
    with that exception and the connection is left open.  (The supervisor has no
    outage to deal with in these runs; what happens when the program ends while
    it is dialling is [SessionFacts.closed_while_dialling].) *)
Theorem main_hangs_up (draw n : nat) (chmod : bool) (argv : list given) (an : answers) (net : network)
    (available : bool) (inputs : list fc_input) (fs : files) (v : V)
    (Hview : (main draw n chmod argv an net available inputs fs).2.1.1 = Some v) :
  let_go_of net (view_session v) (main draw n chmod argv an net available inputs fs).2.2.
Proof.
  revert Hview. unfold main. destruct (parse_args argv) as [a0|e] eqn:Ea; [|done].
  destruct (main_begin draw chmod argv an net available fs) as [fs1 [[[[[a digest] cx] ring] v0]|e]] eqn:E; [|done].
  assert (∃ username, v0 = make_view username net ring) as (username & ->).
  { unfold main_begin in E. apply bind_Ok in E as (? & a1 & _ & E).
    apply bind_Ok in E as (? & [username d] & _ & E). apply bind_Ok in E as (? & ring1 & _ & E).
    apply bind_Ok in E as (? & cx1 & _ & E). exists username.
    destruct available; [|done]. by injection E as _ _ _ _ -> <-. }
  pose proof (main_end_hangs_up n a digest ring net inputs (make_view username net ring) username) as Hend.
  destruct (main_end n a digest ring net inputs _) as [[v1 ps] r]. intros [= <-]. apply Hend.
  unfold view_session, make_view. by rewrite law_new.
Qed.

(** Of the ways in which the first login can fail, [main] reports only one.  A
    server that cannot be reached ends with a message and status 1; but one that
    does not answer, and one that hangs up during the handshake, end the program
    with an exception that nothing catches: a TimeoutError is not a
    ConnectionError, and NotConnected is not one either. *)
Theorem unanswered_login_escapes (n : nat) (a : namespace) (digest : pystr) (ring : option Keyring)
    (net : network) (inputs : list fc_input) (v : V) (Hreg : register_ a = false) :
  let ending att := main_end n a digest ring (mkNetwork att (nw_registered net) (nw_meanwhile net)) inputs v in
  (ending (mkAttempt Unreachable [])).2 = Ok 1%Z ∧
  (ending (mkAttempt TlsFailed [])).2 = Ok 1%Z ∧
  (ending (mkAttempt Reached [])).2 = Raise TimeoutError ∧
  (ending (mkAttempt Reached [Lost])).2 = Raise NotConnected.
Proof.
  cbv zeta. unfold main_end, handshake_frames. rewrite Hreg. cbn [nw_attempt].
  split_and!; reflexivity.
Qed.

(** C15. The key of a user is made once.  When [main] has made or read the key file of
    somebody, then it reads the same key at every later start, whatever else has
    been put on the disk, as long as that file is left alone. *)
Theorem identity_survives (draw draw' : nat) (chmod chmod' : bool) (a a' : namespace)
    (username : pystr) (fs fs' later : files) (r : Keyring)
    (Hlength : ∀ n, length (cr_generate n) = 32)
    (Hring : make_keyring draw chmod a username fs = (fs', Ok (Some r)))
    (Hflag : plaintext a' = false) (Hpath : key_path a' username = key_path a username)
    (Hkept : fs_files later !! key_path a username = fs_files fs' !! key_path a username) :
  make_keyring draw' chmod' a' username later = (later, Ok (Some r)) ∧
  length (Identity.private (kr_identity r)) = 32.
Proof.
  assert (∃ i, r = new_keyring i [] ∧ length (Identity.private i) = 32 ∧
    fs_files fs' !! key_path a username = Some (Identity.private i)) as (i & -> & Hl & Hk).
  { revert Hring. unfold make_keyring. destruct (plaintext a); [done|].
    intros (fs1 & i & Hi & [= <- <-])%bind_Ok. exists i. split; [done|]. revert Hi.
    unfold Identity.load_or_create. intros (fs2 & _ & [= <- <-] & Hi)%bind_Ok. revert Hi.
    case_decide.
    - unfold lift_res. destruct (Identity.load _ fs) as [j|e] eqn:Ej; [|done].
      intros [= <- <-]. by apply Identity.load_run in Ej as [? ?].
    - cbv zeta. intros (fs3 & [] & [Hs _]%Identity.save_run & [= <- <-])%bind_Ok.
      rewrite Hs, lookup_insert_eq. split; [apply Hlength|done]. }
  split; [|exact Hl]. rewrite Hk, <-Hpath in Hkept.
  unfold make_keyring. rewrite Hflag. unfold Identity.load_or_create, mbind, M_bind, get.
  rewrite decide_True by (left; by eexists).
  unfold lift_res. by rewrite (Identity.load_kept i).
Qed.
End main.

(** ** alice starts the console and leaves *)

Definition plain_digest : Digest := {| sha256_hex := b64 |}.
Definition plain_reports : TkWindow.Reports := {| TkWindow.rp_text e := &"connection refused" |}.

Abbreviation start_console := (@main plain_runtime toy_crypto plain_digest toy_x509 plain_reports
  (Console.view link) (@console_face plain_runtime toy_crypto ascii_casing 0)).

Definition alices_line : list given :=
  [GivenUser (&"alice"); GivenPassword (&"secret"); GivenKeyfile (&"alice.key")].

Definition welcome : network :=
  mkNetwork (mkAttempt Reached
    [Delivered (data_frame Frames.LOGIN_OK JNull [(&"user", JStr (&"alice"))] (&"l") 1)]) [] None.

Definition quits : list Console.entry :=
  [Console.PostedState (&"ONLINE"); Console.PostedInput (&"/who"); Console.PostedInput (&"/quit")].

Definition one_session := start_console 0 0 true alices_line (mkAnswers (Raise EOFError) (Raise EOFError))
  welcome true quits bare_disk.

Example one_session_runs :
  one_session.2.1.2 = [&"Semaphore -- client 0.1.0"; &"
  bye"] ∧ one_session.2.2 = Ok 0%Z ∧
  (λ v, cm_username (ct_model (Console.vw_controller v))) <$> one_session.2.1.1 = Some (Some (&"alice")) ∧
  is_file one_session.1 (&"alice.key").
Proof. split_and!; [vm_compute; reflexivity..|by eexists]. Qed.

Lemma main_hangs_up_witness :
  ∃ v c, one_session.2.1.1 = Some v ∧
    ss_connection (@view_session _ (@console_face plain_runtime toy_crypto ascii_casing 0) v) = None ∧
    ss_gone (@view_session _ (@console_face plain_runtime toy_crypto ascii_casing 0) v) = [c] ∧ hung_up c.
Proof.
  destruct one_session.2.1.1 as [v|] eqn:E; [|vm_compute in E; discriminate].
  destruct (@main_hangs_up plain_runtime toy_crypto plain_digest toy_x509 plain_reports
    (Console.view link) (@console_face plain_runtime toy_crypto ascii_casing 0) _
    0 0 true alices_line (mkAnswers (Raise EOFError) (Raise EOFError)) welcome true quits bare_disk v E)
    as (Hc & _ & c & Hgone & [Hup|[[Hd _]|(_ & _ & _ & e & He)]]).
  - exists v, c. split_and!; [done|exact Hc|exact Hgone|exact Hup].
  - by destruct Hd.
  - vm_compute in He. discriminate.
Defined.

Lemma unanswered_login_escapes_witness :
  (@main_end plain_runtime toy_crypto plain_reports (Console.view link)
     (@console_face plain_runtime toy_crypto ascii_casing 0) 0 default_namespace [] None
     (mkNetwork (mkAttempt Reached []) [] None) []
     (@make_view (Console.view link) (@console_face plain_runtime toy_crypto ascii_casing 0) (&"alice") welcome None)).2
  = Raise TimeoutError.
Proof.
  destruct (@unanswered_login_escapes plain_runtime toy_crypto plain_reports (Console.view link)
    (@console_face plain_runtime toy_crypto ascii_casing 0) 0 default_namespace [] None
    (mkNetwork (mkAttempt Reached []) [] None) []
    (@make_view (Console.view link) (@console_face plain_runtime toy_crypto ascii_casing 0) (&"alice") welcome None)
    eq_refl) as (_ & _ & H & _).
  exact H.
Defined.

Lemma identity_survives_witness :
  ∃ r, (@make_keyring toy_crypto 0 true default_namespace (&"alice") bare_disk).2 = Ok (Some r) ∧
    (@make_keyring toy_crypto 1 true default_namespace (&"alice")
      (@make_keyring toy_crypto 0 true default_namespace (&"alice") bare_disk).1).2 = Ok (Some r).
Proof.
  eexists. split; [vm_compute; reflexivity|].
  destruct (@identity_survives toy_crypto 0 1 true true default_namespace default_namespace (&"alice")
    bare_disk (@make_keyring toy_crypto 0 true default_namespace (&"alice") bare_disk).1
    (@make_keyring toy_crypto 0 true default_namespace (&"alice") bare_disk).1
    (new_keyring (Identity.mk (cr_generate (Crypto := toy_crypto) 0)) [])) as [H _].
  - intros n. vm_compute. reflexivity.
  - vm_compute. reflexivity.
  - reflexivity.
  - reflexivity.
  - reflexivity.
  - rewrite H. vm_compute. reflexivity.
Defined.
